(* ===== verification/_CoqProject ===== *)
-Q . S2P
Prelude.v
BitUtil.v
Unpack.v
BitPacking.v
BitReader.v
BitReaderProps.v
BitWriter.v
Vector.v
Hybrid.v
Levels.v
DecoderLaws.v
LevelProps.v
Values.v
ValueProps.v
ColumnReader.v
ColumnProps.v
ColumnCorrect.v
Murmur3.v
HashArrays.v
Lists.v
RadixSort.v
Partition.v
ShuffleCodec.v
ShuffleCodecProps.v
Shuffle.v
ShuffleProps.v
ShuffleCorrect.v
ShuffleTheorems.v
BloomFilter.v
BloomFilterProps.v
MemoryPools.v
MemoryPoolsProps.v
UnsafeRow.v
RowColumns.v
RowFormat.v
RowProps.v
RowAppend.v
SortedRows.v
SortedRowsProps.v
Casts.v
CastProps.v
DateProps.v
Calendar.v
Exprs.v
CastTypes.v
CastFloats.v
CastFloatProps.v
Temporal.v
TemporalProps.v
TimestampParser.v
TimestampProps.v
CastArrays.v
CastArrayProps.v
CastSupport.v
ChronoModel.v
CastModel.v
Rounding.v
DecimalAgg.v
DecimalAggProps.v
Arithmetic.v
ArithmeticProps.v
HexFns.v
HexProps.v
Nondet.v
NondetProps.v
ArrayFns.v
ArrayProps.v
StringFns.v
StringProps.v
Operators.v
OperatorsProps.v
CopyArrays.v
