(* ===== verification/Prelude.v ===== *)
(** Verification of the native engine of Apache DataFusion Comet.

    Comet runs the operators of Spark queries in a native library written in Rust
    (src/native) behind a Spark plugin (src/spark, src/common).  This library models the
    parts of the native code that transform data by hand: the Parquet column reader, the
    hash functions, the native shuffle, the conversion of rows to columns, casts, arithmetic,
    array and string functions, decimal aggregates, random numbers, Bloom filters, the
    operators that exchange batches with the JVM and the loop that runs them, and the memory
    pools, with the JVM classes at the other end of the shuffle files and of the memory
    accounting.

    * Conventions

    A w-bit integer is a [Z] in range, with the wrap-around of the release build written out
    ([wrap], [swrap], [u32], [i64], ..., shifts modulo the width in [shl] and [shr]); bytes are
    [Z] below 256 and memory is little-endian.  A Rust slice or Vec is a list; an index or
    slice out of range, a failed [unwrap] or [assert!], an [Err] and a Java exception are
    [None] of the option monad, so that a theorem which concludes [Some] also shows that no
    panic and no access out of bounds happens.  [debug_assert!] is absent, as in the release
    build.  Loops whose bound is not structural take fuel; the bound is computed from the
    input next to the loop and the theorems show that it suffices, except where the code
    itself does not terminate.  The expression files use [Result], with an error value and
    [Panic], in place of option, so that errors are told apart.  Third-party code is an argument: a type class of operations
    with a class of laws stating its documented behaviour ([Arrow]/[ArrowLaws] for record
    batches and Arrow IPC, [take_spec] for the take kernel, [ArityKernels]/[ArityLaws] for the
    element-wise kernels, [CopyOps]/[CopyLaws] for copies of arrays,
    [Chrono]/[ChronoLaws] and [ZoneParse]/[ZoneParseLaws] for dates and time zones,
    [CastKernels]/[CastKernelLaws] for the cast and take kernels, [FloatText]/[FloatTextLaws] for the
    digits of floats), or an oracle ([grant] for the
    answers of the memory pool to a shuffle writer, the granted amount for Spark's memory
    manager).  Each law class has an instance, used by the witnesses.

    * Parquet column reader (src/native/core/src/common, src/native/core/src/parquet)

    - [Prelude]: words, bit fields ([bits]), byte strings, tactics, hint databases.
    - [BitUtil]: the free functions of common/bit.rs (integer reads and copies, bit sets).
    - [Unpack], [BitPacking]: util/bit_packing.rs.  The 32 unrolled kernels are transcribed
      statement by statement into a small imperative language; a symbolic executor, proved
      sound once, computes what each kernel stores, and [unpack32_correct] concludes for all.
    - [BitReader], [BitReaderProps]: [BitReader] of common/bit.rs with its 64-bit window,
      refined to an abstract stream of bits: value, batch, bitmap and skip operations.
    - [BitWriter]: [BitWriter] of common/bit.rs and its round trips with the reader.
    - [Vector]: CometBuffer and ParquetMutableVector.
    - [Hybrid], [Levels], [LevelProps]: the RLE/bit-packed encoding of the format, and
      read/levels.rs, generic over the trait [Decoder] of read/values.rs; [DecoderLaws] states
      what the level decoder needs of a value decoder, [Values] has every PLAIN decoder and
      the dictionary decoder, [ValueProps] proves the laws for them.
    - [ColumnReader], [ColumnProps], [ColumnCorrect]: read/column.rs.  A page of a flat column
      of fixed width, decimals apart, read by any sequence of reads and skips yields the column
      its levels and values describe.  On truncated levels the loops run any number of rounds
      ([read_round], [skip_round]) without a panic and without progress.

    * Hashing (src/native/spark-expr/src/hash_funcs)

    - [Murmur3]: the 32-bit hash and its injectivity; [HashArrays]: hashing of columns with
      nulls and dictionaries, equal to a fold over the cells of each row; a dictionary in the
      first column is hashed from the seed 42.

    * Shuffle (src/native/core/src/execution: sort.rs, shuffle/)

    - [Lists], [RadixSort]: [rdxsort] is a stable sort by partition id.
    - [Partition]: [pmod], the search for range bounds and the counting sort of row indices.
    - [ShuffleCodec], [ShuffleCodecProps]: the block format, from [ShuffleBlockWriter] and
      [BufBatchWriter] to NativeBatchDecoderIterator.scala.
    - [Shuffle], [ShuffleProps], [ShuffleCorrect], [ShuffleTheorems]: both repartitioners of
      shuffle_writer.rs, with spilling, the data and index files, and the reading of the index
      in CometNativeShuffleWriter.scala.  The theorems go from the input batches to the rows
      each reader gets, for every pattern of spills.

    * Rows (src/native/core/src/execution/shuffle: row.rs, list.rs, map.rs, codec.rs)

    - [UnsafeRow]: the readers of Spark's binary rows, arrays and maps over a byte memory;
      [RowColumns]: the append functions, builders and columns, with the types of the builders
      checked as the code's downcasts do; [SortedRows]: [process_sorted_row_partition], with
      batches, dictionaries and checksums.
    - [RowFormat]: the layout Spark writes, as a predicate on memory.  [RowProps], [RowAppend]
      and [SortedRowsProps] go from that layout through the readers, the builders and the
      block codec to the rows the reader of the shuffle file gets, for nested types.

    * Expressions and aggregates (src/native/spark-expr/src)

    - [Casts], [CastProps], [DateProps] (conversion_funcs/cast.rs): casts of strings, integers
      and decimals to integers, of strings to booleans and dates, in the three evaluation modes.
      Each parser equals a grammar with unbounded integers.
    - [CastFloats], [CastFloatProps]: casts of floats, given by their bits, to integers, strings
      and decimals.  An integer is the float without its fraction; a string has the form of Java.
    - [TimestampParser], [TimestampProps]: casts of strings to timestamps.  The patterns of the
      parser are the grammar [stamp]; an ordinary string (ASCII digits, no or six digits of a
      fraction) is read as the only instant at which the clocks of the zone show it, and
      [reads] tells what becomes of the others.
    - [CastTypes], [CastArrays]: the tables of supported casts and [cast_array] over columns,
      dictionaries and structs, by recursion on fuel.  [CastArrayProps]: results have the type
      [result_type], the target type but for dictionary keys and timestamps made from strings.
      [CastSupport]: what [cast_supported] accepts is not rejected at any depth, except for
      [cast_gap], with three steps of fuel more than the nesting of the array; casts to
      dictionaries of other values than strings, binary values and timestamps do not end for
      any fuel.  [CastModel]: kernels that satisfy the laws.
    - [DecimalAgg], [DecimalAggProps]: decimal sums and averages, with and without groups.
      The grouped accumulators are exact or null; the ones without groups lose overflows that
      are not the last value of a batch.
    - [Calendar], [Temporal], [TemporalProps], [ChronoModel] (datetime_funcs, kernels/temporal.rs,
      utils.rs): truncation of dates and timestamps to a unit, the shifts between local and UTC
      time, extraction of fields.  The calendar and the zones of chrono are the class [Chrono]
      with laws [ChronoLaws]; [Calendar] defines the civil calendar the laws refer to.  A result
      is the latest start of a unit that is not after the value, on the local clock of the zone,
      where the clock does not change and repeats no time in between.
    - [Exprs]: columns, scalars, errors and Arrow kernels the functions share; [Rounding]:
      rounding half up.
    - [Arithmetic], [ArithmeticProps] (math_funcs): decimal division, rounding, ceil and
      floor, checked integer arithmetic, negation, the overflow check and the conversions
      between decimals and longs.  Results are the exact ones rounded once; failures are
      exactly the results that do not fit.
    - [HexFns], [HexProps] (math_funcs/hex.rs, unhex.rs): the round trip of the encoders.
    - [ArrayFns], [ArrayProps] (array_funcs): insertion, extraction, repetition and struct
      fields over list arrays with their offsets and nulls.
    - [StringFns], [StringProps] (static_invoke, string_funcs, kernels/strings.rs): padding,
      [string_space] and the dispatch of [substring].
    - [Nondet], [NondetProps] (nondetermenistic_funcs): the generators of rand and randn and
      the id counter; the values do not depend on how rows are cut into batches.  The
      rejection loop of randn takes fuel, as no bound on it exists.

    * Operators (src/native/core/src/execution: operators/, jni_api.rs)

    - [Operators], [OperatorsProps]: the streams of scan, copy and expand, the feeding of the
      scan and the polling loop of [executePlan].  A plan of these operators over a JVM
      iterator delivers the batches it describes and ends, two polls per call at most.
    - [CopyArrays]: [copy_array] and [copy_or_unpack_array] over a heap of shared buffers;
      copies of plain arrays and of dictionaries of them survive the reuse of the JVM's buffers.

    * Bloom filters (src/native/spark-expr/src/bloom_filter)

    - [BloomFilter], [BloomFilterProps]: no false negatives from aggregation over
      serialization to query, exact merging of partial filters.

    * Memory (src/native/core/src/execution/memory_pools)

    - [MemoryPools], [MemoryPoolsProps]: the fair and the unified pool over
      CometTaskMemoryManager.java as a transition system of consumers, and the table of pools
      shared by the plans of a task, as one of plans whose creation or release may fail half
      way.  Accounting, limits and sharing hold in every reachable state, and everything lent
      can be given back from each; a creation that fails keeps its count.

    * Not modelled

    The FFI structures and JNI calls, the planner, the operators that only call DataFusion or
    Arrow, file and object-store access, metrics and tracing, the Spark plugin, the aggregates in
    floating point, and the parsing of time zone names (done by the chrono crates).  In the modelled files: the
    constant-column setters and the type dispatch of the column reader, the interval analysis of NegativeExpr, the number of hash
    functions of a Bloom filter, and the test that decides for a dictionary array, which are
    arguments because they are computed in floating point.  Plans with several scans are not
    covered by the theorem on plans: the operators that join them are DataFusion's. *)

From Stdlib Require Export ZifyNat.
From stdpp Require Export prelude gmap list list_numbers numbers.
Open Scope Z_scope.

(** * Tactics shared by the development *)

(** Splits on every integer comparison a boolean goal still contains. *)
Ltac case_ltb :=
  repeat match goal with
    | |- context [Z.ltb ?a ?b] => destruct (Z.ltb_spec a b)
    | |- context [Z.leb ?a ?b] => destruct (Z.leb_spec a b)
    | |- context [Z.eqb ?a ?b] => destruct (Z.eqb_spec a b)
    | |- context [Nat.ltb ?a ?b] => destruct (Nat.ltb_spec a b)
    | |- context [Nat.leb ?a ?b] => destruct (Nat.leb_spec a b)
    | |- context [Nat.eqb ?a ?b] => destruct (Nat.eqb_spec a b)
    end.

(** The same, dropping the contradictory cases as it goes. *)
Ltac prune_cases :=
  repeat match goal with
    | |- context [Z.ltb ?a ?b] => destruct (Z.ltb_spec a b); try (exfalso; lia)
    | |- context [Z.leb ?a ?b] => destruct (Z.leb_spec a b); try (exfalso; lia)
    | |- context [Z.eqb ?a ?b] => destruct (Z.eqb_spec a b); try (exfalso; lia)
    | |- context [Nat.ltb ?a ?b] => destruct (Nat.ltb_spec a b); try (exfalso; lia)
    | |- context [Nat.leb ?a ?b] => destruct (Nat.leb_spec a b); try (exfalso; lia)
    | |- context [Nat.eqb ?a ?b] => destruct (Nat.eqb_spec a b); try (exfalso; lia)
    end; cbn [andb orb negb].

Ltac case_ltb_in H :=
  repeat match type of H with
    | context [Z.ltb ?a ?b] => destruct (Z.ltb_spec a b)
    | context [Z.leb ?a ?b] => destruct (Z.leb_spec a b)
    | context [Z.eqb ?a ?b] => destruct (Z.eqb_spec a b)
    | context [Nat.ltb ?a ?b] => destruct (Nat.ltb_spec a b)
    | context [Nat.leb ?a ?b] => destruct (Nat.leb_spec a b)
    | context [Nat.eqb ?a ?b] => destruct (Nat.eqb_spec a b)
    end.


(** Resolves every comparison of the goal whose outcome [lia] knows. *)
Ltac simp_tests :=
  repeat (match goal with
    | |- context [Nat.ltb ?a ?b] =>
        first [rewrite (proj2 (Nat.ltb_lt a b)) by lia | rewrite (proj2 (Nat.ltb_ge a b)) by lia]
    | |- context [Nat.leb ?a ?b] =>
        first [rewrite (proj2 (Nat.leb_le a b)) by lia | rewrite (proj2 (Nat.leb_gt a b)) by lia]
    | |- context [Nat.eqb ?a ?b] =>
        first [rewrite (proj2 (Nat.eqb_eq a b)) by lia | rewrite (proj2 (Nat.eqb_neq a b)) by lia]
    | |- context [Z.ltb ?a ?b] =>
        first [rewrite (proj2 (Z.ltb_lt a b)) by lia | rewrite (proj2 (Z.ltb_ge a b)) by lia]
    | |- context [Z.leb ?a ?b] =>
        first [rewrite (proj2 (Z.leb_le a b)) by lia | rewrite (proj2 (Z.leb_gt a b)) by lia]
    | |- context [Z.eqb ?a ?b] =>
        first [rewrite (proj2 (Z.eqb_eq a b)) by lia | rewrite (proj2 (Z.eqb_neq a b)) by lia]
    end; cbn [andb orb negb mbind option_bind]).

(** * Machine words

    A [w]-bit unsigned integer is a [Z] in [0, 2^w); the crate is built with
    [overflow-checks = false] (src/native/Cargo.toml), so arithmetic wraps and
    the right operand of a shift is reduced modulo the width. *)

Definition wrap (w z : Z) : Z := z `mod` 2 ^ w.

(** [v as iW] of a [W]-bit pattern: the two's-complement reading. *)
Definition swrap (w z : Z) : Z := (z + 2 ^ (w - 1)) `mod` 2 ^ w - 2 ^ (w - 1).

Definition in_u (w z : Z) : Prop := 0 <= z < 2 ^ w.
Definition in_s (w z : Z) : Prop := - 2 ^ (w - 1) <= z < 2 ^ (w - 1).

Abbreviation u8 := (wrap 8).
Abbreviation u32 := (wrap 32).
Abbreviation u64 := (wrap 64).
Abbreviation i32 := (swrap 32).
Abbreviation i64 := (swrap 64).

(** [x << n] and [x >> n] on [w]-bit unsigned integers. *)
Definition shl (w x n : Z) : Z := wrap w (x ≪ (n `mod` w)).
Definition shr (w x n : Z) : Z := x ≫ (n `mod` w).

(** * Bit slices: bits [p .. p+n) of [z], as an [n]-bit number *)

Definition bits (z p n : Z) : Z := (z ≫ p) `mod` 2 ^ n.

Lemma testbit_mod_pow2 a n i :
  0 <= n -> 0 <= i -> Z.testbit (a `mod` 2 ^ n) i = (i <? n) && Z.testbit a i.
Proof.
  intros. destruct (Z.ltb_spec i n).
  - by rewrite Z.mod_pow2_bits_low.
  - by rewrite Z.mod_pow2_bits_high by lia.
Qed.

Lemma bits_spec z p n i :
  0 <= p -> 0 <= n -> 0 <= i ->
  Z.testbit (bits z p n) i = (i <? n) && Z.testbit z (p + i).
Proof.
  intros. unfold bits. rewrite testbit_mod_pow2 by lia.
  by rewrite Z.shiftr_spec, (Z.add_comm i) by lia.
Qed.

Lemma wrap_spec w z i :
  0 <= w -> 0 <= i -> Z.testbit (wrap w z) i = (i <? w) && Z.testbit z i.
Proof. intros. by apply testbit_mod_pow2. Qed.

Lemma testbit_ones_ltb n i :
  0 <= n -> 0 <= i -> Z.testbit (Z.ones n) i = (i <? n).
Proof.
  intros. destruct (Z.ltb_spec i n).
  - apply Z.ones_spec_low; lia.
  - apply Z.ones_spec_high; lia.
Qed.

Lemma pow2_pos n : 0 < 2 ^ n \/ n < 0.
Proof. destruct (Z.lt_ge_cases n 0); [by right|left; apply Z.pow_pos_nonneg; lia]. Qed.

Lemma in_u_testbit w z i : in_u w z -> 0 <= w <= i -> Z.testbit z i = false.
Proof.
  intros [? ?] [? ?]. rewrite <-(Z.mod_small z (2 ^ w)) by lia.
  apply Z.mod_pow2_bits_high. lia.
Qed.

(** The same laws with no condition on the bit index: below zero every bit reads
    as [false]. *)
Lemma bits_total z p n i :
  0 <= p -> 0 <= n ->
  Z.testbit (bits z p n) i = (0 <=? i) && (i <? n) && Z.testbit z (p + i).
Proof.
  intros. destruct (Z.leb_spec 0 i); [by apply bits_spec|by rewrite Z.testbit_neg_r].
Qed.

Lemma mod_pow2_total a n i :
  0 <= n -> Z.testbit (a `mod` 2 ^ n) i = (0 <=? i) && (i <? n) && Z.testbit a i.
Proof.
  intros. destruct (Z.leb_spec 0 i);
    [by apply testbit_mod_pow2|by rewrite Z.testbit_neg_r].
Qed.

Lemma wrap_total w z i :
  0 <= w -> Z.testbit (wrap w z) i = (0 <=? i) && (i <? w) && Z.testbit z i.
Proof. apply mod_pow2_total. Qed.

Lemma shiftr_total a p i :
  0 <= p -> Z.testbit (a ≫ p) i = (0 <=? i) && Z.testbit a (i + p).
Proof.
  intros. destruct (Z.leb_spec 0 i); [by apply Z.shiftr_spec|by rewrite Z.testbit_neg_r].
Qed.

Lemma shiftl_total a p i : 0 <= p -> Z.testbit (a ≪ p) i = Z.testbit a (i - p).
Proof.
  intros. destruct (Z.leb_spec 0 i); [by apply Z.shiftl_spec|].
  by rewrite !Z.testbit_neg_r by lia.
Qed.

Lemma ones_total n i : 0 <= n -> Z.testbit (Z.ones n) i = (0 <=? i) && (i <? n).
Proof.
  intros. destruct (Z.leb_spec 0 i);
    [by apply testbit_ones_ltb|by rewrite Z.testbit_neg_r].
Qed.

Create Rewrite HintDb zbits.
#[export] Hint Rewrite Z.land_spec Z.lor_spec Z.lxor_spec Z.testbit_0_l : zbits.
#[export] Hint Rewrite bits_total mod_pow2_total wrap_total shiftr_total shiftl_total
  ones_total using lia : zbits.

(** Proves an equality of integers bit by bit. *)
Ltac zbits_close :=
  repeat match goal with
    | |- context [Z.testbit ?z ?i] => rewrite (Z.testbit_neg_r z i) by lia
    | H : in_u ?w ?z |- context [Z.testbit ?z ?i] => rewrite (in_u_testbit w z i H) by lia
    end;
  rewrite ?andb_true_l, ?andb_true_r, ?andb_false_l, ?andb_false_r,
    ?orb_false_l, ?orb_false_r;
  try done; try lia; try (f_equal; lia).

Ltac zbits :=
  apply Z.bits_inj'; let i := fresh "i" in let Hi := fresh "Hi" in intros i Hi;
  autorewrite with zbits; case_ltb; cbn [andb orb]; zbits_close.

Lemma bits_range z p n : 0 <= n -> in_u n (bits z p n).
Proof. intros. apply Z.mod_pos_bound. apply Z.pow_pos_nonneg; lia. Qed.

Lemma wrap_range w z : 0 <= w -> in_u w (wrap w z).
Proof. intros. apply Z.mod_pos_bound. apply Z.pow_pos_nonneg; lia. Qed.

Lemma in_u_mono w w' z : w <= w' -> 0 <= w -> in_u w z -> in_u w' z.
Proof.
  intros ? ? [? ?]. split; [done|]. eapply Z.lt_le_trans; [done|]. apply Z.pow_le_mono_r; lia.
Qed.

Lemma in_u_shiftr w z p : 0 <= p -> 0 <= w -> in_u w z -> in_u w (z ≫ p).
Proof.
  intros ? ? [? ?]. rewrite Z.shiftr_div_pow2 by done.
  assert (0 < 2 ^ p) by (apply Z.pow_pos_nonneg; lia). split; [by apply Z.div_pos|].
  eapply Z.le_lt_trans; [|done]. apply Z.div_le_upper_bound; nia.
Qed.

Lemma wrap_small w z : in_u w z -> wrap w z = z.
Proof. intros. by apply Z.mod_small. Qed.

(** Signed readings: determined by the low [w] bits, and vice versa. *)
Lemma swrap_range w z : 0 < w -> in_s w (swrap w z).
Proof.
  intros. unfold in_s, swrap. assert (2 ^ w = 2 * 2 ^ (w - 1)) as Hw
    by (rewrite <-Z.pow_succ_r by lia; f_equal; lia).
  pose proof (Z.mod_pos_bound (z + 2 ^ (w - 1)) (2 ^ w) ltac:(apply Z.pow_pos_nonneg; lia)). lia.
Qed.

Lemma swrap_small w z : 0 < w -> in_s w z -> swrap w z = z.
Proof.
  intros ? [? ?]. unfold swrap. assert (2 ^ w = 2 * 2 ^ (w - 1)) as Hw
    by (rewrite <-Z.pow_succ_r by lia; f_equal; lia).
  rewrite Z.mod_small by lia. lia.
Qed.

Lemma wrap_swrap w z : 0 <= w -> wrap w (swrap w z) = wrap w z.
Proof.
  intros. unfold wrap, swrap. assert (2 ^ w <> 0) by (apply Z.pow_nonzero; lia).
  rewrite Zminus_mod_idemp_l. f_equal. lia.
Qed.

Lemma swrap_eq w a b : 0 <= w -> wrap w a = wrap w b -> swrap w a = swrap w b.
Proof.
  intros ? H. unfold swrap. rewrite <-(Zplus_mod_idemp_l a), <-(Zplus_mod_idemp_l b).
  unfold wrap in H. by rewrite H.
Qed.

Lemma swrap_wrap w z : 0 <= w -> swrap w (wrap w z) = swrap w z.
Proof. intros. apply swrap_eq; [done|]. unfold wrap. apply Z.mod_mod. apply Z.pow_nonzero; lia. Qed.

Lemma wrap_wrap w z : 0 <= w -> wrap w (wrap w z) = wrap w z.
Proof. intros. apply wrap_small. by apply wrap_range. Qed.

Lemma wrap_lor w a b : 0 <= w -> wrap w (Z.lor a b) = Z.lor (wrap w a) (wrap w b).
Proof. intros. zbits. Qed.

Lemma wrap_lxor w a b : 0 <= w -> wrap w (Z.lxor a b) = Z.lxor (wrap w a) (wrap w b).
Proof. intros. zbits. Qed.

Lemma bits_0_r z p : bits z p 0 = 0.
Proof. unfold bits. by rewrite Z.pow_0_r, Z.mod_1_r. Qed.

Lemma bits_0_l z n : bits z 0 n = z `mod` 2 ^ n.
Proof. done. Qed.

Lemma bits_small z p n : in_u (p + n) z -> 0 <= p -> 0 <= n -> bits z p n = z ≫ p.
Proof.
  intros Hz ??. apply Z.bits_inj'; intros i Hi. rewrite bits_spec, Z.shiftr_spec by lia.
  destruct (Z.ltb_spec i n); [by rewrite (Z.add_comm i)|]. simpl.
  symmetry. eapply in_u_testbit; [exact Hz|lia].
Qed.

Lemma bits_bits z p n q m :
  0 <= p -> 0 <= q -> 0 <= m -> q + m <= n -> bits (bits z p n) q m = bits z (p + q) m.
Proof. intros. zbits. Qed.

Lemma bits_wrap w z p n : 0 <= p -> 0 <= n -> p + n <= w -> bits (wrap w z) p n = bits z p n.
Proof. intros. zbits. Qed.

(** Two adjacent slices concatenate. *)
Lemma bits_app z p n m :
  0 <= p -> 0 <= n -> 0 <= m ->
  bits z p (n + m) = Z.lor (bits z p n) (bits z (p + n) m ≪ n).
Proof. intros. zbits. Qed.

(** A number is determined by its bits: the slice characterised pointwise. *)
Lemma bits_unique v z p n :
  0 <= p -> 0 <= n -> in_u n v ->
  (forall i, 0 <= i < n -> Z.testbit v i = Z.testbit z (p + i)) -> v = bits z p n.
Proof.
  intros ?? Hv Hb. apply Z.bits_inj'; intros i Hi. rewrite bits_spec by lia.
  destruct (Z.ltb_spec i n); [by apply Hb|]. by rewrite (in_u_testbit n) by (lia || done).
Qed.

(** * Byte strings

    A [&[u8]] is a list of integers in [0, 256).  Read as one little-endian
    number it is the stream of bits the readers and writers work on. *)

Definition bytes_ok (l : list Z) : Prop := Forall (in_u 8) l.

Abbreviation le_bytes := (little_endian_to_Z 8).

(** [z.to_le_bytes()] of an [n]-byte integer. *)
Definition to_le_bytes (n : nat) (z : Z) : list Z := Z_to_little_endian (Z.of_nat n) 8 z.

Lemma le_bytes_bound l : bytes_ok l -> in_u (8 * Z.of_nat (length l)) (le_bytes l).
Proof.
  intros H. unfold in_u. rewrite Z.mul_comm. by apply little_endian_to_Z_bound.
Qed.

Lemma bytes_ok_app l k : bytes_ok (l ++ k) <-> bytes_ok l /\ bytes_ok k.
Proof. apply Forall_app. Qed.

Lemma bytes_ok_take n l : bytes_ok l -> bytes_ok (take n l).
Proof. apply Forall_take. Qed.

Lemma bytes_ok_drop n l : bytes_ok l -> bytes_ok (drop n l).
Proof. apply Forall_drop. Qed.

Lemma bytes_ok_to_le_bytes n z : bytes_ok (to_le_bytes n z).
Proof. apply Z_to_little_endian_bound; lia. Qed.

Lemma bytes_ok_replicate n b : in_u 8 b -> bytes_ok (replicate n b).
Proof. intros. by apply Forall_replicate. Qed.

(** Decides [bytes_ok] of a concrete string. *)
Definition bytes_okb (l : list Z) : bool := forallb (fun b => (0 <=? b) && (b <? 256)) l.

Lemma bytes_okb_ok l : bytes_okb l = true -> bytes_ok l.
Proof.
  intros H. apply List.Forall_forall. intros b Hb. unfold bytes_okb in H.
  rewrite forallb_forall in H. specialize (H b Hb). unfold in_u. change (2 ^ 8) with 256. lia.
Qed.

Create HintDb bytes discriminated.
#[export] Hint Resolve bytes_ok_take bytes_ok_drop bytes_ok_to_le_bytes : bytes.

Lemma length_to_le_bytes n z : length (to_le_bytes n z) = n.
Proof.
  apply Nat2Z.inj. unfold to_le_bytes. by rewrite length_Z_to_little_endian by lia.
Qed.

Lemma le_bytes_app l k :
  bytes_ok l -> le_bytes (l ++ k) = Z.lor (le_bytes l) (le_bytes k ≪ (8 * Z.of_nat (length l))).
Proof.
  induction 1 as [|b l Hb _ IH]; cbn [app little_endian_to_Z length].
  { by rewrite Z.shiftl_0_r. }
  rewrite IH, Z.shiftl_lor, Z.shiftl_shiftl, Z.lor_assoc by lia.
  f_equal. f_equal. lia.
Qed.

Lemma le_bytes_drop n l : bytes_ok l -> le_bytes (drop n l) = le_bytes l ≫ (8 * Z.of_nat n).
Proof.
  intros Hl. destruct (Nat.lt_ge_cases (length l) n) as [Hn|Hn].
  - rewrite drop_ge by lia. symmetry. cbn. apply Z.bits_inj'; intros i Hi.
    rewrite Z.shiftr_spec, Z.testbit_0_l by lia.
    apply (in_u_testbit (8 * Z.of_nat (length l))); [by apply le_bytes_bound|lia].
  - rewrite <-(take_drop n l) at 2. rewrite le_bytes_app by auto with bytes.
    rewrite length_take, Nat.min_l by lia.
    pose proof (le_bytes_bound (take n l) ltac:(auto with bytes)) as Ht.
    rewrite length_take, Nat.min_l in Ht by lia.
    apply Z.bits_inj'; intros i Hi. rewrite Z.shiftr_spec, Z.lor_spec by lia.
    rewrite (in_u_testbit _ _ _ Ht) by lia. rewrite Z.shiftl_spec by lia. simpl.
    f_equal. lia.
Qed.

Lemma le_bytes_take n l :
  bytes_ok l -> le_bytes (take n l) = bits (le_bytes l) 0 (8 * Z.of_nat n).
Proof.
  intros Hl. destruct (Nat.lt_ge_cases (length l) n) as [Hn|Hn].
  - rewrite take_ge by lia. rewrite bits_0_l, Z.mod_small; [done|].
    pose proof (le_bytes_bound l Hl) as [? Hb]. split; [done|].
    eapply Z.lt_le_trans; [exact Hb|]. apply Z.pow_le_mono_r; lia.
  - rewrite <-(take_drop n l) at 2. rewrite le_bytes_app by auto with bytes.
    rewrite length_take, Nat.min_l by lia.
    pose proof (le_bytes_bound (take n l) ltac:(auto with bytes)) as Ht.
    rewrite length_take, Nat.min_l in Ht by lia.
    apply bits_unique; [lia|lia|done|].
    intros i Hi. rewrite Z.lor_spec, Z.shiftl_spec_low, orb_false_r by lia. by rewrite Z.add_0_l.
Qed.

(** A byte range of the buffer is a bit slice of its number. *)
Lemma le_bytes_slice n m l :
  bytes_ok l ->
  le_bytes (take m (drop n l)) = bits (le_bytes l) (8 * Z.of_nat n) (8 * Z.of_nat m).
Proof.
  intros. rewrite le_bytes_take, le_bytes_drop by auto with bytes.
  unfold bits. by rewrite Z.shiftr_0_r.
Qed.

Lemma le_bytes_to_le_bytes n z : le_bytes (to_le_bytes n z) = wrap (8 * Z.of_nat n) z.
Proof.
  unfold to_le_bytes. rewrite little_endian_to_Z_to_little_endian by lia.
  unfold wrap. f_equal. f_equal. lia.
Qed.

Lemma to_le_bytes_le_bytes l : bytes_ok l -> to_le_bytes (length l) (le_bytes l) = l.
Proof. intros. by apply Z_to_little_endian_to_Z. Qed.

Lemma le_bytes_inj l k :
  bytes_ok l -> bytes_ok k -> length l = length k -> le_bytes l = le_bytes k -> l = k.
Proof.
  intros Hl Hk Hlen Heq.
  rewrite <-(to_le_bytes_le_bytes l), <-(to_le_bytes_le_bytes k) by done. congruence.
Qed.

(** Bit [i] of the stream is bit [i mod 8] of byte [i / 8]. *)
Lemma le_bytes_testbit l i b :
  bytes_ok l -> 0 <= i -> l !! Z.to_nat (i `div` 8) = Some b ->
  Z.testbit (le_bytes l) i = Z.testbit b (i `mod` 8).
Proof. intros. by apply little_endian_to_Z_spec. Qed.

(** One byte of the stream. *)
Lemma le_bytes_lookup l k b :
  bytes_ok l -> l !! k = Some b -> bits (le_bytes l) (8 * Z.of_nat k) 8 = b.
Proof.
  intros Hl Hb. change (bits _ _ 8) with (bits (le_bytes l) (8 * Z.of_nat k) (8 * Z.of_nat 1)).
  rewrite <-le_bytes_slice by done.
  rewrite (drop_S l b k Hb). cbn. by rewrite take_0, Z.shiftl_0_l, Z.lor_0_r.
Qed.

Lemma le_bytes_replicate_0 n : le_bytes (replicate n 0) = 0.
Proof. induction n as [|n IH]; [done|]. cbn. by rewrite IH, Z.shiftl_0_l. Qed.

(** Bit [j] of a byte string, as the code addresses it. *)
Definition bitn (l : list Z) (j : nat) : bool :=
  match l !! (j / 8)%nat with
  | Some b => Z.testbit b (Z.of_nat (j mod 8))
  | None => false
  end.

Lemma bitn_le_bytes l j : bytes_ok l -> bitn l j = Z.testbit (le_bytes l) (Z.of_nat j).
Proof.
  intros Hl. unfold bitn. destruct (l !! (j / 8)%nat) as [b|] eqn:Hb.
  - rewrite (le_bytes_testbit l _ b); [by rewrite Nat2Z.inj_mod|done|lia|].
    rewrite <-Hb. f_equal. rewrite <-(Nat2Z.id (j / 8)), Nat2Z.inj_div. done.
  - symmetry. apply lookup_ge_None in Hb.
    apply (in_u_testbit (8 * Z.of_nat (length l))); [by apply le_bytes_bound|lia].
Qed.

(** Byte strings with the same bits are the same number. *)
Lemma le_bytes_bitn_ext l z :
  bytes_ok l -> 0 <= z -> (forall j : nat, bitn l j = Z.testbit z (Z.of_nat j)) -> le_bytes l = z.
Proof.
  intros Hl Hz Hj. apply Z.bits_inj'; intros i Hi.
  rewrite <-(Z2Nat.id i), <-bitn_le_bytes by (done || lia). apply Hj.
Qed.

(** * Overwriting a range of a list *)

Definition splice {A} (l : list A) (i : nat) (f : list A) : list A :=
  take i l ++ f ++ drop (i + length f) l.

Section Splice.
Context {A : Type}.
Implicit Types l f g : list A.

Lemma splice_nil l i : splice l i [] = l.
Proof. unfold splice. cbn. rewrite Nat.add_0_r. apply take_drop. Qed.

Lemma length_splice l i f : (i + length f <= length l)%nat -> length (splice l i f) = length l.
Proof. intros. unfold splice. rewrite !length_app, length_take, length_drop. lia. Qed.

Lemma splice_app l i f g :
  (i + length f + length g <= length l)%nat ->
  splice (splice l i f) (i + length f) g = splice l i (f ++ g).
Proof.
  intros. unfold splice. rewrite length_app, !app_assoc. f_equal.
  - f_equal. rewrite take_app_length'; [done|]. rewrite length_app, length_take. lia.
  - rewrite drop_app_ge by (rewrite length_app, length_take; lia).
    rewrite length_app, length_take, drop_drop. f_equal. lia.
Qed.

Lemma splice_insert l i (x : A) : (i < length l)%nat -> <[i := x]> l = splice l i [x].
Proof.
  intros Hi. unfold splice. cbn. rewrite Nat.add_1_r.
  by rewrite insert_take_drop.
Qed.

Lemma splice_0 l f : length f = length l -> splice l 0 f = f.
Proof. intros. unfold splice. cbn. rewrite drop_ge by lia. apply app_nil_r. Qed.
End Splice.
