(* ===== verification/BitUtil.v ===== *)
(** The free functions of src/native/core/src/common/bit.rs: reading integers
    from byte slices, masks, and bit sets stored in byte slices.

    A [usize] is a [nat].  [None] is a panic (slice index out of range) or an
    access outside the slice by one of the unchecked raw-pointer reads and
    writes.  [debug_assert!] is absent from the release build and from the model;
    [from_ne_bytes] and [read_unaligned] are little-endian, as on the supported
    targets. *)

From S2P Require Import Prelude.

(** * Slices *)

(** [&s[i..]]: panics past the end. *)
Definition slice_from (l : list Z) (i : nat) : option (list Z) :=
  if (i <=? length l)%nat then Some (drop i l) else None.

(** [&s[i..j]] *)
Definition slice (l : list Z) (i j : nat) : option (list Z) :=
  if (i <=? j)%nat && (j <=? length l)%nat then Some (take (j - i) (drop i l)) else None.

(** [s[i] = f(s[i])] *)
Definition update (l : list Z) (i : nat) (f : Z -> Z) : option (list Z) :=
  b ← l !! i; Some (<[i := f b]> l).

(** [memcpy(source, &mut s[off..])]: overwrites [source.len()] bytes from [off]. *)
Definition memcpy_at (l : list Z) (off : nat) (source : list Z) : option (list Z) :=
  if (off + length source <=? length l)%nat
  then Some (take off l ++ source ++ drop (off + length source) l) else None.

(** * Reading integers *)

Definition trailing_bits (v : Z) (num_bits : nat) : Z :=
  if (num_bits =? 0)%nat then 0
  else if (64 <=? num_bits)%nat then v
  else Z.land v (u64 (shl 64 1 (Z.of_nat num_bits) - 1)).

(** [read_num_bytes!($ty, $size, $src)] for a type of [ty_size] bytes: the first
    [size] bytes of [src] in a zeroed buffer. *)
Definition read_num_bytes (ty_size size : nat) (src : list Z) : option Z :=
  if (size <=? length src)%nat && (size <=? ty_size)%nat
  then Some (le_bytes (take size src ++ replicate (ty_size - size) 0)) else None.

Definition read_u64 (src : list Z) : option Z :=
  if (8 <=? length src)%nat then Some (le_bytes (take 8 src)) else None.

Definition read_u32 (src : list Z) : option Z :=
  if (4 <=? length src)%nat then Some (le_bytes (take 4 src)) else None.

Definition read_num_bytes_u64 (size : nat) (src : list Z) : option Z :=
  if (length src <? 8)%nat then read_num_bytes 8 size src
  else v ← read_u64 src; Some (trailing_bits v (size * 8)).

Definition read_num_bytes_u32 (size : nat) (src : list Z) : option Z :=
  if (length src <? 4)%nat then read_num_bytes 4 size src
  else v ← read_u32 src; Some (u32 (trailing_bits v (size * 8))).

(** [memcpy_value(source, num_bytes, target)]: the first [num_bytes] bytes of the
    little-endian representation of [source] ([ty_size] bytes) at [off]. *)
Definition memcpy_value (ty_size : nat) (source : Z) (num_bytes : nat)
    (l : list Z) (off : nat) : option (list Z) :=
  s ← slice (to_le_bytes ty_size source) 0 num_bytes; memcpy_at l off s.

(** [x.leading_zeros()] *)
Definition leading_zeros (w x : Z) : Z := if x =? 0 then w else w - 1 - Z.log2 x.

Definition log2 (x : Z) : Z :=
  if x =? 1 then 0 else u32 (64 - leading_zeros 64 (u64 (x - 1))).

Definition mix_hash (lower upper : Z) : Z :=
  let hash := u64 (17 * 37 + lower) in u64 (u64 (hash * 37) + upper).

Definition round_upto_power_of_2 (num factor : Z) : Z :=
  Z.land (u64 (num + u64 (factor - 1))) (Z.lxor (u64 (factor - 1)) (2 ^ 64 - 1)).

(** * Bit sets *)

Definition set_bit (l : list Z) (i : nat) : option (list Z) :=
  update l (i / 8) (fun b => Z.lor b (shl 8 1 (Z.of_nat (i mod 8)))).

Definition unset_bit (l : list Z) (i : nat) : option (list Z) :=
  update l (i / 8) (fun b => Z.land b (Z.lxor (shl 8 1 (Z.of_nat (i mod 8))) 255)).

Definition BIT_MASK : list Z := [1; 2; 4; 8; 16; 32; 64; 128].

Definition get_bit (l : list Z) (i : nat) : option bool :=
  b ← l !! Nat.shiftr i 3; m ← BIT_MASK !! Nat.land i 7; Some (negb (Z.land b m =? 0)).

Definition set_bits (l : list Z) (offset length : nat) : option (list Z) :=
  let byte_i := (offset / 8)%nat in
  let offset_r := (offset mod 8)%nat in
  let end_ := (offset + length)%nat in
  let end_byte_i := (end_ / 8)%nat in
  let end_r := (end_ mod 8)%nat in
  '(l, byte_i) ← (if (offset_r =? 0)%nat then Some (l, byte_i) else
    let num_bits := Nat.min length 7 in
    l ← update l byte_i (fun b =>
      Z.lor b (shl 8 (u8 (shl 8 1 (Z.of_nat num_bits) - 1)) (Z.of_nat offset_r)));
    Some (l, S byte_i));
  '(l, byte_i) ← (if (byte_i <? end_byte_i)%nat then
    l ← memcpy_at l byte_i (replicate (end_byte_i - byte_i) 255);
    Some (l, end_byte_i) else Some (l, byte_i));
  if (0 <? end_r)%nat && (byte_i =? end_byte_i)%nat
  then update l byte_i (fun b => Z.lor b (u8 (shl 8 1 (Z.of_nat end_r) - 1)))
  else Some l.

(** * Masks *)

Lemma shl_1 w n : 0 <= n < w -> shl w 1 n = 2 ^ n.
Proof.
  intros. unfold shl. rewrite Z.mod_small, Z.shiftl_1_l by lia.
  apply wrap_small. split; [lia|]. apply Z.pow_lt_mono_r; lia.
Qed.

Lemma mask_ones w n : 0 <= n < w -> wrap w (shl w 1 n - 1) = Z.ones n.
Proof.
  intros. rewrite shl_1, Z.ones_equiv by lia. apply wrap_small.
  assert (2 ^ n < 2 ^ w) by (apply Z.pow_lt_mono_r; lia).
  assert (0 < 2 ^ n) by (apply Z.pow_pos_nonneg; lia). split; lia.
Qed.

Lemma trailing_bits_spec v n : in_u 64 v -> trailing_bits v n = bits v 0 (Z.of_nat n).
Proof.
  intros Hv. unfold trailing_bits. case_ltb; subst; try lia; [|by rewrite bits_0_r|].
  - rewrite bits_0_l, Z.mod_small; [done|]. destruct Hv. split; [done|].
    eapply Z.lt_le_trans; [done|]. apply Z.pow_le_mono_r; lia.
  - rewrite mask_ones by lia. by rewrite Z.land_ones, bits_0_l by lia.
Qed.

Lemma le_bytes_pad l n : bytes_ok l -> le_bytes (l ++ replicate n 0) = le_bytes l.
Proof.
  intros. rewrite le_bytes_app by done.
  by rewrite le_bytes_replicate_0, Z.shiftl_0_l, Z.lor_0_r.
Qed.

Lemma le_bytes_take_range n l : bytes_ok l -> in_u (8 * Z.of_nat n) (le_bytes (take n l)).
Proof. intros. rewrite le_bytes_take by done. apply bits_range. lia. Qed.

Lemma read_u64_spec src :
  bytes_ok src -> (8 <= length src)%nat -> read_u64 src = Some (bits (le_bytes src) 0 64).
Proof. intros. unfold read_u64. case_ltb; [|lia]. by rewrite le_bytes_take. Qed.

Lemma read_u32_spec src :
  bytes_ok src -> (4 <= length src)%nat -> read_u32 src = Some (bits (le_bytes src) 0 32).
Proof. intros. unfold read_u32. case_ltb; [|lia]. by rewrite le_bytes_take. Qed.

(** The fast reader agrees with the byte-copying macro, on both its branches. *)
Lemma read_num_bytes_u64_spec size src :
  bytes_ok src -> (size <= length src)%nat -> (size <= 8)%nat ->
  read_num_bytes_u64 size src = Some (bits (le_bytes src) 0 (8 * Z.of_nat size)).
Proof.
  intros. unfold read_num_bytes_u64, read_num_bytes. case_ltb; cbn [andb]; try lia.
  - rewrite le_bytes_pad, le_bytes_take by auto with bytes. done.
  - rewrite read_u64_spec by (done || lia). cbn. rewrite trailing_bits_spec.
    + rewrite bits_bits by lia. do 2 f_equal. lia.
    + apply bits_range. lia.
Qed.

Lemma read_num_bytes_u32_spec size src :
  bytes_ok src -> (size <= length src)%nat -> (size <= 4)%nat ->
  read_num_bytes_u32 size src = Some (bits (le_bytes src) 0 (8 * Z.of_nat size)).
Proof.
  intros. unfold read_num_bytes_u32, read_num_bytes. case_ltb; cbn [andb]; try lia.
  - rewrite le_bytes_pad, le_bytes_take by auto with bytes. done.
  - rewrite read_u32_spec by (done || lia). cbn. rewrite trailing_bits_spec.
    + rewrite bits_bits by lia. rewrite wrap_small; [do 2 f_equal; lia|].
      pose proof (bits_range (le_bytes src) 0 (8 * Z.of_nat size) ltac:(lia)) as [? Hb].
      replace (Z.of_nat (size * 8)) with (8 * Z.of_nat size) by lia. cbn [Z.add].
      split; [done|]. eapply Z.lt_le_trans; [exact Hb|]. apply Z.pow_le_mono_r; lia.
    + pose proof (bits_range (le_bytes src) 0 32 ltac:(lia)) as [? Hb].
      split; [done|]. eapply Z.lt_le_trans; [exact Hb|]. apply Z.pow_le_mono_r; lia.
Qed.

Lemma log2_spec x : 1 <= x < 2 ^ 64 -> log2 x = Z.log2_up x.
Proof.
  intros Hx. unfold log2. case_ltb; [by subst|].
  rewrite (wrap_small 64) by (unfold in_u; lia). unfold leading_zeros. case_ltb; [lia|].
  assert (Z.log2 (x - 1) < 64) by (apply Z.log2_lt_pow2; lia).
  pose proof (Z.log2_nonneg (x - 1)).
  rewrite wrap_small by (unfold in_u; lia).
  rewrite Z.log2_up_eqn by lia. replace (Z.pred x) with (x - 1) by lia. lia.
Qed.

(** [num] rounded up to the next multiple of a power of two. *)
Lemma round_upto_power_of_2_spec num k :
  0 <= k < 64 -> 0 <= num -> num + 2 ^ k <= 2 ^ 64 ->
  round_upto_power_of_2 num (2 ^ k) = 2 ^ k * ((num + 2 ^ k - 1) / 2 ^ k).
Proof.
  intros Hk ? Hn. assert (0 < 2 ^ k) by (apply Z.pow_pos_nonneg; lia).
  unfold round_upto_power_of_2. rewrite !(wrap_small 64) by (rewrite ?wrap_small; unfold in_u; lia).
  rewrite <-Z.shiftr_div_pow2, Z.mul_comm, <-Z.shiftl_mul_pow2 by lia.
  replace (num + (2 ^ k - 1)) with (num + 2 ^ k - 1) by lia.
  assert (Hm : in_u 64 (num + 2 ^ k - 1)) by (split; lia).
  replace (2 ^ k - 1) with (Z.ones k) by (rewrite Z.ones_equiv; lia).
  change (2 ^ 64 - 1) with (Z.ones 64).
  apply Z.bits_inj'; intros i Hi. autorewrite with zbits.
  destruct (Z.lt_ge_cases i 64).
  - case_ltb; cbn [andb orb xorb]; try lia; rewrite ?andb_true_r, ?andb_false_r; f_equal; try lia.
  - rewrite (in_u_testbit 64 _ i Hm) by lia.
    case_ltb; cbn [andb]; try lia; rewrite (in_u_testbit 64 _ _ Hm) by lia; done.
Qed.

(** * Bit sets, bit by bit *)

Lemma in_u8_lor a b : in_u 8 a -> in_u 8 b -> in_u 8 (Z.lor a b).
Proof.
  intros Ha Hb. rewrite <-(wrap_small 8 a), <-(wrap_small 8 b) by done.
  replace (Z.lor _ _) with (wrap 8 (Z.lor a b)) by zbits. by apply wrap_range.
Qed.

Lemma in_u8_land a b : in_u 8 a -> in_u 8 (Z.land a b).
Proof.
  intros Ha. rewrite <-(wrap_small 8 a) by done.
  replace (Z.land _ _) with (wrap 8 (Z.land a b)) by zbits. by apply wrap_range.
Qed.

(** What an update of one byte does to the bits of the slice. *)
Lemma update_spec l i f :
  bytes_ok l -> (i < length l)%nat -> (forall b, in_u 8 b -> in_u 8 (f b)) ->
  exists b l', l !! i = Some b /\ update l i f = Some l' /\ bytes_ok l' /\ length l' = length l /\
    forall j, bitn l' j =
      if (j / 8 =? i)%nat then Z.testbit (f b) (Z.of_nat (j mod 8)) else bitn l j.
Proof.
  intros Hl Hi Hf. destruct (lookup_lt_is_Some_2 l i Hi) as [b Hb].
  exists b, (<[i := f b]> l). unfold update. rewrite Hb. repeat split.
  - apply Forall_insert; [done|]. apply Hf. by eapply (Forall_lookup_1 _ l).
  - apply length_insert.
  - intros j. unfold bitn. case_ltb; subst.
    + by rewrite list_lookup_insert_eq.
    + by rewrite list_lookup_insert_ne.
Qed.

Lemma update_or_spec l i m :
  bytes_ok l -> (i < length l)%nat -> in_u 8 m ->
  exists l', update l i (fun b => Z.lor b m) = Some l' /\ bytes_ok l' /\ length l' = length l /\
    forall j, bitn l' j = bitn l j || (j / 8 =? i)%nat && Z.testbit m (Z.of_nat (j mod 8)).
Proof.
  intros Hl Hi Hm.
  destruct (update_spec l i (fun b => Z.lor b m) Hl Hi) as (b & l' & Hb & Hu & ? & ? & Hj).
  { intros. by apply in_u8_lor. }
  exists l'. repeat split; try done. intros j. rewrite Hj. case_ltb; subst.
  - unfold bitn. by rewrite Hb, Z.lor_spec.
  - by rewrite orb_false_r.
Qed.

Lemma testbit_pow2 n i : 0 <= n -> Z.testbit (2 ^ n) i = (n =? i).
Proof. intros. by apply Z.pow2_bits_eqb. Qed.

Lemma in_u8_mask n : 0 <= n < 8 -> in_u 8 (Z.ones n).
Proof.
  intros. rewrite Z.ones_equiv. assert (2 ^ n < 2 ^ 8) by (apply Z.pow_lt_mono_r; lia).
  assert (0 < 2 ^ n) by (apply Z.pow_pos_nonneg; lia). split; lia.
Qed.

(** A copy replaces the bits of the target range by those of the source. *)
Lemma memcpy_at_spec l i s :
  bytes_ok l -> bytes_ok s -> (i + length s <= length l)%nat ->
  exists l', memcpy_at l i s = Some l' /\ bytes_ok l' /\ length l' = length l /\
    forall j, bitn l' j =
      if (8 * i <=? j)%nat && (j <? 8 * (i + length s))%nat then bitn s (j - 8 * i) else bitn l j.
Proof.
  intros Hl Hs Hi. unfold memcpy_at. simp_tests. eexists. split; [done|]. repeat split.
  - apply bytes_ok_app. split; [auto with bytes|]. apply bytes_ok_app. auto with bytes.
  - rewrite !length_app, length_take, length_drop. lia.
  - intros j. unfold bitn. rewrite !lookup_app, length_take. prune_cases.
    + rewrite lookup_take_ge by lia.
      replace ((j - 8 * i) / 8)%nat with (j / 8 - i)%nat by lia.
      replace ((j - 8 * i) mod 8)%nat with (j mod 8)%nat by lia.
      replace (j / 8 - i `min` length l)%nat with (j / 8 - i)%nat by lia.
      by destruct (lookup_lt_is_Some_2 s (j / 8 - i)%nat ltac:(lia)) as [b ->].
    + rewrite lookup_take_lt by lia.
      by destruct (lookup_lt_is_Some_2 l (j / 8)%nat ltac:(lia)) as [b ->].
    + rewrite lookup_take_ge by lia. rewrite (lookup_ge_None_2 s) by lia. rewrite lookup_drop.
      by replace (i + length s + (j / 8 - i `min` length l - length s))%nat with (j / 8)%nat by lia.
Qed.

Lemma set_bit_spec l i :
  bytes_ok l -> (i < 8 * length l)%nat ->
  exists l', set_bit l i = Some l' /\ bytes_ok l' /\ length l' = length l /\
    forall j, bitn l' j = bitn l j || (j =? i)%nat.
Proof.
  intros Hl Hi. unfold set_bit. rewrite shl_1 by lia.
  destruct (update_or_spec l (i / 8) (2 ^ Z.of_nat (i mod 8)) Hl) as (l' & Hu & ? & ? & Hj);
    [lia| |].
  { split; [apply Z.pow_nonneg; lia|apply Z.pow_lt_mono_r; lia]. }
  exists l'. repeat split; try done. intros j. rewrite Hj, testbit_pow2 by lia.
  case_ltb; cbn [andb]; try done; lia.
Qed.

Lemma unset_bit_spec l i :
  bytes_ok l -> (i < 8 * length l)%nat ->
  exists l', unset_bit l i = Some l' /\ bytes_ok l' /\ length l' = length l /\
    forall j, bitn l' j = bitn l j && negb (j =? i)%nat.
Proof.
  intros Hl Hi. unfold unset_bit. rewrite shl_1 by lia.
  destruct (update_spec l (i / 8) (fun b => Z.land b (Z.lxor (2 ^ Z.of_nat (i mod 8)) 255)) Hl)
    as (b & l' & Hb & Hu & ? & ? & Hj); [lia|intros; by apply in_u8_land|].
  exists l'. repeat split; try done. intros j. rewrite Hj.
  change 255 with (Z.ones 8). rewrite Z.land_spec, Z.lxor_spec, testbit_pow2, ones_total by lia.
  unfold bitn. case_ltb; cbn [andb xorb negb]; subst; try lia; try congruence.
  all: rewrite ?andb_true_r, ?andb_false_r; try done.
  all: repeat match goal with H : (?j / 8)%nat = _ |- _ => rewrite H; clear H end.
  all: by rewrite Hb.
Qed.

Lemma land_pow2_testbit b n : 0 <= n -> negb (Z.land b (2 ^ n) =? 0) = Z.testbit b n.
Proof.
  intros. replace (Z.land b (2 ^ n)) with (if Z.testbit b n then 2 ^ n else 0).
  - assert (0 < 2 ^ n) by (apply Z.pow_pos_nonneg; lia).
    by destruct (Z.testbit b n); case_ltb; try lia.
  - apply Z.bits_inj'; intros i Hi. rewrite Z.land_spec, testbit_pow2 by lia.
    destruct (Z.eqb_spec n i) as [<-|].
    + destruct (Z.testbit b n); [by rewrite Z.pow2_bits_true|apply Z.testbit_0_l].
    + rewrite andb_false_r. destruct (Z.testbit b n); [by rewrite Z.pow2_bits_false|apply Z.testbit_0_l].
Qed.

Lemma BIT_MASK_lookup i : BIT_MASK !! Nat.land i 7 = Some (2 ^ Z.of_nat (i mod 8)).
Proof.
  replace (Nat.land i 7) with (i mod 8)%nat by (symmetry; apply (Nat.land_ones i 3)).
  assert (i mod 8 < 8)%nat as Hm by (apply Nat.mod_upper_bound; lia).
  generalize dependent (i mod 8)%nat. intros m Hm.
  do 8 (destruct m as [|m]; [reflexivity|]). lia.
Qed.

Lemma get_bit_spec l i : (i < 8 * length l)%nat -> get_bit l i = Some (bitn l i).
Proof.
  intros Hi. unfold get_bit, bitn. rewrite Nat.shiftr_div_pow2. change (2 ^ 3)%nat with 8%nat.
  destruct (lookup_lt_is_Some_2 l (i / 8)%nat) as [b Hb]; [lia|]. rewrite Hb. cbn.
  rewrite BIT_MASK_lookup. cbn. by rewrite land_pow2_testbit by lia.
Qed.

(** The bits of [offset, offset+len) that lie in the first [i] bytes. *)
Definition covered (offset len i j : nat) : bool :=
  (offset <=? j)%nat && (j <? offset + len)%nat && (j <? 8 * i)%nat.

(** [set_bits], the leading partial byte. *)
Lemma set_bits_first l offset len :
  bytes_ok l -> (offset + len <= 8 * length l)%nat ->
  exists l1 i1,
    (if (offset mod 8 =? 0)%nat then Some (l, (offset / 8)%nat) else
      l ← update l (offset / 8) (fun b => Z.lor b (shl 8 (u8 (shl 8 1 (Z.of_nat (len `min` 7)) - 1))
        (Z.of_nat (offset mod 8)))); Some (l, S (offset / 8))) = Some (l1, i1) /\
    i1 = ((offset + 7) / 8)%nat /\ bytes_ok l1 /\ length l1 = length l /\
    forall j, bitn l1 j = bitn l j || covered offset len i1 j.
Proof.
  intros Hl Hlen. destruct (Nat.eqb_spec (offset mod 8) 0) as [E|E].
  - exists l, (offset / 8)%nat. repeat split; [lia|done|].
    intros j. unfold covered. case_ltb; cbn; try lia; by rewrite orb_false_r.
  - rewrite mask_ones by lia. set (m := shl 8 _ _).
    destruct (update_or_spec l (offset / 8) m Hl) as (l' & -> & ? & ? & Hj);
      [lia|by apply wrap_range|].
    exists l', (S (offset / 8)). repeat split; [lia|done|done|].
    intros j. rewrite Hj. f_equal. unfold m, shl, covered. rewrite Z.mod_small by lia.
    autorewrite with zbits. case_ltb; cbn; try lia; done.
Qed.

(** [set_bits], the whole bytes. *)
Lemma set_bits_bulk l l1 offset len i1 :
  bytes_ok l1 -> length l1 = length l -> (offset + len <= 8 * length l)%nat ->
  i1 = ((offset + 7) / 8)%nat ->
  (forall j, bitn l1 j = bitn l j || covered offset len i1 j) ->
  exists l2 i2,
    (if (i1 <? (offset + len) / 8)%nat then
      l ← memcpy_at l1 i1 (replicate ((offset + len) / 8 - i1) 255); Some (l, ((offset + len) / 8)%nat)
      else Some (l1, i1)) = Some (l2, i2) /\
    i2 = Nat.max i1 ((offset + len) / 8) /\ bytes_ok l2 /\ length l2 = length l /\
    forall j, bitn l2 j = bitn l j || covered offset len i2 j.
Proof.
  intros Hl1 Hlen1 Hlen Hi1 Hj1. destruct (Nat.ltb_spec i1 ((offset + len) / 8)) as [E|E].
  - destruct (memcpy_at_spec l1 i1 (replicate ((offset + len) / 8 - i1) 255) Hl1)
      as (l' & -> & ? & ? & Hj); [by apply bytes_ok_replicate|rewrite length_replicate; lia|].
    exists l', ((offset + len) / 8)%nat. repeat split; [lia|done|lia|].
    intros j. rewrite length_replicate in Hj. rewrite Hj, Hj1. unfold covered.
    prune_cases; rewrite ?orb_true_r; try done.
    unfold bitn. rewrite lookup_replicate_2 by lia.
    change 255 with (Z.ones 8). rewrite ones_total by lia. by simp_tests.
  - exists l1, i1. repeat split; try done; lia.
Qed.

Lemma set_bits_spec l offset len :
  bytes_ok l -> (offset + len <= 8 * length l)%nat ->
  exists l', set_bits l offset len = Some l' /\ bytes_ok l' /\ length l' = length l /\
    forall j, bitn l' j = bitn l j || (offset <=? j)%nat && (j <? offset + len)%nat.
Proof.
  intros Hl Hlen. unfold set_bits.
  destruct (set_bits_first l offset len Hl Hlen) as (l1 & i1 & -> & Hi1 & Hl1 & Hlen1 & Hj1).
  cbn [mbind option_bind].
  destruct (set_bits_bulk l l1 offset len i1 Hl1 Hlen1 Hlen Hi1 Hj1)
    as (l2 & i2 & -> & Hi2 & Hl2 & Hlen2 & Hj2).
  cbn [mbind option_bind]. unfold covered in Hj2. case_ltb; cbn [andb]; cycle 1.
  1-3: exists l2; repeat split; try done; intros j; rewrite Hj2; f_equal; case_ltb; cbn; lia.
  rewrite mask_ones by lia.
  destruct (update_or_spec l2 i2 (Z.ones (Z.of_nat ((offset + len) mod 8))) Hl2)
    as (l' & -> & ? & ? & Hj); [lia|apply in_u8_mask; lia|].
  exists l'. repeat split; [done|lia|]. intros j. rewrite Hj, Hj2, ones_total by lia.
  destruct (bitn l j); [done|]. cbn [orb]. case_ltb; cbn; lia.
Qed.
