(* ===== verification/Unpack.v ===== *)
(** The straight-line language of the unrolled unpackers of
    src/native/core/src/parquet/util/bit_packing.rs, its execution on memory, and
    a symbolic executor that decides which input bit each output bit is.

    Every [unpackN_32] is a sequence of four kinds of statement on two raw
    pointers, [in_buf : *const u32] (reads are [read_unaligned]) and
    [out : *mut u32]:
      [*out = e;]  [*out |= e;]  [out = out.offset(1);]  [in_buf = in_buf.offset(1);]
    The programs themselves are in BitPacking. *)

From S2P Require Import Prelude BitUtil.

(** * Syntax *)

Inductive expr :=
| in_buf                         (* in_buf.read_unaligned() *)
| Lit (c : Z)
| Shr (e : expr) (k : nat)       (* e >> k *)
| Shl (e : expr) (k : nat)       (* e << k *)
| Mod (e : expr) (k : nat)       (* e % (1u32 << k) *)
| And (e : expr) (c : Z).        (* e & c *)

Inductive stmt :=
| out_eq (e : expr)              (* *out = e; *)
| out_or (e : expr)              (* *out |= e; *)
| out_inc                        (* out = out.offset(1); *)
| in_inc.                        (* in_buf = in_buf.offset(1); *)

Declare Scope unpack_scope.
Delimit Scope unpack_scope with unpack.
Notation "e >> k" := (Shr e k%nat) (at level 34, left associativity) : unpack_scope.
Notation "e << k" := (Shl e k%nat) (at level 34, left associativity) : unpack_scope.
Notation "e %% k" := (Mod e k%nat) (at level 34, left associativity) : unpack_scope.
Notation "e & c" := (And e c%Z) (at level 34, left associativity) : unpack_scope.
Arguments out_eq e%_unpack.
Arguments out_or e%_unpack.

(** * Execution

    The input is a byte buffer and a byte offset into it, the output a [u32]
    buffer and an index; [None] is an access outside either buffer. *)

Record ustate := UState { u_in : nat; u_out : nat; u_mem : list Z }.

Fixpoint eval (buf : list Z) (p : nat) (e : expr) : option Z :=
  match e with
  | in_buf => read_u32 (drop p buf)
  | Lit c => Some c
  | Shr e k => v ← eval buf p e; Some (shr 32 v (Z.of_nat k))
  | Shl e k => v ← eval buf p e; Some (shl 32 v (Z.of_nat k))
  | Mod e k => v ← eval buf p e; Some (v `mod` shl 32 1 (Z.of_nat k))
  | And e c => v ← eval buf p e; Some (Z.land v c)
  end.

Definition step (buf : list Z) (s : ustate) (c : stmt) : option ustate :=
  match c with
  | out_eq e =>
      v ← eval buf (u_in s) e; _ ← u_mem s !! u_out s;
      Some (UState (u_in s) (u_out s) (<[u_out s := v]> (u_mem s)))
  | out_or e =>
      v ← eval buf (u_in s) e; o ← u_mem s !! u_out s;
      Some (UState (u_in s) (u_out s) (<[u_out s := Z.lor o v]> (u_mem s)))
  | out_inc => Some (UState (u_in s) (S (u_out s)) (u_mem s))
  | in_inc => Some (UState (u_in s + 4) (u_out s) (u_mem s))
  end.

Fixpoint run (buf : list Z) (p : list stmt) (s : ustate) : option ustate :=
  match p with
  | [] => Some s
  | c :: p => s ← step buf s c; run buf p s
  end.

(** * Symbolic execution

    A symbolic word lists, for each bit position, the bits of the input (numbered
    from [in_buf]) whose disjunction it is. *)

Abbreviation sword := (nat -> list nat).

Record sstate := SState { s_in : nat; s_out : nat; s_mem : list (option sword) }.

Fixpoint sym_eval (nwords w : nat) (e : expr) : option sword :=
  match e with
  | in_buf => if (w <? nwords)%nat then Some (fun i => [32 * w + i]%nat) else None
  | Lit c => if c =? 0 then Some (fun _ => []) else None
  | Shr e k => s ← sym_eval nwords w e;
      if (k <? 32)%nat then Some (fun i => if (i + k <? 32)%nat then s (i + k)%nat else [])
      else None
  | Shl e k => s ← sym_eval nwords w e;
      if (k <? 32)%nat then Some (fun i => if (i <? k)%nat then [] else s (i - k)%nat) else None
  | Mod e k => s ← sym_eval nwords w e;
      if (k <? 32)%nat then Some (fun i => if (i <? k)%nat then s i else []) else None
  | And e c => s ← sym_eval nwords w e;
      if 0 <=? c then Some (fun i => if Z.testbit c (Z.of_nat i) then s i else []) else None
  end.

Definition sym_step (nwords : nat) (s : sstate) (c : stmt) : option sstate :=
  match c with
  | out_eq e =>
      v ← sym_eval nwords (s_in s) e;
      if (s_out s <? 32)%nat
      then Some (SState (s_in s) (s_out s) (<[s_out s := Some v]> (s_mem s))) else None
  | out_or e =>
      v ← sym_eval nwords (s_in s) e;
      match s_mem s !! s_out s with
      | Some (Some o) =>
          Some (SState (s_in s) (s_out s) (<[s_out s := Some (fun i => o i ++ v i)]> (s_mem s)))
      | _ => None
      end
  | out_inc => Some (SState (s_in s) (S (s_out s)) (s_mem s))
  | in_inc => Some (SState (S (s_in s)) (s_out s) (s_mem s))
  end.

Fixpoint sym_run (nwords : nat) (p : list stmt) (s : sstate) : option sstate :=
  match p with
  | [] => Some s
  | c :: p => s ← sym_step nwords s c; sym_run nwords p s
  end.

Definition sym_init : sstate := SState 0 0 (replicate 32 None).

(** Output [j] must be bits [j*n .. j*n+n) of the input. *)
Definition word_ok (n j : nat) (s : sword) : bool :=
  forallb (fun i => bool_decide (s i = if (i <? n)%nat then [j * n + i]%nat else [])) (seq 0 32).

Definition unpacks (n : nat) (p : list stmt) : bool :=
  match sym_run n p sym_init with
  | Some s =>
      (s_in s =? n)%nat &&
      forallb (fun j => match s_mem s !! j with
        | Some (Some w) => word_ok n j w | _ => false end) (seq 0 32)
  | None => false
  end.

(** * Soundness of the symbolic executor *)

Section Soundness.
Context (buf : list Z) (base : nat).

(** [v] has the bits [s] describes. *)
Definition rep (v : Z) (s : sword) : Prop :=
  in_u 32 v /\ forall i, (i < 32)%nat ->
    Z.testbit v (Z.of_nat i) =
    existsb (fun k => Z.testbit (le_bytes buf) (8 * Z.of_nat base + Z.of_nat k)) (s i).

Lemma rep_high v s i : rep v s -> 32 <= i -> Z.testbit v i = false.
Proof. intros [Hv _] Hi. apply (in_u_testbit 32); [done|lia]. Qed.

Lemma in_u_of_wrap w v : 0 <= w -> v = wrap w v -> in_u w v.
Proof. intros ? ->. by apply wrap_range. Qed.

Lemma rep_intro v s :
  0 <= v ->
  (forall i, Z.testbit v (Z.of_nat i) =
    (i <? 32)%nat &&
    existsb (fun k => Z.testbit (le_bytes buf) (8 * Z.of_nat base + Z.of_nat k)) (s i)) ->
  rep v s.
Proof.
  intros Hv Hb. split.
  - apply in_u_of_wrap; [lia|]. apply Z.bits_inj'; intros i Hi. rewrite wrap_total by lia.
    rewrite <-(Z2Nat.id i), Hb by lia. case_ltb; cbn; lia || done.
  - intros i Hi. rewrite Hb. by case_ltb; [|lia].
Qed.

(** Every bit of a represented word, in range or not. *)
Lemma rep_testbit v s i :
  rep v s -> Z.testbit v (Z.of_nat i) =
    (i <? 32)%nat &&
    existsb (fun k => Z.testbit (le_bytes buf) (8 * Z.of_nat base + Z.of_nat k)) (s i).
Proof. intros H. case_ltb; [by apply H|]. by apply (rep_high v s); [|lia]. Qed.

Context (nwords : nat).
Context (Hbuf : bytes_ok buf) (Hlen : (base + 4 * nwords <= length buf)%nat).

Lemma read_rep w :
  (w < nwords)%nat ->
  exists v, read_u32 (drop (base + 4 * w) buf) = Some v /\ rep v (fun i => [32 * w + i]%nat).
Proof.
  intros Hw. rewrite read_u32_spec by (rewrite ?length_drop; auto with bytes; lia).
  eexists. split; [done|]. rewrite le_bytes_drop by done. apply rep_intro.
  - apply bits_range. lia.
  - intros i. rewrite bits_total, shiftr_total by lia. cbn [existsb].
    rewrite orb_false_r. case_ltb; cbn [andb]; try lia; try done. f_equal. lia.
Qed.

Lemma sym_eval_sound e w s :
  sym_eval nwords w e = Some s -> exists v, eval buf (base + 4 * w) e = Some v /\ rep v s.
Proof.
  revert s. induction e as [|c|e IH k|e IH k|e IH k|e IH c]; cbn [sym_eval eval]; intros s Hs.
  - case_ltb_in Hs; [|done]. injection Hs as <-. by apply read_rep.
  - case_ltb_in Hs; [|done]. injection Hs as <-. subst. eexists. split; [done|].
    apply rep_intro; [lia|]. intros i. by rewrite Z.testbit_0_l, andb_false_r.
  - destruct (sym_eval nwords w e) as [s'|]; [|done]. cbn [mbind option_bind] in Hs. case_ltb_in Hs; [|done].
    injection Hs as <-. destruct (IH s' eq_refl) as (v & -> & Hv). eexists. split; [done|].
    apply rep_intro; unfold shr; rewrite Z.mod_small by lia.
    + apply Z.shiftr_nonneg, Hv.
    + intros i. rewrite Z.shiftr_spec, <-Nat2Z.inj_add, (rep_testbit v s') by (done || lia).
      case_ltb; cbn [andb existsb]; done || lia.
  - destruct (sym_eval nwords w e) as [s'|]; [|done]. cbn [mbind option_bind] in Hs. case_ltb_in Hs; [|done].
    injection Hs as <-. destruct (IH s' eq_refl) as (v & -> & Hv). eexists. split; [done|].
    apply rep_intro; unfold shl; rewrite Z.mod_small by lia.
    + apply wrap_range. lia.
    + intros i. rewrite wrap_spec, Z.shiftl_spec by lia. destruct (Nat.ltb_spec i k).
      { rewrite Z.testbit_neg_r by lia. cbn [existsb]. by rewrite !andb_false_r. }
      rewrite <-Nat2Z.inj_sub, (rep_testbit v s') by (done || lia).
      case_ltb; cbn [andb existsb]; done || lia.
  - destruct (sym_eval nwords w e) as [s'|]; [|done]. cbn [mbind option_bind] in Hs. case_ltb_in Hs; [|done].
    injection Hs as <-. destruct (IH s' eq_refl) as (v & -> & Hv). eexists. split; [done|].
    rewrite shl_1 by lia. apply rep_intro.
    + apply Z.mod_pos_bound, Z.pow_pos_nonneg; lia.
    + intros i. rewrite testbit_mod_pow2, (rep_testbit v s') by (done || lia).
      case_ltb; cbn [andb existsb]; done || lia.
  - destruct (sym_eval nwords w e) as [s'|]; [|done]. cbn [mbind option_bind] in Hs. case_ltb_in Hs; [|done].
    injection Hs as <-. destruct (IH s' eq_refl) as (v & -> & Hv). eexists. split; [done|].
    apply rep_intro.
    + apply Z.land_nonneg. right. lia.
    + intros i. rewrite Z.land_spec, (rep_testbit v s') by done.
      destruct (Z.testbit c (Z.of_nat i)); cbn [existsb];
        rewrite ?andb_true_r, ?andb_false_r; done.
Qed.

Context (out0 : list Z) (obase : nat) (Hout : (obase + 32 <= length out0)%nat).

(** What the symbolic state says of the concrete one. *)
Record rel (ss : sstate) (cs : ustate) : Prop := {
  rel_in : u_in cs = (base + 4 * s_in ss)%nat;
  rel_out : u_out cs = (obase + s_out ss)%nat;
  rel_len : length (u_mem cs) = length out0;
  rel_slen : length (s_mem ss) = 32%nat;
  rel_mem : forall j s, s_mem ss !! j = Some (Some s) ->
    exists v, u_mem cs !! (obase + j)%nat = Some v /\ rep v s;
  rel_frame : forall k, (k < obase \/ obase + 32 <= k)%nat -> u_mem cs !! k = out0 !! k }.

(** Writing a represented word through [out] keeps the relation. *)
Lemma rel_write ss cs s v :
  rel ss cs -> rep v s -> (s_out ss < 32)%nat ->
  rel (SState (s_in ss) (s_out ss) (<[s_out ss := Some s]> (s_mem ss)))
      (UState (u_in cs) (u_out cs) (<[u_out cs := v]> (u_mem cs))).
Proof.
  intros [Hi Ho Hl Hsl Hm Hf] Hv Hso. split; cbn; try done.
  - by rewrite length_insert.
  - by rewrite length_insert.
  - intros j s' Hj. rewrite Ho. destruct (decide (s_out ss = j)) as [<-|].
    + rewrite list_lookup_insert_eq in Hj by lia. injection Hj as <-.
      rewrite list_lookup_insert_eq by lia. eauto.
    + rewrite list_lookup_insert_ne in Hj by done.
      rewrite list_lookup_insert_ne by lia. by apply Hm.
  - intros k Hk. rewrite list_lookup_insert_ne by lia. by apply Hf.
Qed.

Lemma rep_or v w s t : rep v s -> rep w t -> rep (Z.lor v w) (fun i => s i ++ t i).
Proof.
  intros Hv Hw. apply rep_intro.
  - apply Z.lor_nonneg. split; [apply Hv|apply Hw].
  - intros i. rewrite Z.lor_spec, (rep_testbit v s), (rep_testbit w t), existsb_app by done.
    by destruct (i <? 32)%nat.
Qed.

Lemma sym_step_sound c ss ss' cs :
  sym_step nwords ss c = Some ss' -> rel ss cs ->
  exists cs', step buf cs c = Some cs' /\ rel ss' cs'.
Proof.
  intros Hs Hr. pose proof Hr as [Hi Ho Hl Hsl Hm Hf].
  destruct c as [e|e| |]; cbn [sym_step step] in *.
  - destruct (sym_eval _ _ e) as [s|] eqn:He; [|done]. cbn [mbind option_bind] in Hs. case_ltb_in Hs; [|done].
    injection Hs as <-. destruct (sym_eval_sound _ _ _ He) as (v & Hv & Hrep).
    rewrite Hi, Hv, Ho. cbn [mbind option_bind].
    destruct (lookup_lt_is_Some_2 (u_mem cs) (obase + s_out ss)) as [o ->]; [lia|]. cbn [mbind option_bind].
    eexists. split; [done|]. rewrite <-Hi, <-Ho. by apply rel_write.
  - destruct (sym_eval _ _ e) as [s|] eqn:He; [|done]. cbn [mbind option_bind] in Hs.
    destruct (s_mem ss !! s_out ss) as [[o|]|] eqn:Hso; [|done..]. injection Hs as <-.
    destruct (sym_eval_sound _ _ _ He) as (v & Hv & Hrep).
    destruct (Hm _ _ Hso) as (w & Hw & Hrepw). apply lookup_lt_Some in Hso.
    rewrite Hi, Hv, Ho. cbn [mbind option_bind]. rewrite Hw. cbn [mbind option_bind]. eexists. split; [done|]. rewrite <-Hi, <-Ho.
    apply rel_write; [done|by apply rep_or|lia].
  - injection Hs as <-. eexists. split; [done|]. split; cbn; try done. lia.
  - injection Hs as <-. eexists. split; [done|]. split; cbn; try done. lia.
Qed.

Lemma sym_run_sound p ss ss' cs :
  sym_run nwords p ss = Some ss' -> rel ss cs ->
  exists cs', run buf p cs = Some cs' /\ rel ss' cs'.
Proof.
  revert ss cs. induction p as [|c p IH]; cbn [sym_run run]; intros ss cs Hs Hr.
  - injection Hs as <-. eauto.
  - destruct (sym_step nwords ss c) as [s1|] eqn:Hc; [|done].
    destruct (sym_step_sound c ss s1 cs Hc Hr) as (c1 & -> & Hr1). cbn in *. eauto.
Qed.
End Soundness.

(** A program that passes the symbolic check writes, through [out], the 32
    consecutive [n]-bit fields that start at [in_buf], touches nothing else,
    stays inside both buffers, and leaves [in_buf] after the [4 n] bytes read. *)
Theorem unpacks_sound n p buf in_ptr out out_ptr :
  unpacks n p = true -> (n <= 32)%nat ->
  bytes_ok buf -> (in_ptr + 4 * n <= length buf)%nat -> (out_ptr + 32 <= length out)%nat ->
  exists o, run buf p (UState in_ptr out_ptr out) = Some (UState (in_ptr + 4 * n) o
    (take out_ptr out ++
     map (fun j => bits (le_bytes buf) (8 * Z.of_nat in_ptr + Z.of_nat (j * n)) (Z.of_nat n)) (seq 0 32) ++
     drop (out_ptr + 32) out)).
Proof.
  unfold unpacks. intros Hp Hn Hbuf Hin Hout.
  destruct (sym_run n p sym_init) as [ss|] eqn:Hs; [|done].
  apply andb_true_iff in Hp as [Hsi%Nat.eqb_eq Hall]. rewrite forallb_forall in Hall.
  destruct (sym_run_sound buf in_ptr n Hbuf Hin out out_ptr Hout p sym_init ss
    (UState in_ptr out_ptr out) Hs) as ([ci co cm] & Hrun & [Hi _ Hl _ Hm Hf]).
  { unfold sym_init. split; cbn [u_in u_out u_mem s_in s_out s_mem]; try done; try lia.
    intros j s Hj. by apply lookup_replicate in Hj as [? _]. }
  cbn [u_in u_out u_mem] in *. subst. exists co. rewrite Hrun. do 2 f_equal.
  apply list_eq. intros k.
  destruct (Nat.lt_ge_cases k out_ptr) as [Hk|Hk].
  { rewrite lookup_app_l by (rewrite length_take; lia). rewrite lookup_take_lt by lia. apply Hf. lia. }
  rewrite lookup_app_r by (rewrite length_take; lia). rewrite length_take, Nat.min_l by lia.
  destruct (Nat.lt_ge_cases k (out_ptr + 32)) as [Hk'|Hk']; cycle 1.
  { rewrite lookup_app_r by (rewrite length_map, length_seq; lia).
    rewrite length_map, length_seq, lookup_drop, Hf by lia. f_equal. lia. }
  rewrite lookup_app_l by (rewrite length_map, length_seq; lia).
  rewrite list_lookup_fmap, lookup_seq_lt by lia. cbn [fmap option_fmap option_map].
  specialize (Hall (k - out_ptr)%nat). rewrite in_seq in Hall. specialize (Hall ltac:(lia)).
  destruct (s_mem ss !! (k - out_ptr)%nat) as [[w|]|] eqn:Hw; [|done..].
  destruct (Hm _ _ Hw) as (v & Hv & Hrep). replace (out_ptr + (k - out_ptr))%nat with k in Hv by lia.
  rewrite Hv. f_equal. unfold word_ok in Hall. rewrite forallb_forall in Hall.
  apply Z.bits_inj'; intros i Hi. rewrite <-(Z2Nat.id i) by lia.
  rewrite (rep_testbit _ _ _ _ _ Hrep), bits_spec by first [lia | apply Z.add_nonneg_nonneg; apply Nat2Z.is_nonneg || lia].
  destruct (Nat.ltb_spec (Z.to_nat i) 32) as [Hi32|]; [|case_ltb; [lia|done]].
  specialize (Hall (Z.to_nat i)). rewrite in_seq in Hall.
  specialize (Hall ltac:(lia)). apply bool_decide_eq_true in Hall. rewrite Hall.
  case_ltb; cbn [existsb andb]; try lia; try done. rewrite orb_false_r. f_equal. lia.
Qed.
