(* ===== verification/BitPacking.v ===== *)
(** src/native/core/src/parquet/util/bit_packing.rs: the unrolled unpackers for
    every bit width from 0 to 32, statement by statement, and [unpack32], which
    dispatches on the width. *)

From S2P Require Import Prelude BitUtil Unpack.
Local Open Scope unpack_scope.


Definition unpack1_32 : list stmt :=
  [ out_eq (in_buf & 1); out_inc;
    out_eq ((in_buf >> 1) & 1); out_inc;
    out_eq ((in_buf >> 2) & 1); out_inc;
    out_eq ((in_buf >> 3) & 1); out_inc;
    out_eq ((in_buf >> 4) & 1); out_inc;
    out_eq ((in_buf >> 5) & 1); out_inc;
    out_eq ((in_buf >> 6) & 1); out_inc;
    out_eq ((in_buf >> 7) & 1); out_inc;
    out_eq ((in_buf >> 8) & 1); out_inc;
    out_eq ((in_buf >> 9) & 1); out_inc;
    out_eq ((in_buf >> 10) & 1); out_inc;
    out_eq ((in_buf >> 11) & 1); out_inc;
    out_eq ((in_buf >> 12) & 1); out_inc;
    out_eq ((in_buf >> 13) & 1); out_inc;
    out_eq ((in_buf >> 14) & 1); out_inc;
    out_eq ((in_buf >> 15) & 1); out_inc;
    out_eq ((in_buf >> 16) & 1); out_inc;
    out_eq ((in_buf >> 17) & 1); out_inc;
    out_eq ((in_buf >> 18) & 1); out_inc;
    out_eq ((in_buf >> 19) & 1); out_inc;
    out_eq ((in_buf >> 20) & 1); out_inc;
    out_eq ((in_buf >> 21) & 1); out_inc;
    out_eq ((in_buf >> 22) & 1); out_inc;
    out_eq ((in_buf >> 23) & 1); out_inc;
    out_eq ((in_buf >> 24) & 1); out_inc;
    out_eq ((in_buf >> 25) & 1); out_inc;
    out_eq ((in_buf >> 26) & 1); out_inc;
    out_eq ((in_buf >> 27) & 1); out_inc;
    out_eq ((in_buf >> 28) & 1); out_inc;
    out_eq ((in_buf >> 29) & 1); out_inc;
    out_eq ((in_buf >> 30) & 1); out_inc;
    out_eq (in_buf >> 31); in_inc ].

Definition unpack2_32 : list stmt :=
  [ out_eq (in_buf %% 2); out_inc;
    out_eq ((in_buf >> 2) %% 2); out_inc;
    out_eq ((in_buf >> 4) %% 2); out_inc;
    out_eq ((in_buf >> 6) %% 2); out_inc;
    out_eq ((in_buf >> 8) %% 2); out_inc;
    out_eq ((in_buf >> 10) %% 2); out_inc;
    out_eq ((in_buf >> 12) %% 2); out_inc;
    out_eq ((in_buf >> 14) %% 2); out_inc;
    out_eq ((in_buf >> 16) %% 2); out_inc;
    out_eq ((in_buf >> 18) %% 2); out_inc;
    out_eq ((in_buf >> 20) %% 2); out_inc;
    out_eq ((in_buf >> 22) %% 2); out_inc;
    out_eq ((in_buf >> 24) %% 2); out_inc;
    out_eq ((in_buf >> 26) %% 2); out_inc;
    out_eq ((in_buf >> 28) %% 2); out_inc;
    out_eq (in_buf >> 30); out_inc;
    in_inc; out_eq (in_buf %% 2); out_inc;
    out_eq ((in_buf >> 2) %% 2); out_inc;
    out_eq ((in_buf >> 4) %% 2); out_inc;
    out_eq ((in_buf >> 6) %% 2); out_inc;
    out_eq ((in_buf >> 8) %% 2); out_inc;
    out_eq ((in_buf >> 10) %% 2); out_inc;
    out_eq ((in_buf >> 12) %% 2); out_inc;
    out_eq ((in_buf >> 14) %% 2); out_inc;
    out_eq ((in_buf >> 16) %% 2); out_inc;
    out_eq ((in_buf >> 18) %% 2); out_inc;
    out_eq ((in_buf >> 20) %% 2); out_inc;
    out_eq ((in_buf >> 22) %% 2); out_inc;
    out_eq ((in_buf >> 24) %% 2); out_inc;
    out_eq ((in_buf >> 26) %% 2); out_inc;
    out_eq ((in_buf >> 28) %% 2); out_inc;
    out_eq (in_buf >> 30); in_inc ].

Definition unpack3_32 : list stmt :=
  [ out_eq (in_buf %% 3); out_inc;
    out_eq ((in_buf >> 3) %% 3); out_inc;
    out_eq ((in_buf >> 6) %% 3); out_inc;
    out_eq ((in_buf >> 9) %% 3); out_inc;
    out_eq ((in_buf >> 12) %% 3); out_inc;
    out_eq ((in_buf >> 15) %% 3); out_inc;
    out_eq ((in_buf >> 18) %% 3); out_inc;
    out_eq ((in_buf >> 21) %% 3); out_inc;
    out_eq ((in_buf >> 24) %% 3); out_inc;
    out_eq ((in_buf >> 27) %% 3); out_inc;
    out_eq (in_buf >> 30); in_inc; out_or ((in_buf %% 1) << (3 - 1)); out_inc;
    out_eq ((in_buf >> 1) %% 3); out_inc;
    out_eq ((in_buf >> 4) %% 3); out_inc;
    out_eq ((in_buf >> 7) %% 3); out_inc;
    out_eq ((in_buf >> 10) %% 3); out_inc;
    out_eq ((in_buf >> 13) %% 3); out_inc;
    out_eq ((in_buf >> 16) %% 3); out_inc;
    out_eq ((in_buf >> 19) %% 3); out_inc;
    out_eq ((in_buf >> 22) %% 3); out_inc;
    out_eq ((in_buf >> 25) %% 3); out_inc;
    out_eq ((in_buf >> 28) %% 3); out_inc;
    out_eq (in_buf >> 31); in_inc; out_or ((in_buf %% 2) << (3 - 2)); out_inc;
    out_eq ((in_buf >> 2) %% 3); out_inc;
    out_eq ((in_buf >> 5) %% 3); out_inc;
    out_eq ((in_buf >> 8) %% 3); out_inc;
    out_eq ((in_buf >> 11) %% 3); out_inc;
    out_eq ((in_buf >> 14) %% 3); out_inc;
    out_eq ((in_buf >> 17) %% 3); out_inc;
    out_eq ((in_buf >> 20) %% 3); out_inc;
    out_eq ((in_buf >> 23) %% 3); out_inc;
    out_eq ((in_buf >> 26) %% 3); out_inc;
    out_eq (in_buf >> 29); in_inc ].

Definition unpack4_32 : list stmt :=
  [ out_eq (in_buf %% 4); out_inc;
    out_eq ((in_buf >> 4) %% 4); out_inc;
    out_eq ((in_buf >> 8) %% 4); out_inc;
    out_eq ((in_buf >> 12) %% 4); out_inc;
    out_eq ((in_buf >> 16) %% 4); out_inc;
    out_eq ((in_buf >> 20) %% 4); out_inc;
    out_eq ((in_buf >> 24) %% 4); out_inc;
    out_eq ((in_buf >> 28) %% 4); out_inc;
    in_inc; out_eq (in_buf %% 4); out_inc;
    out_eq ((in_buf >> 4) %% 4); out_inc;
    out_eq ((in_buf >> 8) %% 4); out_inc;
    out_eq ((in_buf >> 12) %% 4); out_inc;
    out_eq ((in_buf >> 16) %% 4); out_inc;
    out_eq ((in_buf >> 20) %% 4); out_inc;
    out_eq ((in_buf >> 24) %% 4); out_inc;
    out_eq ((in_buf >> 28) %% 4); out_inc;
    in_inc; out_eq (in_buf %% 4); out_inc;
    out_eq ((in_buf >> 4) %% 4); out_inc;
    out_eq ((in_buf >> 8) %% 4); out_inc;
    out_eq ((in_buf >> 12) %% 4); out_inc;
    out_eq ((in_buf >> 16) %% 4); out_inc;
    out_eq ((in_buf >> 20) %% 4); out_inc;
    out_eq ((in_buf >> 24) %% 4); out_inc;
    out_eq ((in_buf >> 28) %% 4); out_inc;
    in_inc; out_eq (in_buf %% 4); out_inc;
    out_eq ((in_buf >> 4) %% 4); out_inc;
    out_eq ((in_buf >> 8) %% 4); out_inc;
    out_eq ((in_buf >> 12) %% 4); out_inc;
    out_eq ((in_buf >> 16) %% 4); out_inc;
    out_eq ((in_buf >> 20) %% 4); out_inc;
    out_eq ((in_buf >> 24) %% 4); out_inc;
    out_eq ((in_buf >> 28) %% 4); in_inc ].

Definition unpack5_32 : list stmt :=
  [ out_eq (in_buf %% 5); out_inc;
    out_eq ((in_buf >> 5) %% 5); out_inc;
    out_eq ((in_buf >> 10) %% 5); out_inc;
    out_eq ((in_buf >> 15) %% 5); out_inc;
    out_eq ((in_buf >> 20) %% 5); out_inc;
    out_eq ((in_buf >> 25) %% 5); out_inc;
    out_eq (in_buf >> 30); in_inc; out_or ((in_buf %% 3) << (5 - 3)); out_inc;
    out_eq ((in_buf >> 3) %% 5); out_inc;
    out_eq ((in_buf >> 8) %% 5); out_inc;
    out_eq ((in_buf >> 13) %% 5); out_inc;
    out_eq ((in_buf >> 18) %% 5); out_inc;
    out_eq ((in_buf >> 23) %% 5); out_inc;
    out_eq ((in_buf >> 28) %% 5); in_inc; out_or ((in_buf %% 1) << (5 - 1)); out_inc;
    out_eq ((in_buf >> 1) %% 5); out_inc;
    out_eq ((in_buf >> 6) %% 5); out_inc;
    out_eq ((in_buf >> 11) %% 5); out_inc;
    out_eq ((in_buf >> 16) %% 5); out_inc;
    out_eq ((in_buf >> 21) %% 5); out_inc;
    out_eq ((in_buf >> 26) %% 5); out_inc;
    out_eq (in_buf >> 31); in_inc; out_or ((in_buf %% 4) << (5 - 4)); out_inc;
    out_eq ((in_buf >> 4) %% 5); out_inc;
    out_eq ((in_buf >> 9) %% 5); out_inc;
    out_eq ((in_buf >> 14) %% 5); out_inc;
    out_eq ((in_buf >> 19) %% 5); out_inc;
    out_eq ((in_buf >> 24) %% 5); out_inc;
    out_eq (in_buf >> 29); in_inc; out_or ((in_buf %% 2) << (5 - 2)); out_inc;
    out_eq ((in_buf >> 2) %% 5); out_inc;
    out_eq ((in_buf >> 7) %% 5); out_inc;
    out_eq ((in_buf >> 12) %% 5); out_inc;
    out_eq ((in_buf >> 17) %% 5); out_inc;
    out_eq ((in_buf >> 22) %% 5); out_inc;
    out_eq (in_buf >> 27); in_inc ].

Definition unpack6_32 : list stmt :=
  [ out_eq (in_buf %% 6); out_inc;
    out_eq ((in_buf >> 6) %% 6); out_inc;
    out_eq ((in_buf >> 12) %% 6); out_inc;
    out_eq ((in_buf >> 18) %% 6); out_inc;
    out_eq ((in_buf >> 24) %% 6); out_inc;
    out_eq (in_buf >> 30); in_inc; out_or ((in_buf %% 4) << (6 - 4)); out_inc;
    out_eq ((in_buf >> 4) %% 6); out_inc;
    out_eq ((in_buf >> 10) %% 6); out_inc;
    out_eq ((in_buf >> 16) %% 6); out_inc;
    out_eq ((in_buf >> 22) %% 6); out_inc;
    out_eq (in_buf >> 28); in_inc; out_or ((in_buf %% 2) << (6 - 2)); out_inc;
    out_eq ((in_buf >> 2) %% 6); out_inc;
    out_eq ((in_buf >> 8) %% 6); out_inc;
    out_eq ((in_buf >> 14) %% 6); out_inc;
    out_eq ((in_buf >> 20) %% 6); out_inc;
    out_eq (in_buf >> 26); in_inc; out_inc;
    out_eq (in_buf %% 6); out_inc;
    out_eq ((in_buf >> 6) %% 6); out_inc;
    out_eq ((in_buf >> 12) %% 6); out_inc;
    out_eq ((in_buf >> 18) %% 6); out_inc;
    out_eq ((in_buf >> 24) %% 6); out_inc;
    out_eq (in_buf >> 30); in_inc; out_or ((in_buf %% 4) << (6 - 4)); out_inc;
    out_eq ((in_buf >> 4) %% 6); out_inc;
    out_eq ((in_buf >> 10) %% 6); out_inc;
    out_eq ((in_buf >> 16) %% 6); out_inc;
    out_eq ((in_buf >> 22) %% 6); out_inc;
    out_eq (in_buf >> 28); in_inc; out_or ((in_buf %% 2) << (6 - 2)); out_inc;
    out_eq ((in_buf >> 2) %% 6); out_inc;
    out_eq ((in_buf >> 8) %% 6); out_inc;
    out_eq ((in_buf >> 14) %% 6); out_inc;
    out_eq ((in_buf >> 20) %% 6); out_inc;
    out_eq (in_buf >> 26); in_inc ].

Definition unpack7_32 : list stmt :=
  [ out_eq (in_buf %% 7); out_inc;
    out_eq ((in_buf >> 7) %% 7); out_inc;
    out_eq ((in_buf >> 14) %% 7); out_inc;
    out_eq ((in_buf >> 21) %% 7); out_inc;
    out_eq (in_buf >> 28); in_inc; out_or ((in_buf %% 3) << (7 - 3)); out_inc;
    out_eq ((in_buf >> 3) %% 7); out_inc;
    out_eq ((in_buf >> 10) %% 7); out_inc;
    out_eq ((in_buf >> 17) %% 7); out_inc;
    out_eq ((in_buf >> 24) %% 7); out_inc;
    out_eq (in_buf >> 31); in_inc; out_or ((in_buf %% 6) << (7 - 6)); out_inc;
    out_eq ((in_buf >> 6) %% 7); out_inc;
    out_eq ((in_buf >> 13) %% 7); out_inc;
    out_eq ((in_buf >> 20) %% 7); out_inc;
    out_eq (in_buf >> 27); in_inc; out_or ((in_buf %% 2) << (7 - 2)); out_inc;
    out_eq ((in_buf >> 2) %% 7); out_inc;
    out_eq ((in_buf >> 9) %% 7); out_inc;
    out_eq ((in_buf >> 16) %% 7); out_inc;
    out_eq ((in_buf >> 23) %% 7); out_inc;
    out_eq (in_buf >> 30); in_inc; out_or ((in_buf %% 5) << (7 - 5)); out_inc;
    out_eq ((in_buf >> 5) %% 7); out_inc;
    out_eq ((in_buf >> 12) %% 7); out_inc;
    out_eq ((in_buf >> 19) %% 7); out_inc;
    out_eq (in_buf >> 26); in_inc; out_or ((in_buf %% 1) << (7 - 1)); out_inc;
    out_eq ((in_buf >> 1) %% 7); out_inc;
    out_eq ((in_buf >> 8) %% 7); out_inc;
    out_eq ((in_buf >> 15) %% 7); out_inc;
    out_eq ((in_buf >> 22) %% 7); out_inc;
    out_eq (in_buf >> 29); in_inc; out_or ((in_buf %% 4) << (7 - 4)); out_inc;
    out_eq ((in_buf >> 4) %% 7); out_inc;
    out_eq ((in_buf >> 11) %% 7); out_inc;
    out_eq ((in_buf >> 18) %% 7); out_inc;
    out_eq (in_buf >> 25); in_inc ].

Definition unpack8_32 : list stmt :=
  [ out_eq (in_buf %% 8); out_inc;
    out_eq ((in_buf >> 8) %% 8); out_inc;
    out_eq ((in_buf >> 16) %% 8); out_inc;
    out_eq (in_buf >> 24); out_inc;
    in_inc; out_eq (in_buf %% 8); out_inc;
    out_eq ((in_buf >> 8) %% 8); out_inc;
    out_eq ((in_buf >> 16) %% 8); out_inc;
    out_eq (in_buf >> 24); out_inc;
    in_inc; out_eq (in_buf %% 8); out_inc;
    out_eq ((in_buf >> 8) %% 8); out_inc;
    out_eq ((in_buf >> 16) %% 8); out_inc;
    out_eq (in_buf >> 24); out_inc;
    in_inc; out_eq (in_buf %% 8); out_inc;
    out_eq ((in_buf >> 8) %% 8); out_inc;
    out_eq ((in_buf >> 16) %% 8); out_inc;
    out_eq (in_buf >> 24); out_inc;
    in_inc; out_eq (in_buf %% 8); out_inc;
    out_eq ((in_buf >> 8) %% 8); out_inc;
    out_eq ((in_buf >> 16) %% 8); out_inc;
    out_eq (in_buf >> 24); out_inc;
    in_inc; out_eq (in_buf %% 8); out_inc;
    out_eq ((in_buf >> 8) %% 8); out_inc;
    out_eq ((in_buf >> 16) %% 8); out_inc;
    out_eq (in_buf >> 24); out_inc;
    in_inc; out_eq (in_buf %% 8); out_inc;
    out_eq ((in_buf >> 8) %% 8); out_inc;
    out_eq ((in_buf >> 16) %% 8); out_inc;
    out_eq (in_buf >> 24); out_inc;
    in_inc; out_eq (in_buf %% 8); out_inc;
    out_eq ((in_buf >> 8) %% 8); out_inc;
    out_eq ((in_buf >> 16) %% 8); out_inc;
    out_eq (in_buf >> 24); in_inc ].

Definition unpack9_32 : list stmt :=
  [ out_eq (in_buf %% 9); out_inc;
    out_eq ((in_buf >> 9) %% 9); out_inc;
    out_eq ((in_buf >> 18) %% 9); out_inc;
    out_eq (in_buf >> 27); in_inc; out_or ((in_buf %% 4) << (9 - 4)); out_inc;
    out_eq ((in_buf >> 4) %% 9); out_inc;
    out_eq ((in_buf >> 13) %% 9); out_inc;
    out_eq ((in_buf >> 22) %% 9); out_inc;
    out_eq (in_buf >> 31); in_inc; out_or ((in_buf %% 8) << (9 - 8)); out_inc;
    out_eq ((in_buf >> 8) %% 9); out_inc;
    out_eq ((in_buf >> 17) %% 9); out_inc;
    out_eq (in_buf >> 26); in_inc; out_or ((in_buf %% 3) << (9 - 3)); out_inc;
    out_eq ((in_buf >> 3) %% 9); out_inc;
    out_eq ((in_buf >> 12) %% 9); out_inc;
    out_eq ((in_buf >> 21) %% 9); out_inc;
    out_eq (in_buf >> 30); in_inc; out_or ((in_buf %% 7) << (9 - 7)); out_inc;
    out_eq ((in_buf >> 7) %% 9); out_inc;
    out_eq ((in_buf >> 16) %% 9); out_inc;
    out_eq (in_buf >> 25); in_inc; out_or ((in_buf %% 2) << (9 - 2)); out_inc;
    out_eq ((in_buf >> 2) %% 9); out_inc;
    out_eq ((in_buf >> 11) %% 9); out_inc;
    out_eq ((in_buf >> 20) %% 9); out_inc;
    out_eq (in_buf >> 29); in_inc; out_or ((in_buf %% 6) << (9 - 6)); out_inc;
    out_eq ((in_buf >> 6) %% 9); out_inc;
    out_eq ((in_buf >> 15) %% 9); out_inc;
    out_eq (in_buf >> 24); in_inc; out_or ((in_buf %% 1) << (9 - 1)); out_inc;
    out_eq ((in_buf >> 1) %% 9); out_inc;
    out_eq ((in_buf >> 10) %% 9); out_inc;
    out_eq ((in_buf >> 19) %% 9); out_inc;
    out_eq (in_buf >> 28); in_inc; out_or ((in_buf %% 5) << (9 - 5)); out_inc;
    out_eq ((in_buf >> 5) %% 9); out_inc;
    out_eq ((in_buf >> 14) %% 9); out_inc;
    out_eq (in_buf >> 23); in_inc ].

Definition unpack10_32 : list stmt :=
  [ out_eq (in_buf %% 10); out_inc;
    out_eq ((in_buf >> 10) %% 10); out_inc;
    out_eq ((in_buf >> 20) %% 10); out_inc;
    out_eq (in_buf >> 30); in_inc; out_or ((in_buf %% 8) << (10 - 8)); out_inc;
    out_eq ((in_buf >> 8) %% 10); out_inc;
    out_eq ((in_buf >> 18) %% 10); out_inc;
    out_eq (in_buf >> 28); in_inc; out_or ((in_buf %% 6) << (10 - 6)); out_inc;
    out_eq ((in_buf >> 6) %% 10); out_inc;
    out_eq ((in_buf >> 16) %% 10); out_inc;
    out_eq (in_buf >> 26); in_inc; out_or ((in_buf %% 4) << (10 - 4)); out_inc;
    out_eq ((in_buf >> 4) %% 10); out_inc;
    out_eq ((in_buf >> 14) %% 10); out_inc;
    out_eq (in_buf >> 24); in_inc; out_or ((in_buf %% 2) << (10 - 2)); out_inc;
    out_eq ((in_buf >> 2) %% 10); out_inc;
    out_eq ((in_buf >> 12) %% 10); out_inc;
    out_eq (in_buf >> 22); in_inc; out_inc;
    out_eq (in_buf %% 10); out_inc;
    out_eq ((in_buf >> 10) %% 10); out_inc;
    out_eq ((in_buf >> 20) %% 10); out_inc;
    out_eq (in_buf >> 30); in_inc; out_or ((in_buf %% 8) << (10 - 8)); out_inc;
    out_eq ((in_buf >> 8) %% 10); out_inc;
    out_eq ((in_buf >> 18) %% 10); out_inc;
    out_eq (in_buf >> 28); in_inc; out_or ((in_buf %% 6) << (10 - 6)); out_inc;
    out_eq ((in_buf >> 6) %% 10); out_inc;
    out_eq ((in_buf >> 16) %% 10); out_inc;
    out_eq (in_buf >> 26); in_inc; out_or ((in_buf %% 4) << (10 - 4)); out_inc;
    out_eq ((in_buf >> 4) %% 10); out_inc;
    out_eq ((in_buf >> 14) %% 10); out_inc;
    out_eq (in_buf >> 24); in_inc; out_or ((in_buf %% 2) << (10 - 2)); out_inc;
    out_eq ((in_buf >> 2) %% 10); out_inc;
    out_eq ((in_buf >> 12) %% 10); out_inc;
    out_eq (in_buf >> 22); in_inc ].

Definition unpack11_32 : list stmt :=
  [ out_eq (in_buf %% 11); out_inc;
    out_eq ((in_buf >> 11) %% 11); out_inc;
    out_eq (in_buf >> 22); in_inc; out_or ((in_buf %% 1) << (11 - 1)); out_inc;
    out_eq ((in_buf >> 1) %% 11); out_inc;
    out_eq ((in_buf >> 12) %% 11); out_inc;
    out_eq (in_buf >> 23); in_inc; out_or ((in_buf %% 2) << (11 - 2)); out_inc;
    out_eq ((in_buf >> 2) %% 11); out_inc;
    out_eq ((in_buf >> 13) %% 11); out_inc;
    out_eq (in_buf >> 24); in_inc; out_or ((in_buf %% 3) << (11 - 3)); out_inc;
    out_eq ((in_buf >> 3) %% 11); out_inc;
    out_eq ((in_buf >> 14) %% 11); out_inc;
    out_eq (in_buf >> 25); in_inc; out_or ((in_buf %% 4) << (11 - 4)); out_inc;
    out_eq ((in_buf >> 4) %% 11); out_inc;
    out_eq ((in_buf >> 15) %% 11); out_inc;
    out_eq (in_buf >> 26); in_inc; out_or ((in_buf %% 5) << (11 - 5)); out_inc;
    out_eq ((in_buf >> 5) %% 11); out_inc;
    out_eq ((in_buf >> 16) %% 11); out_inc;
    out_eq (in_buf >> 27); in_inc; out_or ((in_buf %% 6) << (11 - 6)); out_inc;
    out_eq ((in_buf >> 6) %% 11); out_inc;
    out_eq ((in_buf >> 17) %% 11); out_inc;
    out_eq (in_buf >> 28); in_inc; out_or ((in_buf %% 7) << (11 - 7)); out_inc;
    out_eq ((in_buf >> 7) %% 11); out_inc;
    out_eq ((in_buf >> 18) %% 11); out_inc;
    out_eq (in_buf >> 29); in_inc; out_or ((in_buf %% 8) << (11 - 8)); out_inc;
    out_eq ((in_buf >> 8) %% 11); out_inc;
    out_eq ((in_buf >> 19) %% 11); out_inc;
    out_eq (in_buf >> 30); in_inc; out_or ((in_buf %% 9) << (11 - 9)); out_inc;
    out_eq ((in_buf >> 9) %% 11); out_inc;
    out_eq ((in_buf >> 20) %% 11); out_inc;
    out_eq (in_buf >> 31); in_inc; out_or ((in_buf %% 10) << (11 - 10)); out_inc;
    out_eq ((in_buf >> 10) %% 11); out_inc;
    out_eq (in_buf >> 21); in_inc ].

Definition unpack12_32 : list stmt :=
  [ out_eq (in_buf %% 12); out_inc;
    out_eq ((in_buf >> 12) %% 12); out_inc;
    out_eq (in_buf >> 24); in_inc; out_or ((in_buf %% 4) << (12 - 4)); out_inc;
    out_eq ((in_buf >> 4) %% 12); out_inc;
    out_eq ((in_buf >> 16) %% 12); out_inc;
    out_eq (in_buf >> 28); in_inc; out_or ((in_buf %% 8) << (12 - 8)); out_inc;
    out_eq ((in_buf >> 8) %% 12); out_inc;
    out_eq (in_buf >> 20); in_inc; out_inc;
    out_eq (in_buf %% 12); out_inc;
    out_eq ((in_buf >> 12) %% 12); out_inc;
    out_eq (in_buf >> 24); in_inc; out_or ((in_buf %% 4) << (12 - 4)); out_inc;
    out_eq ((in_buf >> 4) %% 12); out_inc;
    out_eq ((in_buf >> 16) %% 12); out_inc;
    out_eq (in_buf >> 28); in_inc; out_or ((in_buf %% 8) << (12 - 8)); out_inc;
    out_eq ((in_buf >> 8) %% 12); out_inc;
    out_eq (in_buf >> 20); in_inc; out_inc;
    out_eq (in_buf %% 12); out_inc;
    out_eq ((in_buf >> 12) %% 12); out_inc;
    out_eq (in_buf >> 24); in_inc; out_or ((in_buf %% 4) << (12 - 4)); out_inc;
    out_eq ((in_buf >> 4) %% 12); out_inc;
    out_eq ((in_buf >> 16) %% 12); out_inc;
    out_eq (in_buf >> 28); in_inc; out_or ((in_buf %% 8) << (12 - 8)); out_inc;
    out_eq ((in_buf >> 8) %% 12); out_inc;
    out_eq (in_buf >> 20); in_inc; out_inc;
    out_eq (in_buf %% 12); out_inc;
    out_eq ((in_buf >> 12) %% 12); out_inc;
    out_eq (in_buf >> 24); in_inc; out_or ((in_buf %% 4) << (12 - 4)); out_inc;
    out_eq ((in_buf >> 4) %% 12); out_inc;
    out_eq ((in_buf >> 16) %% 12); out_inc;
    out_eq (in_buf >> 28); in_inc; out_or ((in_buf %% 8) << (12 - 8)); out_inc;
    out_eq ((in_buf >> 8) %% 12); out_inc;
    out_eq (in_buf >> 20); in_inc ].

Definition unpack13_32 : list stmt :=
  [ out_eq (in_buf %% 13); out_inc;
    out_eq ((in_buf >> 13) %% 13); out_inc;
    out_eq (in_buf >> 26); in_inc; out_or ((in_buf %% 7) << (13 - 7)); out_inc;
    out_eq ((in_buf >> 7) %% 13); out_inc;
    out_eq (in_buf >> 20); in_inc; out_or ((in_buf %% 1) << (13 - 1)); out_inc;
    out_eq ((in_buf >> 1) %% 13); out_inc;
    out_eq ((in_buf >> 14) %% 13); out_inc;
    out_eq (in_buf >> 27); in_inc; out_or ((in_buf %% 8) << (13 - 8)); out_inc;
    out_eq ((in_buf >> 8) %% 13); out_inc;
    out_eq (in_buf >> 21); in_inc; out_or ((in_buf %% 2) << (13 - 2)); out_inc;
    out_eq ((in_buf >> 2) %% 13); out_inc;
    out_eq ((in_buf >> 15) %% 13); out_inc;
    out_eq (in_buf >> 28); in_inc; out_or ((in_buf %% 9) << (13 - 9)); out_inc;
    out_eq ((in_buf >> 9) %% 13); out_inc;
    out_eq (in_buf >> 22); in_inc; out_or ((in_buf %% 3) << (13 - 3)); out_inc;
    out_eq ((in_buf >> 3) %% 13); out_inc;
    out_eq ((in_buf >> 16) %% 13); out_inc;
    out_eq (in_buf >> 29); in_inc; out_or ((in_buf %% 10) << (13 - 10)); out_inc;
    out_eq ((in_buf >> 10) %% 13); out_inc;
    out_eq (in_buf >> 23); in_inc; out_or ((in_buf %% 4) << (13 - 4)); out_inc;
    out_eq ((in_buf >> 4) %% 13); out_inc;
    out_eq ((in_buf >> 17) %% 13); out_inc;
    out_eq (in_buf >> 30); in_inc; out_or ((in_buf %% 11) << (13 - 11)); out_inc;
    out_eq ((in_buf >> 11) %% 13); out_inc;
    out_eq (in_buf >> 24); in_inc; out_or ((in_buf %% 5) << (13 - 5)); out_inc;
    out_eq ((in_buf >> 5) %% 13); out_inc;
    out_eq ((in_buf >> 18) %% 13); out_inc;
    out_eq (in_buf >> 31); in_inc; out_or ((in_buf %% 12) << (13 - 12)); out_inc;
    out_eq ((in_buf >> 12) %% 13); out_inc;
    out_eq (in_buf >> 25); in_inc; out_or ((in_buf %% 6) << (13 - 6)); out_inc;
    out_eq ((in_buf >> 6) %% 13); out_inc;
    out_eq (in_buf >> 19); in_inc ].

Definition unpack14_32 : list stmt :=
  [ out_eq (in_buf %% 14); out_inc;
    out_eq ((in_buf >> 14) %% 14); out_inc;
    out_eq (in_buf >> 28); in_inc; out_or ((in_buf %% 10) << (14 - 10)); out_inc;
    out_eq ((in_buf >> 10) %% 14); out_inc;
    out_eq (in_buf >> 24); in_inc; out_or ((in_buf %% 6) << (14 - 6)); out_inc;
    out_eq ((in_buf >> 6) %% 14); out_inc;
    out_eq (in_buf >> 20); in_inc; out_or ((in_buf %% 2) << (14 - 2)); out_inc;
    out_eq ((in_buf >> 2) %% 14); out_inc;
    out_eq ((in_buf >> 16) %% 14); out_inc;
    out_eq (in_buf >> 30); in_inc; out_or ((in_buf %% 12) << (14 - 12)); out_inc;
    out_eq ((in_buf >> 12) %% 14); out_inc;
    out_eq (in_buf >> 26); in_inc; out_or ((in_buf %% 8) << (14 - 8)); out_inc;
    out_eq ((in_buf >> 8) %% 14); out_inc;
    out_eq (in_buf >> 22); in_inc; out_or ((in_buf %% 4) << (14 - 4)); out_inc;
    out_eq ((in_buf >> 4) %% 14); out_inc;
    out_eq (in_buf >> 18); in_inc; out_inc;
    out_eq (in_buf %% 14); out_inc;
    out_eq ((in_buf >> 14) %% 14); out_inc;
    out_eq (in_buf >> 28); in_inc; out_or ((in_buf %% 10) << (14 - 10)); out_inc;
    out_eq ((in_buf >> 10) %% 14); out_inc;
    out_eq (in_buf >> 24); in_inc; out_or ((in_buf %% 6) << (14 - 6)); out_inc;
    out_eq ((in_buf >> 6) %% 14); out_inc;
    out_eq (in_buf >> 20); in_inc; out_or ((in_buf %% 2) << (14 - 2)); out_inc;
    out_eq ((in_buf >> 2) %% 14); out_inc;
    out_eq ((in_buf >> 16) %% 14); out_inc;
    out_eq (in_buf >> 30); in_inc; out_or ((in_buf %% 12) << (14 - 12)); out_inc;
    out_eq ((in_buf >> 12) %% 14); out_inc;
    out_eq (in_buf >> 26); in_inc; out_or ((in_buf %% 8) << (14 - 8)); out_inc;
    out_eq ((in_buf >> 8) %% 14); out_inc;
    out_eq (in_buf >> 22); in_inc; out_or ((in_buf %% 4) << (14 - 4)); out_inc;
    out_eq ((in_buf >> 4) %% 14); out_inc;
    out_eq (in_buf >> 18); in_inc ].

Definition unpack15_32 : list stmt :=
  [ out_eq (in_buf %% 15); out_inc;
    out_eq ((in_buf >> 15) %% 15); out_inc;
    out_eq (in_buf >> 30); in_inc; out_or ((in_buf %% 13) << (15 - 13)); out_inc;
    out_eq ((in_buf >> 13) %% 15); out_inc;
    out_eq (in_buf >> 28); in_inc; out_or ((in_buf %% 11) << (15 - 11)); out_inc;
    out_eq ((in_buf >> 11) %% 15); out_inc;
    out_eq (in_buf >> 26); in_inc; out_or ((in_buf %% 9) << (15 - 9)); out_inc;
    out_eq ((in_buf >> 9) %% 15); out_inc;
    out_eq (in_buf >> 24); in_inc; out_or ((in_buf %% 7) << (15 - 7)); out_inc;
    out_eq ((in_buf >> 7) %% 15); out_inc;
    out_eq (in_buf >> 22); in_inc; out_or ((in_buf %% 5) << (15 - 5)); out_inc;
    out_eq ((in_buf >> 5) %% 15); out_inc;
    out_eq (in_buf >> 20); in_inc; out_or ((in_buf %% 3) << (15 - 3)); out_inc;
    out_eq ((in_buf >> 3) %% 15); out_inc;
    out_eq (in_buf >> 18); in_inc; out_or ((in_buf %% 1) << (15 - 1)); out_inc;
    out_eq ((in_buf >> 1) %% 15); out_inc;
    out_eq ((in_buf >> 16) %% 15); out_inc;
    out_eq (in_buf >> 31); in_inc; out_or ((in_buf %% 14) << (15 - 14)); out_inc;
    out_eq ((in_buf >> 14) %% 15); out_inc;
    out_eq (in_buf >> 29); in_inc; out_or ((in_buf %% 12) << (15 - 12)); out_inc;
    out_eq ((in_buf >> 12) %% 15); out_inc;
    out_eq (in_buf >> 27); in_inc; out_or ((in_buf %% 10) << (15 - 10)); out_inc;
    out_eq ((in_buf >> 10) %% 15); out_inc;
    out_eq (in_buf >> 25); in_inc; out_or ((in_buf %% 8) << (15 - 8)); out_inc;
    out_eq ((in_buf >> 8) %% 15); out_inc;
    out_eq (in_buf >> 23); in_inc; out_or ((in_buf %% 6) << (15 - 6)); out_inc;
    out_eq ((in_buf >> 6) %% 15); out_inc;
    out_eq (in_buf >> 21); in_inc; out_or ((in_buf %% 4) << (15 - 4)); out_inc;
    out_eq ((in_buf >> 4) %% 15); out_inc;
    out_eq (in_buf >> 19); in_inc; out_or ((in_buf %% 2) << (15 - 2)); out_inc;
    out_eq ((in_buf >> 2) %% 15); out_inc;
    out_eq (in_buf >> 17); in_inc ].

Definition unpack16_32 : list stmt :=
  [ out_eq (in_buf %% 16); out_inc;
    out_eq (in_buf >> 16); out_inc;
    in_inc; out_eq (in_buf %% 16); out_inc;
    out_eq (in_buf >> 16); out_inc;
    in_inc; out_eq (in_buf %% 16); out_inc;
    out_eq (in_buf >> 16); out_inc;
    in_inc; out_eq (in_buf %% 16); out_inc;
    out_eq (in_buf >> 16); out_inc;
    in_inc; out_eq (in_buf %% 16); out_inc;
    out_eq (in_buf >> 16); out_inc;
    in_inc; out_eq (in_buf %% 16); out_inc;
    out_eq (in_buf >> 16); out_inc;
    in_inc; out_eq (in_buf %% 16); out_inc;
    out_eq (in_buf >> 16); out_inc;
    in_inc; out_eq (in_buf %% 16); out_inc;
    out_eq (in_buf >> 16); out_inc;
    in_inc; out_eq (in_buf %% 16); out_inc;
    out_eq (in_buf >> 16); out_inc;
    in_inc; out_eq (in_buf %% 16); out_inc;
    out_eq (in_buf >> 16); out_inc;
    in_inc; out_eq (in_buf %% 16); out_inc;
    out_eq (in_buf >> 16); out_inc;
    in_inc; out_eq (in_buf %% 16); out_inc;
    out_eq (in_buf >> 16); out_inc;
    in_inc; out_eq (in_buf %% 16); out_inc;
    out_eq (in_buf >> 16); out_inc;
    in_inc; out_eq (in_buf %% 16); out_inc;
    out_eq (in_buf >> 16); out_inc;
    in_inc; out_eq (in_buf %% 16); out_inc;
    out_eq (in_buf >> 16); out_inc;
    in_inc; out_eq (in_buf %% 16); out_inc;
    out_eq (in_buf >> 16); in_inc ].

Definition unpack17_32 : list stmt :=
  [ out_eq (in_buf %% 17); out_inc;
    out_eq (in_buf >> 17); in_inc; out_or ((in_buf %% 2) << (17 - 2)); out_inc;
    out_eq ((in_buf >> 2) %% 17); out_inc;
    out_eq (in_buf >> 19); in_inc; out_or ((in_buf %% 4) << (17 - 4)); out_inc;
    out_eq ((in_buf >> 4) %% 17); out_inc;
    out_eq (in_buf >> 21); in_inc; out_or ((in_buf %% 6) << (17 - 6)); out_inc;
    out_eq ((in_buf >> 6) %% 17); out_inc;
    out_eq (in_buf >> 23); in_inc; out_or ((in_buf %% 8) << (17 - 8)); out_inc;
    out_eq ((in_buf >> 8) %% 17); out_inc;
    out_eq (in_buf >> 25); in_inc; out_or ((in_buf %% 10) << (17 - 10)); out_inc;
    out_eq ((in_buf >> 10) %% 17); out_inc;
    out_eq (in_buf >> 27); in_inc; out_or ((in_buf %% 12) << (17 - 12)); out_inc;
    out_eq ((in_buf >> 12) %% 17); out_inc;
    out_eq (in_buf >> 29); in_inc; out_or ((in_buf %% 14) << (17 - 14)); out_inc;
    out_eq ((in_buf >> 14) %% 17); out_inc;
    out_eq (in_buf >> 31); in_inc; out_or ((in_buf %% 16) << (17 - 16)); out_inc;
    out_eq (in_buf >> 16); in_inc; out_or ((in_buf %% 1) << (17 - 1)); out_inc;
    out_eq ((in_buf >> 1) %% 17); out_inc;
    out_eq (in_buf >> 18); in_inc; out_or ((in_buf %% 3) << (17 - 3)); out_inc;
    out_eq ((in_buf >> 3) %% 17); out_inc;
    out_eq (in_buf >> 20); in_inc; out_or ((in_buf %% 5) << (17 - 5)); out_inc;
    out_eq ((in_buf >> 5) %% 17); out_inc;
    out_eq (in_buf >> 22); in_inc; out_or ((in_buf %% 7) << (17 - 7)); out_inc;
    out_eq ((in_buf >> 7) %% 17); out_inc;
    out_eq (in_buf >> 24); in_inc; out_or ((in_buf %% 9) << (17 - 9)); out_inc;
    out_eq ((in_buf >> 9) %% 17); out_inc;
    out_eq (in_buf >> 26); in_inc; out_or ((in_buf %% 11) << (17 - 11)); out_inc;
    out_eq ((in_buf >> 11) %% 17); out_inc;
    out_eq (in_buf >> 28); in_inc; out_or ((in_buf %% 13) << (17 - 13)); out_inc;
    out_eq ((in_buf >> 13) %% 17); out_inc;
    out_eq (in_buf >> 30); in_inc; out_or ((in_buf %% 15) << (17 - 15)); out_inc;
    out_eq (in_buf >> 15); in_inc ].

Definition unpack18_32 : list stmt :=
  [ out_eq (in_buf %% 18); out_inc;
    out_eq (in_buf >> 18); in_inc; out_or ((in_buf %% 4) << (18 - 4)); out_inc;
    out_eq ((in_buf >> 4) %% 18); out_inc;
    out_eq (in_buf >> 22); in_inc; out_or ((in_buf %% 8) << (18 - 8)); out_inc;
    out_eq ((in_buf >> 8) %% 18); out_inc;
    out_eq (in_buf >> 26); in_inc; out_or ((in_buf %% 12) << (18 - 12)); out_inc;
    out_eq ((in_buf >> 12) %% 18); out_inc;
    out_eq (in_buf >> 30); in_inc; out_or ((in_buf %% 16) << (18 - 16)); out_inc;
    out_eq (in_buf >> 16); in_inc; out_or ((in_buf %% 2) << (18 - 2)); out_inc;
    out_eq ((in_buf >> 2) %% 18); out_inc;
    out_eq (in_buf >> 20); in_inc; out_or ((in_buf %% 6) << (18 - 6)); out_inc;
    out_eq ((in_buf >> 6) %% 18); out_inc;
    out_eq (in_buf >> 24); in_inc; out_or ((in_buf %% 10) << (18 - 10)); out_inc;
    out_eq ((in_buf >> 10) %% 18); out_inc;
    out_eq (in_buf >> 28); in_inc; out_or ((in_buf %% 14) << (18 - 14)); out_inc;
    out_eq (in_buf >> 14); in_inc; out_inc;
    out_eq (in_buf %% 18); out_inc;
    out_eq (in_buf >> 18); in_inc; out_or ((in_buf %% 4) << (18 - 4)); out_inc;
    out_eq ((in_buf >> 4) %% 18); out_inc;
    out_eq (in_buf >> 22); in_inc; out_or ((in_buf %% 8) << (18 - 8)); out_inc;
    out_eq ((in_buf >> 8) %% 18); out_inc;
    out_eq (in_buf >> 26); in_inc; out_or ((in_buf %% 12) << (18 - 12)); out_inc;
    out_eq ((in_buf >> 12) %% 18); out_inc;
    out_eq (in_buf >> 30); in_inc; out_or ((in_buf %% 16) << (18 - 16)); out_inc;
    out_eq (in_buf >> 16); in_inc; out_or ((in_buf %% 2) << (18 - 2)); out_inc;
    out_eq ((in_buf >> 2) %% 18); out_inc;
    out_eq (in_buf >> 20); in_inc; out_or ((in_buf %% 6) << (18 - 6)); out_inc;
    out_eq ((in_buf >> 6) %% 18); out_inc;
    out_eq (in_buf >> 24); in_inc; out_or ((in_buf %% 10) << (18 - 10)); out_inc;
    out_eq ((in_buf >> 10) %% 18); out_inc;
    out_eq (in_buf >> 28); in_inc; out_or ((in_buf %% 14) << (18 - 14)); out_inc;
    out_eq (in_buf >> 14); in_inc ].

Definition unpack19_32 : list stmt :=
  [ out_eq (in_buf %% 19); out_inc;
    out_eq (in_buf >> 19); in_inc; out_or ((in_buf %% 6) << (19 - 6)); out_inc;
    out_eq ((in_buf >> 6) %% 19); out_inc;
    out_eq (in_buf >> 25); in_inc; out_or ((in_buf %% 12) << (19 - 12)); out_inc;
    out_eq ((in_buf >> 12) %% 19); out_inc;
    out_eq (in_buf >> 31); in_inc; out_or ((in_buf %% 18) << (19 - 18)); out_inc;
    out_eq (in_buf >> 18); in_inc; out_or ((in_buf %% 5) << (19 - 5)); out_inc;
    out_eq ((in_buf >> 5) %% 19); out_inc;
    out_eq (in_buf >> 24); in_inc; out_or ((in_buf %% 11) << (19 - 11)); out_inc;
    out_eq ((in_buf >> 11) %% 19); out_inc;
    out_eq (in_buf >> 30); in_inc; out_or ((in_buf %% 17) << (19 - 17)); out_inc;
    out_eq (in_buf >> 17); in_inc; out_or ((in_buf %% 4) << (19 - 4)); out_inc;
    out_eq ((in_buf >> 4) %% 19); out_inc;
    out_eq (in_buf >> 23); in_inc; out_or ((in_buf %% 10) << (19 - 10)); out_inc;
    out_eq ((in_buf >> 10) %% 19); out_inc;
    out_eq (in_buf >> 29); in_inc; out_or ((in_buf %% 16) << (19 - 16)); out_inc;
    out_eq (in_buf >> 16); in_inc; out_or ((in_buf %% 3) << (19 - 3)); out_inc;
    out_eq ((in_buf >> 3) %% 19); out_inc;
    out_eq (in_buf >> 22); in_inc; out_or ((in_buf %% 9) << (19 - 9)); out_inc;
    out_eq ((in_buf >> 9) %% 19); out_inc;
    out_eq (in_buf >> 28); in_inc; out_or ((in_buf %% 15) << (19 - 15)); out_inc;
    out_eq (in_buf >> 15); in_inc; out_or ((in_buf %% 2) << (19 - 2)); out_inc;
    out_eq ((in_buf >> 2) %% 19); out_inc;
    out_eq (in_buf >> 21); in_inc; out_or ((in_buf %% 8) << (19 - 8)); out_inc;
    out_eq ((in_buf >> 8) %% 19); out_inc;
    out_eq (in_buf >> 27); in_inc; out_or ((in_buf %% 14) << (19 - 14)); out_inc;
    out_eq (in_buf >> 14); in_inc; out_or ((in_buf %% 1) << (19 - 1)); out_inc;
    out_eq ((in_buf >> 1) %% 19); out_inc;
    out_eq (in_buf >> 20); in_inc; out_or ((in_buf %% 7) << (19 - 7)); out_inc;
    out_eq ((in_buf >> 7) %% 19); out_inc;
    out_eq (in_buf >> 26); in_inc; out_or ((in_buf %% 13) << (19 - 13)); out_inc;
    out_eq (in_buf >> 13); in_inc ].

Definition unpack20_32 : list stmt :=
  [ out_eq (in_buf %% 20); out_inc;
    out_eq (in_buf >> 20); in_inc; out_or ((in_buf %% 8) << (20 - 8)); out_inc;
    out_eq ((in_buf >> 8) %% 20); out_inc;
    out_eq (in_buf >> 28); in_inc; out_or ((in_buf %% 16) << (20 - 16)); out_inc;
    out_eq (in_buf >> 16); in_inc; out_or ((in_buf %% 4) << (20 - 4)); out_inc;
    out_eq ((in_buf >> 4) %% 20); out_inc;
    out_eq (in_buf >> 24); in_inc; out_or ((in_buf %% 12) << (20 - 12)); out_inc;
    out_eq (in_buf >> 12); in_inc; out_inc;
    out_eq (in_buf %% 20); out_inc;
    out_eq (in_buf >> 20); in_inc; out_or ((in_buf %% 8) << (20 - 8)); out_inc;
    out_eq ((in_buf >> 8) %% 20); out_inc;
    out_eq (in_buf >> 28); in_inc; out_or ((in_buf %% 16) << (20 - 16)); out_inc;
    out_eq (in_buf >> 16); in_inc; out_or ((in_buf %% 4) << (20 - 4)); out_inc;
    out_eq ((in_buf >> 4) %% 20); out_inc;
    out_eq (in_buf >> 24); in_inc; out_or ((in_buf %% 12) << (20 - 12)); out_inc;
    out_eq (in_buf >> 12); in_inc; out_inc;
    out_eq (in_buf %% 20); out_inc;
    out_eq (in_buf >> 20); in_inc; out_or ((in_buf %% 8) << (20 - 8)); out_inc;
    out_eq ((in_buf >> 8) %% 20); out_inc;
    out_eq (in_buf >> 28); in_inc; out_or ((in_buf %% 16) << (20 - 16)); out_inc;
    out_eq (in_buf >> 16); in_inc; out_or ((in_buf %% 4) << (20 - 4)); out_inc;
    out_eq ((in_buf >> 4) %% 20); out_inc;
    out_eq (in_buf >> 24); in_inc; out_or ((in_buf %% 12) << (20 - 12)); out_inc;
    out_eq (in_buf >> 12); in_inc; out_inc;
    out_eq (in_buf %% 20); out_inc;
    out_eq (in_buf >> 20); in_inc; out_or ((in_buf %% 8) << (20 - 8)); out_inc;
    out_eq ((in_buf >> 8) %% 20); out_inc;
    out_eq (in_buf >> 28); in_inc; out_or ((in_buf %% 16) << (20 - 16)); out_inc;
    out_eq (in_buf >> 16); in_inc; out_or ((in_buf %% 4) << (20 - 4)); out_inc;
    out_eq ((in_buf >> 4) %% 20); out_inc;
    out_eq (in_buf >> 24); in_inc; out_or ((in_buf %% 12) << (20 - 12)); out_inc;
    out_eq (in_buf >> 12); in_inc ].

Definition unpack21_32 : list stmt :=
  [ out_eq (in_buf %% 21); out_inc;
    out_eq (in_buf >> 21); in_inc; out_or ((in_buf %% 10) << (21 - 10)); out_inc;
    out_eq ((in_buf >> 10) %% 21); out_inc;
    out_eq (in_buf >> 31); in_inc; out_or ((in_buf %% 20) << (21 - 20)); out_inc;
    out_eq (in_buf >> 20); in_inc; out_or ((in_buf %% 9) << (21 - 9)); out_inc;
    out_eq ((in_buf >> 9) %% 21); out_inc;
    out_eq (in_buf >> 30); in_inc; out_or ((in_buf %% 19) << (21 - 19)); out_inc;
    out_eq (in_buf >> 19); in_inc; out_or ((in_buf %% 8) << (21 - 8)); out_inc;
    out_eq ((in_buf >> 8) %% 21); out_inc;
    out_eq (in_buf >> 29); in_inc; out_or ((in_buf %% 18) << (21 - 18)); out_inc;
    out_eq (in_buf >> 18); in_inc; out_or ((in_buf %% 7) << (21 - 7)); out_inc;
    out_eq ((in_buf >> 7) %% 21); out_inc;
    out_eq (in_buf >> 28); in_inc; out_or ((in_buf %% 17) << (21 - 17)); out_inc;
    out_eq (in_buf >> 17); in_inc; out_or ((in_buf %% 6) << (21 - 6)); out_inc;
    out_eq ((in_buf >> 6) %% 21); out_inc;
    out_eq (in_buf >> 27); in_inc; out_or ((in_buf %% 16) << (21 - 16)); out_inc;
    out_eq (in_buf >> 16); in_inc; out_or ((in_buf %% 5) << (21 - 5)); out_inc;
    out_eq ((in_buf >> 5) %% 21); out_inc;
    out_eq (in_buf >> 26); in_inc; out_or ((in_buf %% 15) << (21 - 15)); out_inc;
    out_eq (in_buf >> 15); in_inc; out_or ((in_buf %% 4) << (21 - 4)); out_inc;
    out_eq ((in_buf >> 4) %% 21); out_inc;
    out_eq (in_buf >> 25); in_inc; out_or ((in_buf %% 14) << (21 - 14)); out_inc;
    out_eq (in_buf >> 14); in_inc; out_or ((in_buf %% 3) << (21 - 3)); out_inc;
    out_eq ((in_buf >> 3) %% 21); out_inc;
    out_eq (in_buf >> 24); in_inc; out_or ((in_buf %% 13) << (21 - 13)); out_inc;
    out_eq (in_buf >> 13); in_inc; out_or ((in_buf %% 2) << (21 - 2)); out_inc;
    out_eq ((in_buf >> 2) %% 21); out_inc;
    out_eq (in_buf >> 23); in_inc; out_or ((in_buf %% 12) << (21 - 12)); out_inc;
    out_eq (in_buf >> 12); in_inc; out_or ((in_buf %% 1) << (21 - 1)); out_inc;
    out_eq ((in_buf >> 1) %% 21); out_inc;
    out_eq (in_buf >> 22); in_inc; out_or ((in_buf %% 11) << (21 - 11)); out_inc;
    out_eq (in_buf >> 11); in_inc ].

Definition unpack22_32 : list stmt :=
  [ out_eq (in_buf %% 22); out_inc;
    out_eq (in_buf >> 22); in_inc; out_or ((in_buf %% 12) << (22 - 12)); out_inc;
    out_eq (in_buf >> 12); in_inc; out_or ((in_buf %% 2) << (22 - 2)); out_inc;
    out_eq ((in_buf >> 2) %% 22); out_inc;
    out_eq (in_buf >> 24); in_inc; out_or ((in_buf %% 14) << (22 - 14)); out_inc;
    out_eq (in_buf >> 14); in_inc; out_or ((in_buf %% 4) << (22 - 4)); out_inc;
    out_eq ((in_buf >> 4) %% 22); out_inc;
    out_eq (in_buf >> 26); in_inc; out_or ((in_buf %% 16) << (22 - 16)); out_inc;
    out_eq (in_buf >> 16); in_inc; out_or ((in_buf %% 6) << (22 - 6)); out_inc;
    out_eq ((in_buf >> 6) %% 22); out_inc;
    out_eq (in_buf >> 28); in_inc; out_or ((in_buf %% 18) << (22 - 18)); out_inc;
    out_eq (in_buf >> 18); in_inc; out_or ((in_buf %% 8) << (22 - 8)); out_inc;
    out_eq ((in_buf >> 8) %% 22); out_inc;
    out_eq (in_buf >> 30); in_inc; out_or ((in_buf %% 20) << (22 - 20)); out_inc;
    out_eq (in_buf >> 20); in_inc; out_or ((in_buf %% 10) << (22 - 10)); out_inc;
    out_eq (in_buf >> 10); in_inc; out_inc;
    out_eq (in_buf %% 22); out_inc;
    out_eq (in_buf >> 22); in_inc; out_or ((in_buf %% 12) << (22 - 12)); out_inc;
    out_eq (in_buf >> 12); in_inc; out_or ((in_buf %% 2) << (22 - 2)); out_inc;
    out_eq ((in_buf >> 2) %% 22); out_inc;
    out_eq (in_buf >> 24); in_inc; out_or ((in_buf %% 14) << (22 - 14)); out_inc;
    out_eq (in_buf >> 14); in_inc; out_or ((in_buf %% 4) << (22 - 4)); out_inc;
    out_eq ((in_buf >> 4) %% 22); out_inc;
    out_eq (in_buf >> 26); in_inc; out_or ((in_buf %% 16) << (22 - 16)); out_inc;
    out_eq (in_buf >> 16); in_inc; out_or ((in_buf %% 6) << (22 - 6)); out_inc;
    out_eq ((in_buf >> 6) %% 22); out_inc;
    out_eq (in_buf >> 28); in_inc; out_or ((in_buf %% 18) << (22 - 18)); out_inc;
    out_eq (in_buf >> 18); in_inc; out_or ((in_buf %% 8) << (22 - 8)); out_inc;
    out_eq ((in_buf >> 8) %% 22); out_inc;
    out_eq (in_buf >> 30); in_inc; out_or ((in_buf %% 20) << (22 - 20)); out_inc;
    out_eq (in_buf >> 20); in_inc; out_or ((in_buf %% 10) << (22 - 10)); out_inc;
    out_eq (in_buf >> 10); in_inc ].

Definition unpack23_32 : list stmt :=
  [ out_eq (in_buf %% 23); out_inc;
    out_eq (in_buf >> 23); in_inc; out_or ((in_buf %% 14) << (23 - 14)); out_inc;
    out_eq (in_buf >> 14); in_inc; out_or ((in_buf %% 5) << (23 - 5)); out_inc;
    out_eq ((in_buf >> 5) %% 23); out_inc;
    out_eq (in_buf >> 28); in_inc; out_or ((in_buf %% 19) << (23 - 19)); out_inc;
    out_eq (in_buf >> 19); in_inc; out_or ((in_buf %% 10) << (23 - 10)); out_inc;
    out_eq (in_buf >> 10); in_inc; out_or ((in_buf %% 1) << (23 - 1)); out_inc;
    out_eq ((in_buf >> 1) %% 23); out_inc;
    out_eq (in_buf >> 24); in_inc; out_or ((in_buf %% 15) << (23 - 15)); out_inc;
    out_eq (in_buf >> 15); in_inc; out_or ((in_buf %% 6) << (23 - 6)); out_inc;
    out_eq ((in_buf >> 6) %% 23); out_inc;
    out_eq (in_buf >> 29); in_inc; out_or ((in_buf %% 20) << (23 - 20)); out_inc;
    out_eq (in_buf >> 20); in_inc; out_or ((in_buf %% 11) << (23 - 11)); out_inc;
    out_eq (in_buf >> 11); in_inc; out_or ((in_buf %% 2) << (23 - 2)); out_inc;
    out_eq ((in_buf >> 2) %% 23); out_inc;
    out_eq (in_buf >> 25); in_inc; out_or ((in_buf %% 16) << (23 - 16)); out_inc;
    out_eq (in_buf >> 16); in_inc; out_or ((in_buf %% 7) << (23 - 7)); out_inc;
    out_eq ((in_buf >> 7) %% 23); out_inc;
    out_eq (in_buf >> 30); in_inc; out_or ((in_buf %% 21) << (23 - 21)); out_inc;
    out_eq (in_buf >> 21); in_inc; out_or ((in_buf %% 12) << (23 - 12)); out_inc;
    out_eq (in_buf >> 12); in_inc; out_or ((in_buf %% 3) << (23 - 3)); out_inc;
    out_eq ((in_buf >> 3) %% 23); out_inc;
    out_eq (in_buf >> 26); in_inc; out_or ((in_buf %% 17) << (23 - 17)); out_inc;
    out_eq (in_buf >> 17); in_inc; out_or ((in_buf %% 8) << (23 - 8)); out_inc;
    out_eq ((in_buf >> 8) %% 23); out_inc;
    out_eq (in_buf >> 31); in_inc; out_or ((in_buf %% 22) << (23 - 22)); out_inc;
    out_eq (in_buf >> 22); in_inc; out_or ((in_buf %% 13) << (23 - 13)); out_inc;
    out_eq (in_buf >> 13); in_inc; out_or ((in_buf %% 4) << (23 - 4)); out_inc;
    out_eq ((in_buf >> 4) %% 23); out_inc;
    out_eq (in_buf >> 27); in_inc; out_or ((in_buf %% 18) << (23 - 18)); out_inc;
    out_eq (in_buf >> 18); in_inc; out_or ((in_buf %% 9) << (23 - 9)); out_inc;
    out_eq (in_buf >> 9); in_inc ].

Definition unpack24_32 : list stmt :=
  [ out_eq (in_buf %% 24); out_inc;
    out_eq (in_buf >> 24); in_inc; out_or ((in_buf %% 16) << (24 - 16)); out_inc;
    out_eq (in_buf >> 16); in_inc; out_or ((in_buf %% 8) << (24 - 8)); out_inc;
    out_eq (in_buf >> 8); in_inc; out_inc;
    out_eq (in_buf %% 24); out_inc;
    out_eq (in_buf >> 24); in_inc; out_or ((in_buf %% 16) << (24 - 16)); out_inc;
    out_eq (in_buf >> 16); in_inc; out_or ((in_buf %% 8) << (24 - 8)); out_inc;
    out_eq (in_buf >> 8); in_inc; out_inc;
    out_eq (in_buf %% 24); out_inc;
    out_eq (in_buf >> 24); in_inc; out_or ((in_buf %% 16) << (24 - 16)); out_inc;
    out_eq (in_buf >> 16); in_inc; out_or ((in_buf %% 8) << (24 - 8)); out_inc;
    out_eq (in_buf >> 8); in_inc; out_inc;
    out_eq (in_buf %% 24); out_inc;
    out_eq (in_buf >> 24); in_inc; out_or ((in_buf %% 16) << (24 - 16)); out_inc;
    out_eq (in_buf >> 16); in_inc; out_or ((in_buf %% 8) << (24 - 8)); out_inc;
    out_eq (in_buf >> 8); in_inc; out_inc;
    out_eq (in_buf %% 24); out_inc;
    out_eq (in_buf >> 24); in_inc; out_or ((in_buf %% 16) << (24 - 16)); out_inc;
    out_eq (in_buf >> 16); in_inc; out_or ((in_buf %% 8) << (24 - 8)); out_inc;
    out_eq (in_buf >> 8); in_inc; out_inc;
    out_eq (in_buf %% 24); out_inc;
    out_eq (in_buf >> 24); in_inc; out_or ((in_buf %% 16) << (24 - 16)); out_inc;
    out_eq (in_buf >> 16); in_inc; out_or ((in_buf %% 8) << (24 - 8)); out_inc;
    out_eq (in_buf >> 8); in_inc; out_inc;
    out_eq (in_buf %% 24); out_inc;
    out_eq (in_buf >> 24); in_inc; out_or ((in_buf %% 16) << (24 - 16)); out_inc;
    out_eq (in_buf >> 16); in_inc; out_or ((in_buf %% 8) << (24 - 8)); out_inc;
    out_eq (in_buf >> 8); in_inc; out_inc;
    out_eq (in_buf %% 24); out_inc;
    out_eq (in_buf >> 24); in_inc; out_or ((in_buf %% 16) << (24 - 16)); out_inc;
    out_eq (in_buf >> 16); in_inc; out_or ((in_buf %% 8) << (24 - 8)); out_inc;
    out_eq (in_buf >> 8); in_inc ].

Definition unpack25_32 : list stmt :=
  [ out_eq (in_buf %% 25); out_inc;
    out_eq (in_buf >> 25); in_inc; out_or ((in_buf %% 18) << (25 - 18)); out_inc;
    out_eq (in_buf >> 18); in_inc; out_or ((in_buf %% 11) << (25 - 11)); out_inc;
    out_eq (in_buf >> 11); in_inc; out_or ((in_buf %% 4) << (25 - 4)); out_inc;
    out_eq ((in_buf >> 4) %% 25); out_inc;
    out_eq (in_buf >> 29); in_inc; out_or ((in_buf %% 22) << (25 - 22)); out_inc;
    out_eq (in_buf >> 22); in_inc; out_or ((in_buf %% 15) << (25 - 15)); out_inc;
    out_eq (in_buf >> 15); in_inc; out_or ((in_buf %% 8) << (25 - 8)); out_inc;
    out_eq (in_buf >> 8); in_inc; out_or ((in_buf %% 1) << (25 - 1)); out_inc;
    out_eq ((in_buf >> 1) %% 25); out_inc;
    out_eq (in_buf >> 26); in_inc; out_or ((in_buf %% 19) << (25 - 19)); out_inc;
    out_eq (in_buf >> 19); in_inc; out_or ((in_buf %% 12) << (25 - 12)); out_inc;
    out_eq (in_buf >> 12); in_inc; out_or ((in_buf %% 5) << (25 - 5)); out_inc;
    out_eq ((in_buf >> 5) %% 25); out_inc;
    out_eq (in_buf >> 30); in_inc; out_or ((in_buf %% 23) << (25 - 23)); out_inc;
    out_eq (in_buf >> 23); in_inc; out_or ((in_buf %% 16) << (25 - 16)); out_inc;
    out_eq (in_buf >> 16); in_inc; out_or ((in_buf %% 9) << (25 - 9)); out_inc;
    out_eq (in_buf >> 9); in_inc; out_or ((in_buf %% 2) << (25 - 2)); out_inc;
    out_eq ((in_buf >> 2) %% 25); out_inc;
    out_eq (in_buf >> 27); in_inc; out_or ((in_buf %% 20) << (25 - 20)); out_inc;
    out_eq (in_buf >> 20); in_inc; out_or ((in_buf %% 13) << (25 - 13)); out_inc;
    out_eq (in_buf >> 13); in_inc; out_or ((in_buf %% 6) << (25 - 6)); out_inc;
    out_eq ((in_buf >> 6) %% 25); out_inc;
    out_eq (in_buf >> 31); in_inc; out_or ((in_buf %% 24) << (25 - 24)); out_inc;
    out_eq (in_buf >> 24); in_inc; out_or ((in_buf %% 17) << (25 - 17)); out_inc;
    out_eq (in_buf >> 17); in_inc; out_or ((in_buf %% 10) << (25 - 10)); out_inc;
    out_eq (in_buf >> 10); in_inc; out_or ((in_buf %% 3) << (25 - 3)); out_inc;
    out_eq ((in_buf >> 3) %% 25); out_inc;
    out_eq (in_buf >> 28); in_inc; out_or ((in_buf %% 21) << (25 - 21)); out_inc;
    out_eq (in_buf >> 21); in_inc; out_or ((in_buf %% 14) << (25 - 14)); out_inc;
    out_eq (in_buf >> 14); in_inc; out_or ((in_buf %% 7) << (25 - 7)); out_inc;
    out_eq (in_buf >> 7); in_inc ].

Definition unpack26_32 : list stmt :=
  [ out_eq (in_buf %% 26); out_inc;
    out_eq (in_buf >> 26); in_inc; out_or ((in_buf %% 20) << (26 - 20)); out_inc;
    out_eq (in_buf >> 20); in_inc; out_or ((in_buf %% 14) << (26 - 14)); out_inc;
    out_eq (in_buf >> 14); in_inc; out_or ((in_buf %% 8) << (26 - 8)); out_inc;
    out_eq (in_buf >> 8); in_inc; out_or ((in_buf %% 2) << (26 - 2)); out_inc;
    out_eq ((in_buf >> 2) %% 26); out_inc;
    out_eq (in_buf >> 28); in_inc; out_or ((in_buf %% 22) << (26 - 22)); out_inc;
    out_eq (in_buf >> 22); in_inc; out_or ((in_buf %% 16) << (26 - 16)); out_inc;
    out_eq (in_buf >> 16); in_inc; out_or ((in_buf %% 10) << (26 - 10)); out_inc;
    out_eq (in_buf >> 10); in_inc; out_or ((in_buf %% 4) << (26 - 4)); out_inc;
    out_eq ((in_buf >> 4) %% 26); out_inc;
    out_eq (in_buf >> 30); in_inc; out_or ((in_buf %% 24) << (26 - 24)); out_inc;
    out_eq (in_buf >> 24); in_inc; out_or ((in_buf %% 18) << (26 - 18)); out_inc;
    out_eq (in_buf >> 18); in_inc; out_or ((in_buf %% 12) << (26 - 12)); out_inc;
    out_eq (in_buf >> 12); in_inc; out_or ((in_buf %% 6) << (26 - 6)); out_inc;
    out_eq (in_buf >> 6); in_inc; out_inc;
    out_eq (in_buf %% 26); out_inc;
    out_eq (in_buf >> 26); in_inc; out_or ((in_buf %% 20) << (26 - 20)); out_inc;
    out_eq (in_buf >> 20); in_inc; out_or ((in_buf %% 14) << (26 - 14)); out_inc;
    out_eq (in_buf >> 14); in_inc; out_or ((in_buf %% 8) << (26 - 8)); out_inc;
    out_eq (in_buf >> 8); in_inc; out_or ((in_buf %% 2) << (26 - 2)); out_inc;
    out_eq ((in_buf >> 2) %% 26); out_inc;
    out_eq (in_buf >> 28); in_inc; out_or ((in_buf %% 22) << (26 - 22)); out_inc;
    out_eq (in_buf >> 22); in_inc; out_or ((in_buf %% 16) << (26 - 16)); out_inc;
    out_eq (in_buf >> 16); in_inc; out_or ((in_buf %% 10) << (26 - 10)); out_inc;
    out_eq (in_buf >> 10); in_inc; out_or ((in_buf %% 4) << (26 - 4)); out_inc;
    out_eq ((in_buf >> 4) %% 26); out_inc;
    out_eq (in_buf >> 30); in_inc; out_or ((in_buf %% 24) << (26 - 24)); out_inc;
    out_eq (in_buf >> 24); in_inc; out_or ((in_buf %% 18) << (26 - 18)); out_inc;
    out_eq (in_buf >> 18); in_inc; out_or ((in_buf %% 12) << (26 - 12)); out_inc;
    out_eq (in_buf >> 12); in_inc; out_or ((in_buf %% 6) << (26 - 6)); out_inc;
    out_eq (in_buf >> 6); in_inc ].

Definition unpack27_32 : list stmt :=
  [ out_eq (in_buf %% 27); out_inc;
    out_eq (in_buf >> 27); in_inc; out_or ((in_buf %% 22) << (27 - 22)); out_inc;
    out_eq (in_buf >> 22); in_inc; out_or ((in_buf %% 17) << (27 - 17)); out_inc;
    out_eq (in_buf >> 17); in_inc; out_or ((in_buf %% 12) << (27 - 12)); out_inc;
    out_eq (in_buf >> 12); in_inc; out_or ((in_buf %% 7) << (27 - 7)); out_inc;
    out_eq (in_buf >> 7); in_inc; out_or ((in_buf %% 2) << (27 - 2)); out_inc;
    out_eq ((in_buf >> 2) %% 27); out_inc;
    out_eq (in_buf >> 29); in_inc; out_or ((in_buf %% 24) << (27 - 24)); out_inc;
    out_eq (in_buf >> 24); in_inc; out_or ((in_buf %% 19) << (27 - 19)); out_inc;
    out_eq (in_buf >> 19); in_inc; out_or ((in_buf %% 14) << (27 - 14)); out_inc;
    out_eq (in_buf >> 14); in_inc; out_or ((in_buf %% 9) << (27 - 9)); out_inc;
    out_eq (in_buf >> 9); in_inc; out_or ((in_buf %% 4) << (27 - 4)); out_inc;
    out_eq ((in_buf >> 4) %% 27); out_inc;
    out_eq (in_buf >> 31); in_inc; out_or ((in_buf %% 26) << (27 - 26)); out_inc;
    out_eq (in_buf >> 26); in_inc; out_or ((in_buf %% 21) << (27 - 21)); out_inc;
    out_eq (in_buf >> 21); in_inc; out_or ((in_buf %% 16) << (27 - 16)); out_inc;
    out_eq (in_buf >> 16); in_inc; out_or ((in_buf %% 11) << (27 - 11)); out_inc;
    out_eq (in_buf >> 11); in_inc; out_or ((in_buf %% 6) << (27 - 6)); out_inc;
    out_eq (in_buf >> 6); in_inc; out_or ((in_buf %% 1) << (27 - 1)); out_inc;
    out_eq ((in_buf >> 1) %% 27); out_inc;
    out_eq (in_buf >> 28); in_inc; out_or ((in_buf %% 23) << (27 - 23)); out_inc;
    out_eq (in_buf >> 23); in_inc; out_or ((in_buf %% 18) << (27 - 18)); out_inc;
    out_eq (in_buf >> 18); in_inc; out_or ((in_buf %% 13) << (27 - 13)); out_inc;
    out_eq (in_buf >> 13); in_inc; out_or ((in_buf %% 8) << (27 - 8)); out_inc;
    out_eq (in_buf >> 8); in_inc; out_or ((in_buf %% 3) << (27 - 3)); out_inc;
    out_eq ((in_buf >> 3) %% 27); out_inc;
    out_eq (in_buf >> 30); in_inc; out_or ((in_buf %% 25) << (27 - 25)); out_inc;
    out_eq (in_buf >> 25); in_inc; out_or ((in_buf %% 20) << (27 - 20)); out_inc;
    out_eq (in_buf >> 20); in_inc; out_or ((in_buf %% 15) << (27 - 15)); out_inc;
    out_eq (in_buf >> 15); in_inc; out_or ((in_buf %% 10) << (27 - 10)); out_inc;
    out_eq (in_buf >> 10); in_inc; out_or ((in_buf %% 5) << (27 - 5)); out_inc;
    out_eq (in_buf >> 5); in_inc ].

Definition unpack28_32 : list stmt :=
  [ out_eq (in_buf %% 28); out_inc;
    out_eq (in_buf >> 28); in_inc; out_or ((in_buf %% 24) << (28 - 24)); out_inc;
    out_eq (in_buf >> 24); in_inc; out_or ((in_buf %% 20) << (28 - 20)); out_inc;
    out_eq (in_buf >> 20); in_inc; out_or ((in_buf %% 16) << (28 - 16)); out_inc;
    out_eq (in_buf >> 16); in_inc; out_or ((in_buf %% 12) << (28 - 12)); out_inc;
    out_eq (in_buf >> 12); in_inc; out_or ((in_buf %% 8) << (28 - 8)); out_inc;
    out_eq (in_buf >> 8); in_inc; out_or ((in_buf %% 4) << (28 - 4)); out_inc;
    out_eq (in_buf >> 4); in_inc; out_inc;
    out_eq (in_buf %% 28); out_inc;
    out_eq (in_buf >> 28); in_inc; out_or ((in_buf %% 24) << (28 - 24)); out_inc;
    out_eq (in_buf >> 24); in_inc; out_or ((in_buf %% 20) << (28 - 20)); out_inc;
    out_eq (in_buf >> 20); in_inc; out_or ((in_buf %% 16) << (28 - 16)); out_inc;
    out_eq (in_buf >> 16); in_inc; out_or ((in_buf %% 12) << (28 - 12)); out_inc;
    out_eq (in_buf >> 12); in_inc; out_or ((in_buf %% 8) << (28 - 8)); out_inc;
    out_eq (in_buf >> 8); in_inc; out_or ((in_buf %% 4) << (28 - 4)); out_inc;
    out_eq (in_buf >> 4); in_inc; out_inc;
    out_eq (in_buf %% 28); out_inc;
    out_eq (in_buf >> 28); in_inc; out_or ((in_buf %% 24) << (28 - 24)); out_inc;
    out_eq (in_buf >> 24); in_inc; out_or ((in_buf %% 20) << (28 - 20)); out_inc;
    out_eq (in_buf >> 20); in_inc; out_or ((in_buf %% 16) << (28 - 16)); out_inc;
    out_eq (in_buf >> 16); in_inc; out_or ((in_buf %% 12) << (28 - 12)); out_inc;
    out_eq (in_buf >> 12); in_inc; out_or ((in_buf %% 8) << (28 - 8)); out_inc;
    out_eq (in_buf >> 8); in_inc; out_or ((in_buf %% 4) << (28 - 4)); out_inc;
    out_eq (in_buf >> 4); in_inc; out_inc;
    out_eq (in_buf %% 28); out_inc;
    out_eq (in_buf >> 28); in_inc; out_or ((in_buf %% 24) << (28 - 24)); out_inc;
    out_eq (in_buf >> 24); in_inc; out_or ((in_buf %% 20) << (28 - 20)); out_inc;
    out_eq (in_buf >> 20); in_inc; out_or ((in_buf %% 16) << (28 - 16)); out_inc;
    out_eq (in_buf >> 16); in_inc; out_or ((in_buf %% 12) << (28 - 12)); out_inc;
    out_eq (in_buf >> 12); in_inc; out_or ((in_buf %% 8) << (28 - 8)); out_inc;
    out_eq (in_buf >> 8); in_inc; out_or ((in_buf %% 4) << (28 - 4)); out_inc;
    out_eq (in_buf >> 4); in_inc ].

Definition unpack29_32 : list stmt :=
  [ out_eq (in_buf %% 29); out_inc;
    out_eq (in_buf >> 29); in_inc; out_or ((in_buf %% 26) << (29 - 26)); out_inc;
    out_eq (in_buf >> 26); in_inc; out_or ((in_buf %% 23) << (29 - 23)); out_inc;
    out_eq (in_buf >> 23); in_inc; out_or ((in_buf %% 20) << (29 - 20)); out_inc;
    out_eq (in_buf >> 20); in_inc; out_or ((in_buf %% 17) << (29 - 17)); out_inc;
    out_eq (in_buf >> 17); in_inc; out_or ((in_buf %% 14) << (29 - 14)); out_inc;
    out_eq (in_buf >> 14); in_inc; out_or ((in_buf %% 11) << (29 - 11)); out_inc;
    out_eq (in_buf >> 11); in_inc; out_or ((in_buf %% 8) << (29 - 8)); out_inc;
    out_eq (in_buf >> 8); in_inc; out_or ((in_buf %% 5) << (29 - 5)); out_inc;
    out_eq (in_buf >> 5); in_inc; out_or ((in_buf %% 2) << (29 - 2)); out_inc;
    out_eq ((in_buf >> 2) %% 29); out_inc;
    out_eq (in_buf >> 31); in_inc; out_or ((in_buf %% 28) << (29 - 28)); out_inc;
    out_eq (in_buf >> 28); in_inc; out_or ((in_buf %% 25) << (29 - 25)); out_inc;
    out_eq (in_buf >> 25); in_inc; out_or ((in_buf %% 22) << (29 - 22)); out_inc;
    out_eq (in_buf >> 22); in_inc; out_or ((in_buf %% 19) << (29 - 19)); out_inc;
    out_eq (in_buf >> 19); in_inc; out_or ((in_buf %% 16) << (29 - 16)); out_inc;
    out_eq (in_buf >> 16); in_inc; out_or ((in_buf %% 13) << (29 - 13)); out_inc;
    out_eq (in_buf >> 13); in_inc; out_or ((in_buf %% 10) << (29 - 10)); out_inc;
    out_eq (in_buf >> 10); in_inc; out_or ((in_buf %% 7) << (29 - 7)); out_inc;
    out_eq (in_buf >> 7); in_inc; out_or ((in_buf %% 4) << (29 - 4)); out_inc;
    out_eq (in_buf >> 4); in_inc; out_or ((in_buf %% 1) << (29 - 1)); out_inc;
    out_eq ((in_buf >> 1) %% 29); out_inc;
    out_eq (in_buf >> 30); in_inc; out_or ((in_buf %% 27) << (29 - 27)); out_inc;
    out_eq (in_buf >> 27); in_inc; out_or ((in_buf %% 24) << (29 - 24)); out_inc;
    out_eq (in_buf >> 24); in_inc; out_or ((in_buf %% 21) << (29 - 21)); out_inc;
    out_eq (in_buf >> 21); in_inc; out_or ((in_buf %% 18) << (29 - 18)); out_inc;
    out_eq (in_buf >> 18); in_inc; out_or ((in_buf %% 15) << (29 - 15)); out_inc;
    out_eq (in_buf >> 15); in_inc; out_or ((in_buf %% 12) << (29 - 12)); out_inc;
    out_eq (in_buf >> 12); in_inc; out_or ((in_buf %% 9) << (29 - 9)); out_inc;
    out_eq (in_buf >> 9); in_inc; out_or ((in_buf %% 6) << (29 - 6)); out_inc;
    out_eq (in_buf >> 6); in_inc; out_or ((in_buf %% 3) << (29 - 3)); out_inc;
    out_eq (in_buf >> 3); in_inc ].

Definition unpack30_32 : list stmt :=
  [ out_eq (in_buf %% 30); out_inc;
    out_eq (in_buf >> 30); in_inc; out_or ((in_buf %% 28) << (30 - 28)); out_inc;
    out_eq (in_buf >> 28); in_inc; out_or ((in_buf %% 26) << (30 - 26)); out_inc;
    out_eq (in_buf >> 26); in_inc; out_or ((in_buf %% 24) << (30 - 24)); out_inc;
    out_eq (in_buf >> 24); in_inc; out_or ((in_buf %% 22) << (30 - 22)); out_inc;
    out_eq (in_buf >> 22); in_inc; out_or ((in_buf %% 20) << (30 - 20)); out_inc;
    out_eq (in_buf >> 20); in_inc; out_or ((in_buf %% 18) << (30 - 18)); out_inc;
    out_eq (in_buf >> 18); in_inc; out_or ((in_buf %% 16) << (30 - 16)); out_inc;
    out_eq (in_buf >> 16); in_inc; out_or ((in_buf %% 14) << (30 - 14)); out_inc;
    out_eq (in_buf >> 14); in_inc; out_or ((in_buf %% 12) << (30 - 12)); out_inc;
    out_eq (in_buf >> 12); in_inc; out_or ((in_buf %% 10) << (30 - 10)); out_inc;
    out_eq (in_buf >> 10); in_inc; out_or ((in_buf %% 8) << (30 - 8)); out_inc;
    out_eq (in_buf >> 8); in_inc; out_or ((in_buf %% 6) << (30 - 6)); out_inc;
    out_eq (in_buf >> 6); in_inc; out_or ((in_buf %% 4) << (30 - 4)); out_inc;
    out_eq (in_buf >> 4); in_inc; out_or ((in_buf %% 2) << (30 - 2)); out_inc;
    out_eq (in_buf >> 2); in_inc; out_inc;
    out_eq (in_buf %% 30); out_inc;
    out_eq (in_buf >> 30); in_inc; out_or ((in_buf %% 28) << (30 - 28)); out_inc;
    out_eq (in_buf >> 28); in_inc; out_or ((in_buf %% 26) << (30 - 26)); out_inc;
    out_eq (in_buf >> 26); in_inc; out_or ((in_buf %% 24) << (30 - 24)); out_inc;
    out_eq (in_buf >> 24); in_inc; out_or ((in_buf %% 22) << (30 - 22)); out_inc;
    out_eq (in_buf >> 22); in_inc; out_or ((in_buf %% 20) << (30 - 20)); out_inc;
    out_eq (in_buf >> 20); in_inc; out_or ((in_buf %% 18) << (30 - 18)); out_inc;
    out_eq (in_buf >> 18); in_inc; out_or ((in_buf %% 16) << (30 - 16)); out_inc;
    out_eq (in_buf >> 16); in_inc; out_or ((in_buf %% 14) << (30 - 14)); out_inc;
    out_eq (in_buf >> 14); in_inc; out_or ((in_buf %% 12) << (30 - 12)); out_inc;
    out_eq (in_buf >> 12); in_inc; out_or ((in_buf %% 10) << (30 - 10)); out_inc;
    out_eq (in_buf >> 10); in_inc; out_or ((in_buf %% 8) << (30 - 8)); out_inc;
    out_eq (in_buf >> 8); in_inc; out_or ((in_buf %% 6) << (30 - 6)); out_inc;
    out_eq (in_buf >> 6); in_inc; out_or ((in_buf %% 4) << (30 - 4)); out_inc;
    out_eq (in_buf >> 4); in_inc; out_or ((in_buf %% 2) << (30 - 2)); out_inc;
    out_eq (in_buf >> 2); in_inc ].

Definition unpack31_32 : list stmt :=
  [ out_eq (in_buf %% 31); out_inc;
    out_eq (in_buf >> 31); in_inc; out_or ((in_buf %% 30) << (31 - 30)); out_inc;
    out_eq (in_buf >> 30); in_inc; out_or ((in_buf %% 29) << (31 - 29)); out_inc;
    out_eq (in_buf >> 29); in_inc; out_or ((in_buf %% 28) << (31 - 28)); out_inc;
    out_eq (in_buf >> 28); in_inc; out_or ((in_buf %% 27) << (31 - 27)); out_inc;
    out_eq (in_buf >> 27); in_inc; out_or ((in_buf %% 26) << (31 - 26)); out_inc;
    out_eq (in_buf >> 26); in_inc; out_or ((in_buf %% 25) << (31 - 25)); out_inc;
    out_eq (in_buf >> 25); in_inc; out_or ((in_buf %% 24) << (31 - 24)); out_inc;
    out_eq (in_buf >> 24); in_inc; out_or ((in_buf %% 23) << (31 - 23)); out_inc;
    out_eq (in_buf >> 23); in_inc; out_or ((in_buf %% 22) << (31 - 22)); out_inc;
    out_eq (in_buf >> 22); in_inc; out_or ((in_buf %% 21) << (31 - 21)); out_inc;
    out_eq (in_buf >> 21); in_inc; out_or ((in_buf %% 20) << (31 - 20)); out_inc;
    out_eq (in_buf >> 20); in_inc; out_or ((in_buf %% 19) << (31 - 19)); out_inc;
    out_eq (in_buf >> 19); in_inc; out_or ((in_buf %% 18) << (31 - 18)); out_inc;
    out_eq (in_buf >> 18); in_inc; out_or ((in_buf %% 17) << (31 - 17)); out_inc;
    out_eq (in_buf >> 17); in_inc; out_or ((in_buf %% 16) << (31 - 16)); out_inc;
    out_eq (in_buf >> 16); in_inc; out_or ((in_buf %% 15) << (31 - 15)); out_inc;
    out_eq (in_buf >> 15); in_inc; out_or ((in_buf %% 14) << (31 - 14)); out_inc;
    out_eq (in_buf >> 14); in_inc; out_or ((in_buf %% 13) << (31 - 13)); out_inc;
    out_eq (in_buf >> 13); in_inc; out_or ((in_buf %% 12) << (31 - 12)); out_inc;
    out_eq (in_buf >> 12); in_inc; out_or ((in_buf %% 11) << (31 - 11)); out_inc;
    out_eq (in_buf >> 11); in_inc; out_or ((in_buf %% 10) << (31 - 10)); out_inc;
    out_eq (in_buf >> 10); in_inc; out_or ((in_buf %% 9) << (31 - 9)); out_inc;
    out_eq (in_buf >> 9); in_inc; out_or ((in_buf %% 8) << (31 - 8)); out_inc;
    out_eq (in_buf >> 8); in_inc; out_or ((in_buf %% 7) << (31 - 7)); out_inc;
    out_eq (in_buf >> 7); in_inc; out_or ((in_buf %% 6) << (31 - 6)); out_inc;
    out_eq (in_buf >> 6); in_inc; out_or ((in_buf %% 5) << (31 - 5)); out_inc;
    out_eq (in_buf >> 5); in_inc; out_or ((in_buf %% 4) << (31 - 4)); out_inc;
    out_eq (in_buf >> 4); in_inc; out_or ((in_buf %% 3) << (31 - 3)); out_inc;
    out_eq (in_buf >> 3); in_inc; out_or ((in_buf %% 2) << (31 - 2)); out_inc;
    out_eq (in_buf >> 2); in_inc; out_or ((in_buf %% 1) << (31 - 1)); out_inc;
    out_eq (in_buf >> 1); in_inc ].

Definition unpack32_32 : list stmt :=
  [ out_eq in_buf; in_inc; out_inc;
    out_eq in_buf; in_inc; out_inc;
    out_eq in_buf; in_inc; out_inc;
    out_eq in_buf; in_inc; out_inc;
    out_eq in_buf; in_inc; out_inc;
    out_eq in_buf; in_inc; out_inc;
    out_eq in_buf; in_inc; out_inc;
    out_eq in_buf; in_inc; out_inc;
    out_eq in_buf; in_inc; out_inc;
    out_eq in_buf; in_inc; out_inc;
    out_eq in_buf; in_inc; out_inc;
    out_eq in_buf; in_inc; out_inc;
    out_eq in_buf; in_inc; out_inc;
    out_eq in_buf; in_inc; out_inc;
    out_eq in_buf; in_inc; out_inc;
    out_eq in_buf; in_inc; out_inc;
    out_eq in_buf; in_inc; out_inc;
    out_eq in_buf; in_inc; out_inc;
    out_eq in_buf; in_inc; out_inc;
    out_eq in_buf; in_inc; out_inc;
    out_eq in_buf; in_inc; out_inc;
    out_eq in_buf; in_inc; out_inc;
    out_eq in_buf; in_inc; out_inc;
    out_eq in_buf; in_inc; out_inc;
    out_eq in_buf; in_inc; out_inc;
    out_eq in_buf; in_inc; out_inc;
    out_eq in_buf; in_inc; out_inc;
    out_eq in_buf; in_inc; out_inc;
    out_eq in_buf; in_inc; out_inc;
    out_eq in_buf; in_inc; out_inc;
    out_eq in_buf; in_inc; out_inc;
    out_eq in_buf; in_inc ].

(** [for _ in 0..32 { *out = 0; out = out.offset(1); }] *)
Definition nullunpacker32 : list stmt := mjoin (replicate 32 [out_eq (Lit 0); out_inc]).

(** [match num_bits { ... _ => unimplemented!() }] *)
Definition unpacker (num_bits : nat) : option (list stmt) :=
  match num_bits with
  | 0%nat => Some nullunpacker32
  | 1%nat => Some unpack1_32
  | 2%nat => Some unpack2_32
  | 3%nat => Some unpack3_32
  | 4%nat => Some unpack4_32
  | 5%nat => Some unpack5_32
  | 6%nat => Some unpack6_32
  | 7%nat => Some unpack7_32
  | 8%nat => Some unpack8_32
  | 9%nat => Some unpack9_32
  | 10%nat => Some unpack10_32
  | 11%nat => Some unpack11_32
  | 12%nat => Some unpack12_32
  | 13%nat => Some unpack13_32
  | 14%nat => Some unpack14_32
  | 15%nat => Some unpack15_32
  | 16%nat => Some unpack16_32
  | 17%nat => Some unpack17_32
  | 18%nat => Some unpack18_32
  | 19%nat => Some unpack19_32
  | 20%nat => Some unpack20_32
  | 21%nat => Some unpack21_32
  | 22%nat => Some unpack22_32
  | 23%nat => Some unpack23_32
  | 24%nat => Some unpack24_32
  | 25%nat => Some unpack25_32
  | 26%nat => Some unpack26_32
  | 27%nat => Some unpack27_32
  | 28%nat => Some unpack28_32
  | 29%nat => Some unpack29_32
  | 30%nat => Some unpack30_32
  | 31%nat => Some unpack31_32
  | 32%nat => Some unpack32_32
  | _ => None
  end.

(** [unpack32(in_ptr, out_ptr, num_bits)]: [in_ptr] is a byte offset into [buf],
    [out_ptr] an index into [out]; returns the new [in_ptr] and the output buffer. *)
Definition unpack32 (buf : list Z) (in_ptr : nat) (out : list Z) (out_ptr : nat)
    (num_bits : nat) : option (nat * list Z) :=
  p ← unpacker num_bits; s ← run buf p (UState in_ptr out_ptr out); Some (u_in s, u_mem s).

(** Every program of the table passes the symbolic check. *)
Lemma unpacker_checked :
  forallb (fun n => match unpacker n with Some p => unpacks n p | None => false end) (seq 0 33) = true.
Proof. vm_compute. reflexivity. Qed.

Lemma unpacker_unpacks n : (n <= 32)%nat -> exists p, unpacker n = Some p /\ unpacks n p = true.
Proof.
  intros Hn. pose proof unpacker_checked as H. rewrite forallb_forall in H.
  specialize (H n ltac:(apply in_seq; lia)). destruct (unpacker n) as [p|]; [eauto|done].
Qed.

(** The 32 fields of [n] bits that start at byte [p]. *)
Definition fields32 (buf : list Z) (p n : nat) : list Z :=
  map (fun j => bits (le_bytes buf) (8 * Z.of_nat p + Z.of_nat (j * n)) (Z.of_nat n)) (seq 0 32).

(** Shared form of the unpacking property. *)
Lemma unpack32_spec buf in_ptr out out_ptr n :
  (n <= 32)%nat -> bytes_ok buf ->
  (in_ptr + 4 * n <= length buf)%nat -> (out_ptr + 32 <= length out)%nat ->
  unpack32 buf in_ptr out out_ptr n =
    Some ((in_ptr + 4 * n)%nat,
      take out_ptr out ++ fields32 buf in_ptr n ++ drop (out_ptr + 32) out).
Proof.
  intros Hn Hbuf Hin Hout. unfold unpack32.
  destruct (unpacker_unpacks n Hn) as (p & -> & Hp). cbn [mbind option_bind].
  by destruct (unpacks_sound n p buf in_ptr out out_ptr Hp Hn Hbuf Hin Hout) as [o ->].
Qed.

(** C7: for every bit width from 0 to 32, the unrolled unpacker selected by
    [unpack32] reads exactly [4 n] bytes, stays inside the input and output
    buffers, and writes the 32 consecutive [n]-bit little-endian fields of the
    input to the 32 output slots, leaving the rest of the output as it was. *)
Theorem unpack32_correct buf in_ptr out out_ptr n :
  (n <= 32)%nat -> bytes_ok buf ->
  (in_ptr + 4 * n <= length buf)%nat -> (out_ptr + 32 <= length out)%nat ->
  unpack32 buf in_ptr out out_ptr n =
    Some ((in_ptr + 4 * n)%nat,
      take out_ptr out ++ fields32 buf in_ptr n ++ drop (out_ptr + 32) out).
Proof. apply unpack32_spec. Qed.

Lemma unpack32_correct_witness :
  unpack32 (replicate 12 181) 0 (replicate 33 7) 1 3 =
    Some (12%nat, [7] ++ fields32 (replicate 12 181) 0 3).
Proof.
  rewrite (unpack32_correct (replicate 12 181) 0 (replicate 33 7) 1 3).
  - vm_compute. reflexivity.
  - lia.
  - apply bytes_ok_replicate. split; reflexivity || discriminate.
  - vm_compute. lia.
  - vm_compute. lia.
Defined.
