(* ===== verification/BitReader.v ===== *)
(** [BitReader] of src/native/core/src/common/bit.rs: the cursor over a bit
    stream that the Parquet level and dictionary-index decoders read from.

    State: the byte buffer, an 8-byte window [buffered_values] loaded from
    [byte_offset], and the position [8 * byte_offset + bit_offset] in bits.
    Every operation is refined to the abstract stream: the buffer read as one
    little-endian number, from which bits are taken at the current position.

    A computation that panics, reads outside the buffer or underflows a [usize]
    is [None]; [reader_wf] is the invariant under which none does. *)

From S2P Require Import Prelude BitUtil Unpack BitPacking.

Record BitReader := {
  buffer : list Z;
  buffered_values : Z;
  byte_offset : nat;
  bit_offset : nat;
  total_bytes : nat }.

(** [a - b] on [usize]. *)
Definition usub (a b : nat) : option nat := if (b <=? a)%nat then Some (a - b)%nat else None.

Definition div_ceil (a b : nat) : nat := ((a + b - 1) / b)%nat.

Definition set_buffered (r : BitReader) (v : Z) : BitReader :=
  {| buffer := buffer r; buffered_values := v; byte_offset := byte_offset r;
     bit_offset := bit_offset r; total_bytes := total_bytes r |}.

Definition set_offsets (r : BitReader) (byte bit : nat) : BitReader :=
  {| buffer := buffer r; buffered_values := buffered_values r; byte_offset := byte;
     bit_offset := bit; total_bytes := total_bytes r |}.

(** * Operations *)

Definition reload_buffer_values (r : BitReader) : option BitReader :=
  bytes_to_read ← usub (total_bytes r) (byte_offset r);
  s ← slice_from (buffer r) (byte_offset r);
  v ← (if (bytes_to_read <? 8)%nat then read_num_bytes_u64 bytes_to_read s else read_u64 s);
  Some (set_buffered r v).

Definition new (buf : list Z) (len : nat) : option BitReader :=
  v ← (if (len <? 8)%nat then read_num_bytes_u64 len buf else read_u64 buf);
  Some {| buffer := buf; buffered_values := v; byte_offset := 0; bit_offset := 0;
          total_bytes := len |}.

Definition new_all (buf : list Z) : option BitReader := new buf (length buf).

Definition reset (r : BitReader) (buf : list Z) : option BitReader :=
  let total := length buf in
  v ← (if (total <? 8)%nat then read_num_bytes_u64 total buf else read_u64 buf);
  Some {| buffer := buf; buffered_values := v; byte_offset := 0; bit_offset := 0;
          total_bytes := total |}.

Definition get_byte_offset (r : BitReader) : nat :=
  (byte_offset r + div_ceil (bit_offset r) 8)%nat.

Definition get_u64_value (r : BitReader) (num_bits : nat) : option (Z * BitReader) :=
  if (num_bits =? 0)%nat then Some (0, r) else
  let v := shr 64 (buffered_values r) (Z.of_nat (bit_offset r)) in
  let mask := shr 64 (2 ^ 64 - 1) (64 - Z.of_nat num_bits) in
  let bit := (bit_offset r + num_bits)%nat in
  if (bit <? 64)%nat then Some (Z.land v mask, set_offsets r (byte_offset r) bit)
  else
    r ← reload_buffer_values (set_offsets r (byte_offset r + 8) (bit - 64));
    Some (Z.land (Z.lor (shl 64 (buffered_values r)
      (Z.of_nat num_bits - Z.of_nat (bit_offset r))) v) mask, r).

Definition get_u32_value (r : BitReader) (num_bits : nat) : option (Z * BitReader) :=
  '(v, r) ← get_u64_value r num_bits; Some (u32 v, r).

(** The types a value is read as: [v as $ty] of the unsigned and signed integers
    of [n] bytes, and [bool]. *)
Inductive native := UInt (n : nat) | SInt (n : nat) | TBool.

Definition from_u64 (t : native) (v : Z) : Z :=
  match t with
  | UInt n => wrap (8 * Z.of_nat n) v
  | SInt n => swrap (8 * Z.of_nat n) v
  | TBool => Z.land v 1
  end.

(** [get_value::<T>(num_bits)]: [Some (None, _)] when the stream is too short. *)
Definition get_value (t : native) (r : BitReader) (num_bits : nat)
    : option (option Z * BitReader) :=
  if (total_bytes r * 8 <? byte_offset r * 8 + bit_offset r + num_bits)%nat
  then Some (None, r)
  else '(v, r) ← get_u64_value r num_bits; Some (Some (from_u64 t v), r).

(** [for_each] over [i .. i+k): [dst[i] |= v as u8; v >>= 8;] *)
Fixpoint or_bytes (dst : list Z) (i k : nat) (v : Z) : option (list Z) :=
  match k with
  | O => Some dst
  | S k => dst ← update dst i (fun b => Z.lor b (u8 v)); or_bytes dst (S i) k (shr 64 v 8)
  end.

Definition get_bits_buffered (r : BitReader) (dst : list Z) (offset num_bits : nat)
    : option (nat * list Z * BitReader) :=
  if (num_bits =? 0)%nat then Some (0%nat, dst, r) else
  rest ← usub 64 (bit_offset r);
  let n := Nat.min num_bits rest in
  let offset_i := (offset / 8)%nat in
  let offset_r := (offset mod 8)%nat in
  let v := trailing_bits (shr 64 (buffered_values r) (Z.of_nat (bit_offset r))) n in
  dst ← update dst offset_i (fun b => Z.lor b (u8 (shl 64 v (Z.of_nat offset_r))));
  let v := shr 64 v (8 - Z.of_nat offset_r) in
  dst ← or_bytes dst (offset_i + 1)
    (offset_i + div_ceil (n + offset_r) 8 - (offset_i + 1)) v;
  let bit := (bit_offset r + n)%nat in
  r ← (if (bit =? 64)%nat
       then reload_buffer_values (set_offsets r (byte_offset r + 8) (bit - 64))
       else Some (set_offsets r (byte_offset r) bit));
  Some (n, dst, r).

(** [while i < num { i += self.get_bits_buffered(dst, offset + i, num - i); }];
    every round consumes at least one bit, so [num - i] rounds are enough. *)
Fixpoint get_bits_loop (fuel : nat) (r : BitReader) (dst : list Z) (offset i num : nat)
    : option (list Z * BitReader) :=
  if (i <? num)%nat then
    match fuel with
    | O => None
    | S fuel =>
        '(n, dst, r) ← get_bits_buffered r dst (offset + i) (num - i);
        get_bits_loop fuel r dst offset (i + n) num
    end
  else Some (dst, r).

Definition remaining_bits (r : BitReader) : option nat :=
  bytes ← usub (total_bytes r) (byte_offset r); usub (bytes * 8) (bit_offset r).

Definition get_bits (r : BitReader) (dst : list Z) (offset num_bits : nat)
    : option (nat * list Z * BitReader) :=
  remaining ← remaining_bits r;
  room ← usub (length dst * 8) offset;
  let num := Nat.min remaining (Nat.min num_bits room) in
  '(i, dst, r) ← (if (bit_offset r =? 0)%nat then Some (0%nat, dst, r)
                  else get_bits_buffered r dst offset num);
  '(i, dst, r) ← (if ((offset + i) mod 8 =? 0)%nat && (i <? num)%nat then
      let num_bytes := ((num - i) / 8)%nat in
      let dst_byte_offset := ((offset + i) / 8)%nat in
      if (0 <? num_bytes)%nat then
        s ← slice (buffer r) (byte_offset r) (byte_offset r + num_bytes);
        dst ← memcpy_at dst dst_byte_offset s;
        r ← reload_buffer_values (set_offsets r (byte_offset r + num_bytes) (bit_offset r));
        Some ((i + num_bytes * 8)%nat, dst, r)
      else Some (i, dst, r)
    else Some (i, dst, r));
  '(dst, r) ← get_bits_loop (num - i) r dst offset i num;
  Some (num, dst, r).

Definition skip_bits (r : BitReader) (num_bits : nat) : option (nat * BitReader) :=
  remaining ← remaining_bits r;
  let num := Nat.min remaining num_bits in
  '(i, r) ← (if (bit_offset r =? 0)%nat then Some (0%nat, r) else
      n ← usub 64 (bit_offset r);
      if (num <? n)%nat then Some (num, set_offsets r (byte_offset r) (bit_offset r + num))
      else Some (n, set_offsets r (byte_offset r + 8) 0));
  '(i, r) ← (if (i + 7 <? num)%nat then
      let num_bytes := ((num - i) / 8)%nat in
      Some ((i + num_bytes * 8)%nat, set_offsets r (byte_offset r + num_bytes) (bit_offset r))
    else Some (i, r));
  r ← (if (bit_offset r =? 0)%nat then reload_buffer_values r else Some r);
  let r := if (i <? num)%nat then set_offsets r (byte_offset r) (bit_offset r + (num - i)) else r in
  Some (num, r).

(** [while i < total && self.bit_offset != 0 { dst[i] = read(); i += 1; }], for the
    [k = total - i] values still wanted. *)
Fixpoint align_loop (read : BitReader -> option (Z * BitReader)) (k : nat) (r : BitReader)
    (dst : list Z) (i : nat) : option (nat * list Z * BitReader) :=
  match k with
  | O => Some (i, dst, r)
  | S k =>
      if (bit_offset r =? 0)%nat then Some (i, dst, r) else
      '(v, r) ← read r; _ ← dst !! i; align_loop read k r (<[i := v]> dst) (S i)
  end.

(** [while i < total { dst[i] = read(); i += 1; }] *)
Fixpoint rest_loop (read : BitReader -> option (Z * BitReader)) (k : nat) (r : BitReader)
    (dst : list Z) (i : nat) : option (list Z * BitReader) :=
  match k with
  | O => Some (dst, r)
  | S k => '(v, r) ← read r; _ ← dst !! i; rest_loop read k r (<[i := v]> dst) (S i)
  end.

(** [while total - i >= 32 { in_ptr = unpack32(in_ptr, dst, num_bits);
    self.byte_offset += 4 * num_bits; dst = dst.offset(32); i += 32; }] *)
Fixpoint unpack_loop (blocks : nat) (r : BitReader) (in_ptr num_bits : nat)
    (dst : list Z) (i : nat) : option (nat * list Z * BitReader) :=
  match blocks with
  | O => Some (i, dst, r)
  | S blocks =>
      '(in_ptr, dst) ← unpack32 (buffer r) in_ptr dst i num_bits;
      unpack_loop blocks (set_offsets r (byte_offset r + 4 * num_bits) (bit_offset r))
        in_ptr num_bits dst (i + 32)
  end.

(** [get_u32_batch(dst, total, num_bits)] *)
Definition get_u32_batch (r : BitReader) (dst : list Z) (total num_bits : nat)
    : option (list Z * BitReader) :=
  '(i, dst, r) ← (if (bit_offset r =? 0)%nat then Some (0%nat, dst, r)
                  else align_loop (fun r => get_u32_value r num_bits) total r dst 0);
  _ ← slice_from (buffer r) (byte_offset r);
  '(i, dst, r) ← unpack_loop ((total - i) / 32) r (byte_offset r) num_bits dst i;
  r ← reload_buffer_values r;
  rest_loop (fun r => get_u32_value r num_bits) (total - i) r dst i.

(** A batch is the memory of the target slice: each slot is the bit pattern of a
    [size]-byte element.  The copy of one unpacked [u32] into a slot of another
    size overwrites its low four bytes, or its [size] bytes if that is less. *)
Definition copy_u32 (size : nat) (old v : Z) : Z :=
  if (4 <? size)%nat then Z.lor ((old ≫ 32) ≪ 32) v else wrap (8 * Z.of_nat size) v.

Fixpoint copy_block (size : nat) (out_buf : list Z) (batch : list Z) (i : nat)
    : option (list Z) :=
  match out_buf with
  | [] => Some batch
  | v :: out_buf =>
      old ← batch !! i; copy_block size out_buf (<[i := copy_u32 size old v]> batch) (S i)
  end.

Fixpoint narrow_loop (blocks size : nat) (r : BitReader) (in_ptr num_bits : nat)
    (out_buf batch : list Z) (i : nat) : option (nat * list Z * BitReader) :=
  match blocks with
  | O => Some (i, batch, r)
  | S blocks =>
      '(in_ptr, out_buf) ← unpack32 (buffer r) in_ptr out_buf 0 num_bits;
      let r := set_offsets r (byte_offset r + 4 * num_bits) (bit_offset r) in
      batch ← copy_block size out_buf batch i;
      narrow_loop blocks size r in_ptr num_bits out_buf batch (i + 32)
  end.

(** [self.get_value(num_bits).expect("expected to have more data")] *)
Definition expect_value (size num_bits : nat) (r : BitReader) : option (Z * BitReader) :=
  '(v, r) ← get_value (UInt size) r num_bits; v ← v; Some (v, r).

(** [get_batch::<T>(batch, num_bits)] for [size_of::<T>() = size]; returns the
    number of values read. *)
Definition get_batch (size : nat) (r : BitReader) (batch : list Z) (num_bits : nat)
    : option (nat * list Z * BitReader) :=
  remaining ← remaining_bits r;
  let values_to_read := if (remaining <? num_bits * length batch)%nat
                        then (remaining / num_bits)%nat else length batch in
  '(i, batch, r) ← (if (bit_offset r =? 0)%nat then Some (0%nat, batch, r)
                    else align_loop (expect_value size num_bits) values_to_read r batch 0);
  _ ← slice_from (buffer r) (byte_offset r);
  '(i, batch, r) ← (if (size =? 4)%nat
    then unpack_loop ((values_to_read - i) / 32) r (byte_offset r) num_bits batch i
    else narrow_loop ((values_to_read - i) / 32) size r (byte_offset r) num_bits
           (replicate 32 0) batch i);
  r ← reload_buffer_values r;
  '(batch, r) ← rest_loop (expect_value size num_bits) (values_to_read - i) r batch i;
  Some (values_to_read, batch, r).

(** [get_aligned::<T>(num_bytes)] *)
Definition get_aligned (t : native) (r : BitReader) (num_bytes : nat)
    : option (option Z * BitReader) :=
  let bytes_read := div_ceil (bit_offset r) 8 in
  if (total_bytes r <? byte_offset r + bytes_read + num_bytes)%nat then Some (None, r) else
  r ← (if (8 <? bytes_read + num_bytes)%nat then
         r ← reload_buffer_values (set_offsets r (byte_offset r + bytes_read) (bit_offset r));
         Some (set_offsets r (byte_offset r) 0)
       else Some (set_offsets r (byte_offset r) (bytes_read * 8)));
  let v := from_u64 t (trailing_bits (shr 64 (buffered_values r) (Z.of_nat (bit_offset r)))
                         (num_bytes * 8)) in
  let bit := (bit_offset r + num_bytes * 8)%nat in
  r ← (if (bit =? 64)%nat
       then reload_buffer_values (set_offsets r (byte_offset r + 8) (bit - 64))
       else Some (set_offsets r (byte_offset r) bit));
  Some (Some v, r).

(** [get_vlq_int()]: every round consumes a byte of the stream, so the number of
    bytes bounds the rounds. *)
Fixpoint get_vlq_loop (fuel : nat) (r : BitReader) (shift v : Z)
    : option (option Z * BitReader) :=
  match fuel with
  | O => None
  | S fuel =>
      '(byte, r) ← get_aligned (UInt 1) r 1;
      match byte with
      | None => Some (None, r)
      | Some byte =>
          let v := i64 (Z.lor v (shl 64 (Z.land byte 127) shift)) in
          if Z.land byte 128 =? 0 then Some (Some v, r)
          else get_vlq_loop fuel r (shift + 7) v
      end
  end.

Definition get_vlq_int (r : BitReader) : option (option Z * BitReader) :=
  get_vlq_loop (S (total_bytes r)) r 0 0.

(** [(u >> 1) as i64 ^ -((u & 1) as i64)] *)
Definition zigzag_decode (v : Z) : Z :=
  let u := u64 v in Z.lxor (i64 (shr 64 u 1)) (i64 (- i64 (Z.land u 1))).

Definition get_zigzag_vlq_int (r : BitReader) : option (option Z * BitReader) :=
  '(v, r) ← get_vlq_int r; Some (option_map zigzag_decode v, r).

(** * The abstract stream *)

Definition stream (r : BitReader) : Z := le_bytes (take (total_bytes r) (buffer r)).
Definition pos (r : BitReader) : nat := (8 * byte_offset r + bit_offset r)%nat.

(** Buffer and length well formed; the position inside the stream; the window
    holds the eight bytes at [byte_offset] (zeros past the end). *)
Record reader_wf (r : BitReader) : Prop := {
  wf_bytes : bytes_ok (buffer r);
  wf_total : (total_bytes r <= length (buffer r))%nat;
  wf_bit : (bit_offset r < 64)%nat;
  wf_pos : (pos r <= 8 * total_bytes r)%nat;
  wf_window : buffered_values r = bits (stream r) (8 * Z.of_nat (byte_offset r)) 64 }.

(** [r'] reads the same stream as [r], [n] bits further. *)
Record advanced (r r' : BitReader) (n : nat) : Prop := {
  adv_wf : reader_wf r';
  adv_buffer : buffer r' = buffer r;
  adv_total : total_bytes r' = total_bytes r;
  adv_pos : pos r' = (pos r + n)%nat }.

Lemma advanced_stream r r' n : advanced r r' n -> stream r' = stream r.
Proof. intros [_ Hb Ht _]. unfold stream. by rewrite Hb, Ht. Qed.

Lemma advanced_refl r : reader_wf r -> advanced r r 0.
Proof. intros. split; try done; lia. Qed.

Lemma advanced_trans r r1 r2 n m : advanced r r1 n -> advanced r1 r2 m -> advanced r r2 (n + m).
Proof. intros [? ? ? ?] [? ? ? ?]. split; try congruence. lia. Qed.

Lemma stream_bits r p n :
  bytes_ok (buffer r) -> (total_bytes r <= length (buffer r))%nat -> 0 <= p -> 0 <= n ->
  p + n <= 8 * Z.of_nat (total_bytes r) ->
  bits (stream r) p n = bits (le_bytes (buffer r)) p n.
Proof. intros. unfold stream. rewrite le_bytes_take by done. rewrite bits_bits by lia. done. Qed.

(** The eight-byte load of [new], [reset] and [reload_buffer_values]. *)
Lemma load_window buf len bo :
  bytes_ok buf -> (len <= length buf)%nat -> (bo <= len)%nat ->
  (if (len - bo <? 8)%nat then read_num_bytes_u64 (len - bo) (drop bo buf)
   else read_u64 (drop bo buf)) = Some (bits (le_bytes (take len buf)) (8 * Z.of_nat bo) 64).
Proof.
  intros Hb Hl Hbo. rewrite le_bytes_take by done. case_ltb.
  - rewrite read_num_bytes_u64_spec, le_bytes_drop by (rewrite ?length_drop; auto with bytes; lia).
    f_equal. zbits.
  - rewrite read_u64_spec, le_bytes_drop by (rewrite ?length_drop; auto with bytes; lia).
    f_equal. zbits.
Qed.

Lemma reload_spec r :
  bytes_ok (buffer r) -> (total_bytes r <= length (buffer r))%nat ->
  (byte_offset r <= total_bytes r)%nat ->
  reload_buffer_values r =
    Some (set_buffered r (bits (stream r) (8 * Z.of_nat (byte_offset r)) 64)).
Proof.
  intros Hb Hl Hbo. unfold reload_buffer_values, usub, slice_from.
  rewrite !(proj2 (Nat.leb_le _ _)) by lia. cbn [mbind option_bind].
  by rewrite load_window.
Qed.

(** Moving the cursor and reloading the window keeps the reader well formed. *)
Lemma reload_at r byte bit n :
  reader_wf r -> (bit < 64)%nat -> (8 * byte + bit = pos r + n)%nat ->
  (pos r + n <= 8 * total_bytes r)%nat ->
  exists r', reload_buffer_values (set_offsets r byte bit) = Some r' /\ advanced r r' n /\
    byte_offset r' = byte /\ bit_offset r' = bit.
Proof.
  intros [Hb Ht Hbit Hp Hw] Hbit' Hpos Hend.
  rewrite reload_spec by (cbn; done || lia). eexists. split; [done|].
  repeat split; cbn; unfold pos in *; cbn; try done; lia.
Qed.

(** Moving the cursor inside the loaded window needs no reload. *)
Lemma move_within r bit n :
  reader_wf r -> (bit < 64)%nat -> (bit_offset r + n = bit)%nat ->
  (pos r + n <= 8 * total_bytes r)%nat ->
  advanced r (set_offsets r (byte_offset r) bit) n.
Proof.
  intros [Hb Ht Hbit Hp Hw] Hbit' Hpos Hend.
  repeat split; cbn; unfold pos in *; cbn; try done; lia.
Qed.

(** Consuming [n] bits of the window: a reload exactly when it is used up. *)
Lemma step_cursor r n :
  reader_wf r -> (bit_offset r + n <= 64)%nat -> (pos r + n <= 8 * total_bytes r)%nat ->
  exists r', (if (bit_offset r + n =? 64)%nat
     then reload_buffer_values (set_offsets r (byte_offset r + 8) (bit_offset r + n - 64))
     else Some (set_offsets r (byte_offset r) (bit_offset r + n))) = Some r' /\ advanced r r' n /\
    bit_offset r' = ((bit_offset r + n) mod 64)%nat.
Proof.
  intros Hr Hn Hend. pose proof Hr as [_ _ ? _ _].
  destruct (Nat.eqb_spec (bit_offset r + n) 64).
  - destruct (reload_at r (byte_offset r + 8) (bit_offset r + n - 64) n Hr) as (r' & -> & ? & _ & ?);
      [lia|unfold pos in *; lia|done|]. exists r'. split_and!; done || lia.
  - eexists. split; [done|]. split; [|cbn [bit_offset set_offsets]; lia]. by apply move_within; [|lia|lia|].
Qed.

(** [new] and [reset] start at bit 0 of the stream. *)
Lemma new_spec buf len :
  bytes_ok buf -> (len <= length buf)%nat ->
  exists r, new buf len = Some r /\ reader_wf r /\ pos r = 0%nat /\
    stream r = le_bytes (take len buf) /\ total_bytes r = len /\ buffer r = buf.
Proof.
  intros Hb Hl. unfold new.
  pose proof (load_window buf len 0 Hb Hl ltac:(lia)) as H.
  rewrite Nat.sub_0_r, drop_0 in H. rewrite H. cbn [mbind option_bind]. eexists. split; [done|].
  repeat split; cbn; try done; unfold pos; cbn; lia.
Qed.

Lemma mask_ones_shr n : (0 < n <= 64)%nat -> shr 64 (2 ^ 64 - 1) (64 - Z.of_nat n) = Z.ones (Z.of_nat n).
Proof.
  intros. unfold shr. change (2 ^ 64 - 1) with (Z.ones 64). rewrite Z.mod_small by lia. zbits.
Qed.

Lemma shr_window r :
  reader_wf r ->
  shr 64 (buffered_values r) (Z.of_nat (bit_offset r)) =
    bits (stream r) (Z.of_nat (pos r)) (64 - Z.of_nat (bit_offset r)).
Proof.
  intros [_ _ Hbit _ Hw]. unfold shr, pos in *. rewrite Z.mod_small, Hw by lia. zbits.
Qed.

(** Reading [n] bits returns bits [pos .. pos+n) of the stream and advances by
    [n], except for a full 64-bit read at a window boundary. *)
Lemma get_u64_value_spec r n :
  reader_wf r -> (n <= 64)%nat -> (n < 64 \/ bit_offset r <> 0)%nat ->
  (pos r + n <= 8 * total_bytes r)%nat ->
  exists r', get_u64_value r n =
      Some (bits (stream r) (Z.of_nat (pos r)) (Z.of_nat n), r') /\ advanced r r' n.
Proof.
  intros Hr Hn Hcase Hend. unfold get_u64_value. rewrite shr_window by done.
  destruct (Nat.eqb_spec n 0) as [->|].
  { exists r. rewrite bits_0_r. split; [done|]. by apply advanced_refl. }
  rewrite mask_ones_shr by lia. pose proof Hr as [_ _ Hbit Hp _]. unfold pos in Hp, Hend.
  destruct (Nat.ltb_spec (bit_offset r + n) 64) as [Hlt|Hge].
  - eexists. split; [|apply move_within; unfold pos; done || lia].
    do 2 f_equal. unfold pos. zbits.
  - destruct (reload_at r (byte_offset r + 8) (bit_offset r + n - 64) n Hr)
      as (r' & -> & Hadv & Hbyte & Hbit'); [lia|unfold pos; lia|unfold pos; lia|].
    cbn [mbind option_bind]. exists r'. split; [|done]. do 2 f_equal.
    rewrite (wf_window _ (adv_wf _ _ _ Hadv)), (advanced_stream _ _ _ Hadv), Hbyte, Hbit'.
    unfold shl, pos. rewrite Z.mod_small by lia. zbits.
Qed.

(** * Copying bits *)

Lemma in_u8_u8 v : in_u 8 (u8 v).
Proof. by apply wrap_range. Qed.

Lemma or_bytes_spec k dst i v :
  bytes_ok dst -> in_u 64 v -> (i + k <= length dst)%nat ->
  exists dst', or_bytes dst i k v = Some dst' /\ bytes_ok dst' /\ length dst' = length dst /\
    forall j, bitn dst' j = bitn dst j ||
      (8 * i <=? j)%nat && (j <? 8 * (i + k))%nat && Z.testbit v (Z.of_nat j - 8 * Z.of_nat i).
Proof.
  revert dst i v. induction k as [|k IH]; intros dst i v Hd Hv Hk; cbn [or_bytes].
  { exists dst. repeat split; try done. intros j. case_ltb; cbn [andb]; rewrite ?orb_false_r; lia || done. }
  destruct (update_or_spec dst i (u8 v) Hd) as (d1 & -> & Hd1 & Hl1 & Hj1); [lia|apply in_u8_u8|].
  cbn [mbind option_bind].
  assert (Hshr : shr 64 v 8 = v ≫ 8) by done. rewrite Hshr.
  destruct (IH d1 (S i) (v ≫ 8) Hd1) as (d2 & -> & Hd2 & Hl2 & Hj2); [|lia|].
  { apply in_u_shiftr; done || lia. }
  exists d2. repeat split; [done|lia|]. intros j. rewrite Hj2, Hj1.
  rewrite <-orb_assoc. f_equal. rewrite wrap_total, shiftr_total by lia.
  replace (Z.of_nat j - 8 * Z.of_nat (S i) + 8) with (Z.of_nat j - 8 * Z.of_nat i) by lia.
  destruct (Nat.eqb_spec (j / 8) i).
  - replace (Z.of_nat (j mod 8)) with (Z.of_nat j - 8 * Z.of_nat i) by lia.
    case_ltb; cbn [andb orb]; rewrite ?orb_false_r; lia || done.
  - case_ltb; cbn [andb orb]; lia || done.
Qed.

(** One round of [get_bits_buffered]: [m] bits of the stream are or-ed into [dst]
    at [offset] and consumed; the window is drained or the request met. *)
Lemma get_bits_buffered_spec r dst offset n :
  reader_wf r -> bytes_ok dst -> (0 < n)%nat -> (pos r + n <= 8 * total_bytes r)%nat ->
  (offset + n <= 8 * length dst)%nat ->
  exists dst' r', let m := Nat.min n (64 - bit_offset r) in
    get_bits_buffered r dst offset n = Some (m, dst', r') /\ advanced r r' m /\
    bit_offset r' = ((bit_offset r + m) mod 64)%nat /\ bytes_ok dst' /\ length dst' = length dst /\
    forall j, bitn dst' j = bitn dst j ||
      (offset <=? j)%nat && (j <? offset + m)%nat &&
      Z.testbit (stream r) (Z.of_nat (pos r) + (Z.of_nat j - Z.of_nat offset)).
Proof.
  intros Hr Hd Hn Hend Hroom. pose proof Hr as [_ _ Hbit _ _]. unfold get_bits_buffered, usub.
  simp_tests. set (m := Nat.min n (64 - bit_offset r)).
  rewrite shr_window, trailing_bits_spec by
    (done || apply (in_u_mono (64 - Z.of_nat (bit_offset r))); (lia || apply bits_range; lia)).
  rewrite bits_bits, Z.add_0_r by lia. set (v := bits _ _ _).
  assert (Hv : in_u 64 v) by (apply (in_u_mono (Z.of_nat m)); (lia || apply bits_range; lia)).
  destruct (update_or_spec dst (offset / 8) (u8 (shl 64 v (Z.of_nat (offset mod 8)))) Hd)
    as (d1 & -> & Hd1 & Hl1 & Hj1); [lia|apply in_u8_u8|]. cbn [mbind option_bind].
  assert (Hshr : shr 64 v (8 - Z.of_nat (offset mod 8)) = v ≫ (8 - Z.of_nat (offset mod 8)))
    by (unfold shr; by rewrite Z.mod_small by lia).
  rewrite Hshr.
  destruct (or_bytes_spec (offset / 8 + div_ceil (m + offset mod 8) 8 - (offset / 8 + 1)) d1
    (offset / 8 + 1) (v ≫ (8 - Z.of_nat (offset mod 8))) Hd1) as (d2 & -> & Hd2 & Hl2 & Hj2);
    [apply in_u_shiftr; done || lia|unfold div_ceil; lia|]. cbn [mbind option_bind].
  destruct (step_cursor r m Hr) as (r' & -> & Hadv & Hbit'); [lia|lia|]. cbn [mbind option_bind].
  exists d2, r'. do 4 (split; [done|]). split; [lia|].
  intros j. rewrite Hj2, Hj1, <-orb_assoc. f_equal.
  unfold v, shl. rewrite Z.mod_small by lia. autorewrite with zbits.
  unfold div_ceil. prune_cases; rewrite ?orb_false_r; try done; f_equal; lia.
Qed.

Lemma get_bits_loop_spec fuel r dst offset i num :
  reader_wf r -> bytes_ok dst -> (i <= num <= fuel + i)%nat ->
  (pos r + (num - i) <= 8 * total_bytes r)%nat -> (offset + num <= 8 * length dst)%nat ->
  exists dst' r', get_bits_loop fuel r dst offset i num = Some (dst', r') /\
    advanced r r' (num - i) /\ bytes_ok dst' /\ length dst' = length dst /\
    forall j, bitn dst' j = bitn dst j ||
      (offset + i <=? j)%nat && (j <? offset + num)%nat &&
      Z.testbit (stream r) (Z.of_nat (pos r) + (Z.of_nat j - Z.of_nat (offset + i))).
Proof.
  revert r dst i. induction fuel as [|fuel IH]; intros r dst i Hr Hd Hi Hend Hroom;
    cbn [get_bits_loop]; destruct (Nat.ltb_spec i num) as [Hlt|Hge]; try lia.
  1, 3: exists dst, r; replace (num - i)%nat with 0%nat by lia;
    split; [done|]; split; [by apply advanced_refl|]; repeat split; try done; intros j;
    prune_cases; by rewrite ?orb_false_r.
  pose proof (wf_bit _ Hr).
  destruct (get_bits_buffered_spec r dst (offset + i) (num - i) Hr Hd) as
    (d1 & r1 & -> & Hadv1 & _ & Hd1 & Hl1 & Hj1); [lia|lia|lia|]. cbn [mbind option_bind].
  set (m := Nat.min (num - i) (64 - bit_offset r)) in *.
  destruct (IH r1 d1 (i + m)%nat (adv_wf _ _ _ Hadv1) Hd1) as (d2 & r2 & -> & Hadv2 & Hd2 & Hl2 & Hj2);
    [lia|rewrite (adv_pos _ _ _ Hadv1), (adv_total _ _ _ Hadv1); lia|lia|].
  exists d2, r2. split; [done|]. split.
  { replace (num - i)%nat with (m + (num - (i + m)))%nat by lia. by eapply advanced_trans. }
  repeat split; [done|lia|]. intros j. rewrite Hj2, Hj1, <-orb_assoc. f_equal.
  rewrite (advanced_stream _ _ _ Hadv1), (adv_pos _ _ _ Hadv1).
  prune_cases; rewrite ?orb_false_r; try done; f_equal; lia.
Qed.
