(* ===== verification/BitReaderProps.v ===== *)
(** Properties of the bit reader: every reading operation refined to the abstract
    stream of bits of BitReader. *)

From S2P Require Import Prelude BitUtil Unpack BitPacking BitReader.

(** * Single values *)

Lemma get_value_spec t r n :
  reader_wf r -> (n < 64 \/ n = 64 /\ bit_offset r <> 0)%nat ->
  (pos r + n <= 8 * total_bytes r)%nat ->
  exists r', get_value t r n =
      Some (Some (from_u64 t (bits (stream r) (Z.of_nat (pos r)) (Z.of_nat n))), r') /\
    advanced r r' n.
Proof.
  intros Hr Hn Hend. unfold get_value. unfold pos in Hend. simp_tests.
  destruct (get_u64_value_spec r n Hr) as (r' & -> & Hadv); [lia|lia|unfold pos; lia|]. eauto.
Qed.

Lemma get_value_short t r n :
  (8 * total_bytes r < pos r + n)%nat -> get_value t r n = Some (None, r).
Proof. intros. unfold get_value, pos in *. by simp_tests. Qed.

(** [get_value] of up to 63 bits (64 when the cursor is not at a window
    boundary) returns [None] and leaves the reader alone exactly when fewer than
    [n] bits are left; otherwise it returns the next [n] bits of the stream and
    moves the cursor [n] bits further, with no panic and no read outside the
    buffer. *)
Lemma get_value_correct t r n :
  reader_wf r -> (n < 64 \/ n = 64 /\ bit_offset r <> 0)%nat ->
  ((8 * total_bytes r < pos r + n)%nat /\ get_value t r n = Some (None, r)) \/
  ((pos r + n <= 8 * total_bytes r)%nat /\
   exists r', get_value t r n =
      Some (Some (from_u64 t (bits (stream r) (Z.of_nat (pos r)) (Z.of_nat n))), r') /\
    advanced r r' n).
Proof.
  intros Hr Hn. destruct (Nat.lt_ge_cases (8 * total_bytes r) (pos r + n)).
  - left. split; [done|]. by apply get_value_short.
  - right. split; [done|]. by apply get_value_spec.
Qed.

(** A reader at the start of a 12-byte stream. *)
Definition sample_reader : BitReader :=
  {| buffer := [10; 0; 0; 0; 20; 0; 30; 0; 0; 0; 40; 0];
     buffered_values := le_bytes [10; 0; 0; 0; 20; 0; 30; 0];
     byte_offset := 0; bit_offset := 0; total_bytes := 12 |}.

Lemma sample_reader_wf : reader_wf sample_reader.
Proof.
  split; cbn; [|lia|lia|unfold pos; cbn; lia|vm_compute; reflexivity].
  repeat constructor; unfold in_u; lia.
Qed.

(** A 64-bit read at a window boundary is the exception: the window that
    follows is shifted by 64, which the release build reduces to a shift by 0, so
    the value returned is the disjunction of the next two 64-bit words. *)
Lemma get_value_64_at_boundary r :
  reader_wf r -> bit_offset r = 0%nat -> (pos r + 64 <= 8 * total_bytes r)%nat ->
  exists r', get_value (UInt 8) r 64 =
      Some (Some (Z.lor (bits (stream r) (Z.of_nat (pos r)) 64)
                        (bits (stream r) (Z.of_nat (pos r) + 64) 64)), r') /\
    advanced r r' 64.
Proof.
  intros Hr H0 Hend. unfold get_value, get_u64_value. rewrite shr_window by done.
  unfold pos in Hend. simp_tests.
  destruct (reload_at r (byte_offset r + 8) (bit_offset r + 64 - 64) 64 Hr)
    as (r' & -> & Hadv & Hbyte & Hbit); [lia|unfold pos; lia|unfold pos; lia|].
  cbn [mbind option_bind]. exists r'. split; [|done]. do 3 f_equal.
  rewrite (wf_window _ (adv_wf _ _ _ Hadv)), (advanced_stream _ _ _ Hadv), Hbyte, Hbit, H0.
  rewrite mask_ones_shr by lia. unfold from_u64, shl, pos. rewrite H0.
  change (Z.of_nat 64 - Z.of_nat (0 + 64 - 64)) with 64. change (64 mod 64) with 0.
  rewrite (Z.lor_comm (bits _ _ 64)). zbits. f_equal; f_equal; lia.
Qed.

Lemma get_value_64_example :
  exists r', get_value (UInt 8)
      {| buffer := [1; 0; 0; 0; 0; 0; 0; 0; 2; 0; 0; 0; 0; 0; 0; 0]; buffered_values := 1;
         byte_offset := 0; bit_offset := 0; total_bytes := 16 |} 64 = Some (Some 3, r').
Proof.
  destruct (get_value_64_at_boundary
    {| buffer := [1; 0; 0; 0; 0; 0; 0; 0; 2; 0; 0; 0; 0; 0; 0; 0]; buffered_values := 1;
       byte_offset := 0; bit_offset := 0; total_bytes := 16 |}) as (r' & H & _).
  - split; cbn; [|lia|lia|unfold pos; cbn; lia|vm_compute; reflexivity].
    repeat constructor; unfold in_u; lia.
  - reflexivity.
  - vm_compute. lia.
  - exists r'. exact H.
Defined.

(** * Aligned values *)

Lemma get_aligned_short t r num_bytes :
  (8 * total_bytes r < 8 * get_byte_offset r + 8 * num_bytes)%nat ->
  get_aligned t r num_bytes = Some (None, r).
Proof. intros H. unfold get_aligned, get_byte_offset in *. by simp_tests. Qed.

(** The cursor moved up to the next byte boundary, with [num_bytes] bytes in the
    window. *)
Lemma get_aligned_seek r num_bytes :
  reader_wf r -> (0 < num_bytes <= 8)%nat ->
  (get_byte_offset r + num_bytes <= total_bytes r)%nat ->
  exists r1, (if (8 <? div_ceil (bit_offset r) 8 + num_bytes)%nat
    then r ← reload_buffer_values
           (set_offsets r (byte_offset r + div_ceil (bit_offset r) 8) (bit_offset r));
         Some (set_offsets r (byte_offset r) 0)
    else Some (set_offsets r (byte_offset r) (div_ceil (bit_offset r) 8 * 8))) = Some r1 /\
    advanced r r1 (8 * get_byte_offset r - pos r) /\ (bit_offset r1 + num_bytes * 8 <= 64)%nat.
Proof.
  intros Hr Hn Hend. pose proof Hr as [Hbytes Htot Hbit Hp _]. unfold get_byte_offset in *.
  set (b := div_ceil (bit_offset r) 8) in *.
  assert (Hb : (bit_offset r <= 8 * b < bit_offset r + 8)%nat) by (unfold b, div_ceil; lia). clearbody b.
  unfold pos in *. destruct (Nat.ltb_spec 8 (b + num_bytes)).
  - rewrite reload_spec by (cbn; done || lia). cbn [mbind option_bind].
    eexists. split; [done|]. split; [|cbn; lia].
    split; cbn; try done; [|unfold pos; cbn; lia].
    split; cbn; try done; unfold pos; cbn; lia.
  - eexists. split; [done|]. split; [|cbn; lia]. apply move_within; unfold pos; done || lia.
Qed.

(** The value of [num_bytes] bytes at the next byte boundary. *)
Lemma get_aligned_spec t r num_bytes :
  reader_wf r -> (0 < num_bytes <= 8)%nat ->
  (get_byte_offset r + num_bytes <= total_bytes r)%nat ->
  exists r', get_aligned t r num_bytes =
      Some (Some (from_u64 t (bits (stream r) (8 * Z.of_nat (get_byte_offset r))
                                (8 * Z.of_nat num_bytes))), r') /\
    advanced r r' (8 * (get_byte_offset r + num_bytes) - pos r).
Proof.
  intros Hr Hn Hend. unfold get_aligned. pose proof Hend as Hend'. unfold get_byte_offset in Hend'.
  simp_tests. destruct (get_aligned_seek r num_bytes Hr Hn Hend) as (r1 & -> & Hadv1 & Hroom).
  cbn [mbind option_bind]. pose proof (adv_wf _ _ _ Hadv1) as Hr1.
  assert (Hpos1 : pos r1 = (8 * get_byte_offset r)%nat).
  { rewrite (adv_pos _ _ _ Hadv1). unfold pos, get_byte_offset, div_ceil. lia. }
  destruct (step_cursor r1 (num_bytes * 8) Hr1) as (r2 & -> & Hadv2 & _);
    [done|rewrite (adv_total _ _ _ Hadv1); lia|].
  cbn [mbind option_bind]. exists r2. split; cycle 1.
  { replace (8 * (get_byte_offset r + num_bytes) - pos r)%nat
      with (8 * get_byte_offset r - pos r + num_bytes * 8)%nat; [by eapply advanced_trans|].
    unfold pos, get_byte_offset, div_ceil. lia. }
  do 4 f_equal. pose proof (wf_bit _ Hr1). rewrite shr_window, trailing_bits_spec by
    (done || apply (in_u_mono (64 - Z.of_nat (bit_offset r1))); (lia || apply bits_range; lia)).
  rewrite bits_bits, (advanced_stream _ _ _ Hadv1) by lia. f_equal; lia.
Qed.

(** * Variable-length integers *)

(** The value of the VLQ code at the head of a byte string, and its length. *)
Fixpoint vlq_decode (l : list Z) (shift v : Z) : option Z * nat :=
  match l with
  | [] => (None, 0%nat)
  | b :: l =>
      let v := i64 (Z.lor v (shl 64 (Z.land b 127) shift)) in
      if Z.land b 128 =? 0 then (Some v, 1%nat)
      else let '(o, n) := vlq_decode l (shift + 7) v in (o, S n)
  end.

(** The bytes of the stream from the next byte boundary on. *)
Definition rest_bytes (r : BitReader) : list Z :=
  drop (get_byte_offset r) (take (total_bytes r) (buffer r)).

Lemma get_byte_offset_le r : reader_wf r -> (get_byte_offset r <= total_bytes r)%nat.
Proof. intros [_ _ _ Hp _]. unfold get_byte_offset, div_ceil, pos in *. lia. Qed.

Lemma get_vlq_loop_spec fuel r shift v :
  reader_wf r -> (length (rest_bytes r) < fuel)%nat ->
  exists r', get_vlq_loop fuel r shift v = Some ((vlq_decode (rest_bytes r) shift v).1, r') /\
    reader_wf r' /\
    ((vlq_decode (rest_bytes r) shift v).1 <> None ->
     advanced r r' (8 * (get_byte_offset r + (vlq_decode (rest_bytes r) shift v).2) - pos r)).
Proof.
  revert r shift v. induction fuel as [|fuel IH]; intros r shift v Hr Hf; [lia|].
  cbn [get_vlq_loop]. pose proof Hr as [Hbytes Htot _ _ _].
  destruct (rest_bytes r) as [|b l] eqn:Hl; unfold rest_bytes in Hl; cbn [vlq_decode].
  - apply (f_equal length) in Hl. rewrite length_drop, length_take in Hl. cbn in Hl.
    rewrite get_aligned_short by lia. exists r. done.
  - pose proof (f_equal length Hl) as Hlen. rewrite length_drop, length_take in Hlen. cbn in Hlen.
    destruct (get_aligned_spec (UInt 1) r 1 Hr) as (r1 & -> & Hadv1); [lia|lia|].
    cbn [mbind option_bind]. change (8 * Z.of_nat 1) with 8.
    assert (Hb : take (total_bytes r) (buffer r) !! get_byte_offset r = Some b).
    { rewrite <-(Nat.add_0_r (get_byte_offset r)), <-lookup_drop, Hl. done. }
    assert (from_u64 (UInt 1) (bits (stream r) (8 * Z.of_nat (get_byte_offset r)) 8) = b) as ->.
    { unfold stream. rewrite (le_bytes_lookup _ _ b) by auto with bytes.
      cbn [from_u64]. apply wrap_small. change (8 * Z.of_nat 1) with 8.
      eapply (Forall_lookup_1 (in_u 8)); [|exact Hb]. by apply bytes_ok_take. }
    assert (Hoff1 : get_byte_offset r1 = S (get_byte_offset r)).
    { pose proof (adv_pos _ _ _ Hadv1) as Hp. unfold pos, get_byte_offset, div_ceil in *. lia. }
    assert (Hl1 : rest_bytes r1 = l).
    { unfold rest_bytes. rewrite (adv_buffer _ _ _ Hadv1), (adv_total _ _ _ Hadv1), Hoff1.
      rewrite <-Nat.add_1_r, <-drop_drop, Hl. done. }
    destruct (Z.land b 128 =? 0).
    + exists r1. split; [done|]. split; [apply Hadv1|]. intros _. by rewrite Nat.add_1_r in Hadv1 |- *.
    + destruct (IH r1 (shift + 7) (i64 (Z.lor v (shl 64 (Z.land b 127) shift)))
        (adv_wf _ _ _ Hadv1)) as (r2 & -> & Hr2 & Hadv2); [rewrite Hl1; cbn in Hf; lia|].
      rewrite Hl1 in Hadv2 |- *. destruct (vlq_decode l _ _) as [o n]. cbn [fst snd] in *.
      exists r2. split; [done|]. split; [done|]. intros Ho. specialize (Hadv2 Ho).
      replace (8 * (get_byte_offset r + S n) - pos r)%nat with
        (8 * (get_byte_offset r + 1) - pos r + (8 * (get_byte_offset r1 + n) - pos r1))%nat;
        [by eapply advanced_trans|].
      pose proof (adv_pos _ _ _ Hadv1) as Hp. unfold pos, get_byte_offset, div_ceil in *. lia.
Qed.

Lemma get_vlq_int_spec r :
  reader_wf r ->
  exists r', get_vlq_int r = Some ((vlq_decode (rest_bytes r) 0 0).1, r') /\ reader_wf r' /\
    ((vlq_decode (rest_bytes r) 0 0).1 <> None ->
     advanced r r' (8 * (get_byte_offset r + (vlq_decode (rest_bytes r) 0 0).2) - pos r)).
Proof.
  intros Hr. apply get_vlq_loop_spec; [done|]. unfold rest_bytes.
  rewrite length_drop, length_take. lia.
Qed.

(** * Bulk reads and skips *)

Lemma remaining_bits_spec r :
  reader_wf r -> remaining_bits r = Some (8 * total_bytes r - pos r)%nat.
Proof.
  intros [_ _ _ Hp _]. unfold remaining_bits, usub, pos in *. simp_tests. f_equal. lia.
Qed.

(** Bits [lo, hi) of [dst'] are those of the stream from [p] on, the others those
    of [dst]. *)
Definition copied (dst dst' : list Z) (lo hi : nat) (z : Z) (p : nat) : Prop :=
  bytes_ok dst' /\ length dst' = length dst /\
  forall j, bitn dst' j =
    if (lo <=? j)%nat && (j <? hi)%nat
    then Z.testbit z (Z.of_nat p + (Z.of_nat j - Z.of_nat lo)) else bitn dst j.

(** The bytewise middle part of [get_bits]. *)
Lemma get_bits_bytes r dst dst0 offset i num p :
  reader_wf r -> bit_offset r = 0%nat -> ((offset + i) mod 8 = 0)%nat -> (i < num)%nat ->
  (pos r + (num - i) <= 8 * total_bytes r)%nat -> (offset + num <= 8 * length dst)%nat ->
  pos r = (p + i)%nat -> bytes_ok dst -> copied dst0 dst offset (offset + i) (stream r) p ->
  forall nb, nb = ((num - i) / 8)%nat ->
  exists s dst' r',
    slice (buffer r) (byte_offset r) (byte_offset r + nb) = Some s /\
    memcpy_at dst ((offset + i) / 8) s = Some dst' /\
    reload_buffer_values (set_offsets r (byte_offset r + nb) (bit_offset r)) = Some r' /\
    advanced r r' (8 * nb) /\ copied dst0 dst' offset (offset + i + 8 * nb) (stream r) p.
Proof.
  intros Hr H0 Hal Hi Hend Hroom Hp Hd (Hc1 & Hc2 & Hc3) nb Hnb.
  pose proof Hr as [Hb Ht _ _ _]. unfold slice, pos in *. simp_tests.
  set (s := take _ _). assert (Hs : length s = nb) by (unfold s; rewrite length_take, length_drop; lia).
  destruct (memcpy_at_spec dst ((offset + i) / 8) s Hd) as (d' & Hm & Hd' & Hl' & Hj');
    [unfold s; auto with bytes|lia|].
  destruct (reload_at r (byte_offset r + nb) (bit_offset r) (8 * nb) Hr) as (r' & Hre & Hadv & _);
    [lia|unfold pos; lia|unfold pos; lia|].
  exists s, d', r'. do 4 (split; [done|]). split; [done|]. split; [lia|]. intros j. rewrite Hj', Hc3, Hs.
  assert (Hbit : forall t, (t < 8 * nb)%nat ->
    bitn s t = Z.testbit (stream r) (8 * Z.of_nat (byte_offset r) + Z.of_nat t)).
  { intros t Htn. rewrite bitn_le_bytes by (unfold s; auto with bytes). unfold s, stream.
    rewrite le_bytes_slice, le_bytes_take, !bits_total by (done || lia). simp_tests. done. }
  prune_cases; try done; rewrite Hbit by lia; f_equal; lia.
Qed.

(** Or-ing more of the stream into bits that are still zero extends the copy. *)
Lemma copied_or dst d1 d2 offset i k num z p :
  copied dst d1 offset (offset + i) z p -> (i <= k <= num)%nat ->
  (forall j, (offset <= j < offset + num)%nat -> bitn dst j = false) ->
  bytes_ok d2 -> length d2 = length d1 ->
  (forall j, bitn d2 j = bitn d1 j || (offset + i <=? j)%nat && (j <? offset + k)%nat &&
    Z.testbit z (Z.of_nat (p + i) + (Z.of_nat j - Z.of_nat (offset + i)))) ->
  copied dst d2 offset (offset + k) z p.
Proof.
  intros (_ & Hl1 & Hc) Hk Hz Hd2 Hl2 Hj. split; [done|]. split; [lia|]. intros j. rewrite Hj, Hc.
  specialize (Hz j). prune_cases; rewrite ?orb_false_r; try done.
  - rewrite Hz by lia. cbn [orb]. f_equal. lia.
Qed.

(** What [get_bits] delivers: at most as many bits as are wanted, left in the
    stream, and fit in [dst]. *)
Definition deliverable (r : BitReader) (dst : list Z) (offset n : nat) : nat :=
  Nat.min (8 * total_bytes r - pos r) (Nat.min n (8 * length dst - offset)).

(** The leading part of [get_bits] drains the window. *)
Lemma get_bits_head r dst offset num :
  reader_wf r -> bytes_ok dst -> (pos r + num <= 8 * total_bytes r)%nat ->
  (offset + num <= 8 * length dst)%nat ->
  (forall j, (offset <= j < offset + num)%nat -> bitn dst j = false) ->
  exists i d1 r1,
    (if (bit_offset r =? 0)%nat then Some (0%nat, dst, r)
     else get_bits_buffered r dst offset num) = Some (i, d1, r1) /\
    advanced r r1 i /\ (i <= num)%nat /\ (i < num -> bit_offset r1 = 0)%nat /\
    copied dst d1 offset (offset + i) (stream r) (pos r).
Proof.
  intros Hr Hd Hend Hroom Hz.
  assert (Hnil : copied dst dst offset (offset + 0) (stream r) (pos r)).
  { split; [done|]. split; [done|]. intros j. by prune_cases. }
  destruct (Nat.eqb_spec (bit_offset r) 0) as [H0|H0].
  { exists 0%nat, dst, r. split_and!; try done; try lia; by apply advanced_refl. }
  destruct (decide (num = 0)%nat) as [->|].
  { exists 0%nat, dst, r. split_and!; try done; try lia; by apply advanced_refl. }
  pose proof (wf_bit _ Hr).
  destruct (get_bits_buffered_spec r dst offset num Hr Hd) as (d1 & r1 & He & Hadv & Hb1 & Hd1 & Hl1 & Hj);
    [lia..|]. eexists _, d1, r1. split; [exact He|]. split_and!; try done; [lia|lia|].
  eapply (copied_or dst dst d1 offset 0 _ num); [exact Hnil|lia|done..|].
  intros j. rewrite Hj, !Nat.add_0_r. done.
Qed.

(** The bytewise part, with its guards. *)
Lemma get_bits_middle r r1 dst d1 offset i num :
  advanced r r1 i -> (i <= num)%nat -> (i < num -> bit_offset r1 = 0)%nat ->
  (pos r + num <= 8 * total_bytes r)%nat -> (offset + num <= 8 * length dst)%nat ->
  copied dst d1 offset (offset + i) (stream r) (pos r) ->
  exists k d2 r2, (if ((offset + i) mod 8 =? 0)%nat && (i <? num)%nat then
      if (0 <? (num - i) / 8)%nat then
        s ← slice (buffer r1) (byte_offset r1) (byte_offset r1 + (num - i) / 8);
        dst ← memcpy_at d1 ((offset + i) / 8) s;
        r ← reload_buffer_values (set_offsets r1 (byte_offset r1 + (num - i) / 8) (bit_offset r1));
        Some ((i + (num - i) / 8 * 8)%nat, dst, r)
      else Some (i, d1, r1)
    else Some (i, d1, r1)) = Some (k, d2, r2) /\
    advanced r r2 k /\ (k <= num)%nat /\ copied dst d2 offset (offset + k) (stream r) (pos r).
Proof.
  intros Hadv1 Hi Hb1 Hend Hroom Hc1.
  pose proof (adv_wf _ _ _ Hadv1) as Hr1. pose proof (adv_pos _ _ _ Hadv1) as Hp1.
  pose proof (adv_total _ _ _ Hadv1) as Ht1. pose proof (advanced_stream _ _ _ Hadv1) as Hs1.
  destruct (Nat.eqb_spec ((offset + i) mod 8) 0) as [Hal|]; [|eauto 10].
  destruct (Nat.ltb_spec i num) as [Hlt|]; cbn [andb]; [|eauto 10].
  destruct (Nat.ltb_spec 0 ((num - i) / 8)) as [Hnb|]; [|eauto 10].
  rewrite <-Hs1 in Hc1. pose proof Hc1 as (Hd1 & Hl1 & _).
  destruct (get_bits_bytes r1 d1 dst offset i num (pos r) Hr1 (Hb1 Hlt) Hal Hlt)
    with (nb := ((num - i) / 8)%nat) as (s & d2 & r2 & -> & Hm & Hre & Hadv & Hc);
    [lia|lia|lia|done|done|done|].
  cbn [mbind option_bind]. rewrite Hm. cbn [mbind option_bind]. rewrite Hre. cbn [mbind option_bind].
  eexists _, d2, r2. split; [done|]. rewrite Hs1 in Hc.
  replace (i + (num - i) / 8 * 8)%nat with (i + 8 * ((num - i) / 8))%nat by lia.
  split; [by eapply advanced_trans|]. split; [lia|]. by rewrite Nat.add_assoc.
Qed.

Lemma get_bits_spec r dst offset n :
  reader_wf r -> bytes_ok dst -> (offset <= 8 * length dst)%nat ->
  (forall j, (offset <= j < offset + n)%nat -> bitn dst j = false) ->
  exists dst' r', let num := deliverable r dst offset n in
    get_bits r dst offset n = Some (num, dst', r') /\ advanced r r' num /\
    copied dst dst' offset (offset + num) (stream r) (pos r).
Proof.
  intros Hr Hd Hoff Hz. unfold get_bits, usub. rewrite remaining_bits_spec by done. simp_tests.
  replace (length dst * 8)%nat with (8 * length dst)%nat by lia. fold (deliverable r dst offset n).
  set (num := deliverable r dst offset n).
  assert (Hnum : (num <= 8 * total_bytes r - pos r /\ num <= n /\ num <= 8 * length dst - offset)%nat)
    by (unfold num, deliverable; lia).
  clearbody num. pose proof (wf_pos _ Hr).
  destruct (get_bits_head r dst offset num Hr Hd) as (i & d1 & r1 & -> & Hadv1 & Hi & Hb1 & Hc1);
    [lia|lia|intros; apply Hz; lia|]. cbn [mbind option_bind].
  destruct (get_bits_middle r r1 dst d1 offset i num Hadv1 Hi Hb1) as (k & d2 & r2 & -> & Hadv2 & Hk & Hc2);
    [lia|lia|done|].
  cbn [mbind option_bind]. pose proof Hc2 as (Hd2 & Hl2 & _).
  destruct (get_bits_loop_spec (num - k) r2 d2 offset k num (adv_wf _ _ _ Hadv2) Hd2)
    as (d3 & r3 & -> & Hadv3 & Hd3 & Hl3 & Hj3);
    [lia|rewrite (adv_pos _ _ _ Hadv2), (adv_total _ _ _ Hadv2); lia|lia|].
  cbn [mbind option_bind]. exists d3, r3. split; [done|]. split.
  { replace num with (k + (num - k))%nat by lia. by eapply advanced_trans. }
  eapply (copied_or dst d2 d3 offset k num num); try done; [intros; apply Hz; lia|].
  intros j. rewrite Hj3, (adv_pos _ _ _ Hadv2), (advanced_stream _ _ _ Hadv2). done.
Qed.

(** [get_bits] into a zeroed range of [dst] never panics, delivers the largest
    possible number of bits, copies exactly those bits of the stream to positions
    [offset ..] of [dst], leaves every other bit of [dst] unchanged and advances
    the reader by as many bits. *)
Lemma get_bits_correct r dst offset n :
  reader_wf r -> bytes_ok dst -> (offset <= 8 * length dst)%nat ->
  (forall j, (offset <= j < offset + n)%nat -> bitn dst j = false) ->
  exists dst' r', let num := deliverable r dst offset n in
    get_bits r dst offset n = Some (num, dst', r') /\ advanced r r' num /\
    copied dst dst' offset (offset + num) (stream r) (pos r).
Proof. apply get_bits_spec. Qed.

(** From a byte boundary: whole bytes first, then the remaining bits. *)
Lemma skip_from_boundary r byte i num :
  reader_wf r -> (8 * byte = pos r + i)%nat -> (i <= num)%nat ->
  (pos r + num <= 8 * total_bytes r)%nat ->
  exists r',
    ('(i, r) ← (if (i + 7 <? num)%nat then
       let num_bytes := ((num - i) / 8)%nat in
       Some ((i + num_bytes * 8)%nat, set_offsets (set_offsets r byte 0) (byte + num_bytes) 0)
     else Some (i, set_offsets r byte 0));
     r ← (if (bit_offset r =? 0)%nat then reload_buffer_values r else Some r);
     let r := if (i <? num)%nat then set_offsets r (byte_offset r) (bit_offset r + (num - i)) else r in
     Some (num, r)) = Some (num, r') /\ advanced r r' num.
Proof.
  intros Hr Hbyte Hi Hend.
  assert (exists k byte', (if (i + 7 <? num)%nat then
       let num_bytes := ((num - i) / 8)%nat in
       Some ((i + num_bytes * 8)%nat, set_offsets (set_offsets r byte 0) (byte + num_bytes) 0)
     else Some (i, set_offsets r byte 0)) = Some (k, set_offsets r byte' 0) /\
     (8 * byte' = pos r + k /\ k <= num < k + 8)%nat) as (k & byte' & -> & Hb' & Hk).
  { destruct (Nat.ltb_spec (i + 7) num).
    - eexists _, (byte + (num - i) / 8)%nat. split; [done|lia].
    - eexists _, byte. split; [done|lia]. }
  cbn [mbind option_bind bit_offset set_offsets]. change (0 =? 0)%nat with true. cbv iota.
  change {| buffer := _ |} with (set_offsets r byte' 0).
  destruct (reload_at r byte' 0 k Hr) as (r1 & -> & Hadv1 & Hb1 & Hbit1); [lia|lia|lia|].
  cbn [mbind option_bind]. destruct (Nat.ltb_spec k num).
  - eexists. split; [done|]. replace num with (k + (num - k))%nat at 2 by lia.
    eapply advanced_trans; [exact Hadv1|]. apply move_within; [apply Hadv1|lia|lia|].
    rewrite (adv_pos _ _ _ Hadv1), (adv_total _ _ _ Hadv1). lia.
  - exists r1. split; [done|]. by replace num with k by lia.
Qed.

Lemma skip_bits_spec r n :
  reader_wf r ->
  exists r', let num := Nat.min (8 * total_bytes r - pos r) n in
    skip_bits r n = Some (num, r') /\ advanced r r' num.
Proof.
  intros Hr. unfold skip_bits. rewrite remaining_bits_spec by done. cbn [mbind option_bind].
  pose proof Hr as [_ _ Hbit Hp _]. set (num := Nat.min _ n).
  assert (Hnum : (pos r + num <= 8 * total_bytes r)%nat) by (unfold num; lia). clearbody num.
  unfold pos in Hp. destruct (Nat.eqb_spec (bit_offset r) 0) as [H0|H0].
  - cbn [mbind option_bind]. rewrite H0.
    pose proof (skip_from_boundary r (byte_offset r) 0 num Hr) as Hs.
    replace (set_offsets r (byte_offset r) 0) with r in Hs by (rewrite <-H0; by destruct r).
    apply Hs; unfold pos in *; lia.
  - unfold usub. simp_tests. destruct (Nat.ltb_spec num (64 - bit_offset r)).
    + eexists. cbn [mbind option_bind]. simp_tests. cbn [bit_offset set_offsets]. simp_tests.
      split; [done|]. apply move_within; done || lia.
    + cbn [mbind option_bind].
      apply (skip_from_boundary r (byte_offset r + 8) (64 - bit_offset r) num); unfold pos in *; done || lia.
Qed.

(** [skip_bits] skips exactly [min n remaining] bits: the reader afterwards is
    well formed and stands that many bits further in the same stream. *)
Lemma skip_bits_correct r n :
  reader_wf r ->
  exists r', let num := Nat.min (8 * total_bytes r - pos r) n in
    skip_bits r n = Some (num, r') /\ advanced r r' num.
Proof. apply skip_bits_spec. Qed.

(** * Batches *)

(** [k] consecutive [n]-bit fields of [z] from bit [p] on. *)
Fixpoint fields (z : Z) (p n k : nat) : list Z :=
  match k with
  | O => []
  | S k => bits z (Z.of_nat p) (Z.of_nat n) :: fields z (p + n) n k
  end.

Lemma length_fields z p n k : length (fields z p n k) = k.
Proof. revert p. induction k as [|k IH]; intros p; [done|]. cbn. by rewrite IH. Qed.

Lemma fields_app z p n a b : fields z p n (a + b) = fields z p n a ++ fields z (p + a * n) n b.
Proof.
  revert p. induction a as [|a IH]; intros p; cbn [Nat.add fields app].
  - by rewrite Nat.add_0_r.
  - rewrite IH. do 3 f_equal. lia.
Qed.

Lemma fields_map z p n k :
  fields z p n k = map (fun j => bits z (Z.of_nat p + Z.of_nat (j * n)) (Z.of_nat n)) (seq 0 k).
Proof.
  enough (forall s q, p + s * n = q -> fields z q n k =
    map (fun j => bits z (Z.of_nat p + Z.of_nat (j * n)) (Z.of_nat n)) (seq s k))%nat as H
    by (apply H; lia).
  induction k as [|k IH]; intros s q Hq; [done|]. cbn [fields seq map]. f_equal.
  - f_equal. lia.
  - apply IH. lia.
Qed.

Lemma fields32_fields buf p n : fields32 buf p n = fields (le_bytes buf) (8 * p) n 32.
Proof. rewrite fields_map. unfold fields32. by rewrite Nat2Z.inj_mul. Qed.

(** Fields that end inside the stream are fields of the whole buffer. *)
Lemma fields_stream r p n k :
  bytes_ok (buffer r) -> (total_bytes r <= length (buffer r))%nat ->
  (p + k * n <= 8 * total_bytes r)%nat ->
  fields (stream r) p n k = fields (le_bytes (buffer r)) p n k.
Proof.
  revert p. induction k as [|k IH]; intros p Hb Ht Hp; [done|]. cbn [fields].
  rewrite IH by (done || lia). f_equal. apply stream_bits; done || nia.
Qed.

Section Reading.
Context (read : BitReader -> option (Z * BitReader)) (n : nat).
Context (Hread : forall r, reader_wf r -> (pos r + n <= 8 * total_bytes r)%nat ->
  exists r', read r = Some (bits (stream r) (Z.of_nat (pos r)) (Z.of_nat n), r') /\ advanced r r' n).

Lemma rest_loop_spec k r dst i :
  reader_wf r -> (pos r + k * n <= 8 * total_bytes r)%nat -> (i + k <= length dst)%nat ->
  exists r', rest_loop read k r dst i = Some (splice dst i (fields (stream r) (pos r) n k), r') /\
    advanced r r' (k * n).
Proof.
  revert r dst i. induction k as [|k IH]; intros r dst i Hr Hp Hi; cbn [rest_loop fields].
  - exists r. rewrite splice_nil. split; [done|]. by apply advanced_refl.
  - destruct (Hread r Hr) as (r1 & -> & Hadv1); [lia|]. cbn [mbind option_bind].
    destruct (lookup_lt_is_Some_2 dst i) as [x ->]; [lia|]. cbn [mbind option_bind].
    rewrite splice_insert by lia.
    destruct (IH r1 (splice dst i [bits (stream r) (Z.of_nat (pos r)) (Z.of_nat n)]) (S i)
      (adv_wf _ _ _ Hadv1)) as (r2 & -> & Hadv2);
      [rewrite (adv_pos _ _ _ Hadv1), (adv_total _ _ _ Hadv1); lia
      |rewrite length_splice by (cbn; lia); lia|].
    exists r2. split; [|replace (S k * n)%nat with (n + k * n)%nat by lia; by eapply advanced_trans].
    rewrite (advanced_stream _ _ _ Hadv1), (adv_pos _ _ _ Hadv1), <-Nat.add_1_r.
    do 2 f_equal. apply (splice_app dst i [_]). rewrite length_fields. cbn. lia.
Qed.

Lemma align_loop_spec k r dst i :
  reader_wf r -> (pos r + k * n <= 8 * total_bytes r)%nat -> (i + k <= length dst)%nat ->
  exists m r', (m <= k)%nat /\
    align_loop read k r dst i =
      Some ((i + m)%nat, splice dst i (fields (stream r) (pos r) n m), r') /\
    advanced r r' (m * n) /\ (m = k \/ bit_offset r' = 0%nat).
Proof.
  revert r dst i. induction k as [|k IH]; intros r dst i Hr Hp Hi; cbn [align_loop].
  - exists 0%nat, r. cbn [fields]. rewrite splice_nil, Nat.add_0_r.
    split_and!; try done; auto using advanced_refl.
  - destruct (Nat.eqb_spec (bit_offset r) 0).
    { exists 0%nat, r. cbn [fields]. rewrite splice_nil, Nat.add_0_r.
      split_and!; try done; try lia; auto using advanced_refl. }
    destruct (Hread r Hr) as (r1 & -> & Hadv1); [lia|]. cbn [mbind option_bind].
    destruct (lookup_lt_is_Some_2 dst i) as [x ->]; [lia|]. cbn [mbind option_bind].
    rewrite splice_insert by lia.
    destruct (IH r1 (splice dst i [bits (stream r) (Z.of_nat (pos r)) (Z.of_nat n)]) (S i)
      (adv_wf _ _ _ Hadv1)) as (m & r2 & Hm & -> & Hadv2 & Hor);
      [rewrite (adv_pos _ _ _ Hadv1), (adv_total _ _ _ Hadv1); lia
      |rewrite length_splice by (cbn; lia); lia|].
    exists (S m), r2. split_and!; [lia| |
      replace (S m * n)%nat with (n + m * n)%nat by lia; by eapply advanced_trans
      |destruct Hor as [->|]; auto].
    rewrite (advanced_stream _ _ _ Hadv1), (adv_pos _ _ _ Hadv1). do 3 f_equal; [lia|].
    rewrite <-Nat.add_1_r. apply (splice_app dst i [_]). rewrite length_fields. cbn. lia.
Qed.
End Reading.

Lemma unpack_loop_spec blocks r n dst i :
  bytes_ok (buffer r) -> (n <= 32)%nat ->
  (byte_offset r + blocks * (4 * n) <= length (buffer r))%nat ->
  (i + 32 * blocks <= length dst)%nat ->
  unpack_loop blocks r (byte_offset r) n dst i =
    Some ((i + 32 * blocks)%nat,
      splice dst i (fields (le_bytes (buffer r)) (8 * byte_offset r) n (32 * blocks)),
      set_offsets r (byte_offset r + blocks * (4 * n)) (bit_offset r)).
Proof.
  revert r dst i. induction blocks as [|k IH]; intros r dst i Hb Hn Hin Hout; cbn [unpack_loop].
  - rewrite Nat.mul_0_r, Nat.mul_0_l. cbn [fields]. rewrite splice_nil, !Nat.add_0_r. by destruct r.
  - rewrite unpack32_spec by (done || lia). cbn [mbind option_bind].
    set (r1 := set_offsets r (byte_offset r + 4 * n) (bit_offset r)).
    change (byte_offset r + 4 * n)%nat with (byte_offset r1).
    assert (Hlen : length (fields32 (buffer r) (byte_offset r) n) = 32%nat)
      by (by rewrite fields32_fields, length_fields).
    change (take i dst ++ _) with (splice dst i (fields32 (buffer r) (byte_offset r) n)).
    rewrite IH; [|done|done|cbn; lia|rewrite length_splice; lia].
    cbn [r1 buffer byte_offset bit_offset set_offsets total_bytes buffered_values].
    do 2 f_equal; [f_equal; [lia|]|unfold r1, set_offsets; cbn; f_equal; lia].
    replace (i + 32)%nat with (i + length (fields32 (buffer r) (byte_offset r) n))%nat by lia.
    rewrite splice_app by (rewrite length_fields; lia).
    rewrite fields32_fields. f_equal.
    replace (32 * S k)%nat with (32 + 32 * k)%nat by lia.
    rewrite fields_app. do 2 f_equal. lia.
Qed.

Section Batch.
Context (read : BitReader -> option (Z * BitReader)) (n : nat) (Hn : (n <= 32)%nat).
Context (Hread : forall r, reader_wf r -> (pos r + n <= 8 * total_bytes r)%nat ->
  exists r', read r = Some (bits (stream r) (Z.of_nat (pos r)) (Z.of_nat n), r') /\ advanced r r' n).

(** The 32-at-a-time phase, in either of its forms, on targets that satisfy [P]. *)
Context (bulk : nat -> BitReader -> list Z -> nat -> option (nat * list Z * BitReader)).
Context (P : list Z -> Prop).
Context (HP : forall dst i z p k, (i + k <= length dst)%nat -> P dst -> P (splice dst i (fields z p n k))).
Context (Hbulk : forall blocks r dst i, P dst -> bytes_ok (buffer r) ->
  (byte_offset r + blocks * (4 * n) <= length (buffer r))%nat ->
  (i + 32 * blocks <= length dst)%nat ->
  bulk blocks r dst i = Some ((i + 32 * blocks)%nat,
    splice dst i (fields (le_bytes (buffer r)) (8 * byte_offset r) n (32 * blocks)),
    set_offsets r (byte_offset r + blocks * (4 * n)) (bit_offset r))).

(** Reading up to the next byte boundary. *)
Lemma batch_head total r dst :
  reader_wf r -> (pos r + total * n <= 8 * total_bytes r)%nat -> (total <= length dst)%nat ->
  exists m r1, (m <= total)%nat /\
    (if (bit_offset r =? 0)%nat then Some (0%nat, dst, r) else align_loop read total r dst 0) =
      Some (m, splice dst 0 (fields (stream r) (pos r) n m), r1) /\
    advanced r r1 (m * n) /\ (m = total \/ bit_offset r1 = 0%nat).
Proof.
  intros Hr Hend Hlen. destruct (Nat.eqb_spec (bit_offset r) 0).
  - exists 0%nat, r. cbn [fields]. rewrite splice_nil.
    split_and!; try done; try lia; auto using advanced_refl.
  - by apply (align_loop_spec read n Hread total r dst 0).
Qed.

(** Appending fields after those already written. *)
Lemma splice_fields_app dst z p a b :
  (a + b <= length dst)%nat ->
  splice (splice dst 0 (fields z p n a)) a (fields z (p + a * n) n b) =
    splice dst 0 (fields z p n (a + b)).
Proof.
  intros. rewrite fields_app, <-(splice_app dst 0) by (rewrite !length_fields; lia).
  by rewrite length_fields.
Qed.

(** The bulk phase and the reload that follows it. *)
Lemma batch_bulk blocks r dst i :
  reader_wf r -> P dst -> (blocks = 0 \/ bit_offset r = 0)%nat ->
  (pos r + 32 * blocks * n <= 8 * total_bytes r)%nat -> (i + 32 * blocks <= length dst)%nat ->
  exists r2 r3,
    bulk blocks r dst i = Some ((i + 32 * blocks)%nat,
      splice dst i (fields (stream r) (pos r) n (32 * blocks)), r2) /\
    reload_buffer_values r2 = Some r3 /\ advanced r r3 (32 * blocks * n).
Proof.
  intros Hr HPd Hblk Hend Hlen. pose proof Hr as [Hb Ht Hbit Hp _].
  assert (Hfit : (8 * (byte_offset r + blocks * (4 * n)) <= 8 * total_bytes r)%nat)
    by (unfold pos in *; nia).
  destruct (reload_at r (byte_offset r + blocks * (4 * n)) (bit_offset r) (32 * blocks * n) Hr)
    as (r3 & E3 & Hadv3 & _); [lia|unfold pos; lia|lia|].
  eexists _, r3. split_and!; [|exact E3|done].
  rewrite Hbulk by (done || lia). do 3 f_equal. destruct Hblk as [->|Hz].
  - by rewrite Nat.mul_0_r.
  - rewrite (fields_stream r (pos r)) by done. do 2 f_equal. unfold pos. lia.
Qed.

(** The three phases of a batch read, step by step. *)
Lemma batch_phases total r dst :
  reader_wf r -> P dst -> (pos r + total * n <= 8 * total_bytes r)%nat ->
  (total <= length dst)%nat ->
  exists i1 d1 r1 i2 d2 r2 r3 r',
    (if (bit_offset r =? 0)%nat then Some (0%nat, dst, r)
     else align_loop read total r dst 0) = Some (i1, d1, r1) /\
    slice_from (buffer r1) (byte_offset r1) <> None /\
    bulk ((total - i1) / 32) r1 d1 i1 = Some (i2, d2, r2) /\
    reload_buffer_values r2 = Some r3 /\
    rest_loop read (total - i2) r3 d2 i2 =
      Some (splice dst 0 (fields (stream r) (pos r) n total), r') /\
    advanced r r' (total * n).
Proof.
  intros Hr HPd Hend Hlen.
  destruct (batch_head total r dst Hr Hend Hlen) as (m & r1 & Hm & E1 & Hadv1 & Hor).
  pose proof (adv_pos _ _ _ Hadv1) as Hp1. pose proof (adv_total _ _ _ Hadv1) as Ht1.
  pose proof (advanced_stream _ _ _ Hadv1) as Hs1. pose proof (adv_wf _ _ _ Hadv1) as Hr1.
  set (blocks := ((total - m) / 32)%nat). set (k := (m + 32 * blocks)%nat).
  assert (Hk : (m <= k <= total)%nat) by (unfold k, blocks; lia).
  assert (Hblk : (blocks = 0 \/ bit_offset r1 = 0)%nat)
    by (destruct Hor; [left; unfold blocks|right]; lia).
  destruct (batch_bulk blocks r1 (splice dst 0 (fields (stream r) (pos r) n m)) m Hr1)
    as (r2 & r3 & E2 & E3 & Hadv3); [apply HP; done || lia|done|nia|rewrite length_splice; rewrite ?length_fields; lia|].
  rewrite Hs1, Hp1, splice_fields_app in E2 by lia. fold k in E2.
  destruct (rest_loop_spec read n Hread (total - k) r3
    (splice dst 0 (fields (stream r) (pos r) n k)) k (adv_wf _ _ _ Hadv3)) as (r' & E4 & Hadv4).
  { rewrite (adv_pos _ _ _ Hadv3), (adv_total _ _ _ Hadv3). nia. }
  { rewrite length_splice; rewrite ?length_fields; lia. }
  rewrite (advanced_stream _ _ _ Hadv3), (adv_pos _ _ _ Hadv3), Hs1, Hp1 in E4.
  replace (pos r + m * n + 32 * blocks * n)%nat with (pos r + k * n)%nat in E4 by lia.
  rewrite splice_fields_app in E4 by lia. replace (k + (total - k))%nat with total in E4 by lia.
  eexists _, _, r1, _, _, r2, r3, r'. split_and!; [exact E1| |exact E2|exact E3|exact E4|].
  - pose proof (wf_pos _ Hr1). pose proof (wf_total _ Hr1). unfold slice_from, pos in *. by simp_tests.
  - replace (total * n)%nat with (m * n + (32 * blocks * n + (total - k) * n))%nat by nia.
    eapply advanced_trans; [done|]. by eapply advanced_trans.
Qed.
End Batch.

Lemma get_u32_value_spec n r :
  (n <= 32)%nat -> reader_wf r -> (pos r + n <= 8 * total_bytes r)%nat ->
  exists r', get_u32_value r n = Some (bits (stream r) (Z.of_nat (pos r)) (Z.of_nat n), r') /\
    advanced r r' n.
Proof.
  intros Hn Hr Hend. unfold get_u32_value.
  destruct (get_u64_value_spec r n Hr) as (r' & -> & Hadv); [lia|lia|done|].
  cbn [mbind option_bind]. exists r'. split; [|done]. do 2 f_equal. apply wrap_small.
  apply (in_u_mono (Z.of_nat n)); [lia..|]. apply bits_range. lia.
Qed.

Lemma get_u32_batch_spec r dst total n :
  reader_wf r -> (n <= 32)%nat -> (pos r + total * n <= 8 * total_bytes r)%nat ->
  (total <= length dst)%nat ->
  exists r', get_u32_batch r dst total n =
      Some (splice dst 0 (fields (stream r) (pos r) n total), r') /\
    advanced r r' (total * n).
Proof.
  intros Hr Hn Hend Hlen.
  destruct (batch_phases (fun r => get_u32_value r n) n Hn (fun r Hr => get_u32_value_spec n r Hn Hr)
    (fun b r dst i => unpack_loop b r (byte_offset r) n dst i) (fun _ => True)
    (fun _ _ _ _ _ _ H => H)
    (fun b r dst i _ Hb => unpack_loop_spec b r n dst i Hb Hn) total r dst Hr I Hend Hlen)
    as (i1 & d1 & r1 & i2 & d2 & r2 & r3 & r' & E1 & E2 & E3 & E4 & E5 & Hadv).
  exists r'. split; [|done]. unfold get_u32_batch. rewrite E1. cbn [mbind option_bind].
  destruct (slice_from _ _); [|done]. cbn [mbind option_bind]. rewrite E3. cbn [mbind option_bind].
  rewrite E4. cbn [mbind option_bind]. done.
Qed.

(** * [get_batch] *)

(** Slots of a target whose elements are wider than four bytes must have their
    upper halves clear: the bulk copy writes only the lower four bytes. *)
Definition slots_ok (size : nat) (batch : list Z) : Prop :=
  (size <= 4)%nat \/ Forall (in_u 32) batch.

Lemma fields_range z p n k : (n <= 32)%nat -> Forall (in_u 32) (fields z p n k).
Proof.
  intros Hn. revert p. induction k as [|k IH]; intros p; constructor; [|done].
  apply (in_u_mono (Z.of_nat n)); [lia..|]. apply bits_range. lia.
Qed.

Lemma slots_ok_splice size n batch i z p k :
  (n <= 32)%nat -> slots_ok size batch -> slots_ok size (splice batch i (fields z p n k)).
Proof.
  intros Hn [H|H]; [by left|right]. unfold splice. rewrite !Forall_app.
  split_and!; [by apply Forall_take|by apply fields_range|by apply Forall_drop].
Qed.

Lemma copy_u32_spec size n old v :
  (size <= 4)%nat \/ in_u 32 old -> (n <= 8 * size)%nat -> in_u (Z.of_nat n) v ->
  copy_u32 size old v = v.
Proof.
  intros Hor Hn Hv. unfold copy_u32. case_ltb.
  - destruct Hor as [?|[? ?]]; [lia|]. rewrite Z.shiftr_div_pow2, Z.div_small by lia.
    by rewrite Z.shiftl_0_l.
  - apply wrap_small. apply (in_u_mono (Z.of_nat n)); done || lia.
Qed.

Lemma copy_block_spec size n out batch i :
  slots_ok size batch -> (n <= 8 * size)%nat -> (n <= 32)%nat ->
  Forall (in_u (Z.of_nat n)) out -> (i + length out <= length batch)%nat ->
  copy_block size out batch i = Some (splice batch i out).
Proof.
  intros Hs Hn Hn32 Hout. revert batch i Hs.
  induction Hout as [|v out Hv Hout IH]; intros batch i Hs Hi; cbn [copy_block].
  - by rewrite splice_nil.
  - cbn in Hi. destruct (lookup_lt_is_Some_2 batch i) as [old Hold]; [lia|].
    rewrite Hold. cbn [mbind option_bind]. rewrite (copy_u32_spec size n); [|..|done|done].
    + rewrite IH.
      * rewrite splice_insert by lia. rewrite <-Nat.add_1_r. f_equal.
        apply (splice_app batch i [v]). cbn. lia.
      * destruct Hs as [?|Hs]; [by left|right]. apply Forall_insert; [done|].
        by apply (in_u_mono (Z.of_nat n)); [lia..|].
      * rewrite length_insert. lia.
    + destruct Hs as [?|Hs]; [by left|right]. by eapply (Forall_lookup_1 (in_u 32)).
Qed.

Lemma narrow_loop_spec size n blocks r out batch i :
  bytes_ok (buffer r) -> (n <= 32)%nat -> (n <= 8 * size)%nat -> slots_ok size batch ->
  length out = 32%nat -> (byte_offset r + blocks * (4 * n) <= length (buffer r))%nat ->
  (i + 32 * blocks <= length batch)%nat ->
  narrow_loop blocks size r (byte_offset r) n out batch i =
    Some ((i + 32 * blocks)%nat,
      splice batch i (fields (le_bytes (buffer r)) (8 * byte_offset r) n (32 * blocks)),
      set_offsets r (byte_offset r + blocks * (4 * n)) (bit_offset r)).
Proof.
  revert r out batch i. induction blocks as [|k IH]; intros r out batch i Hb Hn Hn8 Hs Ho Hin Hlen;
    cbn [narrow_loop].
  - rewrite Nat.mul_0_r, Nat.mul_0_l. cbn [fields]. rewrite splice_nil, !Nat.add_0_r. by destruct r.
  - rewrite unpack32_spec by (done || lia). cbn [mbind option_bind].
    change (take 0 out ++ _) with (splice out 0 (fields32 (buffer r) (byte_offset r) n)).
    rewrite fields32_fields, splice_0 by (by rewrite length_fields).
    set (r1 := set_offsets r (byte_offset r + 4 * n) (bit_offset r)).
    change (byte_offset r + 4 * n)%nat with (byte_offset r1).
    set (f := fields _ _ _ 32). assert (Hf : length f = 32%nat) by apply length_fields.
    rewrite (copy_block_spec size n); [|done|done|done| |lia].
    2: { unfold f. rewrite fields_map. apply Forall_map, Forall_forall. intros. apply bits_range. lia. }
    cbn [mbind option_bind]. rewrite IH;
      [|done|done|done|by apply slots_ok_splice|done|cbn; lia|rewrite length_splice; lia].
    cbn [r1 buffer byte_offset bit_offset set_offsets total_bytes buffered_values].
    do 2 f_equal; [f_equal; [lia|]|unfold r1, set_offsets; cbn; f_equal; lia].
    replace (i + 32)%nat with (i + length f)%nat by lia.
    rewrite splice_app by (rewrite length_fields; lia). f_equal. unfold f.
    replace (32 * S k)%nat with (32 + 32 * k)%nat by lia.
    rewrite fields_app. do 2 f_equal. lia.
Qed.

Lemma expect_value_spec size n r :
  (n <= 8 * size)%nat -> (n <= 32)%nat -> reader_wf r -> (pos r + n <= 8 * total_bytes r)%nat ->
  exists r', expect_value size n r = Some (bits (stream r) (Z.of_nat (pos r)) (Z.of_nat n), r') /\
    advanced r r' n.
Proof.
  intros Hn8 Hn Hr Hend. unfold expect_value.
  destruct (get_value_spec (UInt size) r n Hr) as (r' & -> & Hadv); [lia|done|].
  cbn [mbind option_bind]. exists r'. split; [|done]. do 2 f_equal. cbn [from_u64].
  apply wrap_small. apply (in_u_mono (Z.of_nat n)); [lia..|]. apply bits_range. lia.
Qed.

(** How many values a batch read returns. *)
Definition batch_count (r : BitReader) (len n : nat) : nat :=
  if (8 * total_bytes r - pos r <? n * len)%nat then ((8 * total_bytes r - pos r) / n)%nat else len.

Lemma batch_count_fits r len n :
  reader_wf r ->
  (pos r + batch_count r len n * n <= 8 * total_bytes r)%nat /\ (batch_count r len n <= len)%nat.
Proof.
  intros [_ _ _ Hp _]. unfold batch_count. case_ltb; [|nia].
  destruct (decide (n = 0)%nat) as [->|Hn]; [lia|].
  pose proof (Nat.Div0.div_mod (8 * total_bytes r - pos r) n).
  pose proof (Nat.mod_upper_bound (8 * total_bytes r - pos r) n Hn). nia.
Qed.

Lemma get_batch_spec size r batch n :
  reader_wf r -> (n <= 32)%nat -> (n <= 8 * size)%nat -> slots_ok size batch ->
  exists r', let k := batch_count r (length batch) n in
    get_batch size r batch n = Some (k, splice batch 0 (fields (stream r) (pos r) n k), r') /\
    advanced r r' (k * n).
Proof.
  intros Hr Hn Hn8 Hs. unfold get_batch. rewrite remaining_bits_spec by done.
  cbn [mbind option_bind]. fold (batch_count r (length batch) n).
  destruct (batch_count_fits r (length batch) n Hr) as [Hfit Hle].
  set (k := batch_count r (length batch) n) in *.
  destruct (batch_phases (expect_value size n) n Hn (fun r => expect_value_spec size n r Hn8 Hn)
    (fun b r dst i => if (size =? 4)%nat then unpack_loop b r (byte_offset r) n dst i
                      else narrow_loop b size r (byte_offset r) n (replicate 32 0) dst i)
    (slots_ok size) (fun dst i z p k _ => slots_ok_splice size n dst i z p k Hn))
    with (total := k) (r := r) (dst := batch)
    as (i1 & d1 & r1 & i2 & d2 & r2 & r3 & r' & E1 & E2 & E3 & E4 & E5 & Hadv); try done.
  { intros. destruct (size =? 4)%nat; [by apply unpack_loop_spec|by apply narrow_loop_spec]. }
  exists r'. split; [|done]. rewrite E1. cbn [mbind option_bind].
  destruct (slice_from _ _); [|done]. cbn [mbind option_bind]. rewrite E3. cbn [mbind option_bind].
  rewrite E4. cbn [mbind option_bind]. rewrite E5. done.
Qed.

(** [get_batch] of [n]-bit values into a slice of [T] delivers as many whole
    values as the stream still holds, up to the length of the slice; they are the
    next fields of the stream, whatever the width of [T], the rest of the slice is
    untouched and the reader advances past exactly the values delivered. *)
Lemma get_batch_correct size r batch n :
  reader_wf r -> (n <= 32)%nat -> (n <= 8 * size)%nat -> slots_ok size batch ->
  exists r', let k := batch_count r (length batch) n in
    get_batch size r batch n = Some (k, splice batch 0 (fields (stream r) (pos r) n k), r') /\
    advanced r r' (k * n).
Proof. apply get_batch_spec. Qed.

(** Into a slice of 8-byte elements the bulk phase stores only the lower four
    bytes of each slot, so stale upper halves survive. *)
Example get_batch_stale_upper :
  (r ← new_all [255; 255; 255; 255]; '(k, b, _) ← get_batch 8 r (replicate 32 (2 ^ 40)) 1; Some (k, b))
    = Some (32%nat, replicate 32 (2 ^ 40 + 1)).
Proof. vm_compute. reflexivity. Qed.

(** C9: A bit reader is a cursor in a stream of bits, and on a well-formed reader the calls below never panic or read outside the buffer.
    [get_value] of up to 63 bits, or of 64 if the cursor is not at the start of its 64-bit window, returns [None] exactly
    when fewer bits are left and else the next bits.  [get_batch] of fields of up to 32 bits that fit the elements delivers as many whole fields
    as the stream and the slice hold, if the elements have at most four bytes or their upper halves are clear.  [get_bits] copies as many bits
    as possible into a range of zero bits and no others.  [skip_bits] skips what is left at most.  [get_u32_batch], in its aligning,
    unrolled and trailing phases, stores the next fields of up to 32 bits when the stream and the slice have enough.  Each
    advances the cursor in the same stream by exactly the bits it delivered. *)
Theorem bit_reader_correct r :
  reader_wf r ->
  (forall t n, (n < 64 \/ n = 64 /\ bit_offset r <> 0)%nat ->
    ((8 * total_bytes r < pos r + n)%nat /\ get_value t r n = Some (None, r)) \/
    ((pos r + n <= 8 * total_bytes r)%nat /\
     exists r', get_value t r n = Some (Some (from_u64 t (bits (stream r) (Z.of_nat (pos r)) (Z.of_nat n))), r') /\ advanced r r' n)) /\
  (forall size batch n, (n <= 32)%nat -> (n <= 8 * size)%nat -> slots_ok size batch ->
    exists r', let k := batch_count r (length batch) n in
      get_batch size r batch n = Some (k, splice batch 0 (fields (stream r) (pos r) n k), r') /\ advanced r r' (k * n)) /\
  (forall dst offset n, bytes_ok dst -> (offset <= 8 * length dst)%nat ->
    (forall j, (offset <= j < offset + n)%nat -> bitn dst j = false) ->
    exists dst' r', let num := deliverable r dst offset n in
      get_bits r dst offset n = Some (num, dst', r') /\ advanced r r' num /\ copied dst dst' offset (offset + num) (stream r) (pos r)) /\
  (forall n, exists r', let num := Nat.min (8 * total_bytes r - pos r) n in skip_bits r n = Some (num, r') /\ advanced r r' num) /\
  (forall dst total n, (n <= 32)%nat -> (pos r + total * n <= 8 * total_bytes r)%nat -> (total <= length dst)%nat ->
    exists r', get_u32_batch r dst total n = Some (splice dst 0 (fields (stream r) (pos r) n total), r') /\ advanced r r' (total * n)).
Proof.
  intros Hr. split_and!; intros.
  - by apply get_value_correct.
  - by apply get_batch_correct.
  - by apply get_bits_correct.
  - by apply skip_bits_correct.
  - by apply get_u32_batch_spec.
Qed.

Lemma bit_reader_correct_witness :
  (exists r', get_value (SInt 8) sample_reader 32 = Some (Some 10, r') /\ advanced sample_reader r' 32) /\
  (exists r', get_batch 2 sample_reader (replicate 40 9) 12 = Some (8%nat, splice (replicate 40 9) 0 (fields (stream sample_reader) 0 12 8), r') /\
    advanced sample_reader r' 96) /\
  (exists dst' r', get_bits sample_reader [0; 0] 3 100 = Some (13%nat, dst', r') /\ copied [0; 0] dst' 3 16 (stream sample_reader) 0) /\
  (exists r', skip_bits sample_reader 77 = Some (77%nat, r') /\ advanced sample_reader r' 77) /\
  (exists r', get_u32_batch sample_reader (replicate 34 9) 33 2 = Some (splice (replicate 34 9) 0 (fields (stream sample_reader) 0 2 33), r') /\
    advanced sample_reader r' 66).
Proof.
  destruct (bit_reader_correct sample_reader sample_reader_wf) as (Hv & Hb & Hg & Hs & Hu). split_and!.
  - destruct (Hv (SInt 8) 32%nat) as [[H _]|[_ H]]; [left; lia|vm_compute in H; lia|exact H].
  - destruct (Hb 2%nat (replicate 40 9) 12%nat) as (r' & E & Hadv); [lia|lia|left; lia|]. exists r'. split; [exact E|exact Hadv].
  - destruct (Hg [0; 0] 3%nat 100%nat) as (dst' & r' & H & _ & Hc).
    + repeat constructor; unfold in_u; lia.
    + cbn. lia.
    + intros j Hj. unfold bitn. destruct (j / 8)%nat as [|[|k]]; [apply Z.testbit_0_l|apply Z.testbit_0_l|]. destruct k; reflexivity.
    + exists dst', r'. split; [exact H|exact Hc].
  - exact (Hs 77%nat).
  - apply (Hu (replicate 34 9) 33%nat 2%nat); vm_compute; lia.
Defined.
