(* ===== verification/BitWriter.v ===== *)
(** [BitWriter] of src/native/core/src/common/bit.rs, and its round trips with
    [BitReader].

    State: a byte buffer, and up to 64 pending bits in [buffered_values].  The
    abstract contents is the number whose low [wpos] bits have been written. *)

From S2P Require Import Prelude BitUtil Unpack BitPacking BitReader BitReaderProps.

Record BitWriter := {
  w_buffer : list Z;
  max_bytes : nat;
  w_buffered : Z;
  w_byte_offset : nat;
  w_bit_offset : nat;
  w_start : nat }.

(** * Operations *)

Definition writer_new (max : nat) : BitWriter :=
  {| w_buffer := replicate max 0; max_bytes := max; w_buffered := 0; w_byte_offset := 0;
     w_bit_offset := 0; w_start := 0 |}.

Definition new_from_buf (buf : list Z) (start : nat) : BitWriter :=
  {| w_buffer := buf; max_bytes := length buf; w_buffered := 0; w_byte_offset := start;
     w_bit_offset := 0; w_start := start |}.

Definition extend (w : BitWriter) (increment : nat) : BitWriter :=
  {| w_buffer := w_buffer w ++ replicate increment 0; max_bytes := max_bytes w + increment;
     w_buffered := w_buffered w; w_byte_offset := w_byte_offset w;
     w_bit_offset := w_bit_offset w; w_start := w_start w |}.

Definition clear (w : BitWriter) : BitWriter :=
  {| w_buffer := w_buffer w; max_bytes := max_bytes w; w_buffered := 0;
     w_byte_offset := w_start w; w_bit_offset := 0; w_start := w_start w |}.

(** The cursor fields after a write of [buf]. *)
Definition set_writer (w : BitWriter) (buf : list Z) (v : Z) (byte bit : nat) : BitWriter :=
  {| w_buffer := buf; max_bytes := max_bytes w; w_buffered := v; w_byte_offset := byte;
     w_bit_offset := bit; w_start := w_start w |}.

Definition flush (w : BitWriter) : option BitWriter :=
  let num_bytes := div_ceil (w_bit_offset w) 8 in
  buf ← memcpy_value 8 (w_buffered w) num_bytes (w_buffer w) (w_byte_offset w);
  Some (set_writer w buf 0 (w_byte_offset w + num_bytes) 0).

Definition consume (w : BitWriter) : option (list Z) :=
  w ← flush w; Some (take (w_byte_offset w) (w_buffer w)).

(** [flush_buffer] slices what [buffer()] returns, the buffer from [start] on. *)
Definition flush_buffer (w : BitWriter) : option (list Z * BitWriter) :=
  w ← flush w;
  b ← slice_from (w_buffer w) (w_start w);
  b ← slice b 0 (w_byte_offset w);
  Some (b, w).

(** [skip(num_bytes)]: [inr offset] or the error; the flush happens either way. *)
Definition skip (w : BitWriter) (num_bytes : nat) : option ((unit + nat) * BitWriter) :=
  w ← flush w;
  if (max_bytes w <? w_byte_offset w + num_bytes)%nat then Some (inl tt, w)
  else Some (inr (w_byte_offset w),
    set_writer w (w_buffer w) (w_buffered w) (w_byte_offset w + num_bytes) (w_bit_offset w)).

Definition bytes_written (w : BitWriter) : option nat :=
  d ← usub (w_byte_offset w) (w_start w); Some (d + div_ceil (w_bit_offset w) 8)%nat.

Definition write_at (w : BitWriter) (offset : nat) (value : Z) : option BitWriter :=
  buf ← update (w_buffer w) offset (fun _ => value);
  Some (set_writer w buf (w_buffered w) (w_byte_offset w) (w_bit_offset w)).

(** [v.checked_shr(n).unwrap_or(0)] *)
Definition checked_shr (v : Z) (n : nat) : Z := if (n <? 64)%nat then shr 64 v (Z.of_nat n) else 0.

Definition put_value (w : BitWriter) (v : Z) (num_bits : nat) : option (bool * BitWriter) :=
  let num_bytes := (w_byte_offset w * 8 + w_bit_offset w + num_bits)%nat in
  if (max_bytes w * 8 <? num_bytes)%nat then Some (false, w) else
  let buffered := Z.lor (w_buffered w) (shl 64 v (Z.of_nat (w_bit_offset w))) in
  let bit := (w_bit_offset w + num_bits)%nat in
  if (64 <=? bit)%nat then
    buf ← memcpy_value 8 buffered 8 (w_buffer w) (w_byte_offset w);
    let bit := (bit - 64)%nat in
    shift ← usub num_bits bit;
    Some (true, set_writer w buf (checked_shr v shift) (w_byte_offset w + 8) bit)
  else Some (true, set_writer w (w_buffer w) buffered (w_byte_offset w) bit).

(** [put_aligned::<T>(val, num_bytes)] for a [T] of [ty_size] bytes. *)
Definition put_aligned (ty_size : nat) (w : BitWriter) (val : Z) (num_bytes : nat)
    : option (bool * BitWriter) :=
  '(result, w) ← skip w num_bytes;
  match result with
  | inl _ => Some (false, w)
  | inr offset =>
      buf ← memcpy_value ty_size val num_bytes (w_buffer w) offset;
      Some (true, set_writer w buf (w_buffered w) (w_byte_offset w) (w_bit_offset w))
  end.

Definition put_aligned_offset (ty_size : nat) (w : BitWriter) (val : Z) (num_bytes offset : nat)
    : option (bool * BitWriter) :=
  if (max_bytes w <? num_bytes + offset)%nat then Some (false, w) else
  buf ← memcpy_value ty_size val num_bytes (w_buffer w) offset;
  Some (true, set_writer w buf (w_buffered w) (w_byte_offset w) (w_bit_offset w)).

(** [put_vlq_int]: a 64-bit value has at most ten 7-bit groups. *)
Fixpoint put_vlq_loop (fuel : nat) (w : BitWriter) (v : Z) (result : bool)
    : option (bool * BitWriter) :=
  if Z.land v (2 ^ 64 - 128) =? 0 then
    '(ok, w) ← put_aligned 1 w (u8 (Z.land v 127)) 1; Some (result && ok, w)
  else
    match fuel with
    | O => None
    | S fuel =>
        '(ok, w) ← put_aligned 1 w (u8 (Z.lor (Z.land v 127) 128)) 1;
        put_vlq_loop fuel w (shr 64 v 7) (result && ok)
    end.

Definition put_vlq_int (w : BitWriter) (v : Z) : option (bool * BitWriter) :=
  put_vlq_loop 10 w v true.

(** [((v << 1) ^ (v >> 63)) as u64] *)
Definition zigzag_encode (v : Z) : Z := u64 (Z.lxor (i64 (v ≪ 1)) (v ≫ 63)).

Definition put_zigzag_vlq_int (w : BitWriter) (v : Z) : option (bool * BitWriter) :=
  put_vlq_int w (zigzag_encode v).

(** * Contents *)

Definition wpos (w : BitWriter) : nat := (8 * w_byte_offset w + w_bit_offset w)%nat.

(** The bits written so far, as a number. *)
Definition contents (w : BitWriter) : Z :=
  Z.lor (le_bytes (take (w_byte_offset w) (w_buffer w)))
        (w_buffered w ≪ (8 * Z.of_nat (w_byte_offset w))).

Record writer_wf (w : BitWriter) : Prop := {
  ww_bytes : bytes_ok (w_buffer w);
  ww_max : max_bytes w = length (w_buffer w);
  ww_bit : (w_bit_offset w < 64)%nat;
  ww_pos : (wpos w <= 8 * max_bytes w)%nat;
  ww_pending : in_u (Z.of_nat (w_bit_offset w)) (w_buffered w) }.

(** * Writing *)

Lemma memcpy_value_spec ty v n l off :
  bytes_ok l -> (n <= ty)%nat -> (off + n <= length l)%nat ->
  exists l', memcpy_value ty v n l off = Some l' /\ bytes_ok l' /\ length l' = length l /\
    take (off + n) l' = take off l ++ take n (to_le_bytes ty v).
Proof.
  intros Hl Hn Hoff. unfold memcpy_value, slice, memcpy_at. rewrite length_to_le_bytes. simp_tests.
  rewrite drop_0, Nat.sub_0_r, length_take, length_to_le_bytes, Nat.min_l by lia. simp_tests.
  eexists. split; [done|]. split_and!.
  - rewrite !bytes_ok_app. auto with bytes.
  - rewrite !length_app, !length_take, length_drop, length_to_le_bytes. lia.
  - rewrite app_assoc, take_app_length'; [done|].
    rewrite length_app, !length_take, length_to_le_bytes. lia.
Qed.

(** The number of the written prefix after a copy at its end. *)
Lemma memcpy_value_le ty v n l off :
  bytes_ok l -> (n <= ty)%nat -> (off + n <= length l)%nat ->
  exists l', memcpy_value ty v n l off = Some l' /\ bytes_ok l' /\ length l' = length l /\
    le_bytes (take (off + n) l') =
      Z.lor (le_bytes (take off l)) (bits v 0 (8 * Z.of_nat n) ≪ (8 * Z.of_nat off)).
Proof.
  intros Hl Hn Hoff. destruct (memcpy_value_spec ty v n l off Hl Hn Hoff) as (l' & E & Hb & Hlen & Ht).
  exists l'. split_and!; [done..|]. rewrite Ht, le_bytes_app by auto with bytes.
  rewrite length_take, Nat.min_l, (le_bytes_take n), le_bytes_to_le_bytes, bits_wrap by
    (auto with bytes || lia). done.
Qed.

(** [w'] holds what [w] holds followed by the [n] bits of [v]. *)
Record appended (w w' : BitWriter) (v : Z) (n : nat) : Prop := {
  app_wf : writer_wf w';
  app_max : max_bytes w' = max_bytes w;
  app_start : w_start w' = w_start w;
  app_pos : wpos w' = (wpos w + n)%nat;
  app_contents : contents w' = Z.lor (contents w) (v ≪ Z.of_nat (wpos w)) }.

Lemma in_u_lor_shift n m a b : 0 <= n -> 0 <= m -> in_u n a -> in_u m b -> in_u (n + m) (Z.lor a (b ≪ n)).
Proof.
  intros Hn Hm Ha Hb. assert (E : Z.lor a (b ≪ n) = bits (Z.lor a (b ≪ n)) 0 (n + m)); [zbits|].
  rewrite E. apply bits_range. lia.
Qed.

Lemma put_value_spec w v n :
  writer_wf w -> (n <= 64)%nat -> in_u (Z.of_nat n) v -> (wpos w + n <= 8 * max_bytes w)%nat ->
  exists w', put_value w v n = Some (true, w') /\ appended w w' v n.
Proof.
  intros [Hb Hmax Hbit Hpos Hpend] Hn Hv Hfit. unfold put_value. unfold wpos in *. simp_tests.
  destruct (Nat.leb_spec 64 (w_bit_offset w + n)).
  - destruct (memcpy_value_le 8 (Z.lor (w_buffered w) (shl 64 v (Z.of_nat (w_bit_offset w)))) 8
      (w_buffer w) (w_byte_offset w)) as (l' & -> & Hb' & Hl' & Hle); [done|lia|lia|].
    cbn [mbind option_bind]. unfold usub. simp_tests.
    replace (n - (w_bit_offset w + n - 64))%nat with (64 - w_bit_offset w)%nat by lia.
    set (hi := checked_shr v (64 - w_bit_offset w)).
    assert (Hhi : hi = v ≫ (64 - Z.of_nat (w_bit_offset w))).
    { unfold hi, checked_shr, shr. case_ltb; [rewrite Z.mod_small by lia; f_equal; lia|]. zbits. }
    eexists. split; [done|].
    split; [split|..]; cbn [w_buffer max_bytes w_buffered w_byte_offset w_bit_offset set_writer];
      try done; try congruence; try lia; try (unfold wpos; cbn; lia).
    + assert (E : hi = bits v (64 - Z.of_nat (w_bit_offset w)) (Z.of_nat (w_bit_offset w + n - 64)));
        [|rewrite E; apply bits_range; lia].
      rewrite Hhi. zbits.
    + unfold contents. cbn. rewrite Hle, Hhi. unfold shl, wpos. rewrite Z.mod_small by lia.
      zbits; rewrite <-?orb_assoc; repeat (f_equal; try lia).
  - eexists. split; [done|].
    assert (E : Z.lor (w_buffered w) (shl 64 v (Z.of_nat (w_bit_offset w))) =
      Z.lor (w_buffered w) (v ≪ Z.of_nat (w_bit_offset w))).
    { unfold shl. rewrite Z.mod_small by lia. zbits. }
    rewrite E.
    split; [split|..]; cbn [w_buffer max_bytes w_buffered w_byte_offset w_bit_offset set_writer];
      try done; try (unfold wpos; cbn; lia).
    + rewrite Nat2Z.inj_add. by apply in_u_lor_shift; [lia..| |].
    + unfold contents, wpos. cbn. rewrite Z.shiftl_lor, Z.shiftl_shiftl, Z.lor_assoc by lia.
      f_equal. f_equal. lia.
Qed.

Lemma put_value_full w v n :
  (8 * max_bytes w < wpos w + n)%nat -> put_value w v n = Some (false, w).
Proof. intros. unfold put_value, wpos in *. by simp_tests. Qed.

(** A flush pads the pending bits to the next byte boundary and keeps the contents. *)
Lemma flush_spec w :
  writer_wf w ->
  exists w', flush w = Some w' /\ writer_wf w' /\ max_bytes w' = max_bytes w /\
    w_start w' = w_start w /\ w_bit_offset w' = 0%nat /\
    w_byte_offset w' = div_ceil (wpos w) 8 /\ contents w' = contents w.
Proof.
  intros [Hb Hmax Hbit Hpos Hpend]. unfold flush, wpos, div_ceil in *.
  set (n := (_ / 8)%nat).
  destruct (memcpy_value_le 8 (w_buffered w) n (w_buffer w) (w_byte_offset w))
    as (l' & -> & Hb' & Hl' & Hle); [done|lia|lia|].
  eexists. split; [done|]. split; [split|]; unfold wpos, contents; cbn [w_buffer max_bytes w_buffered
    w_byte_offset w_bit_offset set_writer w_start]; try done; try congruence; try lia.
  split_and!; [done..|lia|]. rewrite Hle, Z.shiftl_0_l, Z.lor_0_r. f_equal. f_equal.
  apply bits_small; [|lia..]. by apply (in_u_mono (Z.of_nat (w_bit_offset w))); [lia..|].
Qed.

Lemma consume_spec w :
  writer_wf w ->
  exists l, consume w = Some l /\ bytes_ok l /\ length l = div_ceil (wpos w) 8 /\
    le_bytes l = contents w.
Proof.
  intros Hw. destruct (flush_spec w Hw) as (w' & E & [Hb Hmax Hbit Hpos Hpend] & ? & ? & H0 & Hbyte & Hc).
  unfold consume. rewrite E. cbn [mbind option_bind]. eexists. split; [done|].
  split_and!; [auto with bytes|rewrite length_take; unfold wpos in *; lia|].
  rewrite <-Hc. unfold contents. rewrite H0 in Hpend.
  replace (w_buffered w') with 0 by (destruct Hpend; lia). by rewrite Z.shiftl_0_l, Z.lor_0_r.
Qed.

(** * Round trip of bit-packed values *)

(** [put_value] of each value in turn, [get_value] of each width in turn. *)
Fixpoint put_values (w : BitWriter) (l : list (nat * Z)) : option (bool * BitWriter) :=
  match l with
  | [] => Some (true, w)
  | (n, v) :: l =>
      '(ok, w) ← put_value w v n;
      '(oks, w) ← put_values w l;
      Some (ok && oks, w)
  end.

Fixpoint get_values (r : BitReader) (l : list nat) : option (list (option Z) * BitReader) :=
  match l with
  | [] => Some ([], r)
  | n :: l =>
      '(v, r) ← get_value (UInt 8) r n;
      '(vs, r) ← get_values r l;
      Some (v :: vs, r)
  end.

Fixpoint total_bits (l : list (nat * Z)) : nat :=
  match l with [] => 0 | (n, _) :: l => n + total_bits l end.

(** The values side by side, the first in the low bits. *)
Fixpoint pack (l : list (nat * Z)) : Z :=
  match l with [] => 0 | (n, v) :: l => Z.lor v (pack l ≪ Z.of_nat n) end.

Definition value_ok (max : nat) (x : nat * Z) : Prop := (x.1 <= max)%nat /\ in_u (Z.of_nat x.1) x.2.

Lemma pack_range max l : Forall (value_ok max) l -> in_u (Z.of_nat (total_bits l)) (pack l).
Proof.
  induction 1 as [|[n v] l [_ Hv] _ IH]; cbn; [done|]. rewrite Nat2Z.inj_add.
  apply in_u_lor_shift; done || lia.
Qed.

Lemma put_values_spec l w :
  writer_wf w -> Forall (value_ok 64) l -> (wpos w + total_bits l <= 8 * max_bytes w)%nat ->
  exists w', put_values w l = Some (true, w') /\ appended w w' (pack l) (total_bits l).
Proof.
  intros Hw Hl. revert w Hw. induction Hl as [|[n v] l [Hn Hv] _ IH]; intros w Hw Hfit;
    cbn [put_values total_bits pack] in *.
  - exists w. split; [done|]. split; try done; try lia. by rewrite Z.shiftl_0_l, Z.lor_0_r.
  - destruct (put_value_spec w v n Hw) as (w1 & -> & [Hw1 Hm1 Hs1 Hp1 Hc1]); [done|done|lia|].
    cbn [mbind option_bind].
    destruct (IH w1 Hw1) as (w2 & -> & [Hw2 Hm2 Hs2 Hp2 Hc2]); [lia|].
    exists w2. split; [done|]. split; [done|congruence|congruence|lia|].
    rewrite Hc2, Hc1, Z.shiftl_lor, Z.shiftl_shiftl, Z.lor_assoc by lia. do 2 f_equal. lia.
Qed.

Lemma get_values_spec l r :
  reader_wf r -> Forall (value_ok 63) l -> (pos r + total_bits l <= 8 * total_bytes r)%nat ->
  bits (stream r) (Z.of_nat (pos r)) (Z.of_nat (total_bits l)) = pack l ->
  exists r', get_values r l.*1 = Some (Some <$> l.*2, r') /\ advanced r r' (total_bits l).
Proof.
  intros Hr Hl. revert r Hr. induction Hl as [|[n v] l [Hn Hv] Hl IH]; intros r Hr Hfit Hs;
    cbn [total_bits pack fmap list_fmap fst snd get_values] in *.
  - exists r. split; [done|]. by apply advanced_refl.
  - destruct (get_value_spec (UInt 8) r n Hr) as (r1 & -> & Hadv); [lia|lia|].
    pose proof (pack_range _ _ Hl) as Hpack. rewrite Nat2Z.inj_add in Hs.
    set (p := Z.of_nat (pos r)) in *. set (m := Z.of_nat (total_bits l)) in *.
    assert (Hv1 : bits (stream r) p (Z.of_nat n) = v).
    { transitivity (bits (bits (stream r) p (Z.of_nat n + m)) 0 (Z.of_nat n)).
      - rewrite bits_bits by lia. by rewrite Z.add_0_r.
      - rewrite Hs. zbits. }
    assert (Hv2 : bits (stream r) (p + Z.of_nat n) m = pack l).
    { transitivity (bits (bits (stream r) p (Z.of_nat n + m)) (Z.of_nat n) m).
      - by rewrite bits_bits by lia.
      - rewrite Hs. zbits. }
    rewrite Hv1. cbn [mbind option_bind].
    destruct (IH r1 (adv_wf _ _ _ Hadv)) as (r2 & -> & Hadv2).
    + rewrite (adv_pos _ _ _ Hadv), (adv_total _ _ _ Hadv). lia.
    + rewrite (advanced_stream _ _ _ Hadv), (adv_pos _ _ _ Hadv), Nat2Z.inj_add. done.
    + exists r2. split; [|by eapply advanced_trans]. cbn [mbind option_bind from_u64].
      rewrite wrap_small; [done|]. by apply (in_u_mono (Z.of_nat n)); [lia..|].
Qed.

Lemma writer_new_wf max : writer_wf (writer_new max).
Proof.
  split; cbn; try done; try lia.
  - by apply bytes_ok_replicate.
  - by rewrite length_replicate.
Qed.

Definition put_get (max : nat) (l : list (nat * Z)) : option (list (option Z)) :=
  '(_, w) ← put_values (writer_new max) l;
  buf ← consume w;
  r ← new_all buf;
  '(vs, _) ← get_values r l.*1;
  Some vs.

Lemma new_all_spec buf :
  bytes_ok buf ->
  exists r, new_all buf = Some r /\ reader_wf r /\ pos r = 0%nat /\ stream r = le_bytes buf /\
    total_bytes r = length buf /\ buffer r = buf.
Proof.
  intros Hb. destruct (new_spec buf (length buf) Hb ltac:(lia)) as (r & ? & ? & ? & Hs & ?).
  exists r. rewrite firstn_all in Hs. done.
Qed.

Lemma contents_new max : contents (writer_new max) = 0.
Proof. reflexivity. Qed.

(** [put_value] of any sequence of values of at most 63 bits that fits the
    buffer, then [consume], then [get_value] with the same widths, returns every
    value. *)
Lemma put_get_roundtrip max l :
  Forall (value_ok 63) l -> (total_bits l <= 8 * max)%nat -> put_get max l = Some (Some <$> l.*2).
Proof.
  intros Hl Hfit. unfold put_get.
  destruct (put_values_spec l (writer_new max) (writer_new_wf max)) as (w & -> & [Hw _ _ Hp Hc]);
    [by eapply Forall_impl, Hl; intros x [? ?]; split; [lia|]|cbn; lia|].
  cbn [mbind option_bind]. destruct (consume_spec w Hw) as (buf & -> & Hb & Hlen & Hle).
  cbn [mbind option_bind]. destruct (new_all_spec buf Hb) as (r & -> & Hr & Hp0 & Hs & Ht & _).
  cbn [mbind option_bind]. rewrite Hc, contents_new, Z.lor_0_l in Hle. cbn [wpos writer_new] in Hp.
  change (wpos (writer_new max)) with 0%nat in *. rewrite Z.shiftl_0_r in Hle.
  destruct (get_values_spec l r Hr Hl) as (r' & -> & _); [unfold div_ceil in *; lia| |done].
  rewrite Hp0, Hs, Hle, bits_0_l. apply Z.mod_small. by apply (pack_range 63).
Qed.

(** * Variable-length integers *)

(** The byte string [put_vlq_int] writes. *)
Fixpoint vlq_encode (fuel : nat) (v : Z) : list Z :=
  if v <? 128 then [v]
  else match fuel with
       | O => []
       | S fuel => Z.lor (Z.land v 127) 128 :: vlq_encode fuel (v ≫ 7)
       end.

Lemma vlq_continue v : in_u 64 v -> (Z.land v (2 ^ 64 - 128) =? 0) = (v <? 128).
Proof.
  intros Hv. assert (E : Z.land v (2 ^ 64 - 128) = (v ≫ 7) ≪ 7).
  { change (2 ^ 64 - 128) with (Z.ones 57 ≪ 7). zbits. }
  rewrite E, Z.shiftl_mul_pow2, Z.shiftr_div_pow2 by lia. change (2 ^ 7) with 128.
  destruct Hv. apply eq_true_iff_eq. rewrite Z.eqb_eq, Z.ltb_lt. lia.
Qed.

Lemma land_127 v : Z.land v 127 = v `mod` 2 ^ 7.
Proof. change 127 with (Z.ones 7). apply Z.land_ones. lia. Qed.

(** [put_aligned] of whole bytes, on success and when the buffer is full. *)
Lemma put_aligned_spec ty w v n :
  writer_wf w -> (n <= ty)%nat -> (div_ceil (wpos w) 8 + n <= max_bytes w)%nat ->
  exists w', put_aligned ty w v n = Some (true, w') /\ writer_wf w' /\
    max_bytes w' = max_bytes w /\ w_start w' = w_start w /\
    w_bit_offset w' = 0%nat /\ w_byte_offset w' = (div_ceil (wpos w) 8 + n)%nat /\
    contents w' = Z.lor (contents w) (bits v 0 (8 * Z.of_nat n) ≪ (8 * Z.of_nat (div_ceil (wpos w) 8))).
Proof.
  intros Hw Hn Hfit. unfold put_aligned, skip.
  destruct (flush_spec w Hw) as (w1 & -> & [Hb Hmax Hbit Hpos Hpend] & Hm & Hst & H0 & Hby & Hc).
  cbn [mbind option_bind]. simp_tests. cbn [w_buffer set_writer].
  destruct (memcpy_value_le ty v n (w_buffer w1) (w_byte_offset w1) Hb Hn)
    as (l' & -> & Hb' & Hl' & Hle); [lia|]. cbn [mbind option_bind].
  assert (Hz : w_buffered w1 = 0). { rewrite H0 in Hpend. destruct Hpend. lia. }
  eexists. split; [done|]. split; [split|]; unfold wpos, contents;
    cbn [w_buffer max_bytes w_buffered w_byte_offset w_bit_offset set_writer w_start];
    rewrite ?Hz; try done; try congruence; try lia.
  fold (wpos w) (contents w). rewrite <-Hby, <-Hc. split_and!; try done.
  rewrite Z.shiftl_0_l, Z.lor_0_r, Hle. unfold contents. by rewrite Hz, Z.shiftl_0_l, Z.lor_0_r.
Qed.

Lemma put_aligned_full ty w v n :
  writer_wf w -> (max_bytes w < div_ceil (wpos w) 8 + n)%nat ->
  exists w', put_aligned ty w v n = Some (false, w') /\ flush w = Some w'.
Proof.
  intros Hw Hfull. unfold put_aligned, skip.
  destruct (flush_spec w Hw) as (w1 & -> & _ & Hm & _ & _ & Hby & _).
  cbn [mbind option_bind]. simp_tests. eauto.
Qed.

(** [w'] holds the contents of [w], zero-padded to a byte boundary, then the bytes [l]. *)
Record appended_bytes (w w' : BitWriter) (l : list Z) : Prop := {
  appb_wf : writer_wf w';
  appb_max : max_bytes w' = max_bytes w;
  appb_pos : wpos w' = (8 * (div_ceil (wpos w) 8 + length l))%nat;
  appb_contents :
    contents w' = Z.lor (contents w) (le_bytes l ≪ (8 * Z.of_nat (div_ceil (wpos w) 8))) }.

Lemma div_ceil_mul n : div_ceil (8 * n) 8 = n.
Proof. unfold div_ceil. lia. Qed.

Lemma appended_bytes_app w w1 w2 l k :
  appended_bytes w w1 l -> appended_bytes w1 w2 k -> bytes_ok l -> appended_bytes w w2 (l ++ k).
Proof.
  intros [Hw1 Hm1 Hp1 Hc1] [Hw2 Hm2 Hp2 Hc2] Hl. rewrite Hp1, div_ceil_mul in Hp2, Hc2.
  split; [done|congruence|rewrite length_app; lia|].
  rewrite Hc2, Hc1, le_bytes_app, Z.shiftl_lor, Z.shiftl_shiftl, Z.lor_assoc by (done || lia).
  do 2 f_equal. lia.
Qed.

Lemma put_byte_spec w b :
  writer_wf w -> in_u 8 b -> (div_ceil (wpos w) 8 < max_bytes w)%nat ->
  exists w', put_aligned 1 w b 1 = Some (true, w') /\ appended_bytes w w' [b].
Proof.
  intros Hw Hb Hfit. destruct (put_aligned_spec 1 w b 1 Hw)
    as (w' & E & Hw' & Hm & _ & H0 & Hby & Hc); [lia|lia|].
  exists w'. split; [done|]. split; [done..|unfold wpos at 1; cbn [length]; lia|].
  rewrite Hc. change (8 * Z.of_nat 1) with 8. rewrite bits_0_l, Z.mod_small by done. cbn.
  by rewrite Z.shiftl_0_l, Z.lor_0_r.
Qed.

Lemma vlq_low_byte v : in_u 8 (Z.lor (Z.land v 127) 128).
Proof.
  change 127 with (Z.ones 7). change 128 with (2 ^ 7).
  assert (E : Z.lor (Z.land v (Z.ones 7)) (2 ^ 7) = bits (Z.lor (Z.land v (Z.ones 7)) (2 ^ 7)) 0 8).
  { change (2 ^ 7) with (Z.ones 1 ≪ 7). zbits. }
  rewrite E. by apply bits_range.
Qed.

Lemma vlq_encode_bytes fuel v : 0 <= v -> bytes_ok (vlq_encode fuel v).
Proof.
  revert v. induction fuel as [|fuel IH]; intros v Hv; cbn; case_ltb; repeat constructor; try lia.
  - apply vlq_low_byte.
  - apply vlq_low_byte.
  - apply IH. by apply Z.shiftr_nonneg.
Qed.

Lemma put_vlq_loop_spec fuel w v :
  writer_wf w -> in_u 64 v -> v < 2 ^ (7 * (Z.of_nat fuel + 1)) ->
  (div_ceil (wpos w) 8 + length (vlq_encode fuel v) <= max_bytes w)%nat ->
  exists w', put_vlq_loop fuel w v true = Some (true, w') /\ appended_bytes w w' (vlq_encode fuel v).
Proof.
  revert w v. induction fuel as [|fuel IH]; intros w v Hw Hv Hfuel Hfit;
    cbn [put_vlq_loop vlq_encode length] in *; rewrite vlq_continue, land_127 by done;
    (revert Hfit; destruct (Z.ltb_spec v 128); intros Hfit;
     [rewrite Z.mod_small, wrap_small by (destruct Hv; split; lia);
      destruct (put_byte_spec w v Hw) as (w' & -> & Happ); [destruct Hv; split; lia|cbn [length] in Hfit; lia|];
      cbn [mbind option_bind andb]; eauto|]).
  - change (2 ^ (7 * (Z.of_nat 0 + 1))) with 128 in Hfuel. lia.
  - rewrite <-land_127, wrap_small by apply vlq_low_byte. cbn [length] in Hfit.
    destruct (put_byte_spec w (Z.lor (Z.land v 127) 128) Hw (vlq_low_byte v))
      as (w1 & -> & Happ); [lia|]. cbn [mbind option_bind andb].
    pose proof (appb_pos _ _ _ Happ) as Hp. cbn [length] in Hp.
    change (shr 64 v 7) with (v ≫ 7).
    destruct (IH w1 (v ≫ 7)) as (w2 & -> & Happ2).
    + apply Happ.
    + by apply in_u_shiftr.
    + rewrite Z.shiftr_div_pow2 by lia. apply Z.div_lt_upper_bound; [lia|].
      rewrite <-Z.pow_add_r by lia. by replace (7 + 7 * (Z.of_nat fuel + 1)) with
        (7 * (Z.of_nat (S fuel) + 1)) by lia.
    + rewrite (appb_max _ _ _ Happ). unfold div_ceil in *. lia.
    + exists w2. split; [done|]. apply (appended_bytes_app w w1 w2 [_]); [done..|].
      repeat constructor; apply vlq_low_byte.
Qed.

Lemma put_vlq_int_spec w v :
  writer_wf w -> in_u 64 v -> (div_ceil (wpos w) 8 + length (vlq_encode 10 v) <= max_bytes w)%nat ->
  exists w', put_vlq_int w v = Some (true, w') /\ appended_bytes w w' (vlq_encode 10 v).
Proof.
  intros Hw Hv Hfit. apply put_vlq_loop_spec; try done.
  destruct Hv. eapply Z.lt_le_trans; [done|]. by apply Z.pow_le_mono_r.
Qed.

Lemma i64_lor x y : i64 (Z.lor (i64 x) y) = i64 (Z.lor x y).
Proof. apply swrap_eq; [lia|]. by rewrite !wrap_lor, wrap_swrap by lia. Qed.

Lemma vlq_last v : v < 128 -> 0 <= v -> Z.land v 127 = v /\ Z.land v 128 = 0.
Proof.
  intros H1 H0. assert (Hv : in_u 7 v) by (split; [lia|exact H1]). split.
  - change 127 with (Z.ones 7). zbits.
  - change 128 with (Z.ones 1 ≪ 7). zbits.
Qed.

Lemma vlq_more v :
  let b := Z.lor (Z.land v 127) 128 in Z.land b 127 = Z.land v 127 /\ Z.land b 128 <> 0.
Proof.
  change 127 with (Z.ones 7). change 128 with (Z.ones 1 ≪ 7). split; [zbits|].
  intros E. apply (f_equal (fun z => Z.testbit z 7)) in E.
  autorewrite with zbits in E. rewrite andb_true_r, orb_true_r in E. done.
Qed.

(** Decoding an encoded value, whatever follows it. *)
Lemma vlq_decode_encode fuel u k s a :
  0 <= s < 64 -> in_u (64 - s) u -> u < 2 ^ (7 * (Z.of_nat fuel + 1)) ->
  vlq_decode (vlq_encode fuel u ++ k) s a =
    (Some (i64 (Z.lor a (u ≪ s))), length (vlq_encode fuel u)).
Proof.
  revert u s a. induction fuel as [|fuel IH]; intros u s a Hs Hu Hf; cbn [vlq_encode];
    (destruct (Z.ltb_spec u 128);
     [destruct (vlq_last u) as [E1 E2]; [done|apply Hu|];
      cbn [app vlq_decode length]; rewrite E1, E2; cbn [Z.eqb];
      do 4 f_equal; unfold shl; rewrite Z.mod_small by lia; zbits|]).
  - change (2 ^ (7 * (Z.of_nat 0 + 1))) with 128 in Hf. lia.
  - assert (Hs7 : s + 7 < 64).
    { destruct (Z.le_gt_cases 64 (s + 7)); [|lia]. exfalso.
      assert (2 ^ (64 - s) <= 2 ^ 7) by (apply Z.pow_le_mono_r; lia). destruct Hu.
      change (2 ^ 7) with 128 in *. lia. }
    destruct (vlq_more u) as [E1 E2]. cbn [app vlq_decode length].
    apply Z.eqb_neq in E2. rewrite E1, E2, IH.
    + do 2 f_equal. rewrite i64_lor, <-Z.lor_assoc. do 2 f_equal.
      unfold shl. rewrite Z.mod_small by lia. change 127 with (Z.ones 7). zbits.
    + lia.
    + replace (64 - (s + 7)) with (64 - s - 7) by lia.
      assert (E : u ≫ 7 = bits u 7 (64 - s - 7)) by zbits. rewrite E. apply bits_range. lia.
    + rewrite Z.shiftr_div_pow2 by lia. apply Z.div_lt_upper_bound; [lia|].
      rewrite <-Z.pow_add_r by lia. by replace (7 + 7 * (Z.of_nat fuel + 1)) with
        (7 * (Z.of_nat (S fuel) + 1)) by lia.
Qed.

Lemma vlq_decode_encode_64 v k :
  in_u 64 v -> vlq_decode (vlq_encode 10 v ++ k) 0 0 = (Some (i64 v), length (vlq_encode 10 v)).
Proof.
  intros Hv. rewrite vlq_decode_encode; [by rewrite Z.lor_0_l, Z.shiftl_0_r|lia|done|].
  destruct Hv. eapply Z.lt_le_trans; [done|]. by apply Z.pow_le_mono_r.
Qed.

Lemma zigzag_encode_range v : in_u 64 (zigzag_encode v).
Proof. by apply wrap_range. Qed.

Lemma zigzag_decode_encode v : in_s 64 v -> zigzag_decode (i64 (zigzag_encode v)) = v.
Proof.
  intros Hv. unfold zigzag_decode, zigzag_encode. rewrite wrap_swrap, wrap_wrap by lia.
  unfold in_s in Hv. change (2 ^ (64 - 1)) with 9223372036854775808 in Hv.
  rewrite Z.shiftl_mul_pow2, (Z.shiftr_div_pow2 v) by lia. unfold shr. rewrite Z.shiftr_div_pow2 by lia.
  change (2 ^ 63) with 9223372036854775808. change (2 ^ (1 `mod` 64)) with 2. change (2 ^ 1) with 2.
  change (Z.land ?a 1) with (Z.land a (Z.ones 1)). rewrite Z.land_ones by lia. change (2 ^ 1) with 2.
  destruct (Z.le_gt_cases 0 v).
  - rewrite (Z.div_small v), Z.lxor_0_r, wrap_swrap, (wrap_small 64 (v * 2)) by
      (unfold in_u; change (2 ^ 64) with 18446744073709551616; lia).
    rewrite Z.mod_mul, Z.div_mul by lia. cbn [Z.opp]. rewrite !swrap_small by
      (unfold in_s; change (2 ^ (64 - 1)) with 9223372036854775808; lia). apply Z.lxor_0_r.
  - replace (v `div` 9223372036854775808) with (-1) by lia. rewrite Z.lxor_m1_r.
    assert (E : u64 (Z.lnot (i64 (v * 2))) = - 2 * v - 1).
    { unfold Z.lnot, wrap, swrap. change (2 ^ (64 - 1)) with 9223372036854775808.
      change (2 ^ 64) with 18446744073709551616. lia. }
    rewrite E. replace ((-2 * v - 1) `mod` 2) with 1 by lia.
    replace ((-2 * v - 1) `div` 2) with (- v - 1) by lia.
    rewrite !swrap_small by (unfold in_s; change (2 ^ (64 - 1)) with 9223372036854775808; lia).
    change (- (1)) with (-1). rewrite Z.lxor_m1_r. unfold Z.lnot. lia.
Qed.

(** ** Round trip of zigzag variable-length integers *)

Fixpoint put_zigzags (w : BitWriter) (vs : list Z) : option (bool * BitWriter) :=
  match vs with
  | [] => Some (true, w)
  | v :: vs =>
      '(ok, w) ← put_zigzag_vlq_int w v;
      '(oks, w) ← put_zigzags w vs;
      Some (ok && oks, w)
  end.

Fixpoint get_zigzags (r : BitReader) (n : nat) : option (list (option Z) * BitReader) :=
  match n with
  | O => Some ([], r)
  | S n =>
      '(v, r) ← get_zigzag_vlq_int r;
      '(vs, r) ← get_zigzags r n;
      Some (v :: vs, r)
  end.

Fixpoint zigzag_bytes (vs : list Z) : list Z :=
  match vs with [] => [] | v :: vs => vlq_encode 10 (zigzag_encode v) ++ zigzag_bytes vs end.

Lemma zigzag_bytes_ok vs : bytes_ok (zigzag_bytes vs).
Proof.
  induction vs as [|v vs IH]; cbn [zigzag_bytes]; [by constructor|]. apply bytes_ok_app.
  split; [|done]. apply vlq_encode_bytes, zigzag_encode_range.
Qed.

Lemma put_zigzags_spec vs w :
  writer_wf w -> (wpos w `mod` 8 = 0)%nat ->
  (div_ceil (wpos w) 8 + length (zigzag_bytes vs) <= max_bytes w)%nat ->
  exists w', put_zigzags w vs = Some (true, w') /\ appended_bytes w w' (zigzag_bytes vs).
Proof.
  revert w. induction vs as [|v vs IH]; intros w Hw H8 Hfit; cbn [put_zigzags zigzag_bytes] in *.
  - exists w. split; [done|]. split; [done..|cbn [length]; unfold div_ceil; lia|].
    cbn. by rewrite Z.shiftl_0_l, Z.lor_0_r.
  - rewrite length_app in Hfit. unfold put_zigzag_vlq_int.
    destruct (put_vlq_int_spec w (zigzag_encode v) Hw (zigzag_encode_range v))
      as (w1 & -> & Happ); [lia|]. cbn [mbind option_bind].
    pose proof (appb_pos _ _ _ Happ) as Hp.
    destruct (IH w1 (appb_wf _ _ _ Happ)) as (w2 & -> & Happ2).
    + rewrite Hp. lia.
    + rewrite (appb_max _ _ _ Happ), Hp, div_ceil_mul. lia.
    + exists w2. split; [done|]. eapply appended_bytes_app; [done..|].
      apply vlq_encode_bytes, zigzag_encode_range.
Qed.

Lemma rest_bytes_advanced r r' l k :
  reader_wf r -> rest_bytes r = l ++ k ->
  advanced r r' (8 * (get_byte_offset r + length l) - pos r) -> rest_bytes r' = k.
Proof.
  intros Hr Hl [_ Hb Ht Hp].
  assert (E : get_byte_offset r' = (get_byte_offset r + length l)%nat).
  { unfold get_byte_offset, div_ceil, pos in *. lia. }
  unfold rest_bytes. rewrite Hb, Ht, E, <-drop_drop. fold (rest_bytes r).
  by rewrite Hl, drop_app_length.
Qed.

Lemma get_zigzags_spec vs r k :
  reader_wf r -> Forall (in_s 64) vs -> rest_bytes r = zigzag_bytes vs ++ k ->
  exists r', get_zigzags r (length vs) = Some (Some <$> vs, r').
Proof.
  intros Hr Hvs. revert r Hr. induction Hvs as [|v vs Hv _ IH]; intros r Hr Hl;
    cbn [length get_zigzags zigzag_bytes fmap list_fmap] in *; [eauto|].
  rewrite <-app_assoc in Hl.
  destruct (get_vlq_int_spec r Hr) as (r1 & E & Hr1 & Hadv).
  unfold get_zigzag_vlq_int. rewrite E, Hl. rewrite Hl in Hadv.
  rewrite vlq_decode_encode_64 in Hadv |- * by apply zigzag_encode_range.
  cbn [fst snd option_map mbind option_bind] in *. rewrite zigzag_decode_encode by done.
  destruct (IH r1 Hr1) as (r2 & ->); [|eauto].
  eapply rest_bytes_advanced; [exact Hr|exact Hl|by apply Hadv].
Qed.

Definition put_get_zigzag (max : nat) (vs : list Z) : option (list (option Z)) :=
  '(_, w) ← put_zigzags (writer_new max) vs;
  buf ← consume w;
  r ← new_all buf;
  '(vs, _) ← get_zigzags r (length vs);
  Some vs.

(** Any list of 64-bit signed integers whose encodings fit the buffer is read
    back by [get_zigzag_vlq_int] as [put_zigzag_vlq_int] wrote it. *)
Lemma zigzag_roundtrip max vs :
  Forall (in_s 64) vs -> (length (zigzag_bytes vs) <= max)%nat ->
  put_get_zigzag max vs = Some (Some <$> vs).
Proof.
  intros Hvs Hfit. unfold put_get_zigzag.
  destruct (put_zigzags_spec vs (writer_new max) (writer_new_wf max)) as (w & -> & [Hw _ Hp Hc]);
    [done|cbn; lia|]. cbn [mbind option_bind].
  destruct (consume_spec w Hw) as (buf & -> & Hb & Hlen & Hle). cbn [mbind option_bind].
  rewrite contents_new in Hc. change (div_ceil (wpos (writer_new max)) 8) with 0%nat in *.
  rewrite Hp, Nat.add_0_l, div_ceil_mul in Hlen. rewrite Hc, Z.lor_0_l, Z.shiftl_0_r in Hle.
  apply le_bytes_inj in Hle; [subst buf|done|apply zigzag_bytes_ok|done].
  destruct (new_all_spec _ Hb) as (r & -> & Hr & Hp0 & _ & Ht & Hbuf). cbn [mbind option_bind].
  destruct (get_zigzags_spec vs r [] Hr Hvs) as (r' & ->); [|done].
  unfold rest_bytes, get_byte_offset. unfold pos in Hp0.
  replace (byte_offset r) with 0%nat by lia. replace (bit_offset r) with 0%nat by lia.
  rewrite Ht, Hbuf, firstn_all. cbn. by rewrite app_nil_r.
Qed.

(** C26: The bit writer and the bit reader are inverse.  Any sequence of values of at most 63 bits that fits the buffer, written by
    [put_value] and read by [get_value] with the same widths, and any list of 64-bit signed integers whose encodings fit, written by
    [put_zigzag_vlq_int] and read by [get_zigzag_vlq_int], come back as they were. *)
Theorem bit_writer_roundtrip max :
  (forall l, Forall (value_ok 63) l -> (total_bits l <= 8 * max)%nat -> put_get max l = Some (Some <$> l.*2)) /\
  (forall vs, Forall (in_s 64) vs -> (length (zigzag_bytes vs) <= max)%nat -> put_get_zigzag max vs = Some (Some <$> vs)).
Proof. split; [apply put_get_roundtrip|apply zigzag_roundtrip]. Qed.

Lemma bit_writer_roundtrip_witness :
  put_get 32 [(3%nat, 5); (63%nat, 2 ^ 63 - 1); (1%nat, 0); (40%nat, 123456789)] = Some [Some 5; Some (2 ^ 63 - 1); Some 0; Some 123456789] /\
  put_get_zigzag 32 [0; -1; 300; - 2 ^ 63; 2 ^ 63 - 1] = Some [Some 0; Some (-1); Some 300; Some (- 2 ^ 63); Some (2 ^ 63 - 1)].
Proof.
  destruct (bit_writer_roundtrip 32) as [Hp Hz]. split.
  - apply (Hp [(3%nat, 5); (63%nat, 2 ^ 63 - 1); (1%nat, 0); (40%nat, 123456789)]); [|cbn; lia]. repeat constructor; cbn; lia.
  - apply (Hz [0; -1; 300; - 2 ^ 63; 2 ^ 63 - 1]); [|vm_compute; lia]. repeat constructor; unfold in_s; lia.
Defined.

(** * [flush_buffer] and [consume] *)

Lemma flush_buffer_consume w :
  writer_wf w -> w_start w = 0%nat -> fst <$> flush_buffer w = consume w.
Proof.
  intros Hw H0. destruct (flush_spec w Hw) as (w' & E & [_ Hmax _ Hpos _] & _ & Hs & _).
  unfold flush_buffer, consume. rewrite E. cbn [mbind option_bind]. rewrite Hs, H0.
  unfold slice_from, slice, wpos in *. simp_tests. rewrite drop_0. simp_tests.
  cbn. by rewrite Nat.sub_0_r, drop_0.
Qed.

(** On a writer that starts inside an existing buffer the two differ: [consume]
    returns the first [byte_offset] bytes, [flush_buffer] the [byte_offset] bytes
    after [start], and it panics when those run past the buffer. *)
Example flush_buffer_offset :
  let w := new_from_buf [1; 2; 3; 4] 2 in
  consume w = Some [1; 2] /\ fst <$> flush_buffer w = Some [3; 4] /\
  let w3 := new_from_buf [1; 2; 3; 4] 3 in
  consume w3 = Some [1; 2; 3] /\ flush_buffer w3 = None.
Proof. vm_compute. done. Qed.
