(* ===== verification/Vector.v ===== *)
(** The column vectors the Parquet readers fill: [CometBuffer]
    (src/native/core/src/common/buffer.rs) and [ParquetMutableVector]
    (src/native/core/src/parquet/mutable_vector.rs).

    A buffer is the list of its bytes: every buffer the crate creates is owned, and
    then its length is its capacity. *)

From S2P Require Import Prelude BitUtil BitReader BitWriter.

(** * [CometBuffer] *)

Definition ALIGNMENT : Z := 64.

Definition buffer_new (capacity : nat) : list Z :=
  replicate (Z.to_nat (round_upto_power_of_2 (Z.of_nat capacity) ALIGNMENT)) 0.

(** The capacity [reallocate] settles on. *)
Definition reallocate (old_capacity new_capacity : nat) : nat :=
  Nat.max (Z.to_nat (round_upto_power_of_2 (Z.of_nat new_capacity) ALIGNMENT)) (old_capacity * 2).

Definition buffer_resize (b : list Z) (new_capacity : nat) : list Z :=
  if (length b <? new_capacity)%nat
  then b ++ replicate (reallocate (length b) new_capacity - length b) 0 else b.

Definition buffer_reset (b : list Z) : list Z := replicate (length b) 0.

(** * [ParquetMutableVector] *)

(** The Arrow types [bit_width] knows; it panics on the others. *)
Inductive ArrowDataType :=
  | Boolean | Int8 | Int16 | Int32 | Float32 | Date32 | Int64 | Float64 | Timestamp
  | FixedSizeBinary (type_length : nat)
  | Decimal128 (precision scale : Z)
  | Binary | Utf8.

Definition bit_width (t : ArrowDataType) : nat :=
  match t with
  | Boolean => 1
  | Int8 => 8
  | Int16 => 16
  | Int32 | Float32 | Date32 => 32
  | Int64 | Float64 | Timestamp => 64
  | FixedSizeBinary type_length => type_length * 8
  | Decimal128 _ _ => 128
  | Binary | Utf8 => 32
  end.

Definition is_binary_type (t : ArrowDataType) : bool :=
  match t with Binary | Utf8 => true | _ => false end.

Definition should_reset_value_buffer (t : ArrowDataType) : bool :=
  match t with Boolean | Decimal128 _ _ => true | _ => false end.

Set Warnings "-register-all".

Inductive Vector := MkVector {
  arrow_type : ArrowDataType;
  num_values : nat;
  num_nulls : nat;
  validity_buffer : list Z;
  value_buffer : list Z;
  children : list Vector;
  dictionary : option Vector }.

Definition DEFAULT_ARRAY_LEN : nat := 4.

(** The byte vector that holds the contents of a string column. *)
Definition new_child (capacity : nat) : Vector :=
  {| arrow_type := Int8; num_values := 0; num_nulls := 0;
     validity_buffer := buffer_new (div_ceil capacity 8);
     value_buffer := buffer_new (div_ceil (capacity * (DEFAULT_ARRAY_LEN * 8)) 8);
     children := []; dictionary := None |}.

Definition new_with_bit_width (capacity : nat) (t : ArrowDataType) (width : nat) : option Vector :=
  let value_capacity := if is_binary_type t then S capacity else capacity in
  let buf := buffer_new (div_ceil (value_capacity * width) 8) in
  buf ← (if is_binary_type t then memcpy_value 4 0 4 buf 0 else Some buf);
  Some {| arrow_type := t; num_values := 0; num_nulls := 0;
          validity_buffer := buffer_new (div_ceil capacity 8); value_buffer := buf;
          children := if is_binary_type t then [new_child capacity] else [];
          dictionary := None |}.

Definition vector_new (capacity : nat) (t : ArrowDataType) : option Vector :=
  new_with_bit_width capacity t (bit_width t).

(** Field updates. *)
Definition set_counts (v : Vector) (values nulls : nat) : Vector :=
  MkVector (arrow_type v) values nulls (validity_buffer v) (value_buffer v) (children v) (dictionary v).
Definition set_validity (v : Vector) (b : list Z) : Vector :=
  MkVector (arrow_type v) (num_values v) (num_nulls v) b (value_buffer v) (children v) (dictionary v).
Definition set_value_buffer (v : Vector) (b : list Z) : Vector :=
  MkVector (arrow_type v) (num_values v) (num_nulls v) (validity_buffer v) b (children v) (dictionary v).
Definition set_children (v : Vector) (c : list Vector) : Vector :=
  MkVector (arrow_type v) (num_values v) (num_nulls v) (validity_buffer v) (value_buffer v) c (dictionary v).
Definition set_dictionary (v : Vector) (d : Vector) : Vector :=
  MkVector (arrow_type v) (num_values v) (num_nulls v) (validity_buffer v) (value_buffer v) (children v) (Some d).

(** [vector.num_values += n] *)
Definition add_values (v : Vector) (n : nat) : Vector := set_counts v (num_values v + n) (num_nulls v).

Definition is_null (v : Vector) (idx : nat) : option bool :=
  negb <$> get_bit (validity_buffer v) idx.

(** [reset]: a string vector also resets its child, which is of type [Int8]. *)
Definition reset_child (c : Vector) : Vector :=
  set_validity (set_counts c 0 0) (buffer_reset (validity_buffer c)).

Definition vector_reset (v : Vector) : option Vector :=
  let v := set_validity (set_counts v 0 0) (buffer_reset (validity_buffer v)) in
  if is_binary_type (arrow_type v) then
    buf ← memcpy_value 4 0 4 (value_buffer v) 0;
    child ← children v !! 0%nat;
    Some (set_children (set_value_buffer v buf) (<[0%nat := reset_child child]> (children v)))
  else if should_reset_value_buffer (arrow_type v) then
    Some (set_value_buffer v (buffer_reset (value_buffer v)))
  else Some v.

(** [put_nulls]: a string vector repeats its last offset. *)
Fixpoint repeat_offset (n : nat) (prev : Z) (buf : list Z) (offset : nat) : option (list Z) :=
  match n with
  | O => Some buf
  | S n => buf ← memcpy_value 4 prev 4 buf offset; repeat_offset n prev buf (offset + 4)
  end.

Definition put_nulls (v : Vector) (n : nat) : option Vector :=
  v ← (if is_binary_type (arrow_type v) then
      let offset := (num_values v * 4)%nat in
      s ← slice_from (value_buffer v) offset;
      prev ← read_u32 s;
      buf ← repeat_offset n prev (value_buffer v) (offset + 4);
      Some (set_value_buffer v buf)
    else Some v);
  Some (set_counts v (num_values v + n) (num_nulls v + n)).

Definition put_null (v : Vector) : option Vector := put_nulls v 1.
