(* ===== verification/Hybrid.v ===== *)
(** The RLE/bit-packed hybrid encoding of Parquet levels and dictionary indices,
    as a reference: what a sequence of runs encodes to, and how a [BitReader]
    positioned on such bytes reads them.  The decoders of
    src/native/core/src/parquet/read/levels.rs and values.rs are proved against it. *)

From S2P Require Import Prelude BitUtil Unpack BitPacking BitReader BitReaderProps BitWriter.

(** * The encoding *)

Inductive run :=
  | Rle (count : nat) (value : Z)
  | Packed (vals : list Z).

Definition expand_run (x : run) : list Z :=
  match x with Rle n v => replicate n v | Packed vs => vs end.

Definition expand (rs : list run) : list Z := concat (map expand_run rs).

(** A run of [bw]-bit values: the header, then the value in whole bytes or the
    packed values. *)
Definition run_bytes (bw : nat) (x : run) : list Z :=
  match x with
  | Rle n v => vlq_encode 10 (2 * Z.of_nat n) ++ to_le_bytes (div_ceil bw 8) v
  | Packed vs => vlq_encode 10 (2 * Z.of_nat (length vs / 8) + 1) ++
                 to_le_bytes (bw * (length vs / 8)) (pack (map (pair bw) vs))
  end.

Definition runs_bytes (bw : nat) (rs : list run) : list Z := concat (map (run_bytes bw) rs).

(** Runs are not empty, packed runs come in groups of eight, values fit. *)
Definition run_ok (bw : nat) (x : run) : Prop :=
  match x with
  | Rle n v => (0 < n)%nat /\ Z.of_nat n < 2 ^ 62 /\ in_u (Z.of_nat bw) v
  | Packed vs => (0 < length vs)%nat /\ (length vs mod 8 = 0)%nat /\
                 Z.of_nat (length vs) < 2 ^ 62 /\ Forall (in_u (Z.of_nat bw)) vs
  end.

(** * Readers positioned on encoded bytes *)

(** The next values of the reader are the [bw]-bit fields [vals]; they end at a
    byte boundary, where the bytes [k] begin. *)
Record at_packed (bw : nat) (r : BitReader) (vals k : list Z) : Prop := {
  ap_wf : reader_wf r;
  ap_aligned : ((pos r + length vals * bw) mod 8 = 0)%nat;
  ap_end : (pos r + length vals * bw <= 8 * total_bytes r)%nat;
  ap_fields : fields (stream r) (pos r) bw (length vals) = vals;
  ap_rest : drop ((pos r + length vals * bw) / 8) (take (total_bytes r) (buffer r)) = k }.

Lemma at_packed_advance bw r r' vals vals' k :
  at_packed bw r (vals ++ vals') k -> advanced r r' (length vals * bw) -> at_packed bw r' vals' k.
Proof.
  intros [Hwf Hal Hend Hf Hrest] Hadv. rewrite length_app in *.
  pose proof Hadv as [Hwf' Hb Ht Hp].
  replace (pos r + (length vals + length vals') * bw)%nat with
    (pos r' + length vals' * bw)%nat in * by (rewrite Hp; lia).
  split; [done|done|by rewrite Ht| |by rewrite Ht, Hb].
  rewrite (advanced_stream _ _ _ Hadv), Hp.
  rewrite fields_app in Hf. apply app_inj_1 in Hf as [_ Hf]; [done|by rewrite length_fields].
Qed.

(** At a byte boundary the width does not matter. *)
Abbreviation at_bytes r k := (at_packed 0 r [] k).

Lemma at_bytes_packed bw r k : at_packed bw r [] k <-> at_bytes r k.
Proof. split; intros [? ? ? ? ?]; by split. Qed.

Lemma at_bytes_pos r k :
  at_bytes r k ->
  (pos r mod 8 = 0)%nat /\ get_byte_offset r = (pos r / 8)%nat /\ rest_bytes r = k /\
  (8 * length k = 8 * total_bytes r - pos r)%nat.
Proof.
  intros [[_ Ht _ _ _] Hal Hend _ Hrest]. cbn [length] in *.
  rewrite Nat.mul_0_l, Nat.add_0_r in *.
  assert (E : get_byte_offset r = (pos r / 8)%nat) by (unfold get_byte_offset, div_ceil, pos in *; lia).
  split_and!; [done|done|unfold rest_bytes; by rewrite E|].
  rewrite <-Hrest, length_drop, length_take. lia.
Qed.

Lemma at_bytes_intro r k :
  reader_wf r -> (pos r mod 8 = 0)%nat -> rest_bytes r = k -> at_bytes r k.
Proof.
  intros Hr Hal Hk. assert (E : get_byte_offset r = (pos r / 8)%nat) by
    (unfold get_byte_offset, div_ceil, pos in *; lia).
  split; cbn [length]; rewrite ?Nat.mul_0_l, ?Nat.add_0_r; try done; [apply Hr|]. unfold rest_bytes in Hk. by rewrite <-E.
Qed.

Lemma at_bytes_advance r r' l k :
  at_bytes r (l ++ k) -> advanced r r' (8 * length l) -> at_bytes r' k.
Proof.
  intros H Hadv. destruct (at_bytes_pos _ _ H) as (Hal & Hoff & Hrest & Hlen).
  rewrite length_app in Hlen. pose proof Hadv as [Hr' _ _ Hp].
  apply at_bytes_intro; [done|rewrite Hp; lia|].
  eapply rest_bytes_advanced; [apply H|exact Hrest|].
  replace (8 * (get_byte_offset r + length l) - pos r)%nat with (8 * length l)%nat by lia. done.
Qed.

Lemma at_vlq r v k :
  at_bytes r (vlq_encode 10 v ++ k) -> in_u 63 v ->
  exists r', get_vlq_int r = Some (Some v, r') /\ at_bytes r' k.
Proof.
  intros H Hv. destruct (at_bytes_pos _ _ H) as (Hal & Hoff & Hrest & _).
  assert (Hv64 : in_u 64 v) by (by apply (in_u_mono 63)).
  destruct (get_vlq_int_spec r (ap_wf _ _ _ _ H)) as (r' & E & _ & Hadv).
  rewrite Hrest, vlq_decode_encode_64 in E, Hadv by done. cbn [fst snd] in *.
  exists r'. rewrite E. split; [do 3 f_equal; apply swrap_small; unfold in_u, in_s in *; lia|].
  specialize (Hadv ltac:(done)). eapply at_bytes_advance; [exact H|].
  replace (8 * length _)%nat with (8 * (get_byte_offset r + length (vlq_encode 10 v)) - pos r)%nat by lia.
  done.
Qed.

Lemma at_aligned t r l k :
  at_bytes r (l ++ k) -> (length l <= 8)%nat ->
  exists r', get_aligned t r (length l) = Some (Some (from_u64 t (le_bytes l)), r') /\ at_bytes r' k.
Proof.
  intros H Hl. destruct (at_bytes_pos _ _ H) as (Hal & Hoff & Hrest & Hlen).
  rewrite length_app in Hlen. pose proof (ap_wf _ _ _ _ H) as Hr. pose proof Hr as [Hb _ Hbit Hpos _].
  destruct l as [|b l].
  - exists r. split; [|done]. unfold get_aligned. cbn [length]. unfold pos in *.
    replace (div_ceil (bit_offset r) 8 * 8)%nat with (bit_offset r) by (unfold div_ceil; lia).
    unfold div_ceil. simp_tests. cbn [buffered_values bit_offset byte_offset set_offsets].
    rewrite Nat.add_0_r. simp_tests. do 2 f_equal. by destruct r.
  - destruct (get_aligned_spec t r (length (b :: l)) Hr) as (r' & E & Hadv);
      [cbn [length] in *; lia|lia|].
    exists r'. split.
    + rewrite E. do 4 f_equal. unfold stream. rewrite <-le_bytes_slice by auto with bytes.
      fold (rest_bytes r). by rewrite Hrest, take_app_length.
    + eapply at_bytes_advance; [exact H|].
      by replace (8 * length (b :: l))%nat with (8 * (get_byte_offset r + length (b :: l)) - pos r)%nat by lia.
Qed.

(** * Packed runs *)

Lemma total_bits_pair n vs : total_bits (map (pair n) vs) = (length vs * n)%nat.
Proof. induction vs as [|v vs IH]; cbn; lia. Qed.

Lemma pack_pair_range n vs :
  Forall (in_u (Z.of_nat n)) vs -> in_u (Z.of_nat (length vs * n)) (pack (map (pair n) vs)).
Proof.
  intros H. rewrite <-total_bits_pair. apply (pack_range n). apply Forall_map.
  eapply Forall_impl, H. intros v Hv. by split.
Qed.

Lemma fields_pack n vs z p :
  Forall (in_u (Z.of_nat n)) vs ->
  bits z (Z.of_nat p) (Z.of_nat (length vs * n)) = pack (map (pair n) vs) ->
  fields z p n (length vs) = vs.
Proof.
  intros H. revert p. induction H as [|v vs Hv Hvs IH]; intros p Hz; [done|].
  pose proof (pack_pair_range n vs Hvs) as Hr.
  cbn [length map pack fields Nat.mul] in *. rewrite Nat2Z.inj_add in Hz.
  set (m := Z.of_nat (length vs * n)) in *. f_equal.
  - transitivity (bits (bits z (Z.of_nat p) (Z.of_nat n + m)) 0 (Z.of_nat n)).
    + rewrite bits_bits by lia. by rewrite Z.add_0_r.
    + rewrite Hz. zbits.
  - apply IH. rewrite Nat2Z.inj_add.
    transitivity (bits (bits z (Z.of_nat p) (Z.of_nat n + m)) (Z.of_nat n) m).
    + by rewrite bits_bits by lia.
    + rewrite Hz. zbits.
Qed.

Lemma at_packed_run bw r vs k :
  at_bytes r (to_le_bytes (bw * (length vs / 8)) (pack (map (pair bw) vs)) ++ k) ->
  (length vs mod 8 = 0)%nat -> Forall (in_u (Z.of_nat bw)) vs -> at_packed bw r vs k.
Proof.
  intros H H8 Hvs. destruct (at_bytes_pos _ _ H) as (Hal & Hoff & Hrest & Hlen).
  rewrite length_app, length_to_le_bytes in Hlen. pose proof (ap_wf _ _ _ _ H) as Hr. pose proof (wf_pos _ Hr) as Hpos.
  set (m := (bw * (length vs / 8))%nat) in *.
  assert (Hm : (length vs * bw = 8 * m)%nat).
  { unfold m. assert (E : length vs = (8 * (length vs / 8))%nat) by lia. rewrite E at 1. lia. }
  clearbody m.
  split; [done|rewrite Hm; lia|rewrite Hm; lia| |].
  - apply fields_pack; [done|]. rewrite Hm. unfold stream.
    replace (Z.of_nat (pos r)) with (8 * Z.of_nat (pos r / 8)) by lia.
    rewrite Nat2Z.inj_mul. change (Z.of_nat 8) with 8.
    rewrite <-le_bytes_slice by (apply bytes_ok_take, Hr).
    rewrite <-Hoff. fold (rest_bytes r). rewrite Hrest, take_app_length' by (by rewrite length_to_le_bytes).
    rewrite le_bytes_to_le_bytes. apply wrap_small.
    pose proof (pack_pair_range bw vs Hvs) as Hp. rewrite Hm in Hp.
    by rewrite Nat2Z.inj_mul in Hp.
  - rewrite Hm. replace ((pos r + 8 * m) / 8)%nat with (pos r / 8 + m)%nat by lia.
    rewrite <-drop_drop, <-Hoff. fold (rest_bytes r). rewrite Hrest.
    by rewrite drop_app_length' by (by rewrite length_to_le_bytes).
Qed.

Lemma le_bytes_value n v : in_u (8 * Z.of_nat n) v -> le_bytes (to_le_bytes n v) = v.
Proof. intros. rewrite le_bytes_to_le_bytes. by apply wrap_small. Qed.

(** Appending runs. *)
Lemma expand_cons x rs : expand (x :: rs) = expand_run x ++ expand rs.
Proof. done. Qed.

Lemma runs_bytes_cons bw x rs : runs_bytes bw (x :: rs) = run_bytes bw x ++ runs_bytes bw rs.
Proof. done. Qed.

Lemma expand_run_nonempty bw x : run_ok bw x -> (0 < length (expand_run x))%nat.
Proof. destruct x; cbn; rewrite ?length_replicate; lia. Qed.
