(* ===== verification/Levels.v ===== *)
(** [LevelDecoder] (src/native/core/src/parquet/read/levels.rs): definition levels
    drive the filling of a vector from a value decoder.

    The value decoder is the trait [Decoder] of values.rs: here a class of
    operations, with the laws its implementations satisfy. *)

From S2P Require Import Prelude BitUtil Unpack BitPacking BitReader BitReaderProps BitWriter Vector Hybrid.

(** * The trait [Decoder] *)

Class Decoder (D : Type) := {
  dec_read : D -> Vector -> option (D * Vector);
  dec_read_batch : D -> Vector -> nat -> option (D * Vector);
  dec_skip_batch : D -> nat -> option D }.

(** * The decoder *)

Inductive Mode := RLE | BitPacked.

Record LevelDecoder := {
  max_def_level : Z;
  ld_bit_width : nat;
  ld_mode : Mode;
  ld_num_values : nat;
  current_value : Z;
  current_count : nat;
  current_buffer : list Z;
  current_buffer_idx : nat;
  ld_reader : option BitReader;
  need_length : bool }.

Definition INITIAL_BUF_LEN : nat := 16.

Definition level_new (max_def : Z) (bw : nat) (need : bool) : LevelDecoder :=
  {| max_def_level := max_def; ld_bit_width := bw; ld_mode := RLE; ld_num_values := 0;
     current_value := 0; current_count := 0; current_buffer := replicate INITIAL_BUF_LEN 0;
     current_buffer_idx := 0; ld_reader := None; need_length := need |}.

(** Field updates. *)
Definition ld_set_page (ld : LevelDecoder) (n : nat) (m : Mode) (count : nat)
    (r : option BitReader) : LevelDecoder :=
  Build_LevelDecoder (max_def_level ld) (ld_bit_width ld) m n (current_value ld) count
    (current_buffer ld) (current_buffer_idx ld) r (need_length ld).
Definition ld_set_group (ld : LevelDecoder) (m : Mode) (value : Z) (count : nat) (buf : list Z)
    (idx : nat) (r : BitReader) : LevelDecoder :=
  Build_LevelDecoder (max_def_level ld) (ld_bit_width ld) m (ld_num_values ld) value count
    buf idx (Some r) (need_length ld).
Definition ld_take (ld : LevelDecoder) (n idx : nat) : LevelDecoder :=
  Build_LevelDecoder (max_def_level ld) (ld_bit_width ld) (ld_mode ld) (ld_num_values ld)
    (current_value ld) (current_count ld - n) (current_buffer ld) idx (ld_reader ld) (need_length ld).

(** [set_data]: the number of bytes of the page it uses. *)
Definition set_data (ld : LevelDecoder) (page_value_count : nat) (page_data : list Z)
    : option (nat * LevelDecoder) :=
  if (ld_bit_width ld =? 0)%nat then
    Some (0%nat, ld_set_page ld page_value_count RLE page_value_count (ld_reader ld))
  else if need_length ld then
    data_size ← read_u32 page_data;
    data ← slice_from page_data 4;
    r ← new data (Z.to_nat data_size);
    Some ((4 + Z.to_nat data_size)%nat,
      ld_set_page ld page_value_count (ld_mode ld) (current_count ld) (Some r))
  else
    r ← new_all page_data;
    Some (0%nat, ld_set_page ld page_value_count (ld_mode ld) (current_count ld) (Some r)).

Definition read_next_group (ld : LevelDecoder) : option LevelDecoder :=
  r ← ld_reader ld;
  '(indicator, r) ← get_vlq_int r;
  match indicator with
  | None => Some (ld_set_page ld (ld_num_values ld) (ld_mode ld) (current_count ld) (Some r))
  | Some indicator =>
      if Z.land indicator 1 =? 1 then
        let count := Z.to_nat (u64 (i64 ((indicator ≫ 1) * 8))) in
        let buf := current_buffer ld ++ replicate (count - length (current_buffer ld)) 0 in
        '(_, b, r) ← get_batch 4 r (take count buf) (ld_bit_width ld);
        Some (ld_set_group ld BitPacked (current_value ld) count (b ++ drop count buf) 0 r)
      else
        let count := Z.to_nat (u64 (indicator ≫ 1)) in
        '(value, r) ← get_aligned (SInt 4) r (div_ceil (ld_bit_width ld) 8);
        value ← value;
        Some (ld_set_group ld RLE value count (current_buffer ld) (current_buffer_idx ld) r)
  end.

(** The [BitPacked] branch of [read_batch]: one value at a time. *)
Fixpoint read_packed {D : Type} `{Decoder D} (ld : LevelDecoder) (n i : nat) (v : Vector) (d : D)
    : option (Vector * D) :=
  match n with
  | O => Some (v, d)
  | S n =>
      level ← current_buffer ld !! (current_buffer_idx ld + i)%nat;
      '(v, d) ← (if i32 level =? max_def_level ld then
          b ← set_bit (validity_buffer v) (num_values v);
          '(d, v) ← dec_read d (set_validity v b);
          Some (add_values v 1, d)
        else v ← put_null v; Some (v, d));
      read_packed ld n (S i) v d
  end.

(** The body of the loop on the [n] values at hand. *)
Definition read_group {D : Type} `{Decoder D} (ld : LevelDecoder) (n : nat) (v : Vector) (d : D)
    : option (LevelDecoder * Vector * D) :=
  match ld_mode ld with
  | RLE =>
      '(v, d) ← (if swrap 16 (current_value ld) =? max_def_level ld then
          b ← set_bits (validity_buffer v) (num_values v) n;
          '(d, v) ← dec_read_batch d (set_validity v b) n;
          Some (add_values v n, d)
        else v ← put_nulls v n; Some (v, d));
      Some (ld_take ld n (current_buffer_idx ld), v, d)
  | BitPacked =>
      '(v, d) ← read_packed ld n 0 v d;
      Some (ld_take ld n (current_buffer_idx ld + n), v, d)
  end.

Definition next_group (ld : LevelDecoder) : option LevelDecoder :=
  if (current_count ld =? 0)%nat then read_next_group ld else Some ld.

(** One round of [read_batch]'s loop; [None] is a panic. *)
Definition read_round {D : Type} `{Decoder D} (ld : LevelDecoder) (left : nat) (v : Vector) (d : D)
    : option (LevelDecoder * nat * Vector * D) :=
  ld ← next_group ld;
  let n := Nat.min left (current_count ld) in
  '(ld, v, d) ← read_group ld n v d;
  Some (ld, (left - n)%nat, v, d).

(** The loop; [None] is a panic, or a loop that has not ended within [fuel] rounds. *)
Fixpoint read_loop {D : Type} `{Decoder D} (fuel : nat) (ld : LevelDecoder) (left : nat)
    (v : Vector) (d : D) : option (LevelDecoder * Vector * D) :=
  if (left =? 0)%nat then Some (ld, v, d) else
  match fuel with
  | O => None
  | S fuel => '(ld, left, v, d) ← read_round ld left v d; read_loop fuel ld left v d
  end.

(** Every round takes a value or reads a byte of the input, or leaves all as it
    was: more rounds than this never help. *)
Definition level_fuel (ld : LevelDecoder) (total : nat) : nat :=
  (total + match ld_reader ld with Some r => total_bytes r | None => 0 end + 1)%nat.

Definition read_batch {D : Type} `{Decoder D} (ld : LevelDecoder) (total : nat) (v : Vector) (d : D) :=
  read_loop (level_fuel ld total) ld total v d.

(** [skip_batch] *)
Fixpoint count_packed (ld : LevelDecoder) (n i : nat) : option nat :=
  match n with
  | O => Some 0%nat
  | S n =>
      level ← current_buffer ld !! (current_buffer_idx ld + i)%nat;
      c ← count_packed ld n (S i);
      Some (if i32 level =? max_def_level ld then S c else c)
  end.

Definition skip_group {D : Type} `{Decoder D} (ld : LevelDecoder) (n : nat) (d : D)
    : option (LevelDecoder * D) :=
  match ld_mode ld with
  | RLE =>
      d ← (if swrap 16 (current_value ld) =? max_def_level ld then dec_skip_batch d n else Some d);
      Some (ld_take ld n (current_buffer_idx ld), d)
  | BitPacked =>
      num_skips ← count_packed ld n 0;
      d ← dec_skip_batch d num_skips;
      Some (ld_take ld n (current_buffer_idx ld + n), d)
  end.

Definition skip_round {D : Type} `{Decoder D} (ld : LevelDecoder) (left : nat) (v : Vector) (d : D) (nulls : bool)
    : option (LevelDecoder * nat * Vector * D) :=
  ld ← next_group ld;
  let n := Nat.min left (current_count ld) in
  '(ld, d) ← skip_group ld n d;
  v ← (if nulls then put_nulls v n else Some v);
  Some (ld, (left - n)%nat, v, d).

Fixpoint skip_loop {D : Type} `{Decoder D} (fuel : nat) (ld : LevelDecoder) (left : nat)
    (v : Vector) (d : D) (nulls : bool) : option (LevelDecoder * Vector * D) :=
  if (left =? 0)%nat then Some (ld, v, d) else
  match fuel with
  | O => None
  | S fuel => '(ld, left, v, d) ← skip_round ld left v d nulls; skip_loop fuel ld left v d nulls
  end.

Definition skip_batch {D : Type} `{Decoder D} (ld : LevelDecoder) (total : nat) (v : Vector) (d : D)
    (nulls : bool) :=
  skip_loop (level_fuel ld total) ld total v d nulls.
