(* ===== verification/DecoderLaws.v ===== *)
(** What the level decoder relies on of a value decoder, and the column a vector
    stands for.

    A decoder holds a sequence of values; reading stores the next ones in the
    slots after the last element of the vector.  Implementations (values.rs) are
    instances; the level decoder (levels.rs) and the column reader (column.rs) are
    proved for any instance. *)

From S2P Require Import Prelude BitUtil BitReader BitWriter Vector Hybrid Levels.

(** [o] is the outcome of storing the values [xs] after the elements of [v], with
    the values [ys] left in the decoder. *)
Definition stores {D V : Type} (rep : D -> list V -> Prop) (slot : Vector -> nat -> option V)
    (ok : nat -> Vector -> Prop) (cap : nat) (v : Vector) (xs ys : list V) (o : option (D * Vector)) : Prop :=
  exists d' v', o = Some (d', v') /\ rep d' ys /\
    num_values v' = num_values v /\ num_nulls v' = num_nulls v /\
    validity_buffer v' = validity_buffer v /\ ok cap (add_values v' (length xs)) /\
    (forall j, (j < num_values v)%nat -> slot v' j = slot v j) /\
    (forall j, (j < length xs)%nat -> slot v' (num_values v + j)%nat = xs !! j).

Class DecoderLaws (D V : Type) `{Decoder D} := {
  (** the values left in a decoder *)
  dec_rep : D -> list V -> Prop;
  (** the value stored at an index of a vector *)
  slot : Vector -> nat -> option V;
  (** a vector with room for a number of elements *)
  vec_ok : nat -> Vector -> Prop;
  slot_validity v b j : slot (set_validity v b) j = slot v j;
  slot_counts v a b j : slot (set_counts v a b) j = slot v j;
  vec_ok_validity cap v b : vec_ok cap v -> vec_ok cap (set_validity v b);
  law_read_batch d v xs ys cap :
    dec_rep d (xs ++ ys) -> vec_ok cap v -> (num_values v + length xs <= cap)%nat ->
    stores dec_rep slot vec_ok cap v xs ys (dec_read_batch d v (length xs));
  law_read d v x ys cap :
    dec_rep d (x :: ys) -> vec_ok cap v -> (num_values v < cap)%nat ->
    stores dec_rep slot vec_ok cap v [x] ys (dec_read d v);
  law_skip_batch d xs ys :
    dec_rep d (xs ++ ys) -> exists d', dec_skip_batch d (length xs) = Some d' /\ dec_rep d' ys;
  law_put_nulls v n cap :
    vec_ok cap v -> (num_values v + n <= cap)%nat ->
    exists v', put_nulls v n = Some v' /\ num_values v' = (num_values v + n)%nat /\
      num_nulls v' = (num_nulls v + n)%nat /\ validity_buffer v' = validity_buffer v /\
      vec_ok cap v' /\ (forall j, (j < num_values v)%nat -> slot v' j = slot v j) }.

Section Column.
Context {D V : Type} `{DecoderLaws D V}.

(** The elements of a vector, [None] where the validity bit is not set. *)
Definition element (v : Vector) (i : nat) : option V :=
  if bitn (validity_buffer v) i then slot v i else None.

Definition column (v : Vector) : list (option V) := map (element v) (seq 0 (num_values v)).

Fixpoint count_null (l : list (option V)) : nat :=
  match l with [] => 0 | Some _ :: l => count_null l | None :: l => S (count_null l) end.

(** Room in all buffers, no validity bit set past the end, the null count exact. *)
Record filled (cap : nat) (v : Vector) : Prop := {
  fl_ok : vec_ok cap v;
  fl_bytes : bytes_ok (validity_buffer v);
  fl_room : (cap <= 8 * length (validity_buffer v))%nat;
  fl_clear : forall j, (num_values v <= j)%nat -> bitn (validity_buffer v) j = false;
  fl_nulls : num_nulls v = count_null (column v) }.

Lemma count_null_app l k : count_null (l ++ k) = (count_null l + count_null k)%nat.
Proof. induction l as [|[x|] l IH]; cbn; lia. Qed.

Lemma count_null_Some (xs : list V) : count_null (map Some xs) = 0%nat.
Proof. by induction xs. Qed.

Lemma count_null_None n : count_null (replicate n None) = n.
Proof. induction n; cbn; lia. Qed.

Lemma length_column v : length (column v) = num_values v.
Proof. unfold column. by rewrite length_map, length_seq. Qed.

Lemma column_lookup v i : (i < num_values v)%nat -> column v !! i = Some (element v i).
Proof.
  intros Hi. unfold column. change (map (element v)) with (fmap (M:=list) (element v)).
  rewrite list_lookup_fmap, lookup_seq_lt by done. done.
Qed.

(** A vector that keeps its elements and gains [ys]. *)
Lemma column_extend v v' (ys : list (option V)) :
  num_values v' = (num_values v + length ys)%nat ->
  (forall j, (j < num_values v)%nat -> element v' j = element v j) ->
  (forall j, (j < length ys)%nat -> Some (element v' (num_values v + j)) = ys !! j) ->
  column v' = column v ++ ys.
Proof.
  intros Hn Hold Hnew. apply list_eq. intros i.
  destruct (Nat.lt_ge_cases i (num_values v)) as [Hi|Hi].
  - rewrite lookup_app_l, !column_lookup by (rewrite ?length_column; lia). by rewrite Hold.
  - rewrite lookup_app_r by (rewrite length_column; lia). rewrite length_column.
    destruct (Nat.lt_ge_cases (i - num_values v) (length ys)).
    + rewrite column_lookup by lia. rewrite <-Hnew by done. do 2 f_equal. lia.
    + rewrite !lookup_ge_None_2; [done|lia|rewrite length_column; lia].
Qed.

(** Values stored after their validity bits are set become elements. *)
Lemma append_stored cap v b xs ys o :
  filled cap v -> (num_values v + length xs <= cap)%nat ->
  set_bits (validity_buffer v) (num_values v) (length xs) = Some b ->
  stores dec_rep slot vec_ok cap (set_validity v b) xs ys o ->
  exists d' v', o = Some (d', v') /\ dec_rep d' ys /\ filled cap (add_values v' (length xs)) /\
    column (add_values v' (length xs)) = column v ++ map Some xs.
Proof.
  intros [Hok Hb Hroom Hclear Hnulls] Hfit E
    (d' & v' & E' & Hd' & Hn & Hnull & Hval & Hok' & Hold & Hnew).
  destruct (set_bits_spec (validity_buffer v) (num_values v) (length xs) Hb)
    as (b' & Eb & Hb' & Hlen & Hbits); [lia|]. rewrite E in Eb. injection Eb as <-.
  cbn [num_values num_nulls validity_buffer set_validity] in *.
  assert (Hcol : column (add_values v' (length xs)) = column v ++ map Some xs).
  { apply column_extend; unfold element, add_values.
    - cbn. rewrite length_map. lia.
    - intros j Hj. cbn [validity_buffer set_counts]. rewrite slot_counts, Hold, slot_validity by done.
      rewrite Hval, Hbits. prune_cases. by rewrite orb_false_r.
    - rewrite length_map. intros j Hj. cbn [validity_buffer set_counts].
      rewrite slot_counts, Hnew, Hval, Hbits by done. prune_cases. rewrite orb_true_r.
      change (map Some xs) with (Some <$> xs). rewrite list_lookup_fmap.
      by destruct (lookup_lt_is_Some_2 xs j Hj) as [x ->]. }
  exists d', v'. split_and!; [done..| |done]. split; [done|cbn; congruence|..].
  - cbn. rewrite Hval, Hlen. done.
  - cbn [num_values validity_buffer add_values set_counts]. intros j Hj.
    rewrite Hval, Hbits, Hclear by lia. by prune_cases.
  - rewrite Hcol, count_null_app, count_null_Some. cbn. lia.
Qed.

(** [set_bits] then [read_batch]. *)
Lemma append_values cap v d xs ys :
  filled cap v -> dec_rep d (xs ++ ys) -> (num_values v + length xs <= cap)%nat ->
  exists b d' v', set_bits (validity_buffer v) (num_values v) (length xs) = Some b /\
    dec_read_batch d (set_validity v b) (length xs) = Some (d', v') /\ dec_rep d' ys /\
    filled cap (add_values v' (length xs)) /\
    column (add_values v' (length xs)) = column v ++ map Some xs.
Proof.
  intros Hv Hd Hfit. pose proof Hv as [Hok Hb Hroom _ _].
  destruct (set_bits_spec (validity_buffer v) (num_values v) (length xs) Hb) as (b & E & _); [lia|].
  exists b. destruct (append_stored cap v b xs ys (dec_read_batch d (set_validity v b) (length xs)) Hv Hfit E)
    as (d' & v' & ?); [|by exists d', v'].
  apply law_read_batch; [done|by apply vec_ok_validity|done].
Qed.

(** [set_bits] then [read]. *)
Lemma append_value cap v d x ys :
  filled cap v -> dec_rep d (x :: ys) -> (num_values v < cap)%nat ->
  exists b d' v', set_bits (validity_buffer v) (num_values v) 1 = Some b /\
    dec_read d (set_validity v b) = Some (d', v') /\ dec_rep d' ys /\
    filled cap (add_values v' 1) /\ column (add_values v' 1) = column v ++ [Some x].
Proof.
  intros Hv Hd Hfit. pose proof Hv as [Hok Hb Hroom _ _].
  destruct (set_bits_spec (validity_buffer v) (num_values v) 1 Hb) as (b & E & _); [lia|].
  exists b. destruct (append_stored cap v b [x] ys (dec_read d (set_validity v b)) Hv)
    as (d' & v' & ?); [cbn; lia|done| |by exists d', v'].
  apply law_read; [done|by apply vec_ok_validity|done].
Qed.

Lemma append_nulls cap v n :
  filled cap v -> (num_values v + n <= cap)%nat ->
  exists v', put_nulls v n = Some v' /\ filled cap v' /\ column v' = column v ++ replicate n None.
Proof.
  intros [Hok Hb Hroom Hclear Hnulls] Hfit.
  destruct (law_put_nulls v n cap Hok Hfit) as (v' & E & Hn & Hnull & Hval & Hok' & Hold).
  assert (Hcol : column v' = column v ++ replicate n None).
  { apply column_extend; unfold element.
    - by rewrite length_replicate.
    - intros j Hj. by rewrite Hold, Hval.
    - rewrite length_replicate. intros j Hj. rewrite Hval, Hclear by lia.
      by rewrite lookup_replicate_2. }
  exists v'. split_and!; [done| |done]. split; [done|congruence|by rewrite Hval|..].
  - intros j Hj. rewrite Hval. apply Hclear. lia.
  - rewrite Hcol, count_null_app, count_null_None. lia.
Qed.

(** The single-value path sets one bit with [set_bit]. *)
Lemma set_bit_set_bits l i :
  bytes_ok l -> (i < 8 * length l)%nat -> set_bit l i = set_bits l i 1.
Proof.
  intros Hl Hi. destruct (set_bit_spec l i Hl Hi) as (l1 & E1 & Hl1 & Hlen1 & Hb1).
  destruct (set_bits_spec l i 1 Hl) as (l2 & E2 & Hl2 & Hlen2 & Hb2); [lia|].
  rewrite E1, E2. f_equal. apply le_bytes_inj; [done..|lia|].
  apply le_bytes_bitn_ext; [done|apply le_bytes_bound; done|]. intros j.
  rewrite <-bitn_le_bytes by done. rewrite Hb1, Hb2. destruct (bitn l j); [by rewrite ?orb_true_r|].
  prune_cases; done || lia.
Qed.
End Column.
