(* ===== verification/LevelProps.v ===== *)
(** Correctness of the level decoder (levels.rs) against the hybrid encoding and
    the decoder interface. *)

From S2P Require Import Prelude BitUtil Unpack BitPacking BitReader BitReaderProps BitWriter Vector Hybrid Levels DecoderLaws.

(** * The levels a decoder holds *)

Definition current_levels (ld : LevelDecoder) : list Z :=
  match ld_mode ld with
  | RLE => replicate (current_count ld) (current_value ld)
  | BitPacked => take (current_count ld) (drop (current_buffer_idx ld) (current_buffer ld))
  end.

(** Levels have at most 15 bits: the maximum level is an [i16]. *)
Record level_state (ld : LevelDecoder) (rs : list run) (tail : list Z) : Prop := {
  ls_width : (ld_bit_width ld <= 15)%nat;
  ls_runs : Forall (run_ok (ld_bit_width ld)) rs;
  ls_current : Forall (in_u (Z.of_nat (ld_bit_width ld))) (current_levels ld);
  ls_count : length (current_levels ld) = current_count ld;
  ls_reader : rs = [] \/ exists r, ld_reader ld = Some r /\
    at_bytes r (runs_bytes (ld_bit_width ld) rs ++ tail) }.

Definition level_rep (ld : LevelDecoder) (ls : list Z) : Prop :=
  exists rs tail, level_state ld rs tail /\ ls = current_levels ld ++ expand rs.

(** What two decoders of the same column chunk share. *)
Definition same_column (ld ld' : LevelDecoder) : Prop :=
  max_def_level ld' = max_def_level ld /\ ld_bit_width ld' = ld_bit_width ld.

Lemma even_odd_indicator n :
  Z.land (2 * n) 1 = 0 /\ Z.land (2 * n + 1) 1 = 1 /\ (2 * n) ≫ 1 = n /\ (2 * n + 1) ≫ 1 = n.
Proof.
  rewrite !Z.shiftr_div_pow2 by lia. change (2 ^ 1) with 2.
  change (Z.land ?a 1) with (Z.land a (Z.ones 1)). rewrite !Z.land_ones by lia.
  change (2 ^ 1) with 2. lia.
Qed.

Lemma usize_small n : 0 <= n < 2 ^ 63 -> u64 n = n /\ u64 (i64 n) = n.
Proof.
  intros Hn. assert (u64 n = n) by (apply wrap_small; unfold in_u; lia).
  split; [done|]. by rewrite wrap_swrap.
Qed.

(** ** Loading a run *)

Lemma load_rle ld bw r n v k :
  ld_reader ld = Some r -> ld_bit_width ld = bw -> (bw <= 15)%nat -> run_ok bw (Rle n v) ->
  at_bytes r (run_bytes bw (Rle n v) ++ k) ->
  exists ld' r', read_next_group ld = Some ld' /\ same_column ld ld' /\ ld_mode ld' = RLE /\
    current_value ld' = v /\ current_count ld' = n /\ ld_reader ld' = Some r' /\ at_bytes r' k.
Proof.
  intros Hr Hbw Hle (Hn & Hn62 & Hv) Hat. unfold read_next_group. rewrite Hr. cbn [mbind option_bind].
  cbn [run_bytes] in Hat. rewrite <-app_assoc in Hat.
  destruct (even_odd_indicator (Z.of_nat n)) as (E1 & _ & E2 & _).
  destruct (at_vlq r (2 * Z.of_nat n) _ Hat) as (r1 & -> & Hat1); [split; lia|].
  cbn [mbind option_bind]. rewrite E1, E2. cbn [Z.eqb].
  assert (Hw : in_u (8 * Z.of_nat (div_ceil bw 8)) v).
  { apply (in_u_mono (Z.of_nat bw)); [unfold div_ceil; lia|lia|done]. }
  destruct (at_aligned (SInt 4) r1 (to_le_bytes (div_ceil bw 8) v) k Hat1) as (r2 & E & Hat2).
  { rewrite length_to_le_bytes. unfold div_ceil. lia. }
  rewrite length_to_le_bytes in E. rewrite Hbw, E. cbn [mbind option_bind].
  exists (ld_set_group ld RLE v n (current_buffer ld) (current_buffer_idx ld) r2), r2.
  split_and!; try done. rewrite le_bytes_value by done. cbn [from_u64].
  rewrite (proj1 (usize_small (Z.of_nat n) ltac:(lia))), Nat2Z.id. do 2 f_equal.
  apply swrap_small; [lia|]. destruct Hv.
  assert (2 ^ Z.of_nat bw <= 2 ^ 15) by (apply Z.pow_le_mono_r; lia).
  change (8 * Z.of_nat 4) with 32. unfold in_s. change (2 ^ (32 - 1)) with 2147483648.
  change (2 ^ 15) with 32768 in *. lia.
Qed.

Lemma load_packed ld bw r vs k :
  ld_reader ld = Some r -> ld_bit_width ld = bw -> (bw <= 15)%nat -> run_ok bw (Packed vs) ->
  at_bytes r (run_bytes bw (Packed vs) ++ k) ->
  exists ld' r', read_next_group ld = Some ld' /\ same_column ld ld' /\ ld_mode ld' = BitPacked /\
    current_levels ld' = vs /\ current_count ld' = length vs /\ ld_reader ld' = Some r' /\ at_bytes r' k.
Proof.
  intros Hr Hbw Hle (Hn & Hn8 & Hn62 & Hv) Hat. unfold read_next_group. rewrite Hr.
  cbn [mbind option_bind]. cbn [run_bytes] in Hat. rewrite <-app_assoc in Hat.
  destruct (even_odd_indicator (Z.of_nat (length vs / 8))) as (_ & E1 & _ & E2).
  destruct (at_vlq r _ _ Hat) as (r1 & -> & Hat1); [split; lia|].
  cbn [mbind option_bind]. rewrite E1, E2. cbn [Z.eqb].
  apply at_packed_run in Hat1; [|done|done]. pose proof Hat1 as [Hr1 Hal Hend Hf _].
  rewrite (proj2 (usize_small (Z.of_nat (length vs / 8) * 8) ltac:(lia))).
  replace (Z.to_nat (Z.of_nat (length vs / 8) * 8)) with (length vs) by lia.
  set (buf := current_buffer ld ++ _).
  assert (Hbuf : (length vs <= length buf)%nat)
    by (unfold buf; rewrite length_app, length_replicate; lia).
  destruct (get_batch_spec 4 r1 (take (length vs) buf) bw Hr1) as (r2 & E & Hadv);
    [lia|lia|left; lia|].
  assert (Hk : batch_count r1 (length (take (length vs) buf)) bw = length vs).
  { unfold batch_count. rewrite length_take. replace (length vs `min` length buf)%nat with (length vs) by lia.
    assert (bw * length vs = length vs * bw)%nat by lia. case_ltb; [lia|done]. }
  rewrite Hk, Hf, splice_0 in E by (rewrite length_take; lia). rewrite Hk in Hadv.
  rewrite Hbw, E. cbn [mbind option_bind]. do 2 eexists. split; [done|].
  split_and!; try done.
  - unfold current_levels. cbn. by rewrite drop_0, take_app_length.
  - apply at_bytes_packed with bw. rewrite <-(app_nil_r vs) in Hat1.
    by eapply at_packed_advance.
Qed.

Lemma load_run ld bw r x k :
  ld_reader ld = Some r -> ld_bit_width ld = bw -> (bw <= 15)%nat -> run_ok bw x ->
  at_bytes r (run_bytes bw x ++ k) ->
  exists ld' r', read_next_group ld = Some ld' /\ same_column ld ld' /\
    current_levels ld' = expand_run x /\ current_count ld' = length (expand_run x) /\
    ld_reader ld' = Some r' /\ at_bytes r' k.
Proof.
  intros Hr Hbw Hle Hx Hat. destruct x as [n v|vs].
  - destruct (load_rle ld bw r n v k Hr Hbw Hle Hx Hat)
      as (ld' & r' & E & Hs & Hm & Hv & Hc & Hr' & Hat').
    exists ld', r'. unfold current_levels. rewrite Hm, Hv, Hc. cbn. rewrite length_replicate. done.
  - destruct (load_packed ld bw r vs k Hr Hbw Hle Hx Hat) as (ld' & r' & E & Hs & _ & ?).
    by exists ld', r'.
Qed.

Lemma run_values_ok bw x : run_ok bw x -> Forall (in_u (Z.of_nat bw)) (expand_run x).
Proof.
  destruct x as [n v|vs]; cbn; [|tauto]. intros (_ & _ & Hv). by apply Forall_replicate.
Qed.

Lemma next_group_spec ld rs tail :
  level_state ld rs tail -> current_levels ld ++ expand rs <> [] ->
  exists ld' rs', next_group ld = Some ld' /\ level_state ld' rs' tail /\ same_column ld ld' /\
    current_levels ld' ++ expand rs' = current_levels ld ++ expand rs /\ (0 < current_count ld')%nat.
Proof.
  intros Hst Hne. pose proof Hst as [Hw Hruns Hcur Hcount Hreader].
  unfold next_group. destruct (Nat.eqb_spec (current_count ld) 0) as [Hc|Hc].
  - rewrite Hc in Hcount. apply nil_length_inv in Hcount. rewrite Hcount in *.
    destruct Hreader as [->|(r & Hr & Hat)]; [done|].
    destruct rs as [|x rs]; [done|]. inversion_clear Hruns as [|? ? Hx Hrs].
    rewrite runs_bytes_cons, <-app_assoc in Hat.
    destruct (load_run ld _ r x _ Hr eq_refl Hw Hx Hat) as (ld' & r' & E & [Hs1 Hs2] & Hl & Hc' & Hr' & Hat').
    exists ld', rs. split_and!; [done| |done|by rewrite Hl, expand_cons|].
    + split; rewrite ?Hs2, ?Hl; try done; [by apply run_values_ok|]. right. eauto.
    + rewrite Hc'. by eapply expand_run_nonempty.
  - exists ld, rs. split_and!; try done. lia.
Qed.

(** Using up [n] of the current levels. *)
Definition next_idx (ld : LevelDecoder) (n : nat) : nat :=
  match ld_mode ld with RLE => current_buffer_idx ld | BitPacked => current_buffer_idx ld + n end.

Lemma ld_take_levels ld n :
  (n <= current_count ld)%nat ->
  current_levels (ld_take ld n (next_idx ld n)) = drop n (current_levels ld).
Proof.
  intros Hn. unfold current_levels, next_idx. cbn. destruct (ld_mode ld).
  - by rewrite drop_replicate.
  - by rewrite skipn_firstn_comm, drop_drop.
Qed.

Lemma ld_take_state ld n rs tail :
  level_state ld rs tail -> (n <= current_count ld)%nat ->
  level_state (ld_take ld n (next_idx ld n)) rs tail.
Proof.
  intros [Hw Hruns Hcur Hcount Hreader] Hn. split; try done; rewrite ld_take_levels by done.
  - by apply Forall_drop.
  - rewrite length_drop, Hcount. done.
Qed.

(** * The column the levels and the values describe *)

Section Assemble.
Context {V : Type}.
Implicit Types xs : list V.

Fixpoint assemble (max : Z) (ls : list Z) xs : list (option V) :=
  match ls with
  | [] => []
  | l :: ls =>
      if l =? max then
        match xs with [] => [] | x :: xs => Some x :: assemble max ls xs end
      else None :: assemble max ls xs
  end.
End Assemble.

(** The number of non-null positions. *)
Fixpoint present (max : Z) (ls : list Z) : nat :=
  match ls with [] => 0 | l :: ls => if l =? max then S (present max ls) else present max ls end.

Lemma present_app max a b : present max (a ++ b) = (present max a + present max b)%nat.
Proof. induction a as [|l a IH]; cbn; [done|]. destruct (l =? max); lia. Qed.

Lemma assemble_app {V} max a b (xs ys : list V) :
  length xs = present max a -> assemble max (a ++ b) (xs ++ ys) = assemble max a xs ++ assemble max b ys.
Proof.
  revert xs. induction a as [|l a IH]; intros xs Hx; cbn in *.
  - by apply nil_length_inv in Hx as ->.
  - destruct (l =? max); [|cbn; f_equal; by apply IH].
    destruct xs as [|x xs]; [done|]. cbn. f_equal. apply IH. by injection Hx.
Qed.

Lemma assemble_all {V} max n (xs : list V) :
  length xs = n -> assemble max (replicate n max) xs = map Some xs.
Proof.
  intros <-. induction xs as [|x xs IH]; [done|]. cbn. rewrite Z.eqb_refl. by f_equal.
Qed.

Lemma assemble_none {V} max v n : v <> max -> assemble (V:=V) max (replicate n v) [] = replicate n None.
Proof.
  intros Hv. apply Z.eqb_neq in Hv. induction n as [|n IH]; [done|]. cbn. rewrite Hv. by f_equal.
Qed.

Lemma length_assemble {V} max ls (xs : list V) :
  length xs = present max ls -> length (assemble max ls xs) = length ls.
Proof.
  revert xs. induction ls as [|l ls IH]; intros xs Hx; [done|]. cbn in *.
  destruct (l =? max); [|cbn; by rewrite IH].
  destruct xs as [|x xs]; [done|]. cbn. rewrite IH; [done|]. by injection Hx.
Qed.

Lemma present_replicate max v n : present max (replicate n v) = if v =? max then n else 0%nat.
Proof. induction n as [|n IH]; cbn; [by destruct (v =? max)|]. rewrite IH. by destruct (v =? max). Qed.

(** Levels compare the same way at both widths the code uses. *)
Lemma level_i32 bw l : (bw <= 15)%nat -> in_u (Z.of_nat bw) l -> i32 l = l /\ swrap 16 l = l.
Proof.
  intros Hbw [H0 H1]. assert (2 ^ Z.of_nat bw <= 2 ^ 15) by (apply Z.pow_le_mono_r; lia).
  change (2 ^ 15) with 32768 in *.
  split; apply swrap_small; unfold in_s; lia.
Qed.

(** * Reading *)

Section Reading.
Context {D V : Type} `{DecoderLaws D V}.

Lemma read_packed_spec cap ld ls i v d xs ys :
  (ld_bit_width ld <= 15)%nat -> Forall (in_u (Z.of_nat (ld_bit_width ld))) ls ->
  (forall j, (j < length ls)%nat -> current_buffer ld !! (current_buffer_idx ld + (i + j))%nat = ls !! j) ->
  filled cap v -> (num_values v + length ls <= cap)%nat ->
  dec_rep d (xs ++ ys) -> length xs = present (max_def_level ld) ls ->
  exists v' d', read_packed ld (length ls) i v d = Some (v', d') /\ filled cap v' /\
    column v' = column v ++ assemble (max_def_level ld) ls xs /\ dec_rep d' ys.
Proof.
  intros Hbw Hls. revert i v d xs. induction Hls as [|l ls Hl Hls IH];
    intros i v d xs Hbuf Hv Hfit Hd Hx; cbn [length read_packed assemble present] in *.
  { apply nil_length_inv in Hx as ->. exists v, d. by rewrite app_nil_r. }
  pose proof (Hbuf 0%nat ltac:(lia)) as Hb0. rewrite Nat.add_0_r in Hb0. rewrite Hb0.
  cbn [mbind option_bind lookup list_lookup]. rewrite (proj1 (level_i32 _ l Hbw Hl)).
  assert (Hbuf' : forall j, (j < length ls)%nat ->
    current_buffer ld !! (current_buffer_idx ld + (S i + j))%nat = ls !! j).
  { intros j Hj. specialize (Hbuf (S j) ltac:(lia)). by rewrite Nat.add_succ_r in Hbuf. }
  destruct (l =? max_def_level ld).
  - destruct xs as [|x xs]; [done|]. pose proof Hv as [_ Hbytes Hroom _ _].
    destruct (append_value cap v d x (xs ++ ys) Hv Hd) as (b & d' & v' & E1 & E2 & Hd' & Hv' & Hc); [lia|].
    rewrite set_bit_set_bits, E1 by (done || lia). cbn [mbind option_bind].
    rewrite E2. cbn [mbind option_bind].
    pose proof (f_equal length Hc) as Hlen. rewrite length_app, !length_column in Hlen. cbn in Hlen.
    destruct (IH (S i) (add_values v' 1) d' xs Hbuf' Hv') as (v2 & d2 & E & Hv2 & Hc2 & Hd2);
      [cbn; lia|done|by injection Hx|].
    exists v2, d2. split_and!; [done..| |done]. by rewrite Hc2, Hc, <-app_assoc.
  - destruct (append_nulls cap v 1 Hv) as (v' & E & Hv' & Hc); [lia|].
    unfold put_null. rewrite E. cbn [mbind option_bind].
    pose proof (f_equal length Hc) as Hlen. rewrite length_app, !length_column in Hlen. cbn in Hlen.
    destruct (IH (S i) v' d xs Hbuf' Hv') as (v2 & d2 & E2 & Hv2 & Hc2 & Hd2); [lia|done|done|].
    exists v2, d2. split_and!; [done..| |done]. by rewrite Hc2, Hc, <-app_assoc.
Qed.

Lemma read_group_spec cap ld rs tail n v d xs ys :
  level_state ld rs tail -> (0 < n <= current_count ld)%nat -> filled cap v ->
  (num_values v + n <= cap)%nat -> dec_rep d (xs ++ ys) ->
  length xs = present (max_def_level ld) (take n (current_levels ld)) ->
  exists v' d', read_group ld n v d = Some (ld_take ld n (next_idx ld n), v', d') /\ filled cap v' /\
    column v' = column v ++ assemble (max_def_level ld) (take n (current_levels ld)) xs /\
    dec_rep d' ys.
Proof.
  intros [Hbw _ Hcur Hcount _] Hn Hv Hfit Hd Hx. unfold read_group, next_idx.
  unfold current_levels in *. destruct (ld_mode ld).
  - rewrite take_replicate, Nat.min_l in * by lia. rewrite present_replicate in Hx.
    assert (Hl : in_u (Z.of_nat (ld_bit_width ld)) (current_value ld)).
    { destruct (current_count ld); [lia|]. by inversion Hcur. }
    rewrite (proj2 (level_i32 _ _ Hbw Hl)).
    destruct (Z.eqb_spec (current_value ld) (max_def_level ld)) as [E|E].
    + destruct (append_values cap v d xs ys Hv Hd) as (b & d' & v' & E1 & E2 & Hd' & Hv' & Hc); [lia|].
      rewrite Hx in *. rewrite E1. cbn [mbind option_bind]. rewrite E2. cbn [mbind option_bind].
      rewrite E, assemble_all by done. eauto 6.
    + apply nil_length_inv in Hx as ->.
      destruct (append_nulls cap v n Hv) as (v' & E' & Hv' & Hc); [lia|]. rewrite E'.
      cbn [mbind option_bind]. rewrite assemble_none by done. eauto 6.
  - rewrite take_take, Nat.min_l in * by lia.
    set (ls := take n _) in *.
    assert (Hlen : length ls = n) by (unfold ls; rewrite length_take in *; lia).
    destruct (read_packed_spec cap ld ls 0 v d xs ys) as (v' & d' & E & Hv' & Hc & Hd'); try done.
    + unfold ls. rewrite <-(Nat.min_l n (current_count ld)) by lia. rewrite <-take_take.
      by apply Forall_take.
    + intros j Hj. unfold ls. rewrite lookup_take_lt, lookup_drop by lia. done.
    + lia.
    + rewrite Hlen in E. rewrite E. cbn [mbind option_bind]. eauto 6.
Qed.

(** One round of the loops: the group at hand covers a first part of the levels. *)
Lemma round_split ld rs tail ls ls' :
  level_state ld rs tail -> current_levels ld ++ expand rs = ls ++ ls' ->
  let n := Nat.min (length ls) (current_count ld) in
  take n (current_levels ld) = take n ls /\
  level_rep (ld_take ld n (next_idx ld n)) (drop n ls ++ ls').
Proof.
  intros Hst E n. pose proof (ls_count _ _ _ Hst) as Hc. split.
  - apply (f_equal (take n)) in E. by rewrite !take_app_le in E by lia.
  - exists rs, tail. split; [apply ld_take_state; [done|lia]|].
    rewrite ld_take_levels by lia. apply (f_equal (drop n)) in E. by rewrite !drop_app_le in E by lia.
Qed.

Lemma split_values max n ls (xs : list V) :
  length xs = present max ls ->
  let p := present max (take n ls) in
  length (take p xs) = p /\ length (drop p xs) = present max (drop n ls) /\
  assemble max ls xs = assemble max (take n ls) (take p xs) ++ assemble max (drop n ls) (drop p xs).
Proof.
  intros Hx p. pose proof (present_app max (take n ls) (drop n ls)) as Hp. rewrite take_drop in Hp.
  assert (Hlen : length (take p xs) = p) by (rewrite length_take; lia).
  split_and!; [done|rewrite length_drop; lia|]. rewrite <-assemble_app by done. by rewrite !take_drop.
Qed.

Lemma read_loop_spec cap fuel ld ls ls' v d xs ys :
  level_rep ld (ls ++ ls') -> (length ls <= fuel)%nat -> filled cap v ->
  (num_values v + length ls <= cap)%nat -> dec_rep d (xs ++ ys) ->
  length xs = present (max_def_level ld) ls ->
  exists ld' v' d', read_loop fuel ld (length ls) v d = Some (ld', v', d') /\
    level_rep ld' ls' /\ same_column ld ld' /\ filled cap v' /\
    column v' = column v ++ assemble (max_def_level ld) ls xs /\ dec_rep d' ys.
Proof.
  revert ld ls v d xs. induction fuel as [|fuel IH]; intros ld ls v d xs Hrep Hf Hv Hfit Hd Hx;
    (destruct (Nat.eq_dec (length ls) 0%nat) as [E0|E0];
     [apply nil_length_inv in E0 as ->; apply nil_length_inv in Hx as ->; exists ld, v, d;
      cbn; rewrite app_nil_r; by split_and!|]); [lia|].
  destruct Hrep as (rs & tail & Hst & E).
  destruct (next_group_spec ld rs tail Hst) as (ld1 & rs1 & E1 & Hst1 & [Hs1 Hs2] & El & Hc).
  { rewrite <-E. by destruct ls. }
  rewrite <-E in El. destruct (round_split ld1 rs1 tail ls ls' Hst1 El) as [Hcur Hrep1].
  cbn [read_loop]. simp_tests. unfold read_round. rewrite E1. cbn [mbind option_bind].
  set (n := Nat.min (length ls) (current_count ld1)) in *.
  destruct (split_values (max_def_level ld) n ls xs Hx) as (Hp1 & Hp2 & Hasm).
  set (p := present (max_def_level ld) (take n ls)) in *. rewrite <-(take_drop p xs), <-app_assoc in Hd.
  destruct (read_group_spec cap ld1 rs1 tail n v d (take p xs) (drop p xs ++ ys) Hst1)
    as (v1 & d1 & E2 & Hv1 & Hc1 & Hd1); [lia|done|lia|done|rewrite Hcur, Hs1; exact Hp1|].
  rewrite Hcur, Hs1 in Hc1.
  rewrite E2. cbn [mbind option_bind].
  pose proof (f_equal length Hc1) as Hlen1.
  rewrite length_app, !length_column, length_assemble, length_take in Hlen1 by done.
  destruct (IH (ld_take ld1 n (next_idx ld1 n)) (drop n ls) v1 d1 (drop p xs) Hrep1)
    as (ld2 & v2 & d2 & E3 & Hrep2 & [Hs3 Hs4] & Hv2 & Hc2 & Hd2); try done.
  - rewrite length_drop. lia.
  - rewrite length_drop. lia.
  - cbn [max_def_level ld_take]. by rewrite Hs1.
  - rewrite length_drop in E3. exists ld2, v2, d2. cbn [max_def_level ld_bit_width ld_take] in *.
    split_and!; [done|done|split; congruence|done| |done].
    by rewrite Hc2, Hc1, Hasm, Hs1, app_assoc.
Qed.

(** * Skipping *)

Lemma count_packed_spec ld ls i :
  (ld_bit_width ld <= 15)%nat -> Forall (in_u (Z.of_nat (ld_bit_width ld))) ls ->
  (forall j, (j < length ls)%nat -> current_buffer ld !! (current_buffer_idx ld + (i + j))%nat = ls !! j) ->
  count_packed ld (length ls) i = Some (present (max_def_level ld) ls).
Proof.
  intros Hbw Hls. revert i. induction Hls as [|l ls Hl Hls IH]; intros i Hbuf; [done|].
  cbn [length count_packed present]. pose proof (Hbuf 0%nat ltac:(cbn; lia)) as Hb0.
  rewrite Nat.add_0_r in Hb0. rewrite Hb0. cbn [mbind option_bind lookup list_lookup].
  rewrite IH; [cbn; by rewrite (proj1 (level_i32 _ l Hbw Hl))|].
  intros j Hj. specialize (Hbuf (S j) ltac:(cbn; lia)). by rewrite Nat.add_succ_r in Hbuf.
Qed.

Lemma skip_group_spec ld rs tail n d xs ys :
  level_state ld rs tail -> (0 < n <= current_count ld)%nat -> dec_rep d (xs ++ ys) ->
  length xs = present (max_def_level ld) (take n (current_levels ld)) ->
  exists d', skip_group ld n d = Some (ld_take ld n (next_idx ld n), d') /\ dec_rep d' ys.
Proof.
  intros [Hbw _ Hcur Hcount _] Hn Hd Hx. unfold skip_group, next_idx.
  destruct (law_skip_batch d xs ys Hd) as (d' & E & Hd'). rewrite Hx in E.
  unfold current_levels in *. destruct (ld_mode ld).
  - rewrite take_replicate, Nat.min_l in * by lia. rewrite present_replicate in *.
    assert (Hl : in_u (Z.of_nat (ld_bit_width ld)) (current_value ld)).
    { destruct (current_count ld); [lia|]. by inversion Hcur. }
    rewrite (proj2 (level_i32 _ _ Hbw Hl)).
    destruct (current_value ld =? max_def_level ld).
    + rewrite E. cbn [mbind option_bind]. eauto.
    + apply nil_length_inv in Hx as ->. cbn [mbind option_bind]. eauto.
  - rewrite take_take, Nat.min_l in * by lia. set (ls := take n _) in *.
    assert (Hlen : length ls = n) by (unfold ls; rewrite length_take in *; lia).
    replace (count_packed ld n 0) with (count_packed ld (length ls) 0) by (by rewrite Hlen).
    rewrite count_packed_spec; [cbn [mbind option_bind]; rewrite E; eauto|done|..].
    + unfold ls. rewrite <-(Nat.min_l n (current_count ld)) by lia. rewrite <-take_take.
      by apply Forall_take.
    + intros j Hj. unfold ls. rewrite lookup_take_lt, lookup_drop by lia. done.
Qed.

Lemma if_app_nil (b : bool) : (if b then replicate 0 (@None V) else []) = [].
Proof. by destruct b. Qed.

Lemma skip_nulls cap v n (nulls : bool) :
  filled cap v -> (num_values v + n <= cap)%nat ->
  exists v', (if nulls then put_nulls v n else Some v) = Some v' /\ filled cap v' /\
    column v' = column v ++ (if nulls then replicate n None else []) /\
    (num_values v' <= num_values v + n)%nat.
Proof.
  intros Hv Hfit. destruct nulls.
  - destruct (append_nulls cap v n Hv Hfit) as (v' & E & Hv' & Hc). exists v'. split_and!; [done..|].
    apply (f_equal length) in Hc. rewrite length_app, !length_column, length_replicate in Hc. lia.
  - exists v. rewrite app_nil_r. split_and!; [done..|lia].
Qed.

Lemma skip_loop_spec cap fuel ld ls ls' v d nulls xs ys :
  level_rep ld (ls ++ ls') -> (length ls <= fuel)%nat -> filled cap v ->
  (num_values v + length ls <= cap)%nat -> dec_rep d (xs ++ ys) ->
  length xs = present (max_def_level ld) ls ->
  exists ld' v' d', skip_loop fuel ld (length ls) v d nulls = Some (ld', v', d') /\
    level_rep ld' ls' /\ same_column ld ld' /\ filled cap v' /\
    column v' = column v ++ (if nulls then replicate (length ls) None else []) /\ dec_rep d' ys.
Proof.
  revert ld ls v d xs. induction fuel as [|fuel IH]; intros ld ls v d xs Hrep Hf Hv Hfit Hd Hx;
    (destruct (Nat.eq_dec (length ls) 0%nat) as [E0|E0];
     [apply nil_length_inv in E0 as ->; apply nil_length_inv in Hx as ->; exists ld, v, d;
      cbn; rewrite if_app_nil, app_nil_r; by split_and!|]); [lia|].
  destruct Hrep as (rs & tail & Hst & E).
  destruct (next_group_spec ld rs tail Hst) as (ld1 & rs1 & E1 & Hst1 & [Hs1 Hs2] & El & Hc).
  { rewrite <-E. by destruct ls. }
  rewrite <-E in El. destruct (round_split ld1 rs1 tail ls ls' Hst1 El) as [Hcur Hrep1].
  cbn [skip_loop]. simp_tests. unfold skip_round. rewrite E1. cbn [mbind option_bind].
  set (n := Nat.min (length ls) (current_count ld1)) in *.
  destruct (split_values (max_def_level ld) n ls xs Hx) as (Hp1 & Hp2 & _).
  set (p := present (max_def_level ld) (take n ls)) in *. rewrite <-(take_drop p xs), <-app_assoc in Hd.
  destruct (skip_group_spec ld1 rs1 tail n d (take p xs) (drop p xs ++ ys) Hst1)
    as (d1 & E2 & Hd1); [lia|done|rewrite Hcur, Hs1; exact Hp1|].
  rewrite E2. cbn [mbind option_bind].
  destruct (skip_nulls cap v n nulls Hv ltac:(lia)) as (v1 & E3 & Hv1 & Hc1 & Hn1).
  rewrite E3. cbn [mbind option_bind].
  destruct (IH (ld_take ld1 n (next_idx ld1 n)) (drop n ls) v1 d1 (drop p xs) Hrep1)
    as (ld2 & v2 & d2 & E4 & Hrep2 & [Hs3 Hs4] & Hv2 & Hc2 & Hd2); try done.
  - rewrite length_drop. lia.
  - rewrite length_drop. lia.
  - cbn [max_def_level ld_take]. by rewrite Hs1.
  - rewrite length_drop in E4, Hc2. exists ld2, v2, d2. cbn [max_def_level ld_bit_width ld_take] in *.
    split_and!; [done|done|split; congruence|done| |done].
    rewrite Hc2, Hc1, <-app_assoc. f_equal. destruct nulls; [|done].
    rewrite <-replicate_add. f_equal. lia.
Qed.

End Reading.
