(* ===== verification/Values.v ===== *)
(** The value decoders of src/native/core/src/parquet/read/values.rs (with
    [PlainDecoderInner] and [decode_dict] of read/mod.rs): PLAIN decoding of every
    physical type into Arrow layout, and dictionary indices.

    Conversions between integers and floats are functions of bit patterns supplied
    as parameters. *)

From S2P Require Import Prelude BitUtil Unpack BitPacking BitReader BitReaderProps BitWriter Vector Hybrid Levels.

(** * [PlainDecoder] *)

(** The parts of the column descriptor the decoders use. *)
Record ColumnDesc := {
  type_length : nat;
  type_precision : Z;
  type_scale : Z }.

Record PlainDecoderInner := {
  pd_data : list Z;
  pd_offset : nat;
  pd_reader : BitReader;
  use_legacy : bool;
  pd_desc : ColumnDesc }.

Definition plain_new (data : list Z) (desc : ColumnDesc) (legacy : bool) : option PlainDecoderInner :=
  r ← new data (length data);
  Some {| pd_data := data; pd_offset := 0; pd_reader := r; use_legacy := legacy; pd_desc := desc |}.

Definition pd_advance (src : PlainDecoderInner) (n : nat) : PlainDecoderInner :=
  {| pd_data := pd_data src; pd_offset := pd_offset src + n; pd_reader := pd_reader src;
     use_legacy := use_legacy src; pd_desc := pd_desc src |}.
Definition pd_set_reader (src : PlainDecoderInner) (r : BitReader) : PlainDecoderInner :=
  {| pd_data := pd_data src; pd_offset := pd_offset src; pd_reader := r;
     use_legacy := use_legacy src; pd_desc := pd_desc src |}.

Definition JULIAN_GREGORIAN_SWITCH_OFF_DAY : Z := -141427.
Definition JULIAN_GREGORIAN_SWITCH_OFF_TS : Z := -2208988800000000.
Definition JULIAN_DAY_OF_EPOCH : Z := 2440588.
Definition MICROS_PER_MILLIS : Z := 1000.
Definition MICROS_PER_DAY : Z := 24 * 60 * 60 * 1000 * 1000.

(** [&data[offset..]] read as a little-endian integer of [size] bytes. *)
Definition read_le (size : nat) (data : list Z) (offset : nat) : option Z :=
  s ← slice data offset (offset + size); Some (le_bytes s).

(** ** Same layout in Parquet and Arrow *)

Definition decode_default (src : PlainDecoderInner) (dst : Vector) (num : nat)
    : option (PlainDecoderInner * Vector) :=
  let byte_width := type_length (pd_desc src) in
  let num_bytes := (byte_width * num)%nat in
  let dst_offset := (byte_width * num_values dst)%nat in
  s ← slice (pd_data src) (pd_offset src) (pd_offset src + num_bytes);
  buf ← memcpy_at (value_buffer dst) dst_offset s;
  Some (pd_advance src num_bytes, set_value_buffer dst buf).

Definition skip_default (src : PlainDecoderInner) (num : nat) : PlainDecoderInner :=
  pd_advance src (type_length (pd_desc src) * num).

(** The guards against dates before the calendar switch panic. *)
Fixpoint check_each (size : nat) (ok : Z -> bool) (data : list Z) (offset width num : nat) : option unit :=
  match num with
  | O => Some tt
  | S num =>
      _ ← slice data offset (offset + width);
      v ← read_le size data offset;
      if ok v then check_each size ok data (offset + width) width num else None
  end.

Definition date_ok (v : Z) : bool := JULIAN_GREGORIAN_SWITCH_OFF_DAY <=? i32 v.
Definition micros_ok (v : Z) : bool := JULIAN_GREGORIAN_SWITCH_OFF_TS <=? i64 v.
Definition millis_ok (v : Z) : bool := JULIAN_GREGORIAN_SWITCH_OFF_TS <=? i64 (i64 v * MICROS_PER_MILLIS).

Definition decode_date (src : PlainDecoderInner) (dst : Vector) (num : nat) :=
  _ ← (if use_legacy src then Some tt else
    check_each 4 date_ok (pd_data src) (pd_offset src) (type_length (pd_desc src)) num);
  decode_default src dst num.

Definition decode_micros (src : PlainDecoderInner) (dst : Vector) (num : nat) :=
  _ ← (if use_legacy src then Some tt else
    check_each 8 micros_ok (pd_data src) (pd_offset src) (type_length (pd_desc src)) num);
  decode_default src dst num.

(** ** Element by element *)

(** [for _ in 0..num { write(conv(read(src))) }]: elements of [width] bytes in the
    source, of which [size] are read; a [ty]-byte result of which [dst_width] bytes
    are stored. *)
Fixpoint convert_each (size width ty dst_width : nat) (conv : Z -> Z) (data : list Z) (offset : nat)
    (buf : list Z) (dst_offset num : nat) : option (list Z) :=
  match num with
  | O => Some buf
  | S num =>
      _ ← slice data offset (offset + width);
      v ← read_le size data offset;
      buf ← memcpy_value ty (conv v) dst_width buf dst_offset;
      convert_each size width ty dst_width conv data (offset + width) buf (dst_offset + dst_width) num
  end.

Definition days_to_micros (v : Z) : Z := i64 (i32 v * MICROS_PER_DAY).
Definition millis_to_micros (v : Z) : Z := i64 (i64 v * MICROS_PER_MILLIS).

Definition decode_days_to_micros (src : PlainDecoderInner) (dst : Vector) (num : nat) :=
  let byte_width := type_length (pd_desc src) in
  _ ← check_each 4 date_ok (pd_data src) (pd_offset src) byte_width num;
  let dst_byte_width := (byte_width * 2)%nat in
  buf ← convert_each 4 byte_width 8 dst_byte_width days_to_micros (pd_data src) (pd_offset src)
          (value_buffer dst) (dst_byte_width * num_values dst) num;
  Some (pd_advance src (byte_width * num), set_value_buffer dst buf).

Definition decode_millis (src : PlainDecoderInner) (dst : Vector) (num : nat) :=
  let byte_width := type_length (pd_desc src) in
  _ ← (if use_legacy src then Some tt else
    check_each 8 millis_ok (pd_data src) (pd_offset src) byte_width num);
  buf ← convert_each 8 byte_width 8 byte_width millis_to_micros (pd_data src) (pd_offset src)
          (value_buffer dst) (byte_width * num_values dst) num;
  Some (pd_advance src (byte_width * num), set_value_buffer dst buf).

(** [make_int_variant_impl!]: four source bytes per value.  The target element of
    the unsigned types is twice as wide, its upper half zero or the sign. *)
Definition decode_int_variant (conv : Z -> Z) (type_width : nat)
    (src : PlainDecoderInner) (dst : Vector) (num : nat) :=
  buf ← convert_each 4 4 type_width type_width conv (pd_data src) (pd_offset src)
          (value_buffer dst) (num_values dst * type_width) num;
  Some (pd_advance src (4 * num), set_value_buffer dst buf).

Definition skip_int_variant (src : PlainDecoderInner) (num : nat) : PlainDecoderInner :=
  pd_advance src (4 * num).

(** ** INT96 timestamps *)

Definition INT96_SRC_BYTE_WIDTH : nat := 12.
Definition INT96_DST_BYTE_WIDTH : nat := 8.

(** [v] is the 12-byte little-endian integer: nanoseconds below, Julian day above.
    Integer division of signed integers truncates. *)
Definition int96_to_microsecond (v : Z) : Z :=
  let nanos := i64 (bits v 0 64) in
  let day := i32 (bits v 64 32) in
  i64 (i64 (i32 (day - JULIAN_DAY_OF_EPOCH) * MICROS_PER_DAY) + Z.quot nanos 1000).

Definition int96_ok (v : Z) : bool := JULIAN_GREGORIAN_SWITCH_OFF_TS <=? int96_to_microsecond v.

Definition decode_int96 (src : PlainDecoderInner) (dst : Vector) (num : nat) :=
  _ ← (if use_legacy src then Some tt else
    check_each 12 int96_ok (pd_data src) (pd_offset src) INT96_SRC_BYTE_WIDTH num);
  buf ← convert_each 12 INT96_SRC_BYTE_WIDTH 8 INT96_DST_BYTE_WIDTH int96_to_microsecond
          (pd_data src) (pd_offset src)
          (value_buffer dst) (INT96_DST_BYTE_WIDTH * num_values dst) num;
  Some (pd_advance src (INT96_SRC_BYTE_WIDTH * num), set_value_buffer dst buf).

Definition skip_int96 (src : PlainDecoderInner) (num : nat) : PlainDecoderInner :=
  pd_advance src (INT96_SRC_BYTE_WIDTH * num).

(** ** Booleans *)

Definition decode_bool (src : PlainDecoderInner) (dst : Vector) (num : nat) :=
  '(_, buf, r) ← get_bits (pd_reader src) (value_buffer dst) (num_values dst) num;
  Some (pd_set_reader src r, set_value_buffer dst buf).

Definition skip_bool (src : PlainDecoderInner) (num : nat) : option PlainDecoderInner :=
  '(_, r) ← skip_bits (pd_reader src) num; Some (pd_set_reader src r).

(** ** Strings *)

(** One string: its length, its offset entry, its bytes in the child vector, which
    grows when it is too small. *)
Record BinaryState := {
  bs_src : nat;
  bs_offset_value : Z;
  bs_offset_buf : list Z;
  bs_offset_offset : nat;
  bs_value_offset : nat;
  bs_value_buf : list Z }.

Definition decode_one_string (data : list Z) (s : BinaryState) : option BinaryState :=
  rest ← slice_from data (bs_src s);
  len ← read_num_bytes 4 4 rest;
  let offset_value := i32 (bs_offset_value s + i32 len) in
  let len := Z.to_nat (u64 (i32 len)) in
  offset_buf ← memcpy_value 4 offset_value 4 (bs_offset_buf s) (bs_offset_offset s);
  let value_buf_len := length (bs_value_buf s) in
  let value_buf :=
    if (value_buf_len <? bs_value_offset s + len)%nat
    then buffer_resize (bs_value_buf s) (Nat.max (bs_value_offset s + len) (value_buf_len * 2))
    else bs_value_buf s in
  bytes ← slice data (bs_src s + 4) (bs_src s + 4 + len);
  value_buf ← memcpy_at value_buf (bs_value_offset s) bytes;
  Some {| bs_src := bs_src s + 4 + len; bs_offset_value := offset_value;
          bs_offset_buf := offset_buf; bs_offset_offset := bs_offset_offset s + 4;
          bs_value_offset := bs_value_offset s + len; bs_value_buf := value_buf |}.

Fixpoint decode_strings (data : list Z) (num : nat) (s : BinaryState) : option BinaryState :=
  match num with
  | O => Some s
  | S num => s ← decode_one_string data s; decode_strings data num s
  end.

Definition pd_set_offset (src : PlainDecoderInner) (n : nat) : PlainDecoderInner :=
  {| pd_data := pd_data src; pd_offset := n; pd_reader := pd_reader src;
     use_legacy := use_legacy src; pd_desc := pd_desc src |}.

Definition decode_binary (src : PlainDecoderInner) (dst : Vector) (num : nat)
    : option (PlainDecoderInner * Vector) :=
  let offset_offset := (num_values dst * 4)%nat in
  rest ← slice_from (value_buffer dst) offset_offset;
  offset_value ← read_num_bytes 4 4 rest;
  child ← children dst !! 0%nat;
  s ← decode_strings (pd_data src) num
        {| bs_src := pd_offset src; bs_offset_value := i32 offset_value;
           bs_offset_buf := value_buffer dst; bs_offset_offset := offset_offset + 4;
           bs_value_offset := num_values child; bs_value_buf := value_buffer child |};
  let child := set_counts (set_value_buffer child (bs_value_buf s)) (bs_value_offset s) (num_nulls child) in
  Some (pd_set_offset src (bs_src s),
        set_children (set_value_buffer dst (bs_offset_buf s)) (<[0%nat := child]> (children dst))).

Fixpoint skip_strings (data : list Z) (num offset : nat) : option nat :=
  match num with
  | O => Some offset
  | S num =>
      rest ← slice_from data offset;
      len ← read_num_bytes 4 4 rest;
      skip_strings data num (offset + 4 + Z.to_nat (u64 (i32 len)))
  end.

Definition skip_binary (src : PlainDecoderInner) (num : nat) : option PlainDecoderInner :=
  offset ← skip_strings (pd_data src) num (pd_offset src); Some (pd_set_offset src offset).

(** ** Decimals

    [write_null!]: a value that does not fit the target precision is made null.
    The decimal types of [size] bytes; arithmetic wraps at that width. *)

Definition write_null (upper value : Z) (dst : Vector) (i : nat) : option Vector :=
  if upper <=? value then
    b ← unset_bit (validity_buffer dst) (num_values dst + i);
    Some (set_counts (set_validity dst b) (num_values dst) (num_nulls dst + 1))
  else Some dst.

(** [(10 as T).pow(e)] *)
Definition pow10 (w : Z) (signed : bool) (e : Z) : Z :=
  if signed then swrap w (10 ^ e) else wrap w (10 ^ e).

Definition num_cast (w : Z) (signed : bool) (z : Z) : Z := if signed then swrap w z else wrap w z.

(** The rescaling pass of [make_int_decimal_variant_impl!], over the values already
    copied to the target. *)
Fixpoint rescale_each (size : nat) (signed : bool) (adjust : Z -> Z) (store : bool) (upper : Z)
    (dst : Vector) (dst_offset i num : nat) : option Vector :=
  match num with
  | O => Some dst
  | S num =>
      x ← read_le size (value_buffer dst) (dst_offset + i * size);
      let w := 8 * Z.of_nat size in
      let adjusted := num_cast w signed (adjust (num_cast w signed x)) in
      dst ← (if store then
          buf ← memcpy_value size adjusted size (value_buffer dst) (dst_offset + i * size);
          Some (set_value_buffer dst buf)
        else Some dst);
      dst ← write_null upper adjusted dst i;
      rescale_each size signed adjust store upper dst dst_offset (S i) num
  end.

(** [conv] is the copy function: a [width]-byte source value, sign- or
    zero-extended to [size] bytes. *)
Definition decode_int_decimal (width size : nat) (signed : bool) (conv : Z -> Z)
    (src : PlainDecoderInner) (dst : Vector) (num : nat) : option (PlainDecoderInner * Vector) :=
  let w := 8 * Z.of_nat size in
  let dst_offset := (num_values dst * size)%nat in
  buf ← convert_each width width size size conv (pd_data src) (pd_offset src)
          (value_buffer dst) dst_offset num;
  let dst := set_value_buffer dst buf in
  let src_precision := type_precision (pd_desc src) in
  let src_scale := Z.max (type_scale (pd_desc src)) 0 in
  match arrow_type dst with
  | Decimal128 dst_precision dst_scale =>
      if dst_scale <? 0 then None else
      let upper := pow10 w signed dst_precision in
      dst ← (if src_scale <? dst_scale then
          rescale_each size signed (fun x => x * pow10 w signed (dst_scale - src_scale)) true upper
            dst dst_offset 0 num
        else if dst_scale <? src_scale then
          rescale_each size signed (fun x => Z.quot x (pow10 w signed (src_scale - dst_scale))) true
            upper dst dst_offset 0 num
        else if dst_precision <? src_precision then
          rescale_each size signed (fun x => x) false upper dst dst_offset 0 num
        else Some dst);
      Some (pd_advance src (width * num), dst)
  | _ => None
  end.

(** ** Decimals of fixed-length byte arrays: big-endian two's complement *)

(** [unscaled = unscaled << 8 | byte], then the sign extension by two shifts. *)
Definition be_accumulate (w : Z) (acc b : Z) : Z := swrap w (Z.lor (swrap w (acc ≪ 8)) b).

Definition flba_unscaled (size : nat) (bytes : list Z) : Z :=
  let w := 8 * Z.of_nat size in
  let unscaled := foldl (be_accumulate w) 0 bytes in
  let num_bits := 8 * Z.of_nat (size - length bytes) in
  swrap w (unscaled ≪ num_bits) ≫ num_bits.

Fixpoint decode_flba_each (size : nat) (adjust : Z -> Z) (check : bool) (upper : Z)
    (data : list Z) (byte_width : nat) (dst : Vector) (dst_offset i num : nat) : option Vector :=
  match num with
  | O => Some dst
  | S num =>
      bytes ← slice data (i * byte_width) ((i + 1) * byte_width);
      let unscaled := swrap (8 * Z.of_nat size) (adjust (flba_unscaled size bytes)) in
      buf ← memcpy_value size unscaled size (value_buffer dst) (dst_offset + i * size);
      let dst := set_value_buffer dst buf in
      dst ← (if check then write_null upper unscaled dst i else Some dst);
      decode_flba_each size adjust check upper data byte_width dst dst_offset (S i) num
  end.

Definition decode_flba_decimal (size : nat) (src : PlainDecoderInner) (dst : Vector) (num : nat)
    : option (PlainDecoderInner * Vector) :=
  let w := 8 * Z.of_nat size in
  let byte_width := type_length (pd_desc src) in
  data ← slice_from (pd_data src) (pd_offset src);
  let src_precision := type_precision (pd_desc src) in
  let src_scale := Z.max (type_scale (pd_desc src)) 0 in
  let '(dst_precision, dst_scale) :=
    match arrow_type dst with
    | Decimal128 p s => if s <? 0 then (src_precision, src_scale) else (p, s)
    | _ => (src_precision, src_scale)
    end in
  let upper := pow10 w true dst_precision in
  let mul_div := pow10 w true (Z.abs (dst_scale - src_scale)) in
  let adjust x :=
    if src_scale <? dst_scale then x * mul_div
    else if dst_scale <? src_scale then Z.quot x mul_div else x in
  dst ← decode_flba_each size adjust (dst_precision <? src_precision) upper data byte_width dst
          (num_values dst * size) 0 num;
  Some (pd_advance src (num * byte_width), dst).

(** ** The types *)

Section Types.
(** [i32 as f64] and [f32 as f64] on bit patterns. *)
Variables i32_to_f64 f32_to_f64 : Z -> Z.

Inductive DataType :=
  | Int32Type | Int64Type | FloatType | DoubleType | FLBAType
  | Int32DateType | Int32TimestampMicrosType | Int64TimestampMillisType | Int64TimestampMicrosType
  | Int96TimestampMicrosType
  | Int8Type | Int16Type | Int16ToDoubleType | Int32To64Type | Int32ToDoubleType | FloatToDoubleType
  | UInt8Type | UInt16Type | UInt32Type
  | BoolType | ByteArrayType | StringType
  | Int32ToDecimal64Type | Int32DecimalType | Int64ToDecimal64Type | Int64DecimalType | UInt64Type
  | FLBADecimal32Type | FLBADecimal64Type | FLBADecimalType.

(** The copy functions [copy_i32_to_*] of the integer variants: conversion and
    width of the target. *)
Definition int_variant (T : DataType) : option ((Z -> Z) * nat) :=
  match T with
  | Int8Type => Some (i32, 1)
  | Int16Type => Some (i32, 2)
  | Int16ToDoubleType | Int32ToDoubleType => Some (i32_to_f64, 8)
  | Int32To64Type => Some (i32, 8)
  | FloatToDoubleType => Some (f32_to_f64, 8)
  | UInt8Type => Some (i32, 2)
  | UInt16Type => Some (i32, 4)
  | UInt32Type => Some (id, 8)
  | _ => None
  end%nat.

Definition decode (T : DataType) : PlainDecoderInner -> Vector -> nat -> option (PlainDecoderInner * Vector) :=
  match T with
  | Int32Type | Int64Type | FloatType | DoubleType | FLBAType => decode_default
  | Int32DateType => decode_date
  | Int32TimestampMicrosType => decode_days_to_micros
  | Int64TimestampMillisType => decode_millis
  | Int64TimestampMicrosType => decode_micros
  | Int96TimestampMicrosType => decode_int96
  | BoolType => decode_bool
  | ByteArrayType | StringType => decode_binary
  | Int32ToDecimal64Type => decode_int_decimal 4 8 true i32
  | Int32DecimalType => decode_int_decimal 4 16 true i32
  | Int64ToDecimal64Type => decode_int_decimal 8 8 true i64
  | Int64DecimalType => decode_int_decimal 8 16 true i64
  | UInt64Type => decode_int_decimal 8 16 false id
  | FLBADecimal32Type => decode_flba_decimal 4
  | FLBADecimal64Type => decode_flba_decimal 8
  | FLBADecimalType => decode_flba_decimal 16
  | _ => match int_variant T with
         | Some (conv, width) => decode_int_variant conv width
         | None => fun _ _ _ => None
         end
  end.

Definition plain_skip (T : DataType) (src : PlainDecoderInner) (num : nat) : option PlainDecoderInner :=
  match T with
  | Int96TimestampMicrosType => Some (skip_int96 src num)
  | BoolType => skip_bool src num
  | ByteArrayType | StringType => skip_binary src num
  | Int8Type | Int16Type | Int16ToDoubleType | Int32To64Type | Int32ToDoubleType | FloatToDoubleType
  | UInt8Type | UInt16Type | UInt32Type
  | Int32ToDecimal64Type | Int32DecimalType => Some (skip_int_variant src num)
  | Int64ToDecimal64Type | Int64DecimalType | UInt64Type => Some (pd_advance src (8 * num))
  | _ => Some (skip_default src num)
  end.
End Types.

(** * [DictDecoder] *)

Record DictDecoder := {
  dd_bit_width : nat;
  dd_reader : BitReader;
  rle_left : nat;
  bit_packed_left : nat;
  dd_value : Z }.

Definition dict_new (buf : list Z) : option DictDecoder :=
  w ← buf !! 0%nat;
  s ← slice_from buf 1;
  r ← new_all s;
  Some {| dd_bit_width := Z.to_nat w; dd_reader := r; rle_left := 0; bit_packed_left := 0; dd_value := 0 |}.

Definition dd_set (d : DictDecoder) (r : BitReader) (rle packed : nat) (v : Z) : DictDecoder :=
  {| dd_bit_width := dd_bit_width d; dd_reader := r; rle_left := rle; bit_packed_left := packed; dd_value := v |}.

Definition dict_reload (d : DictDecoder) : option DictDecoder :=
  '(indicator, r) ← get_vlq_int (dd_reader d);
  indicator ← indicator;
  if Z.land indicator 1 =? 1 then
    Some (dd_set d r (rle_left d) (Z.to_nat (u64 (i64 ((indicator ≫ 1) * 8)))) (dd_value d))
  else
    '(v, r) ← get_aligned (UInt 4) r (div_ceil (dd_bit_width d) 8);
    v ← v;
    Some (dd_set d r (Z.to_nat (u64 (indicator ≫ 1))) (bit_packed_left d) v).

(** [bit_packed_left -= 1] wraps when a run turns out empty; such input is outside
    the encoding, and the model stops there. *)
Definition dict_next (d : DictDecoder) : option (Z * DictDecoder) :=
  d ← (if (rle_left d =? 0)%nat && (bit_packed_left d =? 0)%nat then dict_reload d else Some d);
  if (0 <? rle_left d)%nat then
    Some (dd_value d, dd_set d (dd_reader d) (rle_left d - 1) (bit_packed_left d) (dd_value d))
  else
    left ← usub (bit_packed_left d) 1;
    '(v, r) ← get_u32_value (dd_reader d) (dd_bit_width d);
    Some (v, dd_set d r (rle_left d) left (dd_value d)).

Definition dict_read (d : DictDecoder) (dst : Vector) : option (DictDecoder * Vector) :=
  '(v, d) ← dict_next d;
  buf ← memcpy_value 4 v 4 (value_buffer dst) (num_values dst * 4);
  Some (d, set_value_buffer dst buf).

(** A sequence of 32-bit stores. *)
Fixpoint store_u32s (vs : list Z) (buf : list Z) (offset : nat) : option (list Z) :=
  match vs with
  | [] => Some buf
  | v :: vs => buf ← memcpy_value 4 v 4 buf offset; store_u32s vs buf (offset + 4)
  end.

(** Every round takes a value or reads a byte of the input. *)
Fixpoint dict_read_loop (fuel : nat) (d : DictDecoder) (buf : list Z) (dst_offset left : nat)
    : option (DictDecoder * list Z) :=
  if (left =? 0)%nat then Some (d, buf) else
  match fuel with
  | O => None
  | S fuel =>
      if (0 <? rle_left d)%nat then
        let n := Nat.min left (rle_left d) in
        buf ← store_u32s (replicate n (dd_value d)) buf dst_offset;
        dict_read_loop fuel (dd_set d (dd_reader d) (rle_left d - n) (bit_packed_left d) (dd_value d))
          buf (dst_offset + 4 * n) (left - n)
      else if (0 <? bit_packed_left d)%nat then
        let n := Nat.min left (bit_packed_left d) in
        '(vs, r) ← get_u32_batch (dd_reader d) (replicate n 0) n (dd_bit_width d);
        buf ← store_u32s vs buf dst_offset;
        dict_read_loop fuel (dd_set d r (rle_left d) (bit_packed_left d - n) (dd_value d))
          buf (dst_offset + 4 * n) (left - n)
      else
        d ← dict_reload d; dict_read_loop fuel d buf dst_offset left
  end.

Definition dict_fuel (d : DictDecoder) (num : nat) : nat := (2 * num + total_bytes (dd_reader d) + 1)%nat.

Definition dict_read_batch (d : DictDecoder) (dst : Vector) (num : nat) : option (DictDecoder * Vector) :=
  '(d, buf) ← dict_read_loop (dict_fuel d num) d (value_buffer dst) (num_values dst * 4) num;
  Some (d, set_value_buffer dst buf).

Fixpoint dict_skip_loop (fuel : nat) (d : DictDecoder) (left : nat) : option DictDecoder :=
  if (left =? 0)%nat then Some d else
  match fuel with
  | O => None
  | S fuel =>
      if (0 <? rle_left d)%nat then
        let n := Nat.min left (rle_left d) in
        dict_skip_loop fuel (dd_set d (dd_reader d) (rle_left d - n) (bit_packed_left d) (dd_value d)) (left - n)
      else if (0 <? bit_packed_left d)%nat then
        let n := Nat.min left (bit_packed_left d) in
        '(_, r) ← skip_bits (dd_reader d) (n * dd_bit_width d);
        dict_skip_loop fuel (dd_set d r (rle_left d) (bit_packed_left d - n) (dd_value d)) (left - n)
      else
        d ← dict_reload d; dict_skip_loop fuel d left
  end.

Definition dict_skip_batch (d : DictDecoder) (num : nat) : option DictDecoder :=
  dict_skip_loop (dict_fuel d num) d num.
