(* ===== verification/ValueProps.v ===== *)
(** The decoders of values.rs satisfy the decoder interface. *)

From S2P Require Import Prelude BitUtil Unpack BitPacking BitReader BitReaderProps BitWriter Vector Hybrid Levels DecoderLaws.
From S2P Require Import LevelProps Values.

(** * Elements of fixed width *)

(** Element [i] of a buffer of [w]-byte elements. *)
Definition slot_bytes (w : nat) (buf : list Z) (i : nat) : option (list Z) :=
  if ((i + 1) * w <=? length buf)%nat then Some (take w (drop (i * w) buf)) else None.

Lemma slot_splice_old w buf p bytes j :
  (j < p)%nat -> (p * w + length bytes <= length buf)%nat ->
  slot_bytes w (splice buf (p * w) bytes) j = slot_bytes w buf j.
Proof.
  intros Hj Hlen. unfold slot_bytes. rewrite length_splice by done.
  assert (Hjp : (j * w + w <= p * w)%nat) by nia.
  destruct (Nat.leb_spec ((j + 1) * w) (length buf)); [|done]. f_equal. unfold splice.
  rewrite drop_app_le by (rewrite length_take; lia).
  rewrite take_app_le by (rewrite length_drop, length_take; lia).
  rewrite skipn_firstn_comm, take_take. f_equal. lia.
Qed.

Lemma slot_concat w (es : list (list Z)) k j :
  Forall (fun e => length e = w) es -> (j < length es)%nat ->
  Some (take w (drop (j * w) (concat es ++ k))) = es !! j.
Proof.
  intros Hes. revert j. induction Hes as [|e es He _ IH]; intros j Hj; cbn [concat length] in *; [lia|].
  rewrite <-app_assoc. destruct j as [|j].
  - by rewrite Nat.mul_0_l, drop_0, take_app_length'.
  - cbn [lookup list_lookup]. rewrite drop_app_ge by lia. rewrite <-IH by lia. do 3 f_equal. lia.
Qed.

Lemma length_concat_fixed w (es : list (list Z)) :
  Forall (fun e => length e = w) es -> length (concat es) = (length es * w)%nat.
Proof. induction 1 as [|e es He _ IH]; cbn; [done|]. rewrite length_app, IH. lia. Qed.

Lemma slot_splice_new w buf p es j :
  Forall (fun e => length e = w) es -> (p * w + length es * w <= length buf)%nat -> (j < length es)%nat ->
  slot_bytes w (splice buf (p * w) (concat es)) (p + j) = es !! j.
Proof.
  intros Hes Hlen Hj. pose proof (length_concat_fixed w es Hes) as Hc. unfold slot_bytes.
  rewrite length_splice by lia.
  assert ((p + j + 1) * w <= length buf)%nat by nia. simp_tests. unfold splice.
  rewrite drop_app_ge by (rewrite length_take; nia). rewrite length_take.
  replace ((p + j) * w - _)%nat with (j * w)%nat by lia. by apply slot_concat.
Qed.

Lemma bytes_ok_splice buf i bytes : bytes_ok buf -> bytes_ok bytes -> bytes_ok (splice buf i bytes).
Proof. intros. unfold splice. rewrite !bytes_ok_app. auto with bytes. Qed.

Lemma bytes_ok_concat es : Forall bytes_ok es -> bytes_ok (concat es).
Proof. induction 1; cbn; [by constructor|]. apply bytes_ok_app. done. Qed.

Lemma memcpy_at_splice buf i bytes :
  (i + length bytes <= length buf)%nat -> memcpy_at buf i bytes = Some (splice buf i bytes).
Proof. intros. unfold memcpy_at. by simp_tests. Qed.

Lemma memcpy_value_splice ty v n buf i :
  (n <= ty)%nat -> (i + n <= length buf)%nat ->
  memcpy_value ty v n buf i = Some (splice buf i (take n (to_le_bytes ty v))).
Proof.
  intros Hn Hi. unfold memcpy_value, slice. rewrite length_to_le_bytes. simp_tests.
  rewrite drop_0, Nat.sub_0_r. apply memcpy_at_splice. rewrite length_take, length_to_le_bytes. lia.
Qed.

(** ** Any decoder that stores encoded elements side by side *)

Section Fixed.
Context {D V : Type} `{!Decoder D} (dict : option Vector) (w : nat) (enc : V -> list Z) (dec : list Z -> V) (good : V -> Prop)
  (rep : D -> list V -> Prop).

Hypothesis enc_ok : forall x, good x -> length (enc x) = w /\ bytes_ok (enc x) /\ dec (enc x) = x.
Hypothesis rep_good : forall d xs, rep d xs -> Forall good xs.
Hypothesis batch_ok : forall d v xs ys,
  rep d (xs ++ ys) -> (num_values v * w + length xs * w <= length (value_buffer v))%nat ->
  exists d', dec_read_batch d v (length xs) = Some (d',
      set_value_buffer v (splice (value_buffer v) (num_values v * w) (concat (map enc xs)))) /\ rep d' ys.
Hypothesis read_ok : forall d v x ys,
  rep d (x :: ys) -> (num_values v * w + w <= length (value_buffer v))%nat ->
  exists d', dec_read d v = Some (d',
      set_value_buffer v (splice (value_buffer v) (num_values v * w) (enc x))) /\ rep d' ys.
Hypothesis skip_ok : forall d xs ys,
  rep d (xs ++ ys) -> exists d', dec_skip_batch d (length xs) = Some d' /\ rep d' ys.

Definition fixed_vec_ok (cap : nat) (v : Vector) : Prop :=
  is_binary_type (arrow_type v) = false /\ dictionary v = dict /\ bytes_ok (value_buffer v) /\
  (cap * w <= length (value_buffer v))%nat.

Lemma enc_widths xs : Forall good xs -> Forall (fun e => length e = w) (map enc xs).
Proof. induction 1; cbn; constructor; [by apply enc_ok|done]. Qed.

Definition fixed_slot (v : Vector) (i : nat) : option V := dec <$> slot_bytes w (value_buffer v) i.

Lemma fixed_stores d v xs ys cap :
  Forall good xs -> rep d ys -> fixed_vec_ok cap v -> (num_values v + length xs <= cap)%nat ->
  stores rep fixed_slot fixed_vec_ok cap v xs ys (Some (d,
    set_value_buffer v (splice (value_buffer v) (num_values v * w) (concat (map enc xs))))).
Proof.
  intros Hg Hd (Hbin & Hdict & Hb & Hcap) Hfit.
  assert (Hroom : (num_values v * w + length xs * w <= length (value_buffer v))%nat) by nia.
  pose proof (enc_widths xs Hg) as Hw. pose proof (length_concat_fixed w _ Hw) as Hlen.
  rewrite length_map in Hlen.
  assert (Hbytes : bytes_ok (concat (map enc xs))).
  { apply bytes_ok_concat. apply Forall_map. eapply Forall_impl, Hg. intros x Hx. by apply enc_ok. }
  eexists d, _. split; [done|]. unfold fixed_slot.
  cbn [num_values num_nulls validity_buffer value_buffer set_value_buffer].
  split_and!; try done.
  - split_and!; cbn; [done|done|by apply bytes_ok_splice|]. rewrite length_splice by lia. done.
  - intros j Hj. f_equal. apply slot_splice_old; lia.
  - intros j Hj. rewrite slot_splice_new by (rewrite ?length_map; done).
    change (map enc xs) with (enc <$> xs). rewrite list_lookup_fmap.
    destruct (lookup_lt_is_Some_2 xs j Hj) as [x Hx]. rewrite Hx. cbn. f_equal.
    apply enc_ok. by eapply Forall_lookup_1.
Qed.

Lemma fixed_read_batch d v xs ys cap :
  rep d (xs ++ ys) -> fixed_vec_ok cap v -> (num_values v + length xs <= cap)%nat ->
  stores rep fixed_slot fixed_vec_ok cap v xs ys (dec_read_batch d v (length xs)).
Proof.
  intros Hd Hv Hfit. destruct (batch_ok d v xs ys Hd) as (d' & -> & Hd').
  { destruct Hv as (_ & _ & _ & Hcap). nia. }
  apply fixed_stores; try done. by apply rep_good, Forall_app in Hd as [Hg _].
Qed.

Lemma fixed_read d v x ys cap :
  rep d (x :: ys) -> fixed_vec_ok cap v -> (num_values v < cap)%nat ->
  stores rep fixed_slot fixed_vec_ok cap v [x] ys (dec_read d v).
Proof.
  intros Hd Hv Hfit. destruct (read_ok d v x ys Hd) as (d' & -> & Hd').
  { destruct Hv as (_ & _ & _ & Hcap). nia. }
  apply rep_good, Forall_cons_1 in Hd as [Hx _].
  rewrite <-(app_nil_r (enc x)). apply (fixed_stores d' v [x]); [by constructor|done..|cbn; lia].
Qed.

Lemma fixed_put_nulls v n cap :
  fixed_vec_ok cap v -> (num_values v + n <= cap)%nat ->
  exists v', put_nulls v n = Some v' /\ num_values v' = (num_values v + n)%nat /\
    num_nulls v' = (num_nulls v + n)%nat /\ validity_buffer v' = validity_buffer v /\
    fixed_vec_ok cap v' /\
    (forall j, (j < num_values v)%nat -> fixed_slot v' j = fixed_slot v j).
Proof.
  intros (Hbin & Hdict & Hb & Hcap) Hfit. unfold put_nulls. rewrite Hbin. cbn [mbind option_bind].
  eexists. split; [done|]. by split_and!.
Qed.

Definition fixed_laws : DecoderLaws D V.
Proof.
  refine {| dec_rep := rep; slot := fixed_slot;
            vec_ok := fixed_vec_ok |}.
  - done.
  - done.
  - intros cap v b Hv. exact Hv.
  - exact fixed_read_batch.
  - exact fixed_read.
  - exact skip_ok.
  - exact fixed_put_nulls.
Defined.
End Fixed.

(** * Dictionary indices *)

Record dict_state (d : DictDecoder) (rs : list run) (tail vals : list Z) : Prop := {
  ds_at : at_packed (dd_bit_width d) (dd_reader d) vals (runs_bytes (dd_bit_width d) rs ++ tail);
  ds_len : length vals = bit_packed_left d;
  ds_excl : rle_left d = 0%nat \/ bit_packed_left d = 0%nat;
  ds_runs : Forall (run_ok (dd_bit_width d)) rs;
  ds_width : (dd_bit_width d <= 32)%nat;
  ds_value : in_u 32 (dd_value d) }.

(** The indices left: of the current run, then of the runs to come. *)
Definition dict_rep (d : DictDecoder) (xs : list Z) : Prop :=
  exists rs tail vals, dict_state d rs tail vals /\
    xs = replicate (rle_left d) (dd_value d) ++ vals ++ expand rs.

Definition dict_ready (d : DictDecoder) : bool := (0 <? rle_left d + bit_packed_left d)%nat.

Lemma dict_rep_good d xs : dict_rep d xs -> Forall (in_u 32) xs.
Proof.
  intros (rs & tail & vals & [Hat Hlen _ Hrs Hw Hv] & ->). rewrite !Forall_app. split_and!.
  - by apply Forall_replicate.
  - rewrite <-(ap_fields _ _ _ _ Hat). by apply fields_range.
  - unfold expand. apply Forall_concat, Forall_map. eapply Forall_impl, Hrs. intros x Hx. cbn.
    eapply Forall_impl, (run_values_ok _ _ Hx). intros y Hy. cbn. by eapply in_u_mono, Hy; lia.
Qed.

Lemma dict_reload_spec d xs :
  dict_rep d xs -> xs <> [] -> dict_ready d = false ->
  exists d', dict_reload d = Some d' /\ dict_rep d' xs /\ dict_ready d' = true.
Proof.
  intros (rs & tail & vals & [Hat Hlen _ Hrs Hw Hv] & E) Hne Hready.
  unfold dict_ready in Hready. apply Nat.ltb_ge in Hready.
  assert (Hrle : rle_left d = 0%nat) by lia. assert (Hpk : bit_packed_left d = 0%nat) by lia.
  rewrite Hrle, Hpk in *. apply nil_length_inv in Hlen as ->. cbn in E. subst xs.
  destruct rs as [|x rs]; [done|]. inversion_clear Hrs as [|? ? Hx Hrs'].
  apply at_bytes_packed in Hat. rewrite runs_bytes_cons, <-app_assoc in Hat.
  unfold dict_reload. destruct x as [n v|vs]; cbn [run_bytes] in Hat; rewrite <-app_assoc in Hat.
  - destruct Hx as (Hn & Hn62 & Hv'). destruct (even_odd_indicator (Z.of_nat n)) as (E1 & _ & E2 & _).
    destruct (at_vlq _ (2 * Z.of_nat n) _ Hat) as (r1 & -> & Hat1); [split; lia|].
    cbn [mbind option_bind]. rewrite E1, E2. cbn [Z.eqb].
    assert (Hv32 : in_u 32 v) by (by eapply in_u_mono, Hv'; lia).
    destruct (at_aligned (UInt 4) r1 _ _ Hat1) as (r2 & E & Hat2).
    { rewrite length_to_le_bytes. unfold div_ceil. lia. }
    rewrite length_to_le_bytes in E. rewrite E. cbn [mbind option_bind].
    rewrite (proj1 (usize_small (Z.of_nat n) ltac:(lia))), Nat2Z.id.
    rewrite le_bytes_value by (eapply in_u_mono, Hv'; unfold div_ceil; lia).
    cbn [from_u64]. rewrite wrap_small by exact Hv32.
    eexists. split; [done|]. split; [|apply Nat.ltb_lt; cbn [rle_left bit_packed_left dd_set]; lia].
    exists rs, tail, []. split; [|done].
    split; cbn [dd_set dd_reader dd_bit_width rle_left bit_packed_left dd_value]; rewrite ?Hpk; try done;
      [by apply at_bytes_packed|by right].
  - destruct Hx as (Hn & Hn8 & Hn62 & Hvs).
    destruct (even_odd_indicator (Z.of_nat (length vs / 8))) as (_ & E1 & _ & E2).
    destruct (at_vlq _ _ _ Hat) as (r1 & -> & Hat1); [split; lia|].
    cbn [mbind option_bind]. rewrite E1, E2. cbn [Z.eqb].
    rewrite (proj2 (usize_small (Z.of_nat (length vs / 8) * 8) ltac:(lia))).
    replace (Z.to_nat (Z.of_nat (length vs / 8) * 8)) with (length vs) by lia.
    eexists. split; [done|]. split; [|apply Nat.ltb_lt; cbn [rle_left bit_packed_left dd_set]; lia].
    exists rs, tail, vs. split; [|cbn; by rewrite Hrle].
    split; cbn [dd_set dd_reader dd_bit_width rle_left bit_packed_left dd_value]; rewrite ?Hrle; try done;
      [by apply at_packed_run|by left].
Qed.

(** Using up values of the current run. *)
Lemma dict_take_rle d xs n :
  dict_rep d xs -> (n <= rle_left d)%nat -> (0 < rle_left d)%nat ->
  take n xs = replicate n (dd_value d) /\
  dict_rep (dd_set d (dd_reader d) (rle_left d - n) (bit_packed_left d) (dd_value d)) (drop n xs).
Proof.
  intros (rs & tail & vals & [Hat Hlen Hex Hrs Hw Hv] & ->) Hn Hpos. split.
  - rewrite take_app_le, take_replicate by (rewrite length_replicate; lia). f_equal. lia.
  - exists rs, tail, vals. split; [split; cbn; try done; right; lia|].
    rewrite drop_app_le, drop_replicate by (rewrite length_replicate; lia). done.
Qed.

Lemma dict_take_packed d xs n r' :
  dict_rep d xs -> (n <= bit_packed_left d)%nat -> rle_left d = 0%nat ->
  advanced (dd_reader d) r' (n * dd_bit_width d) ->
  take n xs = fields (stream (dd_reader d)) (pos (dd_reader d)) (dd_bit_width d) n /\
  dict_rep (dd_set d r' (rle_left d) (bit_packed_left d - n) (dd_value d)) (drop n xs).
Proof.
  intros (rs & tail & vals & [Hat Hlen Hex Hrs Hw Hv] & ->) Hn Hrle Hadv. rewrite Hrle. cbn [replicate app].
  split.
  - rewrite take_app_le by lia. rewrite <-(ap_fields _ _ _ _ Hat).
    replace (length vals) with (n + (length vals - n))%nat by lia.
    by rewrite fields_app, take_app_length' by (by rewrite length_fields).
  - exists rs, tail, (drop n vals). split; [|by rewrite drop_app_le by lia].
    split; cbn; try done; [|rewrite length_drop; lia|by left].
    rewrite <-(take_drop n vals) in Hat. eapply at_packed_advance; [exact Hat|].
    by rewrite length_take, Nat.min_l by lia.
Qed.

(** The packed values at hand lie inside the stream. *)
Lemma dict_packed_room d xs n :
  dict_rep d xs -> (n <= bit_packed_left d)%nat ->
  reader_wf (dd_reader d) /\ (dd_bit_width d <= 32)%nat /\
  (pos (dd_reader d) + n * dd_bit_width d <= 8 * total_bytes (dd_reader d))%nat.
Proof.
  intros (rs & tail & vals & [Hat Hlen _ _ Hw _] & _) Hn. destruct Hat as [Hr _ Hend _ _].
  split_and!; [done..|]. nia.
Qed.

Definition u32_bytes (xs : list Z) : list Z := concat (map (to_le_bytes 4) xs).

Lemma length_u32_bytes xs : length (u32_bytes xs) = (4 * length xs)%nat.
Proof.
  unfold u32_bytes. rewrite (length_concat_fixed 4), length_map; [lia|].
  apply Forall_map, Forall_true. intros x. apply length_to_le_bytes.
Qed.

Lemma u32_bytes_app xs ys : u32_bytes (xs ++ ys) = u32_bytes xs ++ u32_bytes ys.
Proof. unfold u32_bytes. by rewrite map_app, concat_app. Qed.

Lemma store_u32s_spec vs buf off :
  (off + 4 * length vs <= length buf)%nat ->
  store_u32s vs buf off = Some (splice buf off (u32_bytes vs)).
Proof.
  revert buf off. induction vs as [|v vs IH]; intros buf off Hlen; cbn [store_u32s length] in *.
  - unfold u32_bytes. cbn. by rewrite splice_nil.
  - rewrite memcpy_value_splice by lia. cbn [mbind option_bind].
    rewrite (take_ge (to_le_bytes 4 v)) by (by rewrite length_to_le_bytes).
    assert (H4 : length (to_le_bytes 4 v) = 4%nat) by apply length_to_le_bytes.
    rewrite IH by (rewrite length_splice by lia; lia).
    replace (off + 4)%nat with (off + length (to_le_bytes 4 v))%nat by lia.
    rewrite splice_app by (rewrite length_u32_bytes; lia). done.
Qed.

(** Splitting off what one round reads. *)
Lemma splice_u32s buf off xs n :
  (off + 4 * length xs <= length buf)%nat -> (n <= length xs)%nat ->
  splice (splice buf off (u32_bytes (take n xs))) (off + 4 * n) (u32_bytes (drop n xs)) =
  splice buf off (u32_bytes xs).
Proof.
  intros Hlen Hn. rewrite <-(take_drop n xs) at 3. rewrite u32_bytes_app.
  assert (E : length (u32_bytes (take n xs)) = (4 * n)%nat) by (rewrite length_u32_bytes, length_take; lia).
  rewrite <-E. apply splice_app. rewrite E, length_u32_bytes, length_drop. lia.
Qed.

Lemma rest_after {A} (xs ys : list A) n : (n <= length xs)%nat ->
  take n (xs ++ ys) = take n xs /\ drop n (xs ++ ys) = drop n xs ++ ys.
Proof. intros. by rewrite take_app_le, drop_app_le. Qed.

(** What a round reads of the current packed run. *)
Lemma dict_batch d xs n :
  dict_rep d xs -> (n <= bit_packed_left d)%nat -> rle_left d = 0%nat ->
  exists r', get_u32_batch (dd_reader d) (replicate n 0) n (dd_bit_width d) = Some (take n xs, r') /\
    dict_rep (dd_set d r' (rle_left d) (bit_packed_left d - n) (dd_value d)) (drop n xs).
Proof.
  intros Hd Hn Hrle. destruct (dict_packed_room d xs n Hd Hn) as (Hr & Hw & Hend).
  destruct (get_u32_batch_spec (dd_reader d) (replicate n 0) n (dd_bit_width d) Hr Hw Hend)
    as (r' & E & Hadv); [by rewrite length_replicate|].
  destruct (dict_take_packed d xs n r' Hd Hn Hrle Hadv) as [Ht Hd'].
  exists r'. rewrite E, splice_0 by (by rewrite length_fields, length_replicate). by rewrite Ht.
Qed.

Lemma dict_read_loop_spec fuel d buf off xs ys :
  dict_rep d (xs ++ ys) -> (2 * length xs <= fuel + (if dict_ready d then 1 else 0))%nat ->
  (off + 4 * length xs <= length buf)%nat ->
  exists d', dict_read_loop fuel d buf off (length xs) =
      Some (d', splice buf off (u32_bytes xs)) /\ dict_rep d' ys.
Proof.
  revert d buf off xs. induction fuel as [|fuel IH]; intros d buf off xs Hd Hf Hlen;
    (destruct (Nat.eq_dec (length xs) 0%nat) as [E0|E0];
     [apply nil_length_inv in E0 as ->; exists d; cbn; by rewrite splice_nil|]);
    [by destruct (dict_ready d); lia|].
  cbn [dict_read_loop]. simp_tests. destruct (Nat.ltb_spec 0 (rle_left d)) as [Hrle|Hrle].
  - assert (dict_ready d = true) as Hrd by (apply Nat.ltb_lt; lia). rewrite Hrd in Hf.
    set (n := Nat.min (length xs) (rle_left d)).
    destruct (rest_after xs ys n ltac:(lia)) as [Ht Hdr].
    destruct (dict_take_rle d _ n Hd) as [Htake Hd1]; [lia|lia|]. rewrite Ht in Htake. rewrite Hdr in Hd1.
    rewrite store_u32s_spec by (rewrite length_replicate; lia). rewrite <-Htake. cbn [mbind option_bind].
    assert (E : length (drop n xs) = (length xs - n)%nat) by apply length_drop. rewrite <-E.
    destruct (IH _ (splice buf off (u32_bytes (take n xs))) (off + 4 * n)%nat (drop n xs) Hd1)
      as (d' & -> & Hd'); [lia|rewrite length_splice; rewrite ?length_u32_bytes, ?length_take; lia|].
    exists d'. by rewrite splice_u32s by lia.
  - destruct (Nat.ltb_spec 0 (bit_packed_left d)) as [Hpk|Hpk].
    + assert (dict_ready d = true) as Hrd by (apply Nat.ltb_lt; lia). rewrite Hrd in Hf.
      set (n := Nat.min (length xs) (bit_packed_left d)).
      destruct (rest_after xs ys n ltac:(lia)) as [Ht Hdr].
      destruct (dict_batch d _ n Hd) as (r' & -> & Hd1); [lia|lia|]. rewrite Ht. rewrite Hdr in Hd1.
      cbn [mbind option_bind]. rewrite store_u32s_spec by (rewrite length_take; lia). cbn [mbind option_bind].
      assert (E : length (drop n xs) = (length xs - n)%nat) by apply length_drop. rewrite <-E.
      destruct (IH _ (splice buf off (u32_bytes (take n xs))) (off + 4 * n)%nat (drop n xs) Hd1)
        as (d' & -> & Hd'); [lia|rewrite length_splice; rewrite ?length_u32_bytes, ?length_take; lia|].
      exists d'. by rewrite splice_u32s by lia.
    + assert (dict_ready d = false) as Hrd by (apply Nat.ltb_ge; lia). rewrite Hrd in Hf.
      destruct (dict_reload_spec d _ Hd) as (d1 & -> & Hd1 & Hrd1); [by destruct xs|done|].
      cbn [mbind option_bind]. apply IH; [done|rewrite Hrd1; lia|done].
Qed.

Lemma dict_next_spec d x ys :
  dict_rep d (x :: ys) -> exists d', dict_next d = Some (x, d') /\ dict_rep d' ys.
Proof.
  intros Hd. unfold dict_next.
  assert (Hready : exists d1, (if (rle_left d =? 0)%nat && (bit_packed_left d =? 0)%nat
      then dict_reload d else Some d) = Some d1 /\ dict_rep d1 (x :: ys) /\ dict_ready d1 = true).
  { destruct (dict_ready d) eqn:Hr; unfold dict_ready in Hr.
    - apply Nat.ltb_lt in Hr. exists d. rewrite (proj2 (andb_false_iff _ _)).
      + split_and!; [done..|]. by apply Nat.ltb_lt.
      + rewrite !Nat.eqb_neq. lia.
    - apply Nat.ltb_ge in Hr. simp_tests. apply dict_reload_spec; [done..|]. by apply Nat.ltb_ge. }
  destruct Hready as (d1 & -> & Hd1 & Hr1). cbn [mbind option_bind]. apply Nat.ltb_lt in Hr1.
  destruct (Nat.ltb_spec 0 (rle_left d1)) as [Hrle|Hrle].
  - destruct (dict_take_rle d1 _ 1 Hd1) as [Ht Hd2]; [lia|lia|]. cbn in Ht. injection Ht as ->.
    eexists. split; [done|]. exact Hd2.
  - unfold usub. simp_tests.
    destruct (dict_packed_room d1 _ 1 Hd1) as (Hwf & Hw & Hend); [lia|].
    destruct (get_u32_value_spec (dd_bit_width d1) (dd_reader d1) Hw Hwf) as (r' & -> & Hadv); [lia|].
    cbn [mbind option_bind].
    destruct (dict_take_packed d1 _ 1 r' Hd1) as [Ht Hd2]; [lia|lia|by rewrite Nat.mul_1_l|].
    cbn in Ht. injection Ht as ->. eexists. split; [done|]. exact Hd2.
Qed.

Lemma dict_skip_loop_spec fuel d xs ys :
  dict_rep d (xs ++ ys) -> (2 * length xs <= fuel + (if dict_ready d then 1 else 0))%nat ->
  exists d', dict_skip_loop fuel d (length xs) = Some d' /\ dict_rep d' ys.
Proof.
  revert d xs. induction fuel as [|fuel IH]; intros d xs Hd Hf;
    (destruct (Nat.eq_dec (length xs) 0%nat) as [E0|E0];
     [apply nil_length_inv in E0 as ->; by exists d|]); [by destruct (dict_ready d); lia|].
  cbn [dict_skip_loop]. simp_tests. destruct (Nat.ltb_spec 0 (rle_left d)) as [Hrle|Hrle].
  - assert (dict_ready d = true) as Hrd by (apply Nat.ltb_lt; lia). rewrite Hrd in Hf.
    set (n := Nat.min (length xs) (rle_left d)).
    destruct (rest_after xs ys n ltac:(lia)) as [Ht Hdr].
    destruct (dict_take_rle d _ n Hd) as [_ Hd1]; [lia|lia|]. rewrite Hdr in Hd1.
    rewrite <-length_drop. apply IH; [done|rewrite length_drop; lia].
  - destruct (Nat.ltb_spec 0 (bit_packed_left d)) as [Hpk|Hpk].
    + assert (dict_ready d = true) as Hrd by (apply Nat.ltb_lt; lia). rewrite Hrd in Hf.
      set (n := Nat.min (length xs) (bit_packed_left d)).
      destruct (rest_after xs ys n ltac:(lia)) as [Ht Hdr].
      destruct (dict_packed_room d _ n Hd) as (Hwf & Hw & Hend); [lia|].
      destruct (skip_bits_spec (dd_reader d) (n * dd_bit_width d) Hwf) as (r' & E & Hadv).
      rewrite Nat.min_r in E, Hadv by lia. rewrite E. cbn [mbind option_bind].
      destruct (dict_take_packed d _ n r' Hd) as [_ Hd1]; [lia|lia|done|]. rewrite Hdr in Hd1.
      rewrite <-length_drop. apply IH; [done|rewrite length_drop; lia].
    + assert (dict_ready d = false) as Hrd by (apply Nat.ltb_ge; lia). rewrite Hrd in Hf.
      destruct (dict_reload_spec d _ Hd) as (d1 & -> & Hd1 & Hrd1); [by destruct xs|done|].
      cbn [mbind option_bind]. apply IH; [done|rewrite Hrd1; lia].
Qed.

#[export] Instance dict_decoder : Decoder DictDecoder :=
  {| dec_read := dict_read; dec_read_batch := dict_read_batch; dec_skip_batch := dict_skip_batch |}.

Lemma u32_enc_ok x :
  in_u 32 x -> length (to_le_bytes 4 x) = 4%nat /\ bytes_ok (to_le_bytes 4 x) /\ le_bytes (to_le_bytes 4 x) = x.
Proof.
  intros Hx. split_and!; [apply length_to_le_bytes|auto with bytes|by apply le_bytes_value].
Qed.

Lemma dict_batch_ok d v xs ys :
  dict_rep d (xs ++ ys) -> (num_values v * 4 + length xs * 4 <= length (value_buffer v))%nat ->
  exists d', dec_read_batch d v (length xs) = Some (d',
    set_value_buffer v (splice (value_buffer v) (num_values v * 4) (concat (map (to_le_bytes 4) xs)))) /\
    dict_rep d' ys.
Proof.
  intros Hd Hfit. cbn [dec_read_batch dict_decoder]. unfold dict_read_batch, dict_fuel.
  destruct (dict_read_loop_spec (2 * length xs + total_bytes (dd_reader d) + 1) d (value_buffer v)
    (num_values v * 4) xs ys Hd) as (d' & -> & Hd'); [lia|lia|]. eauto.
Qed.

Lemma dict_read_ok d v x ys :
  dict_rep d (x :: ys) -> (num_values v * 4 + 4 <= length (value_buffer v))%nat ->
  exists d', dec_read d v = Some (d',
    set_value_buffer v (splice (value_buffer v) (num_values v * 4) (to_le_bytes 4 x))) /\ dict_rep d' ys.
Proof.
  intros Hd Hfit. cbn [dec_read dict_decoder]. unfold dict_read. destruct (dict_next_spec d x ys Hd) as (d' & -> & Hd').
  cbn [mbind option_bind]. rewrite memcpy_value_splice by lia. cbn [mbind option_bind].
  rewrite take_ge by (by rewrite length_to_le_bytes). eauto.
Qed.

Lemma dict_skip_ok d xs ys :
  dict_rep d (xs ++ ys) -> exists d', dec_skip_batch d (length xs) = Some d' /\ dict_rep d' ys.
Proof.
  intros Hd. cbn [dec_skip_batch dict_decoder]. unfold dict_skip_batch, dict_fuel. apply dict_skip_loop_spec; [done|lia].
Qed.

(** The laws hold of vectors with any fixed dictionary. *)
Definition dict_laws (dict : option Vector) : DecoderLaws DictDecoder Z :=
  fixed_laws dict 4 (to_le_bytes 4) (little_endian_to_Z 8) (in_u 32) dict_rep u32_enc_ok dict_rep_good
    dict_batch_ok dict_read_ok dict_skip_ok.

(** * PLAIN values of fixed width *)

(** The source bytes [es], element by element, at offset [off] of the page. *)
Record elements (data : list Z) (off w : nat) (es : list (list Z)) (tail : list Z) : Prop := {
  el_width : Forall (fun e => length e = w) es;
  el_off : (off <= length data)%nat;
  el_data : drop off data = concat es ++ tail }.

Lemma elements_cons data off w e es tail :
  elements data off w (e :: es) tail ->
  slice data off (off + w) = Some e /\ elements data (off + w) w es tail.
Proof.
  intros [Hw Hoff Hd]. apply Forall_cons_1 in Hw as [He Hw]. cbn in Hd. rewrite <-app_assoc in Hd.
  pose proof (f_equal length Hd) as Hlen. rewrite length_drop, !length_app in Hlen.
  split.
  - unfold slice. simp_tests. rewrite Hd. replace (off + w - off)%nat with w by lia.
    by rewrite take_app_length'.
  - split; [done|lia|]. rewrite <-drop_drop, Hd. by rewrite drop_app_length'.
Qed.

Lemma elements_app data off w es es' tail :
  elements data off w (es ++ es') tail ->
  slice data off (off + w * length es) = Some (concat es) /\
  elements data (off + w * length es) w es' tail.
Proof.
  intros [Hw Hoff Hd]. apply Forall_app in Hw as [Hw Hw'].
  pose proof (length_concat_fixed w es Hw) as Hc. rewrite concat_app, <-app_assoc in Hd.
  pose proof (f_equal length Hd) as Hlen. rewrite length_drop, !length_app in Hlen. split.
  - unfold slice. simp_tests. rewrite Hd. replace (off + w * length es - off)%nat with (length (concat es)) by lia.
    by rewrite take_app_length.
  - split; [done|lia|]. rewrite <-drop_drop, Hd. rewrite drop_app_length'; [done|lia].
Qed.

Lemma read_le_prefix size data off w e :
  slice data off (off + w) = Some e -> (size <= w)%nat -> read_le size data off = Some (le_bytes (take size e)).
Proof.
  intros He Hs. unfold read_le, slice in *.
  destruct (Nat.leb_spec (off + w) (length data)); [|by rewrite andb_false_r in He].
  revert He. simp_tests. intros [= <-]. do 2 f_equal. rewrite take_take. f_equal. lia.
Qed.

Lemma check_each_spec size ok data off w es tail num :
  elements data off w (es ++ num) tail -> (size <= w)%nat ->
  Forall (fun e => ok (le_bytes (take size e)) = true) es ->
  check_each size ok data off w (length es) = Some tt.
Proof.
  revert off. induction es as [|e es IH]; intros off Hel Hs Hok; [done|]. cbn [length check_each].
  cbn [app] in Hel. apply elements_cons in Hel as [He Hel]. apply Forall_cons_1 in Hok as [Hok1 Hok].
  rewrite He. cbn [mbind option_bind]. rewrite (read_le_prefix size _ _ w e He Hs).
  cbn [mbind option_bind]. rewrite Hok1. by apply IH.
Qed.

(** The bytes stored for a source element. *)
Definition converted (size ty dw : nat) (conv : Z -> Z) (e : list Z) : list Z :=
  take dw (to_le_bytes ty (conv (le_bytes (take size e)))).

Lemma length_converted size ty dw conv e : (dw <= ty)%nat -> length (converted size ty dw conv e) = dw.
Proof. intros. unfold converted. rewrite length_take, length_to_le_bytes. lia. Qed.

Lemma convert_each_spec size w ty dw conv data off buf doff es num tail :
  elements data off w (es ++ num) tail -> (size <= w)%nat -> (dw <= ty)%nat ->
  (doff + length es * dw <= length buf)%nat ->
  convert_each size w ty dw conv data off buf doff (length es) =
    Some (splice buf doff (concat (map (converted size ty dw conv) es))).
Proof.
  intros Hel Hs Hdw. revert off buf doff Hel. induction es as [|e es IH]; intros off buf doff Hel Hlen;
    cbn [length convert_each map concat] in *; [by rewrite splice_nil|].
  cbn [app] in Hel. apply elements_cons in Hel as [He Hel].
  rewrite He. cbn [mbind option_bind]. rewrite (read_le_prefix size _ _ w e He Hs).
  cbn [mbind option_bind]. rewrite memcpy_value_splice by lia. cbn [mbind option_bind].
  fold (converted size ty dw conv e).
  pose proof (length_converted size ty dw conv e Hdw) as Hc.
  rewrite IH; [|done|rewrite length_splice; lia].
  replace (doff + dw)%nat with (doff + length (converted size ty dw conv e))%nat by lia.
  rewrite splice_app; [done|]. rewrite (length_concat_fixed dw), length_map; [lia|].
  apply Forall_map, Forall_true. intros x. by apply length_converted.
Qed.

(** How a type of fixed width is laid out: source width, target width, the bytes
    stored for the bytes read, and the values that pass the calendar guard. *)
Record Layout := {
  ly_src : nat;
  ly_dst : nat;
  ly_conv : list Z -> list Z;
  ly_ok : list Z -> bool }.

Definition same_layout (w : nat) (ok : list Z -> bool) : Layout :=
  {| ly_src := w; ly_dst := w; ly_conv := id; ly_ok := ok |}.

Definition guarded (legacy : bool) (size : nat) (ok : Z -> bool) (e : list Z) : bool :=
  legacy || ok (le_bytes (take size e)).

Section Plain.
Variables i32_to_f64 f32_to_f64 : Z -> Z.

Definition layout (T : DataType) (desc : ColumnDesc) (legacy : bool) : option Layout :=
  let w := type_length desc in
  match T with
  | Int32Type | Int64Type | FloatType | DoubleType | FLBAType => Some (same_layout w (fun _ => true))
  | Int32DateType => if (w =? 4)%nat then Some (same_layout 4 (guarded legacy 4 date_ok)) else None
  | Int64TimestampMicrosType =>
      if (w =? 8)%nat then Some (same_layout 8 (guarded legacy 8 micros_ok)) else None
  | Int32TimestampMicrosType =>
      if (w =? 4)%nat then Some {| ly_src := 4; ly_dst := 8; ly_conv := converted 4 8 8 days_to_micros;
                                   ly_ok := guarded false 4 date_ok |} else None
  | Int64TimestampMillisType =>
      if (w =? 8)%nat then Some {| ly_src := 8; ly_dst := 8; ly_conv := converted 8 8 8 millis_to_micros;
                                   ly_ok := guarded legacy 8 millis_ok |} else None
  | Int96TimestampMicrosType =>
      Some {| ly_src := 12; ly_dst := 8; ly_conv := converted 12 8 8 int96_to_microsecond;
              ly_ok := guarded legacy 12 int96_ok |}
  | _ => match int_variant i32_to_f64 f32_to_f64 T with
         | Some (conv, dw) => Some {| ly_src := 4; ly_dst := dw; ly_conv := converted 4 dw dw conv;
                                      ly_ok := fun _ => true |}
         | None => None
         end
  end.

(** The outcome of decoding the elements [es]. *)
Definition decoded (ly : Layout) (src : PlainDecoderInner) (dst : Vector) (es : list (list Z)) :=
  Some (pd_advance src (ly_src ly * length es),
        set_value_buffer dst (splice (value_buffer dst) (num_values dst * ly_dst ly)
                                     (concat (map (ly_conv ly) es)))).

Lemma decode_default_spec src dst w ok es es' tail :
  type_length (pd_desc src) = w -> elements (pd_data src) (pd_offset src) w (es ++ es') tail ->
  (num_values dst * w + length es * w <= length (value_buffer dst))%nat ->
  decode_default src dst (length es) = decoded (same_layout w ok) src dst es.
Proof.
  intros Hw Hel Hlen. unfold decode_default, decoded. rewrite Hw. cbn [ly_src ly_dst ly_conv same_layout].
  pose proof (el_width _ _ _ _ _ Hel) as Hwid. apply Forall_app in Hwid as [Hwid _].
  apply elements_app in Hel as [-> _]. cbn [mbind option_bind].
  rewrite memcpy_at_splice by (rewrite (length_concat_fixed w) by done; lia).
  cbn [mbind option_bind]. rewrite map_id. do 4 f_equal. lia.
Qed.

Lemma check_guarded legacy size ok data off w es tail num :
  elements data off w (es ++ num) tail -> (size <= w)%nat ->
  Forall (fun e => guarded legacy size ok e = true) es ->
  (if legacy then Some tt else check_each size ok data off w (length es)) = Some tt.
Proof. intros. destruct legacy; [done|]. by eapply check_each_spec. Qed.

Lemma decode_int_variant_spec conv dw src dst es es' tail ok :
  elements (pd_data src) (pd_offset src) 4 (es ++ es') tail ->
  (num_values dst * dw + length es * dw <= length (value_buffer dst))%nat ->
  decode_int_variant conv dw src dst (length es) =
    decoded {| ly_src := 4; ly_dst := dw; ly_conv := converted 4 dw dw conv; ly_ok := ok |} src dst es.
Proof.
  intros Hel Hlen. unfold decode_int_variant. by erewrite convert_each_spec by (done || lia).
Qed.

Lemma decode_layout T src dst ly es es' tail :
  layout T (pd_desc src) (use_legacy src) = Some ly ->
  elements (pd_data src) (pd_offset src) (ly_src ly) (es ++ es') tail ->
  Forall (fun e => ly_ok ly e = true) es ->
  (num_values dst * ly_dst ly + length es * ly_dst ly <= length (value_buffer dst))%nat ->
  decode i32_to_f64 f32_to_f64 T src dst (length es) = decoded ly src dst es.
Proof.
  intros Hly Hel Hok Hlen. destruct T; cbn [layout int_variant decode] in *;
    try match type of Hly with context [(?a =? ?b)%nat] => destruct (Nat.eqb_spec a b) as [Ew|?] end;
    simplify_eq; cbn [same_layout ly_src ly_dst ly_conv ly_ok] in *;
    try (by eapply decode_default_spec); try (by eapply decode_int_variant_spec).
  - unfold decode_date. rewrite Ew. erewrite check_guarded by (done || lia). by eapply decode_default_spec.
  - unfold decode_days_to_micros. rewrite Ew. erewrite check_each_spec by (done || lia).
    cbn [mbind option_bind Nat.mul Nat.add].
    erewrite convert_each_spec by (done || lia). cbn [mbind option_bind]. unfold decoded. cbn [ly_src ly_dst ly_conv].
    do 4 f_equal. lia.
  - unfold decode_millis. rewrite Ew. erewrite check_guarded by (done || lia).
    cbn [mbind option_bind]. erewrite convert_each_spec by (done || lia). unfold decoded.
    cbn [ly_src ly_dst ly_conv mbind option_bind]. do 4 f_equal. lia.
  - unfold decode_micros. rewrite Ew. erewrite check_guarded by (done || lia). by eapply decode_default_spec.
  - unfold decode_int96. erewrite check_guarded by (done || lia).
    cbn [mbind option_bind]. erewrite convert_each_spec by (done || unfold INT96_DST_BYTE_WIDTH; lia).
    unfold decoded. cbn [ly_src ly_dst ly_conv mbind option_bind]. unfold INT96_DST_BYTE_WIDTH.
    do 4 f_equal. lia.
Qed.

Lemma layout_conv T desc legacy ly e :
  layout T desc legacy = Some ly -> length e = ly_src ly -> bytes_ok e ->
  length (ly_conv ly e) = ly_dst ly /\ bytes_ok (ly_conv ly e).
Proof.
  intros Hly He Hb. destruct T; cbn [layout int_variant] in *;
    try match type of Hly with context [(?a =? ?b)%nat] => destruct (Nat.eqb_spec a b) as [Ew|?] end;
    simplify_eq; cbn [same_layout ly_src ly_dst ly_conv] in *; try done;
    (split; [by apply length_converted|apply bytes_ok_take; auto with bytes]).
Qed.

Lemma skip_layout T src ly n :
  layout T (pd_desc src) (use_legacy src) = Some ly ->
  plain_skip T src n = Some (pd_advance src (ly_src ly * n)).
Proof.
  intros Hly. destruct T; cbn [layout int_variant] in *;
    try match type of Hly with context [(?a =? ?b)%nat] => destruct (Nat.eqb_spec a b) as [Ew|?] end;
    simplify_eq; cbn [same_layout ly_src plain_skip]; unfold skip_default, skip_int96, skip_int_variant;
    rewrite ?Ew; done.
Qed.

(** The values left in a page of type [T]. *)
Definition plain_rep (desc : ColumnDesc) (legacy : bool) (ly : Layout) (d : PlainDecoderInner)
    (xs : list (list Z)) : Prop :=
  pd_desc d = desc /\ use_legacy d = legacy /\ bytes_ok (pd_data d) /\
  exists es tail, elements (pd_data d) (pd_offset d) (ly_src ly) es tail /\
    Forall (fun e => ly_ok ly e = true) es /\ xs = map (ly_conv ly) es.

Definition PlainDecoder (T : DataType) : Type := PlainDecoderInner.

Definition plain_decoder (T : DataType) : Decoder (PlainDecoder T) :=
  {| dec_read d v := decode i32_to_f64 f32_to_f64 T d v 1;
     dec_read_batch := decode i32_to_f64 f32_to_f64 T; dec_skip_batch := plain_skip T |}.

Section Instance_.
Context (T : DataType) (desc : ColumnDesc) (legacy : bool) (ly : Layout).
Hypothesis Hly : layout T desc legacy = Some ly.

Definition good_element (x : list Z) : Prop := length x = ly_dst ly /\ bytes_ok x.

Lemma elements_bytes data off w es tail : bytes_ok data -> elements data off w es tail -> Forall bytes_ok es.
Proof.
  intros Hb [_ _ Hd]. assert (H : bytes_ok (concat es ++ tail)) by (rewrite <-Hd; auto with bytes).
  apply bytes_ok_app in H as [H _]. clear Hd. induction es as [|e es IH]; [constructor|].
  cbn in H. apply bytes_ok_app in H as [??]. constructor; auto.
Qed.

Lemma plain_rep_good (d : PlainDecoder T) xs : plain_rep desc legacy ly d xs -> Forall good_element xs.
Proof.
  intros (_ & _ & Hb & es & tail & Hel & _ & ->). apply Forall_map.
  pose proof (elements_bytes _ _ _ _ _ Hb Hel) as Hes. destruct Hel as [Hw _ _].
  apply Forall_forall. intros e He. rewrite Forall_forall in Hes, Hw.
  destruct (layout_conv T desc legacy ly e Hly) as [??]; [by apply Hw|by apply Hes|by split].
Qed.

Lemma plain_rep_advance (d : PlainDecoder T) xs ys :
  plain_rep desc legacy ly d (xs ++ ys) ->
  exists es es' tail, xs = map (ly_conv ly) es /\ length es = length xs /\
    elements (pd_data d) (pd_offset d) (ly_src ly) (es ++ es') tail /\
    Forall (fun e => ly_ok ly e = true) es /\
    plain_rep desc legacy ly (pd_advance d (ly_src ly * length es)) ys.
Proof.
  intros (Hd & Hl & Hb & es & tail & Hel & Hok & E).
  symmetry in E. apply fmap_app_inv in E as (es1 & es2 & -> & -> & ->).
  apply Forall_app in Hok as [Hok1 Hok2]. exists es1, es2, tail.
  split_and!; try done; [by rewrite length_fmap|].
  split_and!; try done. exists es2, tail. split_and!; try done.
  by apply elements_app in Hel as [_ Hel].
Qed.

Lemma plain_batch_ok (d : PlainDecoder T) v xs ys :
  plain_rep desc legacy ly d (xs ++ ys) ->
  (num_values v * ly_dst ly + length xs * ly_dst ly <= length (value_buffer v))%nat ->
  exists d', @dec_read_batch _ (plain_decoder T) d v (length xs) = Some (d',
    set_value_buffer v (splice (value_buffer v) (num_values v * ly_dst ly) (concat (map id xs)))) /\
    plain_rep desc legacy ly d' ys.
Proof.
  intros Hrep Hfit. pose proof Hrep as (Hd & Hl & _).
  destruct (plain_rep_advance d xs ys Hrep) as (es & es' & tail & -> & Hlen & Hel & Hok & Hrep').
  rewrite <-Hlen in Hfit |- *. cbn [dec_read_batch plain_decoder].
  rewrite (decode_layout T d v ly es es' tail); [|by rewrite Hd, Hl|done..].
  unfold decoded. rewrite map_id. eauto.
Qed.

Lemma plain_read_ok (d : PlainDecoder T) v x ys :
  plain_rep desc legacy ly d (x :: ys) ->
  (num_values v * ly_dst ly + ly_dst ly <= length (value_buffer v))%nat ->
  exists d', @dec_read _ (plain_decoder T) d v = Some (d',
    set_value_buffer v (splice (value_buffer v) (num_values v * ly_dst ly) (id x))) /\
    plain_rep desc legacy ly d' ys.
Proof.
  intros Hrep Hfit. destruct (plain_batch_ok d v [x] ys Hrep) as (d' & E & Hrep'); [cbn; lia|].
  exists d'. split; [|done]. cbn in E |- *. by rewrite app_nil_r in E.
Qed.

Lemma plain_skip_ok (d : PlainDecoder T) xs ys :
  plain_rep desc legacy ly d (xs ++ ys) ->
  exists d', @dec_skip_batch _ (plain_decoder T) d (length xs) = Some d' /\ plain_rep desc legacy ly d' ys.
Proof.
  intros Hrep. pose proof Hrep as (Hd & Hl & _).
  destruct (plain_rep_advance d xs ys Hrep) as (es & es' & tail & -> & Hlen & _ & _ & Hrep').
  cbn [dec_skip_batch plain_decoder]. rewrite (skip_layout T d ly) by (by rewrite Hd, Hl).
  rewrite <-Hlen. eauto.
Qed.

Definition plain_laws : @DecoderLaws (PlainDecoder T) (list Z) (plain_decoder T) :=
  @fixed_laws (PlainDecoder T) (list Z) (plain_decoder T) None (ly_dst ly) id id good_element
    (plain_rep desc legacy ly) (fun x Hx => conj (proj1 Hx) (conj (proj2 Hx) eq_refl))
    plain_rep_good plain_batch_ok plain_read_ok plain_skip_ok.
End Instance_.
End Plain.
