(* ===== verification/ColumnReader.v ===== *)
(** [TypedColumnReader] (src/native/core/src/parquet/read/column.rs), with the
    dictionary fallback [decode_dict] of read/mod.rs and values.rs. *)

From S2P Require Import Prelude BitUtil Unpack BitPacking BitReader BitReaderProps BitWriter Vector Hybrid Levels DecoderLaws.
From S2P Require Import LevelProps Values ValueProps.

Section Reader.
Variables i32_to_f64 f32_to_f64 i16_to_f64 : Z -> Z.

(** * Dictionary fallback *)

(** [decode_dict_one]: dictionary entry [val_idx] becomes element [idx] of [dst]. *)
Definition copy_entry (width : nat) (src : Vector) (val_idx : nat) (dst : Vector) (idx : nat) : option Vector :=
  s ← slice (value_buffer src) (val_idx * width) ((val_idx + 1) * width);
  buf ← memcpy_at (value_buffer dst) (idx * width) s;
  Some (set_value_buffer dst buf).

(** [make_int_variant_dict_impl!]: both buffers seen as arrays of the source and
    the target type. *)
Definition cast_entry (src_size dst_size : nat) (conv : Z -> Z) (src : Vector) (val_idx : nat)
    (dst : Vector) (idx : nat) : option Vector :=
  v ← read_le src_size (value_buffer src) (val_idx * src_size);
  buf ← memcpy_value dst_size (conv v) dst_size (value_buffer dst) (idx * dst_size);
  Some (set_value_buffer dst buf).

Definition bool_entry (src : Vector) (val_idx : nat) (dst : Vector) (idx : nat) : option Vector :=
  v ← get_bit (value_buffer src) val_idx;
  match v with
  | true => b ← set_bit (value_buffer dst) idx; Some (set_value_buffer dst b)
  | false => Some dst
  end.

Definition binary_entry (src : Vector) (val_idx : nat) (dst : Vector) (idx : nat) : option Vector :=
  src_child ← children src !! 0%nat;
  dst_child ← children dst !! 0%nat;
  start ← read_le 4 (value_buffer src) (val_idx * 4);
  end_ ← read_le 4 (value_buffer src) ((val_idx + 1) * 4);
  bytes ← slice (value_buffer src_child) (Z.to_nat start) (Z.to_nat end_);
  let len := length bytes in
  curr ← read_le 4 (value_buffer dst) (idx * 4);
  let curr_offset := Z.to_nat curr in
  let value_buf_len := length (value_buffer dst_child) in
  let value_buf :=
    if (value_buf_len <? curr_offset + len)%nat
    then buffer_resize (value_buffer dst_child) (Nat.max (curr_offset + len) (value_buf_len * 2))
    else value_buffer dst_child in
  value_buf ← memcpy_at value_buf curr_offset bytes;
  buf ← memcpy_value 4 (Z.of_nat (curr_offset + len)) 4 (value_buffer dst) ((idx + 1) * 4);
  let child := set_counts (set_value_buffer dst_child value_buf) (num_values dst_child + len)
                 (num_nulls dst_child) in
  Some (set_children (set_value_buffer dst buf) (<[0%nat := child]> (children dst))).

Definition decode_dict_one (T : DataType) (idx val_idx : nat) (src dst : Vector) (width : nat)
    : option Vector :=
  match T with
  | Int8Type | UInt8Type | Int16Type | UInt16Type | Int32Type | UInt32Type
  | Int32DateType | Int64Type | FloatType | Int64ToDecimal64Type | FLBAType
  | DoubleType | Int64TimestampMillisType | Int64TimestampMicrosType =>
      copy_entry (width / 8) src val_idx dst idx
  | Int16ToDoubleType => cast_entry 2 8 i16_to_f64 src val_idx dst idx
  | Int32To64Type | Int32ToDecimal64Type | Int32TimestampMicrosType =>
      cast_entry 4 8 i32 src val_idx dst idx
  | Int32ToDoubleType => cast_entry 4 8 i32_to_f64 src val_idx dst idx
  | FloatToDoubleType => cast_entry 4 8 f32_to_f64 src val_idx dst idx
  | Int32DecimalType | Int64DecimalType | UInt64Type => cast_entry 16 16 id src val_idx dst idx
  | BoolType => bool_entry src val_idx dst idx
  | ByteArrayType | StringType => binary_entry src val_idx dst idx
  | FLBADecimal32Type => copy_entry 4 src val_idx dst (num_values dst)
  | FLBADecimal64Type => copy_entry 8 src val_idx dst (num_values dst)
  | FLBADecimalType => copy_entry 16 src val_idx dst (num_values dst)
  | Int96TimestampMicrosType => copy_entry 8 src val_idx dst (num_values dst)
  end.

(** [decode_dict]: the indices and the nulls of [src], in order. *)
Fixpoint decode_dict_loop (T : DataType) (src dict dst : Vector) (width i n : nat) : option Vector :=
  match n with
  | O => Some dst
  | S n =>
      valid ← get_bit (validity_buffer src) i;
      val_idx ← read_le 4 (value_buffer src) (i * 4);
      dst ← match valid with
            | true => dst ← decode_dict_one T i (Z.to_nat val_idx) dict dst width;
                      Some (add_values dst 1)
            | false => put_null dst
            end;
      decode_dict_loop T src dict dst width (S i) n
  end.

Definition decode_dict (T : DataType) (src dst : Vector) (width : nat) : option Vector :=
  match dictionary dst, dictionary src with
  | None, Some dict =>
      dst ← decode_dict_loop T src dict dst width 0 (num_values src);
      Some (set_validity dst (validity_buffer src))
  | _, _ => None
  end.

(** * The reader *)

Inductive Encoding := PLAIN | PLAIN_DICTIONARY | RLE_DICTIONARY | OTHER_ENCODING.

(** [Box<dyn Decoder>] *)
Inductive BoxDecoder := BoxPlain (d : PlainDecoderInner) | BoxDict (d : DictDecoder).

Definition box_decoder (T : DataType) : Decoder BoxDecoder :=
  {| dec_read d v :=
       match d with
       | BoxPlain d => '(d, v) ← decode i32_to_f64 f32_to_f64 T d v 1; Some (BoxPlain d, v)
       | BoxDict d => '(d, v) ← dict_read d v; Some (BoxDict d, v)
       end;
     dec_read_batch d v n :=
       match d with
       | BoxPlain d => '(d, v) ← decode i32_to_f64 f32_to_f64 T d v n; Some (BoxPlain d, v)
       | BoxDict d => '(d, v) ← dict_read_batch d v n; Some (BoxDict d, v)
       end;
     dec_skip_batch d n :=
       match d with
       | BoxPlain d => d ← plain_skip T d n; Some (BoxPlain d)
       | BoxDict d => d ← dict_skip_batch d n; Some (BoxDict d)
       end |}.

Record TypedColumnReader := {
  cr_desc : ColumnDesc;
  cr_max_def : Z;
  cr_max_rep : Z;
  cr_arrow_type : ArrowDataType;
  cr_rep : option LevelDecoder;
  cr_def : option LevelDecoder;
  cr_values : option BoxDecoder;
  num_values_in_page : nat;
  cr_vector : Vector;
  cr_capacity : nat;
  cr_bit_width : nat;
  is_const : bool;
  cr_legacy : bool }.

Definition reader_new (desc : ColumnDesc) (max_def max_rep : Z) (capacity : nat) (t : ArrowDataType)
    (legacy : bool) : option TypedColumnReader :=
  vector ← vector_new capacity t;
  Some {| cr_desc := desc; cr_max_def := max_def; cr_max_rep := max_rep; cr_arrow_type := t;
          cr_rep := None; cr_def := None; cr_values := None; num_values_in_page := 0;
          cr_vector := vector; cr_capacity := capacity; cr_bit_width := bit_width t;
          is_const := false; cr_legacy := legacy |}.

Definition cr_set_vector (c : TypedColumnReader) (v : Vector) : TypedColumnReader :=
  Build_TypedColumnReader (cr_desc c) (cr_max_def c) (cr_max_rep c) (cr_arrow_type c) (cr_rep c)
    (cr_def c) (cr_values c) (num_values_in_page c) v (cr_capacity c) (cr_bit_width c) (is_const c)
    (cr_legacy c).
Definition cr_set_page (c : TypedColumnReader) (rep def : LevelDecoder) (d : BoxDecoder) (n : nat)
    (v : Vector) : TypedColumnReader :=
  Build_TypedColumnReader (cr_desc c) (cr_max_def c) (cr_max_rep c) (cr_arrow_type c) (Some rep)
    (Some def) (Some d) n v (cr_capacity c) (cr_bit_width c) (is_const c) (cr_legacy c).
Definition cr_set_decoders (c : TypedColumnReader) (def : LevelDecoder) (d : BoxDecoder) (n : nat)
    (v : Vector) : TypedColumnReader :=
  Build_TypedColumnReader (cr_desc c) (cr_max_def c) (cr_max_rep c) (cr_arrow_type c) (cr_rep c)
    (Some def) (Some d) n v (cr_capacity c) (cr_bit_width c) (is_const c) (cr_legacy c).

Definition reset_batch (c : TypedColumnReader) : option TypedColumnReader :=
  v ← vector_reset (cr_vector c); Some (cr_set_vector c v).

Definition get_decoder (c : TypedColumnReader) (data : list Z) (e : Encoding) : option BoxDecoder :=
  match e with
  | PLAIN | PLAIN_DICTIONARY => d ← plain_new data (cr_desc c) (cr_legacy c); Some (BoxPlain d)
  | RLE_DICTIONARY => d ← dict_new data; Some (BoxDict d)
  | OTHER_ENCODING => None
  end.

(** [read_batch]: the number of values read and of the nulls among them. *)
Definition reader_read_batch (T : DataType) (c : TypedColumnReader) (total null_pad_size : nat)
    : option (nat * nat * TypedColumnReader) :=
  let n := Nat.min (num_values_in_page c) total in
  d ← cr_values c;
  ld ← cr_def c;
  v ← put_nulls (cr_vector c) null_pad_size;
  '(ld, v, d) ← @read_batch _ (box_decoder T) ld n v d;
  nulls ← usub (num_nulls v) (num_nulls (cr_vector c));
  Some (n, nulls, cr_set_decoders c ld d (num_values_in_page c - n) v).

Definition reader_skip_batch (T : DataType) (c : TypedColumnReader) (total : nat) (nulls : bool)
    : option (nat * TypedColumnReader) :=
  let n := Nat.min (num_values_in_page c) total in
  d ← cr_values c;
  ld ← cr_def c;
  '(ld, v, d) ← @skip_batch _ (box_decoder T) ld n (cr_vector c) d nulls;
  Some (n, cr_set_decoders c ld d (num_values_in_page c - n) v).

Definition set_dictionary_page (T : DataType) (c : TypedColumnReader) (page_value_count : nat)
    (page_data : list Z) (e : Encoding) : option TypedColumnReader :=
  let e := match e with PLAIN => PLAIN_DICTIONARY | _ => e end in
  match e, dictionary (cr_vector c) with
  | PLAIN_DICTIONARY, None =>
      values ← vector_new page_value_count (cr_arrow_type c);
      d ← get_decoder c page_data e;
      '(_, values) ← @dec_read_batch _ (box_decoder T) d values page_value_count;
      let values := set_counts values page_value_count (num_nulls values) in
      v ← vector_new (cr_capacity c) Int32;
      Some (cr_set_vector c (set_dictionary v values))
  | _, _ => None
  end.

Definition check_dictionary (T : DataType) (c : TypedColumnReader) (e : Encoding) : option TypedColumnReader :=
  match dictionary (cr_vector c), e with
  | Some _, PLAIN =>
      v ← vector_new (cr_capacity c) (cr_arrow_type c);
      v ← decode_dict T (cr_vector c) v (cr_bit_width c);
      Some (cr_set_vector c v)
  | _, _ => Some c
  end.

(** [log2(max_level as u64 + 1) as u8] *)
Definition level_width (max_level : Z) : nat := Z.to_nat (u8 (log2 (u64 (u64 max_level + 1)))).

Definition set_page_v1 (T : DataType) (c : TypedColumnReader) (page_value_count : nat)
    (page_data : list Z) (e : Encoding) : option TypedColumnReader :=
  let e := match e with PLAIN_DICTIONARY => RLE_DICTIONARY | _ => e end in
  c ← check_dictionary T c e;
  '(offset, rl) ← set_data (level_new (cr_max_def c) (level_width (cr_max_rep c)) true)
                    page_value_count page_data;
  page ← slice_from page_data offset;
  '(offset, dl) ← set_data (level_new (cr_max_def c) (level_width (cr_max_def c)) true)
                    page_value_count page;
  page ← slice_from page offset;
  d ← get_decoder c page e;
  Some (cr_set_page c rl dl d page_value_count (cr_vector c)).

Definition set_page_v2 (T : DataType) (c : TypedColumnReader) (page_value_count : nat)
    (def_level_data rep_level_data value_data : list Z) (e : Encoding) : option TypedColumnReader :=
  c ← check_dictionary T c e;
  '(_, rl) ← set_data (level_new (cr_max_def c) (level_width (cr_max_rep c)) false)
               page_value_count rep_level_data;
  '(_, dl) ← set_data (level_new (cr_max_def c) (level_width (cr_max_def c)) false)
               page_value_count def_level_data;
  d ← get_decoder c value_data e;
  Some (cr_set_page c rl dl d page_value_count (cr_vector c)).
End Reader.
