(* ===== verification/ColumnProps.v ===== *)
(** Correctness of the column reader (column.rs): reading a page in any batches
    yields the column its levels and values describe. *)

From S2P Require Import Prelude BitUtil Unpack BitPacking BitReader BitReaderProps BitWriter Vector Hybrid Levels DecoderLaws.
From S2P Require Import LevelProps Values ValueProps ColumnReader.

(** * Decoders behind a box *)

Section Lift.
Context {D B V : Type} `{HD : !Decoder D} `{HB : !Decoder B} `{HL : !DecoderLaws D V} (inj : D -> B).

Hypothesis lift_read : forall d v, dec_read (inj d) v = '(d, v) ← dec_read d v; Some (inj d, v).
Hypothesis lift_batch : forall d v n,
  dec_read_batch (inj d) v n = '(d, v) ← dec_read_batch d v n; Some (inj d, v).
Hypothesis lift_skip : forall d n, dec_skip_batch (inj d) n = d ← dec_skip_batch d n; Some (inj d).

Definition lift_rep (b : B) (xs : list V) : Prop := exists d, b = inj d /\ dec_rep d xs.

Lemma lift_stores cap v xs ys o :
  stores dec_rep slot vec_ok cap v xs ys o ->
  stores lift_rep slot vec_ok cap v xs ys ('(d, v) ← o; Some (inj d, v)).
Proof.
  intros (d' & v' & -> & Hd & Hrest). exists (inj d'), v'. split; [done|]. split; [by exists d'|done].
Qed.

Lemma lift_law_batch b v xs ys cap :
  lift_rep b (xs ++ ys) -> vec_ok cap v -> (num_values v + length xs <= cap)%nat ->
  stores lift_rep slot vec_ok cap v xs ys (dec_read_batch b v (length xs)).
Proof. intros (d & -> & Hd) Hv Hfit. rewrite lift_batch. by apply lift_stores, law_read_batch. Qed.

Lemma lift_law_read b v x ys cap :
  lift_rep b (x :: ys) -> vec_ok cap v -> (num_values v < cap)%nat ->
  stores lift_rep slot vec_ok cap v [x] ys (dec_read b v).
Proof. intros (d & -> & Hd) Hv Hfit. rewrite lift_read. by apply lift_stores, law_read. Qed.

Lemma lift_law_skip b xs ys :
  lift_rep b (xs ++ ys) -> exists b', dec_skip_batch b (length xs) = Some b' /\ lift_rep b' ys.
Proof.
  intros (d & -> & Hd). rewrite lift_skip. destruct (law_skip_batch d xs ys Hd) as (d' & -> & Hd').
  exists (inj d'). split; [done|]. by exists d'.
Qed.

Definition lift_laws : DecoderLaws B V :=
  {| dec_rep := lift_rep; slot := slot; vec_ok := vec_ok; slot_validity := slot_validity;
     slot_counts := slot_counts; vec_ok_validity := vec_ok_validity; law_read_batch := lift_law_batch;
     law_read := lift_law_read; law_skip_batch := lift_law_skip; law_put_nulls := law_put_nulls |}.
End Lift.

(** * Reading and skipping *)

Section Reader.
Context (i2f f2f : Z -> Z) (T : DataType) {V : Type}.
#[local] Instance boxed : Decoder BoxDecoder := box_decoder i2f f2f T.
Context {L : DecoderLaws BoxDecoder V}.

(** The reader stands before the levels [ls] and the values [xs] of its page; the
    vector holds [col]. *)
Record page_ready (cap : nat) (c : TypedColumnReader) (ls : list Z) (xs : list V)
    (col : list (option V)) : Prop := {
  pr_def : exists ld pad, cr_def c = Some ld /\ level_rep ld (ls ++ pad) /\
             max_def_level ld = cr_max_def c;
  pr_values : exists d rest, cr_values c = Some d /\ dec_rep d (xs ++ rest);
  pr_present : length xs = present (cr_max_def c) ls;
  pr_left : num_values_in_page c = length ls;
  pr_filled : filled (D:=BoxDecoder) cap (cr_vector c);
  pr_column : column (D:=BoxDecoder) (cr_vector c) = col }.

Lemma pr_length cap c ls xs col : page_ready cap c ls xs col -> length col = num_values (cr_vector c).
Proof. intros H. by rewrite <-(pr_column _ _ _ _ _ H), length_column. Qed.

(** The part of the page one call covers. *)
Lemma page_split cap c ls xs col n :
  page_ready cap c ls xs col -> (n <= length ls)%nat ->
  exists ld pad d rest p, cr_def c = Some ld /\ cr_values c = Some d /\
    max_def_level ld = cr_max_def c /\ p = present (cr_max_def c) (take n ls) /\
    level_rep ld (take n ls ++ drop n ls ++ pad) /\
    dec_rep d (take p xs ++ drop p xs ++ rest) /\
    length (take n ls) = n /\ length (take p xs) = present (cr_max_def c) (take n ls) /\
    length (drop p xs) = present (cr_max_def c) (drop n ls).
Proof.
  intros [(ld & pad & Hld & Hrep & Hmax) (d & rest & Hd & Hdrep) Hpres _ _ _] Hn.
  destruct (split_values (cr_max_def c) n ls xs Hpres) as (Hp1 & Hp2 & _).
  exists ld, pad, d, rest, (present (cr_max_def c) (take n ls)). split_and!; try done.
  - by rewrite app_assoc, take_drop.
  - by rewrite app_assoc, take_drop.
  - rewrite length_take. lia.
Qed.

Lemma level_fuel_enough ld n : (n <= level_fuel ld n)%nat.
Proof. unfold level_fuel. lia. Qed.

Lemma reader_read_spec cap c ls xs col total np :
  page_ready cap c ls xs col ->
  let n := Nat.min (length ls) total in
  let p := present (cr_max_def c) (take n ls) in
  let new := replicate np None ++ assemble (cr_max_def c) (take n ls) (take p xs) in
  (length col + np + n <= cap)%nat ->
  exists c', reader_read_batch i2f f2f T c total np = Some (n, count_null new, c') /\
    page_ready cap c' (drop n ls) (drop p xs) (col ++ new) /\ cr_max_def c' = cr_max_def c.
Proof.
  intros Hpr n p new Hfit. pose proof (pr_length _ _ _ _ _ Hpr) as Hlen.
  destruct (page_split cap c ls xs col n Hpr) as
    (ld & pad & d & rest & p' & Hld & Hd & Hmax & -> & Hrep & Hdrep & Hln & Hpx & Hpy); [lia|].
  fold p in Hdrep, Hpx, Hpy. unfold reader_read_batch.
  rewrite (pr_left _ _ _ _ _ Hpr), Hd, Hld. fold n. cbn [mbind option_bind].
  destruct (append_nulls cap (cr_vector c) np (pr_filled _ _ _ _ _ Hpr)) as (v1 & -> & Hv1 & Hc1); [lia|].
  cbn [mbind option_bind]. rewrite (pr_column _ _ _ _ _ Hpr) in Hc1.
  pose proof (f_equal length Hc1) as Hlen1. rewrite length_app, length_column, length_replicate in Hlen1.
  destruct (read_loop_spec cap (level_fuel ld n) ld (take n ls) (drop n ls ++ pad) v1 d
    (take p xs) (drop p xs ++ rest) Hrep) as (ld2 & v2 & d2 & E & Hrep2 & [Hs1 Hs2] & Hv2 & Hc2 & Hd2).
  { rewrite Hln. apply level_fuel_enough. } { done. } { lia. } { done. } { by rewrite Hmax. }
  rewrite Hln in E. unfold read_batch. change (box_decoder i2f f2f T) with boxed. rewrite E. cbn [mbind option_bind].
  rewrite Hmax in Hc2. rewrite Hc1, <-app_assoc in Hc2. fold new in Hc2.
  rewrite (fl_nulls _ _ Hv2), (fl_nulls _ _ (pr_filled _ _ _ _ _ Hpr)), Hc2, (pr_column _ _ _ _ _ Hpr).
  rewrite count_null_app. unfold usub. simp_tests.
  replace (count_null col + count_null new - count_null col)%nat with (count_null new) by lia.
  eexists. split; [done|]. split; [|done]. split; cbn; try done.
  - exists ld2, pad. split_and!; try done. congruence.
  - by exists d2, rest.
  - rewrite length_drop. done.
Qed.

Lemma reader_skip_spec cap c ls xs col total nulls :
  page_ready cap c ls xs col ->
  let n := Nat.min (length ls) total in
  let p := present (cr_max_def c) (take n ls) in
  (length col + n <= cap)%nat ->
  exists c', reader_skip_batch i2f f2f T c total nulls = Some (n, c') /\
    page_ready cap c' (drop n ls) (drop p xs) (col ++ (if nulls then replicate n None else [])) /\
    cr_max_def c' = cr_max_def c.
Proof.
  intros Hpr n p Hfit. pose proof (pr_length _ _ _ _ _ Hpr) as Hlen.
  destruct (page_split cap c ls xs col n Hpr) as
    (ld & pad & d & rest & p' & Hld & Hd & Hmax & -> & Hrep & Hdrep & Hln & Hpx & Hpy); [lia|].
  fold p in Hdrep, Hpx, Hpy. unfold reader_skip_batch.
  rewrite (pr_left _ _ _ _ _ Hpr), Hd, Hld. fold n. cbn [mbind option_bind].
  destruct (skip_loop_spec cap (level_fuel ld n) ld (take n ls) (drop n ls ++ pad) (cr_vector c) d nulls
    (take p xs) (drop p xs ++ rest) Hrep) as (ld2 & v2 & d2 & E & Hrep2 & [Hs1 Hs2] & Hv2 & Hc2 & Hd2).
  { rewrite Hln. apply level_fuel_enough. } { apply Hpr. } { lia. } { done. } { by rewrite Hmax. }
  rewrite Hln in E, Hc2. unfold skip_batch. change (box_decoder i2f f2f T) with boxed. rewrite E. cbn [mbind option_bind].
  eexists. split; [done|]. split; [|done]. split; cbn; try done.
  - exists ld2, pad. split_and!; try done. congruence.
  - by exists d2, rest.
  - rewrite length_drop. done.
  - by rewrite Hc2, (pr_column _ _ _ _ _ Hpr).
Qed.
End Reader.

(** * Pages *)

Lemma level_width_spec m :
  0 <= m < 2 ^ 15 -> level_width m = Z.to_nat (Z.log2_up (m + 1)) /\ (level_width m <= 15)%nat.
Proof.
  intros Hm. unfold level_width. rewrite !(wrap_small 64) by (unfold in_u; rewrite ?wrap_small; unfold in_u; lia).
  assert (Hl : 0 <= Z.log2_up (m + 1) <= 15).
  { split; [apply Z.log2_up_nonneg|]. change 15 with (Z.log2_up (2 ^ 15)). apply Z.log2_up_le_mono. lia. }
  rewrite log2_spec by lia. rewrite wrap_small by (unfold in_u; lia). lia.
Qed.

Lemma fresh_reader data len :
  bytes_ok data -> (len <= length data)%nat ->
  exists r, new data len = Some r /\ at_bytes r (take len data).
Proof.
  intros Hb Hl. destruct (new_spec data len Hb Hl) as (r & E & Hr & Hp & _ & Ht & Hbuf).
  exists r. split; [done|]. apply at_bytes_intro; [done|by rewrite Hp|].
  unfold rest_bytes, get_byte_offset. unfold pos in Hp.
  replace (byte_offset r) with 0%nat by lia. replace (bit_offset r) with 0%nat by lia.
  by rewrite Ht, Hbuf.
Qed.

(** The level part of a page: nothing when no bits are needed, else the runs,
    after their length in a version 1 page. *)
Definition level_bytes (need : bool) (bw : nat) (rs : list run) : list Z :=
  let lvl := runs_bytes bw rs in
  if (bw =? 0)%nat then [] else
  if need then to_le_bytes 4 (Z.of_nat (length lvl)) ++ lvl else lvl.

(** [rs] encodes the levels [ls] of a page, up to padding. *)
Definition encodes_levels (bw : nat) (rs : list run) (ls : list Z) : Prop :=
  if (bw =? 0)%nat then ls = replicate (length ls) 0
  else Forall (run_ok bw) rs /\ (exists pad, expand rs = ls ++ pad) /\
       Z.of_nat (length (runs_bytes bw rs)) < 2 ^ 32.

Lemma fresh_level_rep ld bw rs ls r tail n :
  ld = ld_set_page (level_new (max_def_level ld) bw (need_length ld)) n RLE 0 (Some r) ->
  (bw <= 15)%nat -> Forall (run_ok bw) rs -> expand rs = ls -> at_bytes r (runs_bytes bw rs ++ tail) ->
  level_rep ld ls.
Proof.
  intros -> Hbw Hrs <- Hat. exists rs, tail. split; [|done].
  split; cbn; try done. right. by exists r.
Qed.

Lemma set_data_spec max bw need rs ls k :
  (bw <= 15)%nat -> encodes_levels bw rs ls -> bytes_ok (level_bytes need bw rs ++ k) ->
  (need = false -> bw <> 0%nat -> k = []) ->
  exists off ld, set_data (level_new max bw need) (length ls) (level_bytes need bw rs ++ k) = Some (off, ld) /\
    (need = true -> off = length (level_bytes need bw rs)) /\ max_def_level ld = max /\
    exists pad, level_rep ld (ls ++ pad).
Proof.
  intros Hbw Henc Hb Hk. unfold encodes_levels, level_bytes, set_data in *.
  cbn [ld_bit_width level_new need_length]. destruct (Nat.eqb_spec bw 0) as [->|Hbw0].
  - eexists 0%nat, _. split; [done|]. split; [done|]. split; [done|]. exists [].
    exists [], []. split; [|cbn; by rewrite !app_nil_r].
    split; cbn; try done; [apply Forall_replicate; split; lia|by rewrite length_replicate|by left].
  - destruct Henc as (Hrs & (pad & Hex) & Hlen). destruct need.
    + set (lvl := runs_bytes bw rs) in *. rewrite <-app_assoc in *.
      assert (H4 : length (to_le_bytes 4 (Z.of_nat (length lvl))) = 4%nat) by apply length_to_le_bytes.
      assert (Hread : read_u32 (to_le_bytes 4 (Z.of_nat (length lvl)) ++ lvl ++ k) = Some (Z.of_nat (length lvl))).
      { unfold read_u32. rewrite length_app. simp_tests. f_equal. rewrite take_app_length' by done.
        apply le_bytes_value. split; [lia|exact Hlen]. }
      rewrite Hread. cbn [mbind option_bind]. unfold slice_from. rewrite length_app. simp_tests.
      rewrite drop_app_length' by done. rewrite Nat2Z.id. apply bytes_ok_app in Hb as [_ Hb].
      destruct (fresh_reader (lvl ++ k) (length lvl) Hb) as (r & -> & Hat); [rewrite length_app; lia|].
      rewrite take_app_length in Hat. cbn [mbind option_bind].
      eexists _, _. split; [done|]. split; [intros _; by rewrite length_app, H4|]. split; [done|].
      exists pad. eapply (fresh_level_rep _ bw rs _ r []); try done. by rewrite app_nil_r.
    + specialize (Hk eq_refl Hbw0). subst k. rewrite app_nil_r in *.
      destruct (fresh_reader (runs_bytes bw rs) (length (runs_bytes bw rs)) Hb) as (r & E & Hat); [done|].
      unfold new_all. rewrite E. rewrite firstn_all in Hat. cbn [mbind option_bind].
      eexists _, _. split; [done|]. split; [done|]. split; [done|].
      exists pad. eapply (fresh_level_rep _ bw rs _ r []); try done. by rewrite app_nil_r.
Qed.

Section Pages.
Context (i2f f2f h2f : Z -> Z) (T : DataType) {V : Type}.
#[local] Instance boxed' : Decoder BoxDecoder := box_decoder i2f f2f T.
Context {L : DecoderLaws BoxDecoder V}.

Lemma set_data_zero max need n page :
  set_data (level_new max 0 need) n page = Some (0%nat, ld_set_page (level_new max 0 need) n RLE n None).
Proof. reflexivity. Qed.

Lemma slice_from_0 l : slice_from l 0 = Some l.
Proof. reflexivity. Qed.

Lemma level_width_0 : level_width 0 = 0%nat.
Proof. reflexivity. Qed.

Lemma check_dictionary_none c e :
  dictionary (cr_vector c) = None \/ e <> PLAIN ->
  check_dictionary i2f f2f h2f T c e = Some c.
Proof. unfold check_dictionary. intros [->|He]; [done|]. by destruct (dictionary _), e. Qed.

(** The encoding after the v1 names are folded into the v2 ones. *)
Definition page_encoding (e : Encoding) : Encoding :=
  match e with PLAIN_DICTIONARY => RLE_DICTIONARY | _ => e end.

(** A flat column: no repetition levels. *)
Definition filled_reader (cap : nat) (c : TypedColumnReader) (e : Encoding) : Prop :=
  cr_max_rep c = 0 /\ 0 <= cr_max_def c < 2 ^ 15 /\
  (dictionary (cr_vector c) = None \/ e <> PLAIN) /\ filled (D:=BoxDecoder) cap (cr_vector c).

Lemma set_page_v1_spec cap c e rs ls values d xs rest col :
  filled_reader cap c (page_encoding e) ->
  encodes_levels (level_width (cr_max_def c)) rs ls ->
  bytes_ok (level_bytes true (level_width (cr_max_def c)) rs ++ values) ->
  get_decoder c values (page_encoding e) = Some d -> dec_rep d (xs ++ rest) ->
  length xs = present (cr_max_def c) ls -> column (D:=BoxDecoder) (cr_vector c) = col ->
  exists c', set_page_v1 i2f f2f h2f T c (length ls)
      (level_bytes true (level_width (cr_max_def c)) rs ++ values) e = Some c' /\
    page_ready i2f f2f T cap c' ls xs col /\ cr_max_def c' = cr_max_def c.
Proof.
  intros (Hrep & Hmax & Hdict & Hfl) Henc Hb Hdec Hd Hx Hcol. unfold set_page_v1. fold (page_encoding e).
  rewrite check_dictionary_none by done. cbn [mbind option_bind]. rewrite Hrep, level_width_0, set_data_zero.
  cbn [mbind option_bind]. rewrite slice_from_0. cbn [mbind option_bind].
  destruct (level_width_spec (cr_max_def c) Hmax) as [_ Hw].
  destruct (set_data_spec (cr_max_def c) _ true rs ls values Hw Henc Hb)
    as (off & ld & -> & Hoff & Hm & pad & Hrep'); [done|].
  cbn [mbind option_bind]. rewrite Hoff by done. unfold slice_from.
  rewrite length_app. simp_tests. rewrite drop_app_length, Hdec. cbn [mbind option_bind].
  eexists. split; [done|]. split; [|done]. split; cbn; try done.
  - by exists ld, pad.
  - by exists d, rest.
Qed.

Lemma set_page_v2_spec cap c e rs ls rep_data values d xs rest col :
  filled_reader cap c e -> encodes_levels (level_width (cr_max_def c)) rs ls ->
  bytes_ok (level_bytes false (level_width (cr_max_def c)) rs) ->
  get_decoder c values e = Some d -> dec_rep d (xs ++ rest) ->
  length xs = present (cr_max_def c) ls -> column (D:=BoxDecoder) (cr_vector c) = col ->
  exists c', set_page_v2 i2f f2f h2f T c (length ls)
      (level_bytes false (level_width (cr_max_def c)) rs) rep_data values e = Some c' /\
    page_ready i2f f2f T cap c' ls xs col /\ cr_max_def c' = cr_max_def c.
Proof.
  intros (Hrep & Hmax & Hdict & Hfl) Henc Hb Hdec Hd Hx Hcol. unfold set_page_v2.
  rewrite check_dictionary_none by done. cbn [mbind option_bind]. rewrite Hrep, level_width_0, set_data_zero.
  cbn [mbind option_bind].
  destruct (level_width_spec (cr_max_def c) Hmax) as [_ Hw].
  rewrite <-(app_nil_r (level_bytes _ _ _)) in Hb |- *.
  destruct (set_data_spec (cr_max_def c) _ false rs ls [] Hw Henc Hb)
    as (off & ld & -> & _ & Hm & pad & Hrep'); [done|].
  cbn [mbind option_bind]. rewrite Hdec. cbn [mbind option_bind].
  eexists. split; [done|]. split; [|done]. split; cbn; try done.
  - by exists ld, pad.
  - by exists d, rest.
Qed.

(** ** Any sequence of reads and skips *)

Inductive page_op :=
  | Read (total null_pad_size : nat)
  | Skip (total : nat) (nulls : bool).

Definition run_op (c : TypedColumnReader) (op : page_op) : option TypedColumnReader :=
  match op with
  | Read total np => '(_, _, c) ← reader_read_batch i2f f2f T c total np; Some c
  | Skip total nulls => '(_, c) ← reader_skip_batch i2f f2f T c total nulls; Some c
  end.

Fixpoint run_ops (c : TypedColumnReader) (ops : list page_op) : option TypedColumnReader :=
  match ops with [] => Some c | op :: ops => c ← run_op c op; run_ops c ops end.

(** What the operations deliver of a page whose column is [page]. *)
Fixpoint delivered (ops : list page_op) (page : list (option V)) : list (option V) :=
  match ops with
  | [] => []
  | Read total np :: ops => replicate np None ++ take total page ++ delivered ops (drop total page)
  | Skip total nulls :: ops =>
      (if nulls then replicate (length (take total page)) None else []) ++ delivered ops (drop total page)
  end.

(** Room the operations may use, skipped values included. *)
Fixpoint ops_room (ops : list page_op) (left : nat) : nat :=
  match ops with
  | [] => 0
  | Read total np :: ops => np + Nat.min left total + ops_room ops (left - total)
  | Skip total _ :: ops => Nat.min left total + ops_room ops (left - total)
  end.

Lemma assemble_split max n ls (xs : list V) :
  length xs = present max ls ->
  let p := present max (take n ls) in
  take n (assemble max ls xs) = assemble max (take n ls) (take p xs) /\
  drop n (assemble max ls xs) = assemble max (drop n ls) (drop p xs).
Proof.
  intros Hx p. destruct (split_values max n ls xs Hx) as (Hp1 & Hp2 & ->). fold p in Hp1, Hp2 |- *.
  pose proof (length_assemble max (take n ls) (take p xs) Hp1) as Hlen.
  destruct (Nat.le_gt_cases n (length ls)) as [Hn|Hn].
  - assert (E : n = length (assemble max (take n ls) (take p xs))) by (rewrite Hlen, length_take; lia).
    split; [by rewrite take_app_length'|by rewrite drop_app_length'].
  - rewrite (drop_ge ls) in * by lia. cbn [assemble]. rewrite app_nil_r.
    rewrite length_take in Hlen. split; [by rewrite take_ge by lia|by rewrite drop_ge by lia].
Qed.

Lemma take_min {A} (l : list A) k : take (Nat.min (length l) k) l = take k l.
Proof. destruct (Nat.min_spec (length l) k) as [[? ->]|[? ->]]; [by rewrite !take_ge by lia|done]. Qed.

Lemma drop_min {A} (l : list A) k : drop (Nat.min (length l) k) l = drop k l.
Proof. destruct (Nat.min_spec (length l) k) as [[? ->]|[? ->]]; [by rewrite !drop_ge by lia|done]. Qed.

Lemma run_ops_spec cap c ls xs col ops :
  page_ready i2f f2f T cap c ls xs col -> (length col + ops_room ops (length ls) <= cap)%nat ->
  exists c' ls' xs', run_ops c ops = Some c' /\
    page_ready i2f f2f T cap c' ls' xs' (col ++ delivered ops (assemble (cr_max_def c) ls xs)).
Proof.
  revert c ls xs col. induction ops as [|op ops IH]; intros c ls xs col Hpr Hroom.
  { exists c, ls, xs. cbn. by rewrite app_nil_r. }
  pose proof (pr_present _ _ _ _ _ _ _ _ Hpr) as Hx.
  destruct op as [total np|total nulls]; cbn [run_ops run_op delivered ops_room] in *.
  - destruct (reader_read_spec i2f f2f T cap c ls xs col total np Hpr) as (c1 & -> & Hpr1 & Hm1); [lia|].
    rewrite take_min, drop_min in Hpr1. cbn [mbind option_bind].
    destruct (assemble_split (cr_max_def c) total ls xs Hx) as [-> ->].
    destruct (IH c1 _ _ _ Hpr1) as (c2 & ls2 & xs2 & E & Hpr2).
    + destruct (split_values (cr_max_def c) total ls xs Hx) as (Hp1 & _ & _).
      rewrite !length_app, length_replicate, length_assemble, length_drop, length_take by done. lia.
    + exists c2, ls2, xs2. split; [done|]. by rewrite Hm1, <-!app_assoc in Hpr2.
  - destruct (reader_skip_spec i2f f2f T cap c ls xs col total nulls Hpr) as (c1 & -> & Hpr1 & Hm1); [lia|].
    rewrite take_min, drop_min in Hpr1. cbn [mbind option_bind].
    destruct (assemble_split (cr_max_def c) total ls xs Hx) as [_ ->].
    assert (Hlen : length (take total (assemble (cr_max_def c) ls xs)) = Nat.min (length ls) total)
      by (rewrite length_take, length_assemble by done; lia).
    rewrite Hlen. destruct (IH c1 _ _ _ Hpr1) as (c2 & ls2 & xs2 & E & Hpr2).
    + rewrite length_app, length_drop. destruct nulls; rewrite ?length_replicate; cbn [length]; lia.
    + exists c2, ls2, xs2. split; [done|]. by rewrite Hm1, <-!app_assoc in Hpr2.
Qed.
End Pages.
