(* ===== verification/ColumnCorrect.v ===== *)
(** The Parquet column reader end to end: fresh readers, PLAIN pages and dictionary
    pages, and what goes wrong on truncated levels and in the dictionary fallback. *)

From S2P Require Import Prelude BitUtil Unpack BitPacking BitReader BitReaderProps BitWriter Vector Hybrid Levels DecoderLaws.
From S2P Require Import LevelProps Values ValueProps ColumnReader ColumnProps.

(** * The columns a vector of fixed-width elements stands for *)

Definition fixed_column (w : nat) (v : Vector) : list (option (list Z)) :=
  map (fun i => if bitn (validity_buffer v) i then slot_bytes w (value_buffer v) i else None)
      (seq 0 (num_values v)).

(** A dictionary-encoded column: the elements of the dictionary its indices name. *)
Definition dict_column (w : nat) (v : Vector) : list (option (list Z)) :=
  map (fun i => if bitn (validity_buffer v) i
                then idx ← slot_bytes 4 (value_buffer v) i;
                     dict ← dictionary v;
                     slot_bytes w (value_buffer dict) (Z.to_nat (le_bytes idx))
                else None)
      (seq 0 (num_values v)).

(** * Fresh vectors *)

Lemma length_buffer_new n : Z.of_nat n + 64 <= 2 ^ 64 -> (n <= length (buffer_new n))%nat.
Proof.
  intros Hn. unfold buffer_new. rewrite length_replicate. change ALIGNMENT with (2 ^ 6).
  rewrite round_upto_power_of_2_spec by lia. lia.
Qed.

Lemma bytes_ok_buffer_new n : bytes_ok (buffer_new n).
Proof. by apply bytes_ok_replicate. Qed.

Lemma bitn_zeros n j : bitn (replicate n 0) j = false.
Proof.
  unfold bitn. destruct (replicate n 0 !! (j / 8)%nat) as [b|] eqn:E; [|done].
  apply lookup_replicate in E as [-> _]. apply Z.testbit_0_l.
Qed.

Lemma vector_new_fixed cap t w :
  is_binary_type t = false -> bit_width t = (8 * w)%nat -> Z.of_nat (cap * (8 * w) + cap) < 2 ^ 60 ->
  exists v, vector_new cap t = Some v /\ num_values v = 0%nat /\ num_nulls v = 0%nat /\ arrow_type v = t /\
    dictionary v = None /\ bytes_ok (value_buffer v) /\ (cap * w <= length (value_buffer v))%nat /\
    validity_buffer v = buffer_new (div_ceil cap 8).
Proof.
  intros Hbin Hw Hcap. unfold vector_new, new_with_bit_width. rewrite Hbin. cbn [mbind option_bind].
  eexists. split; [done|].
  cbn [num_values num_nulls arrow_type dictionary value_buffer validity_buffer]. rewrite Hw. split_and!; try done; [apply bytes_ok_buffer_new|].
  replace (cap * (8 * w))%nat with (8 * (cap * w))%nat by lia. rewrite div_ceil_mul.
  apply length_buffer_new. lia.
Qed.

(** * The laws of boxed decoders *)

Section Boxes.
Context (i2f f2f : Z -> Z) (T : DataType).

Definition plain_box_laws desc legacy ly (Hly : layout i2f f2f T desc legacy = Some ly)
    : @DecoderLaws BoxDecoder (list Z) (box_decoder i2f f2f T) :=
  @lift_laws (PlainDecoder T) BoxDecoder (list Z) (plain_decoder i2f f2f T) (box_decoder i2f f2f T)
    (plain_laws i2f f2f T desc legacy ly Hly) BoxPlain
    (fun _ _ => eq_refl) (fun _ _ _ => eq_refl) (fun _ _ => eq_refl).

Definition dict_box_laws (dict : option Vector) : @DecoderLaws BoxDecoder Z (box_decoder i2f f2f T) :=
  @lift_laws DictDecoder BoxDecoder Z dict_decoder (box_decoder i2f f2f T) (dict_laws dict) BoxDict
    (fun _ _ => eq_refl) (fun _ _ _ => eq_refl) (fun _ _ => eq_refl).
End Boxes.

(** Vectors for which the fixed-width laws hold start out empty. *)
Lemma fresh_filled {D V} {HD : Decoder D} {L : DecoderLaws D V} cap v :
  vec_ok cap v -> num_values v = 0%nat -> num_nulls v = 0%nat ->
  validity_buffer v = buffer_new (div_ceil cap 8) -> Z.of_nat cap < 2 ^ 60 ->
  filled (D:=D) cap v /\ column (D:=D) v = [].
Proof.
  intros Hok Hv Hn Hval Hcap. assert (Hcol : column (D:=D) v = []) by (unfold column; by rewrite Hv).
  split; [|done]. split; [done|rewrite Hval; apply bytes_ok_buffer_new| | |by rewrite Hcol].
  - rewrite Hval. pose proof (length_buffer_new (div_ceil cap 8)) as H. unfold div_ceil in *. lia.
  - intros j _. rewrite Hval. apply bitn_zeros.
Qed.


Lemma column_plain i2f f2f T desc legacy ly Hly v :
  @column BoxDecoder (list Z) (box_decoder i2f f2f T) (plain_box_laws i2f f2f T desc legacy ly Hly) v =
  fixed_column (ly_dst ly) v.
Proof.
  unfold column, fixed_column. apply map_ext. intros i. unfold element. destruct (bitn _ _); [|done].
  cbn. unfold fixed_slot. by destruct (slot_bytes _ _ _).
Qed.

(** * PLAIN pages *)

Section PlainPage.
Context (i2f f2f h2f : Z -> Z) (T : DataType) (desc : ColumnDesc) (legacy : bool) (ly : Layout).
Hypothesis Hly : layout i2f f2f T desc legacy = Some ly.

(** The values of a page, ready for a boxed PLAIN decoder. *)
Lemma plain_page_decoder c es tail :
  cr_desc c = desc -> cr_legacy c = legacy ->
  Forall (fun e => length e = ly_src ly /\ ly_ok ly e = true) es -> bytes_ok (concat es ++ tail) ->
  exists d, get_decoder c (concat es ++ tail) PLAIN = Some d /\
    @dec_rep _ _ _ (plain_box_laws i2f f2f T desc legacy ly Hly) d (map (ly_conv ly) es ++ []).
Proof.
  intros Hd Hl Hes Hb. unfold get_decoder, plain_new.
  destruct (new_spec (concat es ++ tail) (length (concat es ++ tail)) Hb) as (r & -> & _); [done|].
  cbn [mbind option_bind]. eexists. split; [done|]. eexists. split; [done|].
  rewrite app_nil_r. split_and!; [done..|]. exists es, tail. cbn [pd_data pd_offset].
  split_and!; [split; [|lia|done]| |done]; (eapply Forall_impl, Hes; intros e [??]; done).
Qed.
End PlainPage.

(** C1: Reading a PLAIN data page (version 1) of a flat column.  For every type of
    fixed width that is no decimal, whatever way the definition levels are split into RLE and
    bit-packed runs, and whatever sequence of [read_batch] and [skip_batch] calls
    follows on a fresh reader, the vector ends up holding exactly the delivered part
    of the column that the levels and the converted values describe, with the right
    null count; no call panics, loops or leaves its buffers. *)
Theorem plain_page_correct i2f f2f h2f T desc legacy ly t cap max rs ls es tail ops c :
  layout i2f f2f T desc legacy = Some ly ->
  is_binary_type t = false -> bit_width t = (8 * ly_dst ly)%nat ->
  Z.of_nat (cap * (8 * ly_dst ly) + cap) < 2 ^ 60 -> 0 <= max < 2 ^ 15 ->
  reader_new desc max 0 cap t legacy = Some c ->
  encodes_levels (level_width max) rs ls ->
  Forall (fun e => length e = ly_src ly /\ ly_ok ly e = true) es -> length es = present max ls ->
  let page := level_bytes true (level_width max) rs ++ concat es ++ tail in
  bytes_ok page -> (ops_room ops (length ls) <= cap)%nat ->
  exists c', (c ← set_page_v1 i2f f2f h2f T c (length ls) page PLAIN; run_ops i2f f2f T c ops) = Some c' /\
    fixed_column (ly_dst ly) (cr_vector c') =
      delivered ops (assemble max ls (map (ly_conv ly) es)) /\
    num_nulls (cr_vector c') = count_null (fixed_column (ly_dst ly) (cr_vector c')).
Proof.
  intros Hly Hbin Hw Hcap Hmax Hnew Henc Hes Hlen page Hpage Hroom.
  unfold reader_new in Hnew. destruct (vector_new_fixed cap t (ly_dst ly) Hbin Hw Hcap)
    as (v & Ev & Hv0 & Hn0 & Ht & Hdict & Hvb & Hvlen & Hval). rewrite Ev in Hnew. injection Hnew as <-.
  set (c := Build_TypedColumnReader _ _ _ _ _ _ _ _ _ _ _ _ _).
  pose (L := plain_box_laws i2f f2f T desc legacy ly Hly).
  destruct (plain_page_decoder i2f f2f T desc legacy ly Hly c es tail eq_refl eq_refl Hes)
    as (d & Ed & Hrep); [by apply bytes_ok_app in Hpage as [_ ?]|].
  destruct (@fresh_filled BoxDecoder (list Z) (box_decoder i2f f2f T) L cap v) as [Hfl Hcol];
    [split_and!; [by rewrite Ht|done..]|done|done|done|lia|].
  destruct (@set_page_v1_spec i2f f2f h2f T (list Z) L cap c PLAIN rs ls (concat es ++ tail) d
    (map (ly_conv ly) es) [] []) as (c1 & E1 & Hpr & Hm); try done;
    [exact (conj eq_refl (conj Hmax (conj (or_introl Hdict) Hfl)))|by rewrite length_map|].
  change (level_bytes _ _ _ ++ _ ++ _) with page in E1. rewrite E1. cbn [mbind option_bind].
  destruct (@run_ops_spec i2f f2f h2f T (list Z) L cap c1 ls _ [] ops Hpr Hroom) as (c2 & ls' & xs' & E2 & Hpr2).
  exists c2. split; [done|]. rewrite <-(column_plain i2f f2f T desc legacy ly Hly). fold L.
  pose proof (pr_column _ _ _ _ _ _ _ _ Hpr2) as Hc. pose proof (pr_filled _ _ _ _ _ _ _ _ Hpr2) as Hf.
  split; [|exact (fl_nulls _ _ Hf)]. etrans; [exact Hc|]. by rewrite Hm.
Qed.

(** The reader of a nullable INT32 column read as 64-bit integers. *)
Definition sample_desc : ColumnDesc := {| type_length := 4; type_precision := 0; type_scale := 0 |}.
Definition sample_runs : list run := [Rle 3 1; Packed [1; 0; 1; 1; 0; 0; 1; 0]].
Definition sample_levels : list Z := [1; 1; 1; 1; 0; 1; 1; 0; 0; 1].
Definition sample_values : list (list Z) := map (to_le_bytes 4) [10; -20; 30; -40; 50; 60; -70].

Lemma sample_levels_ok : encodes_levels (level_width 1) sample_runs sample_levels.
Proof.
  replace (level_width 1) with 1%nat by reflexivity. unfold encodes_levels. cbn [Nat.eqb]. split_and!.
  - repeat constructor; cbn; lia.
  - by exists [0].
  - vm_compute. reflexivity.
Defined.

Lemma plain_page_correct_witness :
  exists c c', reader_new sample_desc 1 0 16 Int64 false = Some c /\
    (c ← set_page_v1 id id id Int32To64Type c 10
           (level_bytes true (level_width 1) sample_runs ++ concat sample_values ++ [0; 1]) PLAIN;
     run_ops id id Int32To64Type c [Read 2 1; Skip 3 true; Read 10 0]) = Some c' /\
    fixed_column 8 (cr_vector c') =
      [None; Some (to_le_bytes 8 10); Some (to_le_bytes 8 (-20)); None; None; None;
       Some (to_le_bytes 8 50); Some (to_le_bytes 8 60); None; None; Some (to_le_bytes 8 (-70))] /\
    num_nulls (cr_vector c') = 6%nat.
Proof.
  destruct (reader_new sample_desc 1 0 16 Int64 false) as [c|] eqn:E; [|discriminate E].
  destruct (plain_page_correct id id id Int32To64Type sample_desc false
    {| ly_src := 4; ly_dst := 8; ly_conv := converted 4 8 8 i32; ly_ok := fun _ => true |}
    Int64 16 1 sample_runs sample_levels sample_values [0; 1] [Read 2 1; Skip 3 true; Read 10 0] c)
    as (c' & E' & Hcol & Hnulls).
  - reflexivity.
  - reflexivity.
  - reflexivity.
  - vm_compute. reflexivity.
  - lia.
  - exact E.
  - exact sample_levels_ok.
  - repeat constructor.
  - reflexivity.
  - apply bytes_okb_ok. vm_compute. reflexivity.
  - vm_compute. lia.
  - exists c, c'. split; [reflexivity|]. split; [exact E'|].
    cbn [ly_dst] in Hcol, Hnulls. rewrite Hnulls, Hcol. split; vm_compute; reflexivity.
Defined.

(** * Dictionary pages *)

Section Mapping.
Context {A B : Type} (f : A -> B).

Lemma assemble_map max ls xs : assemble max ls (map f xs) = map (fmap f) (assemble max ls xs).
Proof.
  revert xs. induction ls as [|l ls IH]; intros xs; [done|]. cbn. destruct (l =? max).
  - destruct xs as [|x xs]; [done|]. cbn. by rewrite IH.
  - cbn. by rewrite IH.
Qed.

Lemma delivered_map ops page : delivered ops (map (fmap f) page) = map (fmap (M:=option) f) (delivered ops page).
Proof.
  revert page. induction ops as [|[total np|total nulls] ops IH]; intros page; [done|..]; cbn [delivered].
  - rewrite firstn_map, skipn_map, IH, !map_app. f_equal. by induction np as [|np IHn]; cbn; [|rewrite IHn].
  - rewrite firstn_map, skipn_map, IH, length_map, map_app. f_equal. destruct nulls; [|done].
    by induction (length _) as [|n IHn]; cbn; [|rewrite <-IHn].
Qed.
End Mapping.

(** Every value of a column satisfies [P]. *)
Definition all_values {A} (P : A -> Prop) (col : list (option A)) : Prop :=
  Forall (fun o => match o with Some x => P x | None => True end) col.

Lemma all_values_None {A} (P : A -> Prop) n : all_values P (replicate n None).
Proof. by apply Forall_replicate. Qed.

Lemma all_values_delivered {A} (P : A -> Prop) ops page :
  all_values P page -> all_values P (delivered ops page).
Proof.
  revert page. induction ops as [|[total np|total nulls] ops IH]; intros page Hp; [constructor|..];
    cbn [delivered].
  - apply Forall_app. split; [apply all_values_None|]. apply Forall_app.
    split; [by apply Forall_take|]. by apply IH, Forall_drop.
  - apply Forall_app. split; [destruct nulls; [apply all_values_None|constructor]|]. by apply IH, Forall_drop.
Qed.

Lemma all_values_assemble {A} (P : A -> Prop) max ls xs : Forall P xs -> all_values P (assemble max ls xs).
Proof.
  intros H. revert ls. induction H as [|x xs Hx _ IH]; intros ls; induction ls as [|l ls IHl]; cbn;
    try (by constructor); destruct (l =? max); constructor; try done.
  apply IH.
Qed.

Lemma dict_column_map i2f f2f T w dict f P v :
  dictionary v = Some dict ->
  (forall i, P i -> slot_bytes w (value_buffer dict) (Z.to_nat i) = Some (f i)) ->
  let col := @column BoxDecoder Z (box_decoder i2f f2f T) (dict_box_laws i2f f2f T (Some dict)) v in
  all_values P col -> dict_column w v = map (fmap f) col.
Proof.
  intros Hd Hslot col Hall. unfold col, column, dict_column in *. rewrite map_map.
  apply map_ext_in. intros i Hi. unfold all_values in Hall. rewrite Forall_map, Forall_forall in Hall.
  specialize (Hall i Hi). unfold element in *.
  destruct (bitn (validity_buffer v) i); [|done]. cbn in *. unfold fixed_slot in *.
  destruct (slot_bytes 4 (value_buffer v) i) as [e|]; [|done]. cbn in *. rewrite Hd. cbn. by apply Hslot.
Qed.

(** The dictionary page, decoded into a vector. *)
Lemma set_dictionary_page_spec i2f f2f T desc legacy ly t cap es tail c :
  layout i2f f2f T desc legacy = Some ly ->
  is_binary_type t = false -> bit_width t = (8 * ly_dst ly)%nat ->
  Z.of_nat (length es * (8 * ly_dst ly) + length es) < 2 ^ 60 -> Z.of_nat (cap * 33) < 2 ^ 60 ->
  cr_desc c = desc -> cr_legacy c = legacy -> cr_arrow_type c = t -> cr_capacity c = cap ->
  dictionary (cr_vector c) = None ->
  Forall (fun e => length e = ly_src ly /\ ly_ok ly e = true) es -> bytes_ok (concat es ++ tail) ->
  exists dict v, set_dictionary_page i2f f2f T c (length es) (concat es ++ tail) PLAIN =
      Some (cr_set_vector c (set_dictionary v dict)) /\
    vector_new cap Int32 = Some v /\
    (forall i, (i < length es)%nat -> slot_bytes (ly_dst ly) (value_buffer dict) i = (ly_conv ly <$> es) !! i).
Proof.
  intros Hly Hbin Hw Hn Hcap Hd Hl Ht Hc Hnone Hes Hb.
  destruct (plain_page_decoder i2f f2f T desc legacy ly Hly c es tail Hd Hl Hes Hb) as (d & Ed & Hrep).
  destruct (vector_new_fixed (length es) t (ly_dst ly) Hbin Hw Hn)
    as (v & Ev & Hv0 & Hn0 & Ht' & Hdict & Hvb & Hvlen & Hval).
  destruct (vector_new_fixed cap Int32 4 eq_refl eq_refl) as (vi & Evi & _); [lia|].
  pose (L := plain_box_laws i2f f2f T desc legacy ly Hly).
  destruct (@law_read_batch _ _ _ L d v (map (ly_conv ly) es) [] (length es) Hrep) as
    (d' & dict & E & _ & _ & _ & _ & _ & _ & Hslot);
    [split_and!; [by rewrite Ht'|done..]|rewrite length_map; lia|].
  rewrite length_map in E, Hslot. unfold set_dictionary_page. rewrite Hnone, Ht, Hc, Ev.
  cbn [mbind option_bind]. change (get_decoder c (concat es ++ tail) PLAIN_DICTIONARY) with
    (get_decoder c (concat es ++ tail) PLAIN). rewrite Ed. cbn [mbind option_bind]. rewrite E.
  cbn [mbind option_bind]. rewrite Evi. eexists _, vi. split; [done|]. split; [done|].
  intros i Hi. specialize (Hslot i Hi). rewrite Hv0 in Hslot. cbn in Hslot |- *. unfold fixed_slot in Hslot.
  by destruct (slot_bytes _ _ _).
Qed.

(** The index page, ready for a boxed dictionary decoder. *)
Lemma index_page_decoder i2f f2f T dict c bw irs idx ipad :
  (bw <= 32)%nat -> Forall (run_ok bw) irs -> expand irs = idx ++ ipad ->
  bytes_ok (runs_bytes bw irs) ->
  exists d, get_decoder c (Z.of_nat bw :: runs_bytes bw irs) RLE_DICTIONARY = Some d /\
    @dec_rep _ _ _ (dict_box_laws i2f f2f T dict) d (idx ++ ipad).
Proof.
  intros Hbw Hrs Hex Hb. unfold get_decoder, dict_new. cbn [lookup list_lookup mbind option_bind].
  unfold slice_from. cbn [length Nat.leb drop mbind option_bind].
  destruct (fresh_reader (runs_bytes bw irs) (length (runs_bytes bw irs)) Hb) as (r & E & Hat); [done|].
  unfold new_all. change (skipn 0 ?l) with l. rewrite E. cbn [mbind option_bind]. rewrite Nat2Z.id.
  eexists. split; [done|]. eexists. split; [done|]. exists irs, [], []. cbn. split; [|by rewrite Hex].
  rewrite firstn_all in Hat.
  split; cbn; try done; [|by left]. apply at_bytes_packed. by rewrite app_nil_r.
Qed.

(** C2: Reading dictionary-encoded data of a flat column of a fixed-width type that is no decimal.  After a dictionary page and a version 2
    data page whose indices are any RLE/bit-packed encoding (of up to 32 bits) of
    positions in the dictionary, any sequence of reads and skips leaves a vector
    whose indices name, element by element, the dictionary values the page
    describes. *)
Theorem dict_page_correct i2f f2f h2f T desc legacy ly t cap max rs ls es tail bw irs idx ipad rep ops c :
  layout i2f f2f T desc legacy = Some ly ->
  is_binary_type t = false -> bit_width t = (8 * ly_dst ly)%nat ->
  Z.of_nat (length es * (8 * ly_dst ly) + length es) < 2 ^ 60 -> Z.of_nat (cap * 33) < 2 ^ 60 ->
  0 <= max < 2 ^ 15 -> reader_new desc max 0 cap t legacy = Some c ->
  Forall (fun e => length e = ly_src ly /\ ly_ok ly e = true) es -> bytes_ok (concat es ++ tail) ->
  encodes_levels (level_width max) rs ls -> bytes_ok (level_bytes false (level_width max) rs) ->
  (bw <= 32)%nat -> Forall (run_ok bw) irs -> expand irs = idx ++ ipad -> bytes_ok (runs_bytes bw irs) ->
  length idx = present max ls -> Forall (fun i => 0 <= i < Z.of_nat (length es)) idx ->
  (ops_room ops (length ls) <= cap)%nat ->
  exists c', (c ← set_dictionary_page i2f f2f T c (length es) (concat es ++ tail) PLAIN;
              c ← set_page_v2 i2f f2f h2f T c (length ls) (level_bytes false (level_width max) rs) rep
                    (Z.of_nat bw :: runs_bytes bw irs) RLE_DICTIONARY;
              run_ops i2f f2f T c ops) = Some c' /\
    dict_column (ly_dst ly) (cr_vector c') =
      delivered ops (assemble max ls (map (fun i => ly_conv ly (nth (Z.to_nat i) es [])) idx)).
Proof.
  intros Hly Hbin Hw Hn Hcap Hmax Hnew Hes Hbes Henc Hbl Hbw Hirs Hex Hbi Hlen Hidx Hroom.
  unfold reader_new in Hnew. destruct (vector_new cap t) as [v0|] eqn:Ev0; [|done].
  injection Hnew as <-. set (c := Build_TypedColumnReader _ _ _ _ _ _ _ _ _ _ _ _ _).
  assert (Hnone : dictionary v0 = None).
  { unfold vector_new, new_with_bit_width in Ev0. rewrite Hbin in Ev0. by injection Ev0 as <-. }
  destruct (set_dictionary_page_spec i2f f2f T desc legacy ly t cap es tail c) as (dict & v & -> & Ev & Hslot);
    try done. cbn [mbind option_bind].
  destruct (vector_new_fixed cap Int32 4 eq_refl eq_refl) as (v' & Ev' & Hv0 & Hn0 & Ht & _ & Hvb & Hvl & Hval);
    [lia|]. rewrite Ev in Ev'. injection Ev' as <-.
  set (c1 := cr_set_vector c (set_dictionary v dict)).
  destruct (index_page_decoder i2f f2f T (Some dict) c1 bw irs idx ipad Hbw Hirs Hex Hbi) as (d & Ed & Hrep).
  pose (L := dict_box_laws i2f f2f T (Some dict)).
  destruct (@fresh_filled BoxDecoder Z (box_decoder i2f f2f T) L cap (set_dictionary v dict)) as [Hfl Hcol];
    [split_and!; [by cbn; rewrite Ht|done..]|done|done|done|lia|].
  destruct (@set_page_v2_spec i2f f2f h2f T Z L cap c1 RLE_DICTIONARY rs ls rep
    (Z.of_nat bw :: runs_bytes bw irs) d idx ipad []) as (c2 & E2 & Hpr & Hm); try done.
  { exact (conj eq_refl (conj Hmax (conj (or_intror (fun E : RLE_DICTIONARY = PLAIN => ltac:(discriminate E)))
      Hfl))). }
  change (cr_max_def c1) with max in E2. rewrite E2. cbn [mbind option_bind].
  destruct (@run_ops_spec i2f f2f h2f T Z L cap c2 ls idx [] ops Hpr Hroom) as (c3 & ls' & xs' & E3 & Hpr3).
  exists c3. split; [done|]. pose proof (pr_column _ _ _ _ _ _ _ _ Hpr3) as Hc.
  rewrite Hm in Hc. change (cr_max_def c1) with max in Hc. cbn [app] in Hc.
  rewrite (dict_column_map i2f f2f T (ly_dst ly) dict (fun i => ly_conv ly (nth (Z.to_nat i) es []))
    (fun i => 0 <= i < Z.of_nat (length es))).
  - rewrite assemble_map, delivered_map. f_equal. exact Hc.
  - apply (fl_ok _ _ (pr_filled _ _ _ _ _ _ _ _ Hpr3)).
  - intros i Hi. rewrite Hslot by lia. rewrite list_lookup_fmap.
    destruct (lookup_lt_is_Some_2 es (Z.to_nat i)) as [e He]; [lia|]. rewrite He. cbn.
    by rewrite (nth_lookup_Some _ _ _ _ He).
  - cbn zeta. eapply eq_ind_r; [|exact Hc]. apply all_values_delivered. by apply all_values_assemble.
Qed.

Definition sample_indices : list run := [Rle 4 2; Packed [0; 1; 2; 0; 0; 0; 0; 0]].

Lemma dict_page_correct_witness :
  exists c c', reader_new sample_desc 1 0 16 Int32 false = Some c /\
    (c ← set_dictionary_page id id Int32Type c 3 (concat (map (to_le_bytes 4) [7; 8; 9]) ++ []) PLAIN;
     c ← set_page_v2 id id id Int32Type c 10 (level_bytes false (level_width 1) sample_runs) []
           (Z.of_nat 2 :: runs_bytes 2 sample_indices) RLE_DICTIONARY;
     run_ops id id Int32Type c [Read 5 0; Read 5 0]) = Some c' /\
    dict_column 4 (cr_vector c') =
      map (fmap (to_le_bytes 4))
        [Some 9; Some 9; Some 9; Some 9; None; Some 7; Some 8; None; None; Some 9].
Proof.
  destruct (reader_new sample_desc 1 0 16 Int32 false) as [c|] eqn:E; [|discriminate E].
  destruct (dict_page_correct id id id Int32Type sample_desc false (same_layout 4 (fun _ => true))
    Int32 16 1 sample_runs sample_levels (map (to_le_bytes 4) [7; 8; 9]) [] 2 sample_indices
    [2; 2; 2; 2; 0; 1; 2] [0; 0; 0; 0; 0] [] [Read 5 0; Read 5 0] c) as (c' & E' & Hcol).
  - reflexivity.
  - reflexivity.
  - reflexivity.
  - vm_compute. reflexivity.
  - vm_compute. reflexivity.
  - lia.
  - exact E.
  - repeat constructor.
  - apply bytes_okb_ok. vm_compute. reflexivity.
  - exact sample_levels_ok.
  - apply bytes_okb_ok. vm_compute. reflexivity.
  - lia.
  - repeat constructor; cbn; lia.
  - reflexivity.
  - apply bytes_okb_ok. vm_compute. reflexivity.
  - reflexivity.
  - repeat constructor; cbn; lia.
  - vm_compute. lia.
  - exists c, c'. split; [reflexivity|]. split; [exact E'|].
    cbn [ly_dst same_layout] in Hcol. rewrite Hcol. vm_compute. reflexivity.
Defined.

(** * Truncated levels *)

Lemma get_vlq_int_end r :
  reader_wf r -> rest_bytes r = [] -> get_vlq_int r = Some (None, r).
Proof.
  intros Hr Hrest. unfold get_vlq_int. cbn [get_vlq_loop].
  apply (f_equal length) in Hrest. unfold rest_bytes in Hrest.
  rewrite length_drop, length_take in Hrest. cbn in Hrest. pose proof (wf_total _ Hr).
  rewrite get_aligned_short by lia. done.
Qed.

(** [k] steps of a loop that has not ended; [None] is a step that panics. *)
Fixpoint iterate {A} (step : A -> option A) (k : nat) (a : A) : option A :=
  match k with O => Some a | S k => a ← step a; iterate step k a end.

Section Truncated.
Context {D V : Type} `{DecoderLaws D V}.

Lemma ld_take_0 ld : ld_take ld 0 (current_buffer_idx ld) = ld /\ ld_take ld 0 (current_buffer_idx ld + 0) = ld.
Proof. destruct ld. unfold ld_take. cbn. by rewrite Nat.sub_0_r, Nat.add_0_r. Qed.

(** A group of no values leaves the level decoder as it is, and vector and decoder in order. *)
Lemma read_no_values cap ld v (d : D) (ys : list V) :
  filled cap v -> (num_values v <= cap)%nat -> dec_rep d ys ->
  exists v' d', read_group ld 0 v d = Some (ld, v', d') /\ filled cap v' /\ (num_values v' <= cap)%nat /\ dec_rep d' ys.
Proof.
  intros Hv Hn Hd. unfold read_group. destruct (ld_take_0 ld) as [-> ->]. destruct (ld_mode ld).
  - destruct (_ =? _).
    + destruct (append_values cap v d ([] : list V) ys Hv Hd) as (b & d' & v' & E1 & E2 & Hd' & Hv' & Hc); [cbn; lia|]. cbn [length] in *.
      rewrite E1. cbn [mbind option_bind]. rewrite E2. cbn [mbind option_bind]. apply (f_equal length) in Hc.
      rewrite length_app, !length_column in Hc. cbn in Hc. do 2 eexists. split_and!; [done|done|cbn; lia|done].
    + destruct (append_nulls cap v 0 Hv) as (v' & E & Hv' & Hc); [lia|]. rewrite E. cbn [mbind option_bind]. apply (f_equal length) in Hc.
      rewrite length_app, !length_column in Hc. cbn in Hc. do 2 eexists. split_and!; [done|done|lia|done].
  - cbn [read_packed mbind option_bind]. do 2 eexists. by split_and!.
Qed.

Lemma skip_no_values cap ld v (d : D) (ys : list V) (nulls : bool) :
  filled cap v -> (num_values v <= cap)%nat -> dec_rep d ys ->
  exists v' d', skip_group ld 0 d = Some (ld, d') /\ (if nulls then put_nulls v 0 else Some v) = Some v' /\
    filled cap v' /\ (num_values v' <= cap)%nat /\ dec_rep d' ys.
Proof.
  intros Hv Hn Hd. destruct (law_skip_batch d ([] : list V) ys Hd) as (d' & Es & Hd'). cbn [length] in Es.
  assert (exists d2 : D, skip_group ld 0 d = Some (ld, d2) /\ dec_rep d2 ys) as (d2 & E2 & Hd2).
  { unfold skip_group. destruct (ld_take_0 ld) as [-> ->]. destruct (ld_mode ld); [destruct (_ =? _)|]; cbn [count_packed mbind option_bind]; rewrite ?Es; by eauto. }
  destruct (skip_nulls cap v 0 nulls Hv) as (v' & E & Hv' & _ & Hc); [lia|]. exists v', d2. split_and!; [done..|lia|done].
Qed.

Lemma next_group_end ld r :
  ld_reader ld = Some r -> reader_wf r -> rest_bytes r = [] -> current_count ld = 0%nat -> next_group ld = Some ld.
Proof.
  intros Hr Hwf Hrest Hc. unfold next_group, read_next_group. rewrite Hc, Hr. cbn [Nat.eqb mbind option_bind].
  rewrite get_vlq_int_end by done. cbn [mbind option_bind]. f_equal. destruct ld. cbn in *. by subst.
Qed.

(** C37: When the level data of a page ends before its announced number of values, [read_batch] and [skip_batch] never return.  Any number of
    rounds of their loops runs without a panic and leaves the level decoder and the number of values still to read as they were, so the
    loop condition holds forever.  This is for a vector in order and any value decoder that keeps its contract, with any values left. *)
Theorem read_batch_truncated_diverges cap ld r left v (d : D) (ys : list V) :
  ld_reader ld = Some r -> reader_wf r -> rest_bytes r = [] -> current_count ld = 0%nat -> (0 < left)%nat ->
  filled cap v -> (num_values v <= cap)%nat -> dec_rep d ys ->
  (forall k, exists v' d', iterate (fun '(ld, n, v, d) => read_round ld n v d) k (ld, left, v, d) = Some (ld, left, v', d')) /\
  (forall nulls k, exists v' d', iterate (fun '(ld, n, v, d) => skip_round ld n v d nulls) k (ld, left, v, d) = Some (ld, left, v', d')).
Proof.
  intros Hr Hwf Hrest Hc Hleft Hv Hn Hd. pose proof (next_group_end ld r Hr Hwf Hrest Hc) as E. split; [intros k|intros nulls k];
    revert v d Hv Hn Hd; induction k as [|k IH]; intros v d Hv Hn Hd; [by eauto| |by eauto|]; cbn [iterate].
  - unfold read_round at 2. rewrite E. cbn [mbind option_bind]. rewrite Hc, Nat.min_0_r.
    destruct (read_no_values cap ld v d ys Hv Hn Hd) as (v' & d' & -> & Hv' & Hn' & Hd'). cbn [mbind option_bind]. rewrite Nat.sub_0_r. by apply IH.
  - unfold skip_round at 2. rewrite E. cbn [mbind option_bind]. rewrite Hc, Nat.min_0_r.
    destruct (skip_no_values cap ld v d ys nulls Hv Hn Hd) as (v' & d' & -> & E' & Hv' & Hn' & Hd'). cbn [mbind option_bind]. rewrite E', Nat.sub_0_r.
    cbn [mbind option_bind]. by apply IH.
Qed.
End Truncated.

Lemma no_indices r : reader_wf r -> pos r = 0%nat -> total_bytes r = 0%nat -> buffer r = [] ->
  dict_rep {| dd_bit_width := 0; dd_reader := r; rle_left := 0; bit_packed_left := 0; dd_value := 0 |} [].
Proof.
  intros Hwf Hp Ht Hb. exists [], [], []. split; [|done]. split; cbn; try done; try lia.
  split; cbn [length]; rewrite ?Nat.mul_0_l, ?Nat.add_0_r, ?Hp, ?Ht, ?Hb; done || apply drop_nil.
Qed.

Lemma read_batch_truncated_diverges_witness :
  exists ld v d, set_data (level_new 1 1 false) 4 [] = Some (0%nat, ld) /\
    exists v' d', iterate (fun '(ld, n, v, d) => @read_round DictDecoder dict_decoder ld n v d) 1000 (ld, 4%nat, v, d) = Some (ld, 4%nat, v', d').
Proof.
  destruct (new_all_spec [] ltac:(constructor)) as (r & Er & Hwf & Hp & _ & Ht & Hb).
  exists (ld_set_page (level_new 1 1 false) 4 RLE 0 (Some r)), (new_child 8),
    {| dd_bit_width := 0; dd_reader := r; rle_left := 0; bit_packed_left := 0; dd_value := 0 |}.
  split; [unfold set_data; cbn [ld_bit_width level_new Nat.eqb need_length]; rewrite Er; reflexivity|].
  destruct (@fresh_filled _ _ dict_decoder (dict_laws None) 8 (new_child 8)) as [Hfl _]; try done.
  { split_and!; try done; [apply bytes_ok_buffer_new|vm_compute; lia]. }
  apply (proj1 (@read_batch_truncated_diverges _ _ dict_decoder (dict_laws None) 8 (ld_set_page (level_new 1 1 false) 4 RLE 0 (Some r)) r 4 (new_child 8)
    {| dd_bit_width := 0; dd_reader := r; rle_left := 0; bit_packed_left := 0; dd_value := 0 |} [] eq_refl Hwf
    ltac:(unfold rest_bytes; rewrite Hb, take_nil; apply drop_nil) eq_refl ltac:(lia) Hfl ltac:(cbn; lia) (no_indices r Hwf Hp Ht Hb)) 1000%nat).
Defined.

(** * The dictionary fallback of the widening types *)

(** When a column of a widening type (INT32 read as 64-bit integers) falls back
    from dictionary to PLAIN encoding, the element stored is the [val_idx]-th 4-byte
    word of the dictionary buffer, sign-extended; but the dictionary holds 8-byte
    elements, so the element of every odd index is the upper half of another one:
    zero or minus one. *)
Lemma dict_fallback_widening i2f f2f h2f dict dst idx k x :
  slot_bytes 8 (value_buffer dict) k = Some (to_le_bytes 8 x) -> bytes_ok (value_buffer dict) ->
  in_s 32 x -> ((idx + 1) * 8 <= length (value_buffer dst))%nat ->
  exists dst', decode_dict_one i2f f2f h2f Int32To64Type idx (2 * k + 1) dict dst 64 = Some dst' /\
    slot_bytes 8 (value_buffer dst') idx = Some (to_le_bytes 8 (if x <? 0 then -1 else 0)).
Proof.
  intros Hslot Hb Hx Hidx. cbn [decode_dict_one]. unfold cast_entry, read_le, slice.
  unfold slot_bytes in Hslot. destruct (Nat.leb_spec ((k + 1) * 8) (length (value_buffer dict))); [|done].
  injection Hslot as Hslot. simp_tests.
  rewrite le_bytes_slice by done.
  replace (8 * Z.of_nat ((2 * k + 1) * 4)) with (8 * Z.of_nat (k * 8) + 32) by lia.
  replace (8 * Z.of_nat ((2 * k + 1) * 4 + 4 - (2 * k + 1) * 4)) with 32 by lia.
  apply (f_equal (little_endian_to_Z 8)) in Hslot.
  rewrite le_bytes_slice, le_bytes_to_le_bytes in Hslot by done. change (8 * Z.of_nat 8) with 64 in Hslot.
  rewrite <-(bits_bits (le_bytes (value_buffer dict)) _ 64), Hslot by lia.
  rewrite memcpy_value_splice by lia. cbn [mbind option_bind]. eexists. split; [done|].
  cbn [value_buffer set_value_buffer]. rewrite take_ge by (by rewrite length_to_le_bytes).
  replace (splice (value_buffer dst) (idx * 8)%nat _) with
    (splice (value_buffer dst) (idx * 8)%nat (concat [to_le_bytes 8 (i32 (bits (wrap 64 x) 32 32))]))
    by (cbn; by rewrite app_nil_r).
  rewrite <-(Nat.add_0_r idx) at 2.
  rewrite slot_splice_new; [cbn|repeat constructor; apply length_to_le_bytes|cbn [length]; lia|cbn; lia].
  do 2 f_equal. unfold in_s in Hx. unfold bits, wrap, swrap. rewrite Z.shiftr_div_pow2 by lia.
  change (2 ^ (32 - 1)) with 2147483648 in *. change (2 ^ 32) with 4294967296.
  change (2 ^ 64) with 18446744073709551616. case_ltb; lia.
Qed.

Lemma dict_fallback_widening_example :
  exists dst', decode_dict_one id id id Int32To64Type 0 1
      (MkVector Int64 2 0 [] (to_le_bytes 8 5 ++ to_le_bytes 8 7) [] None)
      (MkVector Int64 0 0 [] (replicate 8 0) [] None) 64 = Some dst' /\
    slot_bytes 8 (value_buffer dst') 0 = Some (to_le_bytes 8 0).
Proof.
  apply (dict_fallback_widening id id id _ _ 0 0 5).
  - reflexivity.
  - apply bytes_okb_ok. reflexivity.
  - unfold in_s. lia.
  - cbn. lia.
Defined.
