(* ===== verification/Murmur3.v ===== *)
(** Spark-compatible Murmur3 hashing
    (src/native/spark-expr/src/hash_funcs/murmur3.rs).  An [i32] of the source is
    kept as its 32-bit pattern, on which wrapping multiplication, rotation and
    exclusive or are those of [u32]. *)

From S2P Require Import Prelude.

(** * The hash function *)

(** [rotate_left] on 32-bit words. *)
Definition rotl (k x : Z) : Z := Z.lor (u32 (x ≪ k)) (x ≫ (32 - k)).

Definition mix_k1 (k1 : Z) : Z :=
  let k1 := u32 (k1 * 0xcc9e2d51) in
  let k1 := rotl 15 k1 in
  u32 (k1 * 0x1b873593).

Definition mix_h1 (h1 k1 : Z) : Z :=
  let h1 := Z.lxor h1 k1 in
  let h1 := rotl 13 h1 in
  u32 (u32 (h1 * 5) + 0xe6546b64).

Definition fmix (h1 len : Z) : Z :=
  let h1 := Z.lxor h1 len in
  let h1 := Z.lxor h1 (h1 ≫ 16) in
  let h1 := u32 (h1 * 0x85ebca6b) in
  let h1 := Z.lxor h1 (h1 ≫ 13) in
  let h1 := u32 (h1 * 0xc2b2ae35) in
  Z.lxor h1 (h1 ≫ 16).

(** Four bytes at a time, as unaligned little-endian words. *)
Fixpoint hash_bytes_by_int (data : list Z) (h1 : Z) : Z :=
  match data with
  | b0 :: b1 :: b2 :: b3 :: rest => hash_bytes_by_int rest (mix_h1 h1 (mix_k1 (le_bytes [b0; b1; b2; b3])))
  | _ => h1
  end.

(** The trailing bytes are sign-extended one by one, as Spark does. *)
Definition hash_tail (data : list Z) (h1 : Z) : Z :=
  foldl (fun h b => mix_h1 h (mix_k1 (u32 (swrap 8 b)))) h1 data.

Definition spark_compatible_murmur3_hash (data : list Z) (seed : Z) : Z :=
  let len := length data in
  let len_aligned := (len - len mod 4)%nat in
  let h1 := if (0 <? len_aligned)%nat then hash_bytes_by_int (take len_aligned data) seed else seed in
  let h1 := hash_tail (drop len_aligned data) h1 in
  fmix h1 (u32 (Z.of_nat len)).

(** The vectors of the unit tests of the source (hashes of [i8]/[i32], [i64] and
    string values with seed 42). *)
Example murmur3_i32_vectors :
  map (fun v => spark_compatible_murmur3_hash (to_le_bytes 4 v) 42) [1; 0; -1; 2 ^ 31 - 1; - 2 ^ 31]
  = [0xdea578e3; 0x379fae8f; 0xa0590e3d; 0x07fb67e7; 0x2b1f0fc6].
Proof. reflexivity. Qed.

Example murmur3_string_vectors :
  spark_compatible_murmur3_hash [104; 101; 108; 108; 111] 42 = 3286402344 /\
  spark_compatible_murmur3_hash [] 42 = 142593372.
Proof. split; reflexivity. Qed.

(** * Every step is a bijection of the 32-bit words *)

Definition inj32 (f : Z -> Z) : Prop := forall x y, in_u 32 x -> in_u 32 y -> f x = f y -> x = y.
Definition closed32 (f : Z -> Z) : Prop := forall x, in_u 32 x -> in_u 32 (f x).

(** A map with a left inverse is injective. *)
Lemma inj32_inverse f g : (forall x, in_u 32 x -> g (f x) = x) -> inj32 f.
Proof. intros Hg x y Hx Hy E. by rewrite <- (Hg x Hx), <- (Hg y Hy), E. Qed.

Lemma inj32_id : inj32 (fun x => x).
Proof. by intros x y. Qed.

Lemma inj32_comp f g : closed32 f -> inj32 f -> inj32 g -> inj32 (fun x => g (f x)).
Proof. intros Hc Hf Hg x y Hx Hy E. apply Hf; [done..|]. apply Hg; auto. Qed.

Lemma closed32_wrap f : closed32 (fun x => u32 (f x)).
Proof. intros x _. by apply wrap_range. Qed.

Lemma closed32_comp f g : closed32 f -> closed32 g -> closed32 (fun x => g (f x)).
Proof. intros Hf Hg x Hx. auto. Qed.

Lemma in_u32_lxor a b : in_u 32 a -> in_u 32 b -> in_u 32 (Z.lxor a b).
Proof.
  intros Ha Hb. rewrite <- (wrap_small 32 a Ha), <- (wrap_small 32 b Hb), <- wrap_lxor by lia.
  by apply wrap_range.
Qed.

Lemma rotl_closed k : 0 <= k <= 32 -> closed32 (rotl k).
Proof.
  intros Hk x Hx. unfold rotl.
  replace (Z.lor _ _) with (u32 (Z.lor (x ≪ k) (x ≫ (32 - k)))); [by apply wrap_range|].
  rewrite wrap_lor by lia. f_equal. apply wrap_small. apply in_u_shiftr; [lia..|done].
Qed.

Lemma rotl_inj k : 0 < k < 32 -> inj32 (rotl k).
Proof.
  intros Hk. apply (inj32_inverse _ (rotl (32 - k))). intros x Hx. unfold rotl. zbits.
Qed.

(** Multiplication by an odd constant, with its inverse modulo [2^32]. *)
Lemma mul_inj c cinv : u32 (c * cinv) = 1 -> inj32 (fun x => u32 (x * c)).
Proof.
  intros Hc. apply (inj32_inverse _ (fun y => u32 (y * cinv))). intros x Hx. unfold wrap in *.
  rewrite Z.mul_mod_idemp_l by done. rewrite <- Z.mul_assoc, <- Z.mul_mod_idemp_r by done.
  rewrite Hc, Z.mul_1_r. by apply Z.mod_small.
Qed.

Lemma add_inj c : inj32 (fun x => u32 (x + c)).
Proof.
  apply (inj32_inverse _ (fun y => u32 (y - c))). intros x Hx. unfold wrap in *.
  rewrite Zminus_mod_idemp_l. replace (x + c - c) with x by lia. by apply Z.mod_small.
Qed.

Lemma lxor_inj k : inj32 (fun x => Z.lxor x k).
Proof.
  apply (inj32_inverse _ (fun y => Z.lxor y k)). intros x _.
  by rewrite Z.lxor_assoc, Z.lxor_nilpotent, Z.lxor_0_r.
Qed.

Lemma lxor_inj_r h : inj32 (Z.lxor h).
Proof.
  apply (inj32_inverse _ (fun y => Z.lxor h y)). intros x _.
  by rewrite <- Z.lxor_assoc, Z.lxor_nilpotent, Z.lxor_0_l.
Qed.

(** [h ^= h >> k] is undone by repeating it with doubled shifts. *)
Lemma xorshift16_inj : inj32 (fun h => Z.lxor h (h ≫ 16)).
Proof.
  apply (inj32_inverse _ (fun h => Z.lxor h (h ≫ 16))). intros x Hx.
  rewrite Z.shiftr_lxor, Z.shiftr_shiftr by lia. rewrite Z.lxor_assoc, <- (Z.lxor_assoc (x ≫ 16)).
  rewrite Z.lxor_nilpotent, Z.lxor_0_l. replace (x ≫ (16 + 16)) with 0 by zbits. apply Z.lxor_0_r.
Qed.

Lemma xorshift13_inj : inj32 (fun h => Z.lxor h (h ≫ 13)).
Proof.
  apply (inj32_inverse _ (fun h => Z.lxor (Z.lxor h (h ≫ 13)) (h ≫ 26))). intros x Hx.
  rewrite !Z.shiftr_lxor, !Z.shiftr_shiftr by lia.
  replace (x ≫ (13 + 26)) with 0 by zbits. rewrite Z.lxor_0_r. change (13 + 13) with 26.
  rewrite !Z.lxor_assoc. rewrite <- (Z.lxor_assoc (x ≫ 13) (x ≫ 13)), Z.lxor_nilpotent, Z.lxor_0_l.
  by rewrite Z.lxor_nilpotent, Z.lxor_0_r.
Qed.

Lemma xorshift_closed k : 0 <= k -> closed32 (fun h => Z.lxor h (h ≫ k)).
Proof. intros Hk x Hx. apply in_u32_lxor; [done|]. by apply in_u_shiftr; [lia..|]. Qed.

Lemma mix_k1_closed : closed32 mix_k1.
Proof. apply closed32_wrap. Qed.

Lemma mix_k1_inj : inj32 mix_k1.
Proof.
  apply (inj32_comp (fun x => rotl 15 (u32 (x * 0xcc9e2d51))) (fun x => u32 (x * 0x1b873593))).
  - apply (closed32_comp (fun x => u32 (x * 0xcc9e2d51))); [apply closed32_wrap|by apply rotl_closed].
  - apply (inj32_comp (fun x => u32 (x * 0xcc9e2d51))).
    + apply closed32_wrap.
    + by apply (mul_inj _ 0xdee13bb1).
    + by apply rotl_inj.
  - by apply (mul_inj _ 0x56ed309b).
Qed.

Definition mix_h1' (x : Z) : Z := u32 (u32 (rotl 13 x * 5) + 0xe6546b64).

Lemma mix_h1'_inj : inj32 mix_h1'.
Proof.
  apply (inj32_comp (fun x => u32 (rotl 13 x * 5)) (fun x => u32 (x + 0xe6546b64))).
  - apply closed32_wrap.
  - apply (inj32_comp (rotl 13) (fun x => u32 (x * 5))); [by apply rotl_closed|by apply rotl_inj|].
    by apply (mul_inj _ 0xcccccccd).
  - apply add_inj.
Qed.

Lemma mix_h1_closed h k : in_u 32 (mix_h1 h k).
Proof. by apply wrap_range. Qed.

Lemma mix_h1_inj k : in_u 32 k -> inj32 (fun h => mix_h1 h k).
Proof.
  intros Hk. apply (inj32_comp (fun h => Z.lxor h k) mix_h1'); [|apply lxor_inj|apply mix_h1'_inj].
  intros h Hh. by apply in_u32_lxor.
Qed.

Lemma mix_h1_inj_r h : in_u 32 h -> inj32 (mix_h1 h).
Proof.
  intros Hh. apply (inj32_comp (Z.lxor h) mix_h1'); [|apply lxor_inj_r|apply mix_h1'_inj].
  intros k Hk. by apply in_u32_lxor.
Qed.

Lemma fmix_closed h len : in_u 32 (fmix h len).
Proof. apply xorshift_closed; [lia|by apply wrap_range]. Qed.

Lemma fmix_inj len : in_u 32 len -> inj32 (fun h => fmix h len).
Proof.
  intros Hl.
  assert (C0 : closed32 (fun h => Z.lxor h len)) by (intros h Hh; by apply in_u32_lxor).
  assert (C1 := xorshift_closed 16 ltac:(lia)). assert (C2 := xorshift_closed 13 ltac:(lia)).
  pose (x16 h := Z.lxor h (h ≫ 16)). pose (x13 h := Z.lxor h (h ≫ 13)).
  pose (m1 h := u32 (h * 0x85ebca6b)). pose (m2 h := u32 (h * 0xc2b2ae35)).
  apply (inj32_comp (fun h => Z.lxor h len) (fun h => x16 (m2 (x13 (m1 (x16 h)))))); [done|apply lxor_inj|].
  apply (inj32_comp x16 (fun h => x16 (m2 (x13 (m1 h))))); [done|apply xorshift16_inj|].
  apply (inj32_comp m1 (fun h => x16 (m2 (x13 h)))); [apply closed32_wrap|by apply (mul_inj _ 0xa5cb9243)|].
  apply (inj32_comp x13 (fun h => x16 (m2 h))); [done|apply xorshift13_inj|].
  apply (inj32_comp m2 x16); [apply closed32_wrap|by apply (mul_inj _ 0x7ed1b41d)|apply xorshift16_inj].
Qed.

(** * The whole hash *)

Lemma hash_bytes_by_int_closed data h : in_u 32 h -> in_u 32 (hash_bytes_by_int data h).
Proof.
  remember (length data) as n eqn:E. revert data h E.
  induction n as [n IH] using lt_wf_ind; intros [|b0 [|b1 [|b2 [|b3 rest]]]] h E Hh; simpl; try done.
  eapply IH; [|done|apply mix_h1_closed]. simpl in E. lia.
Qed.

Lemma le_bytes_u32 l : bytes_ok l -> (length l <= 4)%nat -> in_u 32 (le_bytes l).
Proof. intros Hl Hn. eapply in_u_mono, le_bytes_bound; [| |done]; lia. Qed.

Lemma hash_bytes_by_int_inj data : bytes_ok data -> inj32 (hash_bytes_by_int data).
Proof.
  remember (length data) as n eqn:E. revert data E.
  induction n as [n IH] using lt_wf_ind; intros [|b0 [|b1 [|b2 [|b3 rest]]]] E Hd; cbn [hash_bytes_by_int]; try apply inj32_id.
  assert (Hw : bytes_ok [b0; b1; b2; b3] /\ bytes_ok rest) by by apply bytes_ok_app.
  destruct Hw as [Hw Hr]. apply (inj32_comp (fun h => mix_h1 h _)).
  - intros h _. apply mix_h1_closed.
  - apply mix_h1_inj, mix_k1_closed, le_bytes_u32; [done|simpl; lia].
  - eapply IH; [|done|done]. simpl in E. lia.
Qed.

Lemma hash_tail_closed data h : in_u 32 h -> in_u 32 (hash_tail data h).
Proof.
  unfold hash_tail. revert h. induction data as [|b data IH]; intros h Hh; simpl; [done|].
  apply IH, mix_h1_closed.
Qed.

Lemma hash_tail_inj data : inj32 (hash_tail data).
Proof.
  induction data as [|b data IH]; [apply inj32_id|].
  apply (inj32_comp (fun h => mix_h1 h (mix_k1 (u32 (swrap 8 b)))) (hash_tail data)); [|  |apply IH].
  - intros h _. apply mix_h1_closed.
  - apply mix_h1_inj, mix_k1_closed. by apply wrap_range.
Qed.

(** Four bytes go through one round. *)
Lemma murmur3_word v seed :
  spark_compatible_murmur3_hash (to_le_bytes 4 v) seed = fmix (mix_h1 seed (mix_k1 (u32 v))) 4.
Proof.
  unfold spark_compatible_murmur3_hash. rewrite length_to_le_bytes.
  change (u32 (Z.of_nat 4)) with 4. change (4 - 4 mod 4)%nat with 4%nat. cbn [Nat.ltb Nat.leb].
  rewrite take_ge, drop_ge by by rewrite length_to_le_bytes. cbn [hash_tail foldl].
  do 2 f_equal. pose proof (le_bytes_to_le_bytes 4 v) as Hv. pose proof (length_to_le_bytes 4 v) as Hl.
  destruct (to_le_bytes 4 v) as [|b0 [|b1 [|b2 [|b3 [|]]]]]; try done.
  cbn [hash_bytes_by_int]. by rewrite Hv.
Qed.

Lemma murmur3_closed data seed : in_u 32 (spark_compatible_murmur3_hash data seed).
Proof. apply fmix_closed. Qed.

Lemma murmur3_seed_inj data : bytes_ok data -> inj32 (spark_compatible_murmur3_hash data).
Proof.
  intros Hd seed seed' Hs Hs' E. apply fmix_inj in E; [|by apply wrap_range|..].
  2,3: apply hash_tail_closed; case_match; [apply hash_bytes_by_int_closed|]; done.
  apply hash_tail_inj in E; [|case_match; [by apply hash_bytes_by_int_closed|done]..].
  case_match; [|done]. by apply hash_bytes_by_int_inj in E; [|apply bytes_ok_take|..].
Qed.

(** The Murmur3 hash loses nothing it need not lose.  For any data, distinct seeds
    (the running hashes of the columns already folded in) give distinct hashes; and
    for any seed, distinct 32-bit keys give distinct hashes, so hashing an integer,
    date or smaller key never makes two keys collide. *)
Theorem murmur3_injective data seed seed' v v' :
  bytes_ok data -> in_u 32 seed -> in_u 32 seed' -> in_s 32 v -> in_s 32 v' ->
  (spark_compatible_murmur3_hash data seed = spark_compatible_murmur3_hash data seed' -> seed = seed') /\
  (spark_compatible_murmur3_hash (to_le_bytes 4 v) seed
     = spark_compatible_murmur3_hash (to_le_bytes 4 v') seed -> v = v').
Proof.
  intros Hd Hs Hs' Hv Hv'. split.
  - by apply murmur3_seed_inj.
  - rewrite !murmur3_word. intros E. apply fmix_inj in E; [|done|apply mix_h1_closed..].
    apply mix_h1_inj_r in E; [|done|apply mix_k1_closed; by apply wrap_range..].
    apply mix_k1_inj in E; [|by apply wrap_range..].
    rewrite <- (swrap_small 32 v), <- (swrap_small 32 v') by done. by apply swrap_eq.
Qed.

Lemma murmur3_injective_example :
  spark_compatible_murmur3_hash (to_le_bytes 4 7) 42 <> spark_compatible_murmur3_hash (to_le_bytes 4 (-7)) 42.
Proof.
  intros E. assert (H : 7 = -7); [|done].
  refine (proj2 (murmur3_injective [104; 105] 42 43 7 (-7) _ _ _ _ _) E); try (split; vm_compute; done).
  by apply bytes_okb_ok.
Defined.
