(* ===== verification/HashArrays.v ===== *)
(** Hashing of columns (src/native/spark-expr/src/hash_funcs/utils.rs and the column
    functions of murmur3.rs and xxhash64.rs).

    An Arrow array is the list of its elements, [None] for a null.  The two branches
    of every [hash_array*] macro (with and without nulls) run the same update on the
    elements that are not null, so each macro is one loop here; what differs between
    the macros, and is kept, is whether the loop indexes the array (and panics when it
    is shorter than the hashes) or zips with it.

    [hash_method] is the hash function, [take] the Arrow kernel that unpacks a
    dictionary. *)

From S2P Require Import Prelude Murmur3.

Inductive PrimitiveType :=
  Int8 | Int16 | Int32 | Int64 | TimestampSecond | TimestampMillisecond | TimestampMicrosecond
  | TimestampNanosecond | Date32 | Date64.
Inductive BytesType := Utf8 | LargeUtf8 | Binary | LargeBinary | FixedSizeBinary.

(** Floating-point elements are their bit patterns. *)
Inductive Array :=
  | Boolean (v : list (option bool))
  | Primitive (t : PrimitiveType) (v : list (option Z))
  | Float32 (v : list (option Z))
  | Float64 (v : list (option Z))
  | Bytes (t : BytesType) (v : list (option (list Z)))
  | Decimal128 (precision : Z) (v : list (option Z))
  | Dictionary (keys : list (option Z)) (values : Array)
  | OtherArray (len : nat).

Definition array_len (a : Array) : nat :=
  match a with
  | Boolean v => length v
  | Primitive _ v | Float32 v | Float64 v | Decimal128 _ v => length v
  | Bytes _ v => length v
  | Dictionary keys _ => length keys
  | OtherArray n => n
  end.

(** The nesting depth of dictionaries. *)
Fixpoint array_depth (a : Array) : nat :=
  match a with Dictionary _ values => S (array_depth values) | _ => 0 end.

(** [*value as $ty] of [hash_array_primitive]: the width of the hash input. *)
Definition hash_width (t : PrimitiveType) : nat :=
  match t with Int8 | Int16 | Int32 | Date32 => 4 | _ => 8 end.

(** The same seed as Spark's, in both dictionary functions. *)
Definition DICT_SEED : Z := 42.

Section Hash.
Context (hash_method : list Z -> Z -> Z).
Context (take : Array -> list (option Z) -> option Array).

(** [hashes.iter_mut().zip(values.iter())] *)
Fixpoint hash_zip {V} (input : V -> list Z) (values : list (option V)) (hashes : list Z) : list Z :=
  match hashes, values with
  | h :: hs, Some v :: vs => hash_method (input v) h :: hash_zip input vs hs
  | h :: hs, None :: vs => h :: hash_zip input vs hs
  | hs, _ => hs
  end.

(** [hashes.iter_mut().enumerate()] with [array.value(i)]; the input may be an error. *)
Fixpoint hash_index {V} (input : V -> option (list Z)) (values : list (option V)) (hashes : list Z)
    : option (list Z) :=
  match hashes, values with
  | [], _ => Some []
  | _, [] => None
  | h :: hs, Some v :: vs =>
      b ← input v; hs' ← hash_index input vs hs; Some (hash_method b h :: hs')
  | h :: hs, None :: vs => hs' ← hash_index input vs hs; Some (h :: hs')
  end.

Definition bool_input (b : bool) : list Z := to_le_bytes 4 (if b then 1 else 0).

(** [hash_array_primitive_float]: negative zero is hashed as zero. *)
Definition float_input (size : nat) (v : Z) : list Z :=
  if v =? 2 ^ (8 * Z.of_nat size - 1) then to_le_bytes size 0 else to_le_bytes size v.

(** [i64::try_from] of [hash_array_small_decimal] *)
Definition small_decimal_input (v : Z) : option (list Z) :=
  if (- 2 ^ 63 <=? v) && (v <? 2 ^ 63) then Some (to_le_bytes 8 v) else None.

(** The loop over the keys of a dictionary that is the first column. *)
Fixpoint hash_keys (dict_hashes : list Z) (keys : list (option Z)) (hashes : list Z) : option (list Z) :=
  match hashes, keys with
  | h :: hs, Some k :: ks =>
      if k <? 0 then None
      else d ← dict_hashes !! Z.to_nat k; hs' ← hash_keys dict_hashes ks hs; Some (d :: hs')
  | h :: hs, None :: ks => hs' ← hash_keys dict_hashes ks hs; Some (h :: hs')
  | hs, _ => Some hs
  end.

(** One column: the match of [create_hashes_internal] with
    [create_hashes_dictionary] inlined; [fuel] bounds the nesting of dictionaries. *)
Fixpoint hash_column (fuel : nat) (first_col : bool) (col : Array) (hashes : list Z) : option (list Z) :=
  match col with
  | Boolean v => hash_index (fun b => Some (bool_input b)) v hashes
  | Primitive t v => Some (hash_zip (to_le_bytes (hash_width t)) v hashes)
  | Float32 v => Some (hash_zip (float_input 4) v hashes)
  | Float64 v => Some (hash_zip (float_input 8) v hashes)
  | Bytes _ v => hash_index Some v hashes
  | Decimal128 precision v =>
      if precision <=? 18 then hash_index small_decimal_input v hashes
      else hash_index (fun x => Some (to_le_bytes 16 x)) v hashes
  | Dictionary keys values =>
      match fuel with
      | O => None
      | S fuel =>
          match first_col with
          | false =>
              unpacked ← take values keys;
              hash_column fuel true unpacked hashes
          | true =>
              dict_hashes ← hash_column fuel true values (replicate (array_len values) DICT_SEED);
              hash_keys dict_hashes keys hashes
          end
      end
  | OtherArray _ => None
  end.

Fixpoint hash_columns (first_col : bool) (cols : list Array) (hashes : list Z) : option (list Z) :=
  match cols with
  | [] => Some hashes
  | col :: cols =>
      hashes ← hash_column (array_depth col) first_col col hashes;
      hash_columns false cols hashes
  end.

Definition create_hashes (arrays : list Array) (hashes_buffer : list Z) : option (list Z) :=
  hash_columns true arrays hashes_buffer.

(** * Reference: rows of logical values *)

Definition inputs {V} (f : V -> list Z) (v : list (option V)) : list (option (list Z)) :=
  (fun x : option V => f <$> x) <$> v.

(** The bytes a row contributes to the hash, [None] for a null. *)
Fixpoint hash_inputs (a : Array) : list (option (list Z)) :=
  match a with
  | Boolean v => inputs bool_input v
  | Primitive t v => inputs (to_le_bytes (hash_width t)) v
  | Float32 v => inputs (float_input 4) v
  | Float64 v => inputs (float_input 8) v
  | Bytes _ v => v
  | Decimal128 p v => inputs (to_le_bytes (if p <=? 18 then 8 else 16)) v
  | Dictionary keys values =>
      (fun k : option Z => k ← k; mjoin (hash_inputs values !! Z.to_nat k)) <$> keys
  | OtherArray n => replicate n None
  end.

Definition fold_cell (h : Z) (c : option (list Z)) : Z :=
  match c with Some b => hash_method b h | None => h end.

(** The hash of each row: its cells, column by column, folded into the seed. *)
Definition hash_rows (cols : list Array) (seeds : list Z) : list Z :=
  foldl (fun hs col => zip_with fold_cell hs (hash_inputs col)) seeds cols.

(** An array of a hashable type, not a dictionary, whose decimals fit their precision. *)
Definition plain_ok (a : Array) : Prop :=
  match a with
  | Decimal128 p v => p <= 18 -> Forall (fun x => forall z, x = Some z -> in_s 64 z) v
  | Dictionary _ _ | OtherArray _ => False
  | _ => True
  end.

Definition key_ok (n : nat) (k : option Z) : Prop := forall z, k = Some z -> 0 <= z < Z.of_nat n.

(** A dictionary has in-range keys over such an array. *)
Definition array_ok (a : Array) : Prop :=
  match a with
  | Dictionary keys values => plain_ok values /\ Forall (key_ok (array_len values)) keys
  | _ => plain_ok a
  end.

Definition gather_list {V} (keys : list (option Z)) (v : list (option V)) : list (option V) :=
  (fun k : option Z => k ← k; mjoin (v !! Z.to_nat k)) <$> keys.

(** The documented result of [arrow::compute::take]: the elements at the keys, null
    where the key is null. *)
Definition gather (values : Array) (keys : list (option Z)) : Array :=
  match values with
  | Boolean v => Boolean (gather_list keys v)
  | Primitive t v => Primitive t (gather_list keys v)
  | Float32 v => Float32 (gather_list keys v)
  | Float64 v => Float64 (gather_list keys v)
  | Bytes t v => Bytes t (gather_list keys v)
  | Decimal128 p v => Decimal128 p (gather_list keys v)
  | Dictionary ks v => Dictionary (gather_list keys ks) v
  | OtherArray _ => OtherArray (length keys)
  end.

Definition take_spec : Prop := forall values keys,
  Forall (key_ok (array_len values)) keys -> take values keys = Some (gather values keys).

(** * Lemmas *)

Lemma length_hash_inputs a : length (hash_inputs a) = array_len a.
Proof. destruct a; simpl; unfold inputs; by rewrite ?length_fmap, ?length_replicate. Qed.

Lemma hash_zip_spec {V} (input : V -> list Z) values hashes :
  length values = length hashes ->
  hash_zip input values hashes = zip_with fold_cell hashes (inputs input values).
Proof.
  revert values. induction hashes as [|h hs IH]; intros [|[v|] vs] E; simpl in *; try done.
  all: by rewrite IH by lia.
Qed.

Lemma hash_index_spec {V} (input : V -> option (list Z)) (input' : V -> list Z) values hashes :
  length values = length hashes ->
  Forall (fun x => forall v, x = Some v -> input v = Some (input' v)) values ->
  hash_index input values hashes = Some (zip_with fold_cell hashes (inputs input' values)).
Proof.
  revert values. induction hashes as [|h hs IH]; intros [|x vs] E Hi; simpl in *; try done.
  apply Forall_cons_1 in Hi as [Hx Hi]. specialize (IH vs ltac:(lia) Hi).
  destruct x as [v|]; simpl; [rewrite (Hx v eq_refl); simpl|]; by rewrite IH.
Qed.

Lemma inputs_id v : inputs (fun b => b) v = v.
Proof. unfold inputs. rewrite <- (list_fmap_id v) at 2. apply list_fmap_ext. by intros ? [|]. Qed.

Lemma hash_index_total {V} (input : V -> list Z) values hashes :
  length values = length hashes ->
  hash_index (fun v => Some (input v)) values hashes = Some (zip_with fold_cell hashes (inputs input values)).
Proof. intros. apply hash_index_spec; [done|]. apply Forall_true. by intros. Qed.

Lemma hash_decimal p v hashes :
  plain_ok (Decimal128 p v) -> length v = length hashes ->
  (if p <=? 18 then hash_index small_decimal_input v hashes
   else hash_index (fun x => Some (to_le_bytes 16 x)) v hashes)
  = Some (zip_with fold_cell hashes (inputs (to_le_bytes (if p <=? 18 then 8 else 16)) v)).
Proof.
  simpl. intros Hv Hl. destruct (Z.leb_spec p 18); [|by apply hash_index_total].
  apply hash_index_spec; [done|]. eapply Forall_impl; [|by apply Hv]. intros x Hx z ->.
  destruct (Hx z eq_refl) as [H1 H2]. change (64 - 1) with 63 in *. unfold small_decimal_input.
  by simp_tests.
Qed.

Lemma hash_column_plain fuel first_col a hashes :
  plain_ok a -> array_len a = length hashes ->
  hash_column fuel first_col a hashes = Some (zip_with fold_cell hashes (hash_inputs a)).
Proof.
  intros Ha Hl. destruct fuel, a as [v|t v|v|v|t v|p v|keys values|n]; try done; cbn [hash_column hash_inputs].
  all: rewrite ?hash_zip_spec by done; try done.
  all: try by apply hash_index_total.
  all: try by apply hash_decimal.
  all: rewrite <- (inputs_id v) at 2; by apply (hash_index_total (fun b => b)).
Qed.

Lemma gather_list_inputs {V} (f : V -> list Z) keys v :
  inputs f (gather_list keys v)
  = (fun k : option Z => k ← k; mjoin (inputs f v !! Z.to_nat k)) <$> keys.
Proof.
  unfold gather_list, inputs. rewrite <- list_fmap_compose. apply list_fmap_ext. intros i [k|] _; simpl; [|done].
  rewrite list_lookup_fmap. by destruct (v !! Z.to_nat k) as [[]|].
Qed.

(** Unpacking a dictionary does not change the rows. *)
Lemma gather_inputs values keys :
  plain_ok values -> hash_inputs (gather values keys) = hash_inputs (Dictionary keys values).
Proof.
  destruct values as [v|t v|v|v|t v|p v|ks v|n]; intros Hp; try done; simpl;
    rewrite ?gather_list_inputs; try done.
Qed.

Lemma gather_list_Forall {V} (P : option V -> Prop) keys v :
  P None -> Forall P v -> Forall P (gather_list keys v).
Proof.
  intros HN Hv. apply Forall_fmap, Forall_true. intros [k|]; simpl; [|done].
  destruct (v !! Z.to_nat k) as [x|] eqn:E; simpl; [|done].
  destruct x as [x|]; [|done]. by apply (Forall_lookup_1 _ _ _ _ Hv E).
Qed.

Lemma gather_ok values keys :
  plain_ok values -> plain_ok (gather values keys) /\ array_len (gather values keys) = length keys.
Proof.
  destruct values as [v|t v|v|v|t v|p v|ks v|n]; intros Hp; try done; simpl;
    unfold gather_list; rewrite ?length_fmap; try done.
  split; [|done]. intros Hle. apply gather_list_Forall; [done|]. by apply Hp.
Qed.

Lemma hash_keys_spec inputs keys hashes :
  Forall (key_ok (length inputs)) keys -> length keys = length hashes ->
  hash_keys (fold_cell DICT_SEED <$> inputs) keys hashes
  = Some (zip_with (fun h k => match k with
                               | Some k => fold_cell DICT_SEED (mjoin (inputs !! Z.to_nat k))
                               | None => h end) hashes keys).
Proof.
  revert keys. induction hashes as [|h hs IH]; intros [|k ks] Hk Hl; simpl in *; try done.
  apply Forall_cons_1 in Hk as [Hk Hks]. rewrite (IH ks) by (done || lia). destruct k as [k|]; [|done].
  specialize (Hk k eq_refl). simp_tests. rewrite list_lookup_fmap.
  destruct (lookup_lt_is_Some_2 inputs (Z.to_nat k)) as [c ->]; [lia|]. by destruct c.
Qed.

(** The hashes of a dictionary column that comes first. *)
Lemma hash_dictionary_first fuel keys values hashes :
  array_ok (Dictionary keys values) -> length keys = length hashes ->
  hash_column (S fuel) true (Dictionary keys values) hashes
  = Some (zip_with (fun h k => match k with
                               | Some k => fold_cell DICT_SEED (mjoin (hash_inputs values !! Z.to_nat k))
                               | None => h end) hashes keys).
Proof.
  intros [Hv Hk] Hl. cbn [hash_column].
  rewrite hash_column_plain by (done || by rewrite length_replicate). cbn [mbind option_bind].
  rewrite zip_with_replicate_l by by rewrite length_hash_inputs.
  apply hash_keys_spec; [|done]. by rewrite length_hash_inputs.
Qed.

Lemma hash_column_spec (Htake : take_spec) (first_col : bool) a hashes :
  array_ok a -> array_len a = length hashes ->
  (first_col = true -> forall keys values, a = Dictionary keys values -> hashes = replicate (length hashes) DICT_SEED) ->
  hash_column (array_depth a) first_col a hashes = Some (zip_with fold_cell hashes (hash_inputs a)).
Proof.
  intros Ha Hl Hf. destruct a as [v|t v|v|v|t v|p v|keys values|n]; try by apply hash_column_plain.
  simpl in Hl. destruct first_col.
  - cbn [array_depth]. rewrite hash_dictionary_first by done. f_equal. cbn [hash_inputs].
    rewrite (Hf eq_refl _ _ eq_refl). rewrite !zip_with_replicate_l by (rewrite ?length_fmap; lia).
    rewrite <- list_fmap_compose. apply list_fmap_ext. by intros i [k|] _.
  - destruct Ha as [Hv Hk]. cbn [array_depth hash_column]. rewrite (Htake values keys Hk). cbn [mbind option_bind].
    destruct (gather_ok values keys Hv) as [Hg Hgl].
    rewrite hash_column_plain by (done || congruence). by rewrite gather_inputs.
Qed.

Lemma hash_columns_spec (Htake : take_spec) first_col cols hashes :
  Forall (fun a => array_ok a /\ array_len a = length hashes) cols ->
  (first_col = true -> forall keys values rest, cols = Dictionary keys values :: rest ->
     hashes = replicate (length hashes) DICT_SEED) ->
  hash_columns first_col cols hashes = Some (hash_rows cols hashes).
Proof.
  revert first_col hashes. induction cols as [|a cols IH]; intros first_col hashes Hc Hf; [done|].
  apply Forall_cons_1 in Hc as [[Ha Hl] Hc]. cbn [hash_columns]. rewrite hash_column_spec; try done.
  2: { intros -> keys values ->. by eapply Hf. }
  cbn [mbind option_bind]. apply IH; [|done]. rewrite length_zip_with, length_hash_inputs.
  eapply Forall_impl; [|exact Hc]. intros b [??]. split; [done|lia].
Qed.

(** Where the hash of each row starts: in a dictionary that is the first column, a row whose key is not null starts from 42 and not from its seed. *)
Definition first_seeds (arrays : list Array) (seeds : list Z) : list Z :=
  match arrays with
  | Dictionary keys _ :: _ => zip_with (fun h k => match k with Some _ => DICT_SEED | None => h end) seeds keys
  | _ => seeds
  end.

(** C27: Hashing columns, plain ones and dictionaries of them, with decimals of up to 18 digits that fit 64 bits.  Each row's hash is the left-to-right fold of its cells, nulls leaving it unchanged, from the row's seed; whether a
    column after the first is dictionary-encoded makes no difference.  Where the first column is a dictionary, the rows with a key start
    from Spark's default seed 42 instead of their seed, so only there, and only with other seeds, does the encoding matter. *)
Theorem create_hashes_correct (Htake : take_spec) arrays hashes :
  Forall (fun a => array_ok a /\ array_len a = length hashes) arrays ->
  create_hashes arrays hashes = Some (hash_rows arrays (first_seeds arrays hashes)).
Proof.
  intros Ha. unfold create_hashes. destruct arrays as [|a arrays]; [done|]. destruct a as [v|t v|v|v|t v|p v|keys values|n];
    try by (apply hash_columns_spec; [done..|]; intros _ ???).
  apply Forall_cons_1 in Ha as [[Ha Hl] Harr]. simpl in Hl. cbn [hash_columns array_depth first_seeds].
  rewrite hash_dictionary_first by done. cbn [mbind option_bind]. rewrite hash_columns_spec; [|done| |done].
  - unfold hash_rows. cbn [foldl hash_inputs]. do 2 f_equal. clear. revert hashes. induction keys as [|k keys IH]; intros [|h hashes]; try done.
    cbn [zip_with fmap list_fmap]. rewrite IH. by destruct k.
  - rewrite length_zip_with. eapply Forall_impl; [|exact Harr]. intros b [? ?]. split; [done|lia].
Qed.
End Hash.

Lemma create_hashes_correct_witness :
  create_hashes spark_compatible_murmur3_hash (fun v k => Some (gather v k))
    [Dictionary [Some 1; None; Some 0] (Bytes Utf8 [Some [97]; Some [98; 99]]); Primitive Int32 [Some 5; Some 6; None]]
    [42; 42; 42]
  = Some [2639647508; 3963002345; 1485273170].
Proof.
  rewrite create_hashes_correct; [vm_compute; reflexivity|by intros ???|].
  repeat first [apply Forall_nil_2 | apply Forall_cons_2 | apply conj]; try done; intros z [= <-]; simpl; lia.
Defined.

(** * Murmur3 hashes of columns *)

Section Murmur3Columns.
Context (take : Array -> list (option Z) -> option Array).

Definition create_murmur3_hashes (arrays : list Array) (hashes_buffer : list Z) : option (list Z) :=
  create_hashes spark_compatible_murmur3_hash take arrays hashes_buffer.

(** A dictionary-encoded first column ignores the seed.  When the hash starts from
    a seed other than 42, every row with a value gets another hash than the same
    column gets without dictionary encoding. *)
Lemma dictionary_ignores_seed keys values seed i k b :
  array_ok (Dictionary keys values) -> in_u 32 seed -> seed <> DICT_SEED ->
  keys !! i = Some (Some k) -> hash_inputs values !! Z.to_nat k = Some (Some b) -> bytes_ok b ->
  exists hs hs' h h',
    create_murmur3_hashes [Dictionary keys values] (replicate (length keys) seed) = Some hs /\
    create_murmur3_hashes [gather values keys] (replicate (length keys) seed) = Some hs' /\
    hs !! i = Some h /\ hs' !! i = Some h' /\ h <> h'.
Proof.
  intros Ha Hs Hne Hi Hk Hb. pose proof (proj1 Ha) as Hv.
  destruct (gather_ok values keys Hv) as [Hg Hgl].
  unfold create_murmur3_hashes, create_hashes. cbn [hash_columns array_depth].
  rewrite hash_dictionary_first by (done || by rewrite length_replicate).
  rewrite hash_column_plain by (done || by rewrite length_replicate).
  cbn [mbind option_bind]. rewrite !zip_with_replicate_l by (rewrite ?length_hash_inputs; lia).
  eexists _, _, (spark_compatible_murmur3_hash b DICT_SEED), (spark_compatible_murmur3_hash b seed).
  split_and!; [done|done|..].
  - rewrite list_lookup_fmap, Hi. simpl. by rewrite Hk.
  - rewrite list_lookup_fmap, gather_inputs by done. cbn [hash_inputs].
    rewrite list_lookup_fmap, Hi. simpl. by rewrite Hk.
  - intros E. apply Hne. symmetry. by apply (murmur3_seed_inj b Hb) in E.
Qed.

(** [ScalarValue::to_array_of_size] of DataFusion is a parameter. *)
Context {Other : Type}.

Inductive ScalarValue := ScalarInt32 (v : option Z) | ScalarInt64 (v : option Z) | ScalarOther (s : Other).
Inductive ColumnarValue := ColArray (a : Array) | ColScalar (s : ScalarValue).

Context (to_array_of_size : ScalarValue -> nat -> option Array).

(** The length of the first array argument. *)
Fixpoint find_len (args : list ColumnarValue) : option nat :=
  match args with
  | [] => None
  | ColArray a :: _ => Some (array_len a)
  | ColScalar _ :: args => find_len args
  end.

Definition columnar_arrays (num_rows : nat) (args : list ColumnarValue) : option (list Array) :=
  mapM (fun arg => match arg with ColArray a => Some a | ColScalar s => to_array_of_size s num_rows end) args.

Definition spark_murmur3_hash (args : list ColumnarValue) : option ColumnarValue :=
  match args !! (length args - 1)%nat with
  | Some (ColScalar (ScalarInt32 (Some seed))) =>
      let cols := firstn (length args - 1) args in
      let num_rows := default 1%nat (find_len cols) in
      arrays ← columnar_arrays num_rows cols;
      hashes ← create_murmur3_hashes arrays (replicate num_rows (u32 seed));
      if (num_rows =? 1)%nat then h ← hashes !! 0%nat; Some (ColScalar (ScalarInt32 (Some (i32 h))))
      else Some (ColArray (Primitive Int32 ((fun x => Some (i32 x)) <$> hashes)))
  | _ => None
  end.

(** The xxhash64 variant; the hash function itself is the crate [twox_hash]'s. *)
Context (spark_compatible_xxhash64 : list Z -> Z -> Z).

Definition create_xxhash64_hashes (arrays : list Array) (hashes_buffer : list Z) : option (list Z) :=
  create_hashes spark_compatible_xxhash64 take arrays hashes_buffer.

Definition spark_xxhash64 (args : list ColumnarValue) : option ColumnarValue :=
  match args !! (length args - 1)%nat with
  | Some (ColScalar (ScalarInt64 (Some seed))) =>
      let cols := firstn (length args - 1) args in
      let num_rows := default 1%nat (find_len cols) in
      arrays ← columnar_arrays num_rows cols;
      hashes ← create_xxhash64_hashes arrays (replicate num_rows (u64 seed));
      if (num_rows =? 1)%nat then h ← hashes !! 0%nat; Some (ColScalar (ScalarInt64 (Some (i64 h))))
      else Some (ColArray (Primitive Int64 ((fun x => Some (i64 x)) <$> hashes)))
  | _ => None
  end.
End Murmur3Columns.

Lemma dictionary_ignores_seed_example : exists hs hs' h h',
    create_murmur3_hashes (fun v k => Some (gather v k)) [Dictionary [None; Some 0] (Bytes Utf8 [Some [97]])] [7; 7] = Some hs /\
    create_murmur3_hashes (fun v k => Some (gather v k)) [Bytes Utf8 [None; Some [97]]] [7; 7] = Some hs' /\
    hs !! 1%nat = Some h /\ hs' !! 1%nat = Some h' /\ h <> h'.
Proof.
  apply (dictionary_ignores_seed (fun v k => Some (gather v k)) [None; Some 0] (Bytes Utf8 [Some [97]]) 7 1 0 [97]);
    try done.
  - split; [done|]. repeat first [apply Forall_nil_2 | apply Forall_cons_2]; intros z [= <-]; simpl; lia.
  - by apply bytes_okb_ok.
Defined.
