(* ===== verification/Lists.v ===== *)
(** Lists: filtering, bucket passes and stable sorting, shared by the radix sort and
    the shuffle partitioner. *)

From S2P Require Import Prelude.
From stdpp Require Import list sorting.
Open Scope Z_scope.

(** * Bucket passes over lists *)

Section Passes.
Context {T : Type}.
Implicit Types (f : T -> nat) (l : list T).

Lemma alter_insert (f : T -> T) l i x : l !! i = Some x -> alter f i l = <[i := f x]> l.
Proof.
  revert i. induction l as [|y l IH]; intros [|i] Hx; simpl in Hx; simplify_eq; [done|].
  change (alter f (S i) (y :: l)) with (y :: alter f i l). by rewrite (IH i Hx).
Qed.

Lemma filter_none (P : T -> Prop) `{forall x, Decision (P x)} l :
  (forall x, x ∈ l -> ~ P x) -> filter P l = [].
Proof.
  intros HP. destruct (filter P l) as [|x k] eqn:E; [done|].
  assert (Hx : x ∈ filter P l) by (rewrite E; constructor).
  apply list_elem_of_filter in Hx as [??]. by destruct (HP x).
Qed.

Lemma filter_all (P : T -> Prop) `{forall x, Decision (P x)} l :
  (forall x, x ∈ l -> P x) -> filter P l = l.
Proof.
  induction l as [|x l IH]; intros HP; [done|].
  rewrite filter_cons_True by (apply HP; constructor). f_equal. apply IH. intros y Hy. apply HP. by constructor.
Qed.

Lemma filter_iff_in (P Q : T -> Prop) `{forall x, Decision (P x)} `{forall x, Decision (Q x)} l :
  (forall x, x ∈ l -> P x <-> Q x) -> filter P l = filter Q l.
Proof.
  induction l as [|x l IH]; intros HPQ; [done|].
  rewrite !filter_cons, IH by (intros; apply HPQ; by constructor).
  destruct (HPQ x ltac:(constructor)). repeat case_decide; tauto || done.
Qed.

(** The items of each bucket, in order. *)
Definition bucketed f (n : nat) l : list (list T) := (fun b => filter (fun x => f x = b) l) <$> seq 0 n.

(** A pass of a stable bucket sort. *)
Definition pass f (n : nat) l : list T := concat (bucketed f n l).

Lemma bucketed_nil f n : bucketed f n [] = replicate n [].
Proof.
  unfold bucketed. generalize 0%nat. induction n as [|n IH]; intros k; simpl; [done|]. by rewrite IH.
Qed.

Lemma bucketed_snoc f n l x :
  (f x < n)%nat -> bucketed f n (l ++ [x]) = alter (fun b => b ++ [x]) (f x) (bucketed f n l).
Proof.
  intros Hx. apply list_eq. intros i. unfold bucketed. rewrite list_lookup_fmap.
  destruct (decide (i = f x)) as [->|Hne].
  - rewrite list_lookup_alter, list_lookup_fmap, lookup_seq_lt by done. simpl.
    by rewrite filter_app, filter_cons_True, decide_True by done.
  - rewrite list_lookup_alter_ne, list_lookup_fmap by done.
    destruct (decide (i < n)%nat); [|by rewrite lookup_seq_ge by lia].
    rewrite lookup_seq_lt by done. simpl. rewrite filter_app, filter_cons_False by (simpl; lia).
    by rewrite filter_nil, app_nil_r.
Qed.

(** Filtering the concatenated buckets by anything finer than the bucket changes nothing. *)
Lemma filter_pass (P : T -> Prop) `{forall x, Decision (P x)} f n l b :
  (b < n)%nat -> (forall x, P x -> f x = b) -> filter P (pass f n l) = filter P l.
Proof.
  intros Hb HP. unfold pass, bucketed.
  assert (Hone : forall i, filter P (filter (fun x => f x = i) l) = if decide (i = b) then filter P l else []).
  { intros i. rewrite list_filter_filter. destruct (decide (i = b)) as [->|Hne].
    - apply list_filter_iff. naive_solver.
    - apply filter_none. naive_solver. }
  assert (Hc : forall k m, filter P (concat ((fun i => filter (fun x => f x = i) l) <$> seq k m))
             = if decide (k <= b < k + m)%nat then filter P l else []).
  { intros k m. revert k. induction m as [|m IH]; intros k; simpl; [case_decide; [lia|done]|].
    rewrite filter_app, Hone, IH. repeat case_decide; try lia; by rewrite ?app_nil_r. }
  rewrite Hc. case_decide; [done|lia].
Qed.

Lemma concat_alter (bs : list (list T)) i x :
  (i < length bs)%nat -> concat (alter (fun b => b ++ [x]) i bs) ≡ₚ x :: concat bs.
Proof.
  revert i. induction bs as [|b bs IH]; intros [|i] Hi; cbn [length] in Hi; try lia.
  - simpl. rewrite <- app_assoc. simpl. symmetry. apply Permutation_middle.
  - change (alter _ (S i) (b :: bs)) with (b :: alter (fun b => b ++ [x]) i bs). cbn [concat].
    rewrite IH by lia. symmetry. apply Permutation_middle.
Qed.

Lemma pass_Permutation f n l : Forall (fun x => f x < n)%nat l -> pass f n l ≡ₚ l.
Proof.
  induction l as [|x l IH] using rev_ind; intros Hl; unfold pass.
  - rewrite bucketed_nil. induction n; [done|]. simpl. by apply IHn.
  - apply Forall_app in Hl as [Hl Hx]. apply Forall_cons_1 in Hx as [Hx _].
    rewrite bucketed_snoc by done. rewrite concat_alter by by (unfold bucketed; rewrite length_fmap, length_seq).
    fold (pass f n l). rewrite (IH Hl). apply Permutation_cons_append.
Qed.

Lemma StronglySorted_filter (R : T -> T -> Prop) (P : T -> Prop) `{forall x, Decision (P x)} l :
  StronglySorted R l -> StronglySorted R (filter P l).
Proof.
  induction 1 as [|x l Hl IH Hx]; [constructor|]. rewrite filter_cons. case_decide; [|done].
  constructor; [done|]. apply Forall_forall. intros y Hy. apply list_elem_of_filter in Hy as [_ Hy].
  by apply (Forall_forall _ l) with (x := y) in Hx.
Qed.

(** A pass refines an order by the bucket: items of different buckets are ordered by
    bucket, items of one bucket as they were. *)
Lemma pass_sorted (R1 R : T -> T -> Prop) f n l :
  StronglySorted R1 l ->
  (forall x y, f x = f y -> R1 x y -> R x y) -> (forall x y, (f x < f y)%nat -> R x y) ->
  StronglySorted R (pass f n l).
Proof.
  intros Hl Heq Hlt. unfold pass, bucketed. generalize 0%nat. induction n as [|n IH]; intros k; [constructor|].
  simpl. apply StronglySorted_app_2; [| |apply IH].
  - intros x y Hx Hy. apply list_elem_of_filter in Hx as [Hx _].
    apply list_elem_of_In, in_concat in Hy as (b & Hb & Hy). apply list_elem_of_In in Hb, Hy.
    apply list_elem_of_fmap in Hb as (j & -> & Hj). apply list_elem_of_filter in Hy as [Hy _].
    apply elem_of_seq in Hj. apply Hlt. lia.
  - pose proof (StronglySorted_filter R1 (fun x => f x = k) l Hl) as Hs.
    assert (Hf : Forall (fun x => f x = k) (filter (fun x => f x = k) l)).
    { apply Forall_forall. intros x Hx. by apply list_elem_of_filter in Hx as [Hx _]. }
    induction Hs as [|x l' Hs IHs Hx]; [constructor|]. apply Forall_cons_1 in Hf as [Hfx Hf].
    constructor; [by apply IHs|]. apply Forall_forall. intros y Hy.
    rewrite Forall_forall in Hx, Hf. apply Heq; [|by apply Hx]. rewrite Hfx. symmetry. by apply Hf.
Qed.
End Passes.

(** * Maps in the option monad *)

Lemma mapM_app_Some {A B} (f : A -> option B) l k l' k' :
  mapM f l = Some l' -> mapM f k = Some k' -> mapM f (l ++ k) = Some (l' ++ k').
Proof. intros Hl Hk. apply mapM_Some. apply mapM_Some in Hl, Hk. by apply Forall2_app. Qed.

Lemma mapM_length_eq {A B} (f : A -> option B) l l' : mapM f l = Some l' -> length l' = length l.
Proof. intros Hl. apply mapM_Some, Forall2_length in Hl. done. Qed.
