(* ===== verification/RadixSort.v ===== *)
(** The radix sort of packed row pointers (src/native/core/src/execution/sort.rs),
    which orders the records of a JVM shuffle by partition id. *)

From S2P Require Import Prelude Lists.
From stdpp Require Import list sorting.
Open Scope Z_scope.

(** * The sort *)

(** trait [Rdx] *)
Class Rdx (T : Type) := {
  cfg_nbuckets : nat;
  cfg_nrounds : nat;
  get_bucket : T -> nat -> nat;
  reverse : nat -> nat -> bool;
}.
Arguments cfg_nbuckets T {_}.
Arguments cfg_nrounds T {_}.
Arguments reverse T {_} _ _.

Definition MASK_LONG_LOWER_40_BITS : Z := u64 (shl 64 1 40 - 1).
Definition MASK_LONG_UPPER_24_BITS : Z := Z.lxor MASK_LONG_LOWER_40_BITS (2 ^ 64 - 1).

(** The upper 24 bits of a packed pointer. *)
Definition partition_id (x : Z) : Z := shr 64 (Z.land (u64 x) MASK_LONG_UPPER_24_BITS) 40.

(** The implementation for [i64]: 16 buckets, two rounds for each byte of the
    partition id. *)
#[export] Instance rdx_i64 : Rdx Z := {
  cfg_nbuckets := 16;
  cfg_nrounds := 6;
  get_bucket x round := Z.to_nat (Z.land (shr 64 (partition_id x) (4 * Z.of_nat round)) 15);
  reverse _ _ := false;
}.

Section Sort.
Context {T : Type} `{Rdx T}.

(** Appends each item to its bucket; the assertion on the bucket number is a panic. *)
Fixpoint helper_bucket (buckets : list (list T)) (items : list T) (round : nat) : option (list (list T)) :=
  match items with
  | [] => Some buckets
  | x :: items =>
      let b := get_bucket x round in
      if (b <? (cfg_nbuckets T))%nat then helper_bucket (alter (fun l => l ++ [x]) b buckets) items round
      else None
  end.

(** One round: the buckets [i ..] of the previous round in order, reversed where asked. *)
Fixpoint redistribute (round i : nat) (buckets_a buckets_b : list (list T)) : option (list (list T)) :=
  match buckets_a with
  | [] => Some buckets_b
  | bucket :: buckets_a =>
      buckets_b ← helper_bucket buckets_b (if reverse T (round - 1) i then rev bucket else bucket) round;
      redistribute round (S i) buckets_a buckets_b
  end.

Definition empty_buckets : list (list T) := replicate (cfg_nbuckets T) [].

(** The rounds [round .. round + n). *)
Fixpoint rounds (n round : nat) (buckets_a : list (list T)) : option (list (list T)) :=
  match n with
  | O => Some buckets_a
  | S n => buckets_a ← redistribute round 0 buckets_a empty_buckets; rounds n (S round) buckets_a
  end.

(** Copies the buckets back over the slice; both assertions on the position are panics. *)
Fixpoint copy_back (i pos : nat) (buckets : list (list T)) (self : list T) : option (list T) :=
  match buckets with
  | [] => if (pos =? length self)%nat then Some self else None
  | bucket :: buckets =>
      if (pos + length bucket <=? length self)%nat then
        copy_back (S i) (pos + length bucket) buckets
          (splice self pos (if reverse T (cfg_nrounds T - 1) i then rev bucket else bucket))
      else None
  end.

Definition rdxsort (self : list T) : option (list T) :=
  if ((cfg_nrounds T) =? 0)%nat then Some self
  else
    buckets ← helper_bucket empty_buckets self 0;
    buckets ← rounds (cfg_nrounds T - 1) 1 buckets;
    copy_back 0 0 buckets self.
End Sort.

(** * Correctness *)

(** What the sort asks of an implementation of the trait, apart from the order:
    the bucket exists and no bucket is reversed. *)
Class RdxLaws (T : Type) `{Rdx T} := {
  get_bucket_lt : forall x round, (get_bucket x round < (cfg_nbuckets T))%nat;
  reverse_false : forall round b, reverse T round b = false;
}.

Section SortSpec.
Context {T : Type} `{RdxLaws T}.

Definition digit (round : nat) (x : T) : nat := get_bucket x round.

Lemma helper_bucket_spec items l0 round :
  helper_bucket (bucketed (digit round) (cfg_nbuckets T) l0) items round
  = Some (bucketed (digit round) (cfg_nbuckets T) (l0 ++ items)).
Proof.
  revert l0. induction items as [|x items IH]; intros l0; cbn [helper_bucket]; [by rewrite app_nil_r|].
  pose proof (get_bucket_lt x round) as Hx. simp_tests. fold (digit round x) in *.
  rewrite <- bucketed_snoc by done. rewrite IH. by rewrite <- app_assoc.
Qed.

Lemma redistribute_spec round i bs l0 :
  redistribute round i bs (bucketed (digit round) (cfg_nbuckets T) l0)
  = Some (bucketed (digit round) (cfg_nbuckets T) (l0 ++ concat bs)).
Proof.
  revert i l0. induction bs as [|b bs IH]; intros i l0; cbn [redistribute concat]; [by rewrite app_nil_r|].
  rewrite reverse_false, helper_bucket_spec. cbn [mbind option_bind]. rewrite IH. by rewrite app_assoc.
Qed.

Definition passes (round n : nat) (l : list T) : list T :=
  foldl (fun l r => pass (digit r) (cfg_nbuckets T) l) l (seq round n).

Lemma rounds_spec n round bs :
  exists bs', rounds n round bs = Some bs' /\ concat bs' = passes round n (concat bs).
Proof.
  revert round bs. induction n as [|n IH]; intros round bs; [by exists bs|].
  cbn [rounds]. unfold empty_buckets. rewrite <- (bucketed_nil (digit round)), redistribute_spec.
  cbn [mbind option_bind app]. destruct (IH (S round) (bucketed (digit round) (cfg_nbuckets T) (concat bs))) as (bs' & -> & E).
  by exists bs'.
Qed.

Lemma copy_back_spec i pos bs self :
  (pos + length (concat bs) = length self)%nat -> copy_back i pos bs self = Some (take pos self ++ concat bs).
Proof.
  revert i pos self. induction bs as [|b bs IH]; intros i pos self Hl; cbn [copy_back concat length] in *.
  - simp_tests. rewrite app_nil_r, take_ge; [done|lia].
  - rewrite length_app in Hl. simp_tests. rewrite reverse_false. rewrite IH.
    + unfold splice. rewrite app_assoc, take_app_length'; [by rewrite <- app_assoc|].
      rewrite length_app, length_take. lia.
    + rewrite length_splice by lia. lia.
Qed.

Lemma pass_length round l : length (pass (digit round) (cfg_nbuckets T) l) = length l.
Proof. apply Permutation_length, pass_Permutation, Forall_true. intros x. apply get_bucket_lt. Qed.

Lemma passes_Permutation round n l : passes round n l ≡ₚ l.
Proof.
  unfold passes. revert round l. induction n as [|n IH]; intros round l; [done|]. simpl.
  rewrite IH. apply pass_Permutation, Forall_true. intros x. apply get_bucket_lt.
Qed.

Lemma rdxsort_passes l : rdxsort l = Some (passes 0 (cfg_nrounds T) l).
Proof.
  unfold rdxsort. destruct (Nat.eqb_spec (cfg_nrounds T) 0) as [->|Hn]; [done|].
  unfold empty_buckets. rewrite <- (bucketed_nil (digit 0)), helper_bucket_spec. cbn [mbind option_bind app].
  destruct (rounds_spec (cfg_nrounds T - 1) 1 (bucketed (digit 0) (cfg_nbuckets T) l)) as (bs & -> & E).
  cbn [mbind option_bind]. replace (passes 1 _ _) with (passes 0 (cfg_nrounds T) l) in E.
  - rewrite copy_back_spec; [by rewrite take_0, E|]. rewrite E. simpl. apply Permutation_length, passes_Permutation.
  - destruct (cfg_nrounds T) as [|n]; [done|]. simpl. by rewrite Nat.sub_0_r.
Qed.
End SortSpec.

Lemma partition_id_spec x : partition_id x = bits (u64 x) 40 24.
Proof.
  unfold partition_id, shr. change (40 `mod` 64) with 40.
  change MASK_LONG_UPPER_24_BITS with (Z.ones 24 ≪ 40). zbits.
Qed.

Lemma get_bucket_spec x round :
  (round < 6)%nat -> Z.of_nat (digit round x) = bits (partition_id x) (4 * Z.of_nat round) 4.
Proof.
  intros Hr. unfold digit. cbn [get_bucket rdx_i64]. unfold shr. rewrite Z.mod_small by lia.
  change 15 with (Z.ones 4). rewrite Z2Nat.id; [zbits|]. apply Z.land_nonneg. right. done.
Qed.

#[export] Instance rdx_i64_laws : RdxLaws Z.
Proof.
  split; [|done]. intros x round. cbn [get_bucket cfg_nbuckets rdx_i64].
  change 15 with (Z.ones 4). rewrite Z.land_ones by lia.
  pose proof (Z.mod_pos_bound (shr 64 (partition_id x) (4 * Z.of_nat round)) (2 ^ 4)). lia.
Qed.

(** The low [4 * r] bits of the partition id, which [r] rounds sort by. *)
Definition low_id (r : nat) (x : Z) : Z := bits (partition_id x) 0 (4 * Z.of_nat r).

Lemma low_id_step r x :
  (r < 6)%nat -> low_id (S r) x = low_id r x + 2 ^ (4 * Z.of_nat r) * Z.of_nat (digit r x).
Proof.
  intros Hr. rewrite get_bucket_spec by done. unfold low_id, bits. rewrite !Z.shiftr_0_r.
  rewrite Z.shiftr_div_pow2 by lia. replace (4 * Z.of_nat (S r)) with (4 * Z.of_nat r + 4) by lia.
  rewrite Z.pow_add_r, Z.rem_mul_r; lia.
Qed.

Lemma low_id_range r x : 0 <= low_id r x < 2 ^ (4 * Z.of_nat r).
Proof. apply bits_range. lia. Qed.

Lemma low_id_6 x : low_id 6 x = partition_id x.
Proof. unfold low_id. rewrite partition_id_spec. change (4 * Z.of_nat 6) with 24. zbits. Qed.

Lemma passes_S {T} `{Rdx T} r (l : list T) : passes 0 (S r) l = pass (digit r) (cfg_nbuckets T) (passes 0 r l).
Proof. unfold passes. by rewrite seq_S, foldl_snoc. Qed.

Lemma passes_sorted r l :
  (r <= 6)%nat -> StronglySorted (fun x y => low_id r x <= low_id r y) (passes 0 r l).
Proof.
  induction r as [|r IH]; intros Hr.
  - assert (Hz : forall x, low_id 0 x = 0) by (intros; apply bits_0_r).
    induction l as [|x l IHl]; constructor; [done|]. apply Forall_true. intros y. by rewrite !Hz.
  - rewrite passes_S. eapply pass_sorted; [apply IH; lia|..]; intros x y; rewrite !low_id_step by lia.
    + intros ->. lia.
    + intros Hd. pose proof (low_id_range r x). pose proof (low_id_range r y). nia.
Qed.

Lemma passes_stable r l p :
  (r <= 6)%nat -> filter (fun x => partition_id x = p) (passes 0 r l) = filter (fun x => partition_id x = p) l.
Proof.
  induction r as [|r IH]; intros Hr; [done|]. rewrite passes_S.
  rewrite (filter_pass _ _ _ _ (Z.to_nat (bits p (4 * Z.of_nat r) 4))); [apply IH; lia|..].
  - pose proof (bits_range p (4 * Z.of_nat r) 4). cbn [cfg_nbuckets rdx_i64]. unfold in_u in *. lia.
  - intros x <-. rewrite <- get_bucket_spec by lia. lia.
Qed.

(** C10: [rdxsort] is a stable sort of the packed pointers by partition id.  It never
    panics; its result is a permutation of the slice, ordered by partition id, in which
    the pointers of each partition keep their order. *)
Theorem rdxsort_correct (l : list Z) : exists sorted,
  rdxsort l = Some sorted /\ sorted ≡ₚ l /\
  StronglySorted (fun x y => partition_id x <= partition_id y) sorted /\
  forall p, filter (fun x => partition_id x = p) sorted = filter (fun x => partition_id x = p) l.
Proof.
  exists (passes 0 6 l). split; [by rewrite rdxsort_passes|]. split; [apply passes_Permutation|]. split.
  - pose proof (passes_sorted 6 l ltac:(lia)) as Hs. induction Hs as [|x k Hk IH Hx]; constructor; [done|].
    eapply Forall_impl; [exact Hx|]. intros y. by rewrite !low_id_6.
  - intros p. by apply passes_stable.
Qed.
