(* ===== verification/Partition.v ===== *)
(** Assignment of rows to shuffle partitions
    (src/native/core/src/execution/shuffle/shuffle_writer.rs): the partition of a
    hash, the partition of a range key, and the counting sort that groups the row
    indices of a batch by partition. *)

From S2P Require Import Prelude BitUtil Lists.
From stdpp Require Import list sorting.
Open Scope Z_scope.

(** * Partition numbers *)

(** [pmod]: the remainder by zero, and of [i32::MIN] by -1, are panics. *)
Definition pmod (hash n : Z) : option Z :=
  let hash := i32 hash in
  let n := i32 n in
  if (n =? 0) || ((n =? -1) && (hash =? - 2 ^ 31)) then None
  else
    let r := Z.rem hash n in
    let result := if r <? 0 then Z.rem (i32 (r + n)) n else r in
    Some (u64 result).

(** [<[T]>::partition_point]: the binary search of the standard library, which keeps
    the candidates [base .. base + size). *)
Fixpoint binary_search {K} (fuel : nat) (pred : K -> bool) (bounds : list K) (size base : nat) : nat :=
  match fuel with
  | O => base
  | S fuel =>
      if (1 <? size)%nat then
        let half := (size / 2)%nat in
        let mid := (base + half)%nat in
        let base := match bounds !! mid with Some b => if pred b then mid else base | None => base end in
        binary_search fuel pred bounds (size - half) base
      else base
  end.

Definition partition_point {K} (pred : K -> bool) (bounds : list K) : nat :=
  let base := binary_search (length bounds) pred bounds (length bounds) 0 in
  match bounds !! base with
  | Some b => if pred b then S base else base
  | None => base
  end.

(** * Grouping the rows of a batch *)

Record ScratchSpace := MkScratch {
  hashes_buf : list Z;
  partition_ids : list Z;
  partition_row_indices : list Z;
  partition_starts : list Z;
}.

(** [partition_ids.iter().for_each(|id| partition_counters[id] += 1)] *)
Fixpoint count_partitions (ids : list Z) (counters : list Z) : option (list Z) :=
  match ids with
  | [] => Some counters
  | id :: ids => counters ← update counters (Z.to_nat id) (fun v => u32 (v + 1)); count_partitions ids counters
  end.

(** [partition_ends.iter_mut().for_each(|v| { *v += accum; accum = *v; })] *)
Fixpoint accumulate (accum : Z) (ends : list Z) : list Z :=
  match ends with
  | [] => []
  | v :: ends => u32 (v + accum) :: accumulate (u32 (v + accum)) ends
  end.

(** The loop over [partition_ids.iter().enumerate().rev()], on the reversed pairs. *)
Fixpoint scatter (rows : list (nat * Z)) (ends indices : list Z) : option (list Z * list Z) :=
  match rows with
  | [] => Some (ends, indices)
  | (index, id) :: rows =>
      ends ← update ends (Z.to_nat id) (fun v => u32 (v - 1));
      end_ ← ends !! Z.to_nat id;
      indices ← update indices (Z.to_nat end_) (fun _ => u32 (Z.of_nat index));
      scatter rows ends indices
  end.

Definition map_partition_ids_to_starts_and_indices (scratch : ScratchSpace) (num_output_partitions num_rows : nat)
    : option ScratchSpace :=
  ids ← slice (partition_ids scratch) 0 num_rows;
  counters ← count_partitions ids (replicate (num_output_partitions + 1) 0);
  let ends := accumulate 0 counters in
  let indices := resize num_rows 0 (partition_row_indices scratch) in
  '(starts, indices) ← scatter (reverse (imap pair ids)) ends indices;
  Some (MkScratch (hashes_buf scratch) (partition_ids scratch) indices starts).

(** * The partition functions *)

Lemma pmod_spec hash n : 0 < n < 2 ^ 31 -> pmod hash n = Some (i32 hash `mod` n).
Proof.
  intros Hn. unfold pmod. rewrite (swrap_small 32 n) by (unfold in_s; lia).
  pose proof (swrap_range 32 hash ltac:(lia)) as Hh. unfold in_s in Hh. change (2 ^ (32 - 1)) with (2 ^ 31) in Hh.
  rewrite (proj2 (Z.eqb_neq n 0)), (proj2 (Z.eqb_neq n (-1))) by lia. cbn [orb andb].
  pose proof (Z.mod_pos_bound (i32 hash) n ltac:(lia)) as Hm.
  assert (Hr : (if Z.rem (i32 hash) n <? 0 then Z.rem (i32 (Z.rem (i32 hash) n + n)) n else Z.rem (i32 hash) n)
    = i32 hash `mod` n); [|rewrite Hr; f_equal; apply wrap_small; unfold in_u; lia].
  pose proof (Z.quot_rem (i32 hash) n ltac:(lia)) as Hq. destruct (Z.le_gt_cases 0 (i32 hash)).
  - pose proof (Z.rem_bound_pos (i32 hash) n ltac:(lia) ltac:(lia)). simp_tests. by rewrite Z.rem_mod_nonneg by lia.
  - pose proof (Z.rem_bound_pos_neg (i32 hash) n ltac:(lia) ltac:(lia)).
    destruct (Z.ltb_spec (Z.rem (i32 hash) n) 0).
    + rewrite swrap_small by (unfold in_s; lia). rewrite Z.rem_mod_nonneg, Z.mod_small by lia.
      apply (Z.mod_unique_pos _ _ (Z.quot (i32 hash) n - 1)); [lia|].
      lia.
    + apply (Z.mod_unique_pos _ _ (Z.quot (i32 hash) n)); lia.
Qed.

(** The slice satisfies the predicate up to [i] and not from there on. *)
Definition partitioned {K} (pred : K -> bool) (bounds : list K) (i : nat) : Prop :=
  (i <= length bounds)%nat /\ forall j b, bounds !! j = Some b -> pred b = (j <? i)%nat.

Lemma binary_search_spec {K} (pred : K -> bool) bounds i fuel size base :
  partitioned pred bounds i -> (1 <= size <= fuel)%nat -> (base + size <= length bounds)%nat ->
  (base <= i <= base + size)%nat ->
  (binary_search fuel pred bounds size base <= i <= S (binary_search fuel pred bounds size base))%nat /\
  (binary_search fuel pred bounds size base < length bounds)%nat.
Proof.
  intros [Hi Hp]. revert size base. induction fuel as [|fuel IH]; intros size base Hs Hl Hb; [lia|].
  cbn [binary_search]. destruct (Nat.ltb_spec 1 size); [|lia].
  pose proof (Nat.div_mod_eq size 2). pose proof (Nat.mod_upper_bound size 2 ltac:(lia)).
  destruct (lookup_lt_is_Some_2 bounds (base + size / 2)%nat) as [b Eb]; [lia|].
  rewrite Eb, (Hp _ _ Eb). destruct (Nat.ltb_spec (base + size / 2) i); apply IH; lia.
Qed.

Lemma partition_point_spec {K} (pred : K -> bool) bounds i :
  partitioned pred bounds i -> partition_point pred bounds = i.
Proof.
  intros Hp. unfold partition_point. destruct (decide (bounds = [])) as [->|Hne].
  { destruct Hp as [Hi _]. simpl in *. lia. }
  assert (Hl : (0 < length bounds)%nat) by (destruct bounds; [done|simpl; lia]).
  destruct (binary_search_spec pred bounds i (length bounds) (length bounds) 0 Hp) as [Hb Hlt]; [lia..|destruct Hp; lia|].
  destruct Hp as [Hi Hp]. set (base := binary_search _ _ _ _ _) in *.
  destruct (lookup_lt_is_Some_2 bounds base Hlt) as [b Eb]. rewrite Eb, (Hp _ _ Eb). case_ltb; lia.
Qed.

Lemma partitioned_exists {K} (pred : K -> bool) bounds :
  (forall i j bi bj, (i < j)%nat -> bounds !! i = Some bi -> bounds !! j = Some bj -> pred bj = true -> pred bi = true) ->
  exists i, partitioned pred bounds i.
Proof.
  induction bounds as [|b bounds IH]; intros Hm; [by exists 0%nat; split|].
  destruct IH as (i & Hi & Hp).
  { intros i j bi bj Hij Hbi Hbj. apply (Hm (S i) (S j)); [lia|done..]. }
  destruct (pred b) eqn:Eb.
  - exists (S i). split; [simpl; lia|]. intros [|j] x Hx; simpl in Hx; [by simplify_eq|]. by apply Hp.
  - exists 0%nat. split; [lia|]. intros [|j] x Hx; simpl in Hx; [by simplify_eq|].
    destruct (pred x) eqn:Ex; [|done]. rewrite (Hm 0%nat (S j) b x) in Eb; [done|lia|done..].
Qed.

(** * Counting *)

(** How many rows of [ns] go to partition [k], and to a partition before [k]. *)
Definition cnt (k : nat) (ns : list nat) : nat := length (filter (fun x => x = k) ns).
Definition start (k : nat) (ns : list nat) : nat := length (filter (fun x => x < k)%nat ns).

(** The rows of partition [k], in order. *)
Definition rows_of (k : nat) (ns : list nat) : list nat :=
  filter (fun i => ns !! i = Some k) (seq 0 (length ns)).

Lemma cnt_cons k x ns : cnt k (x :: ns) = ((if decide (x = k) then 1 else 0) + cnt k ns)%nat.
Proof. unfold cnt. rewrite filter_cons. by case_decide. Qed.

Lemma cnt_app k ns ms : cnt k (ns ++ ms) = (cnt k ns + cnt k ms)%nat.
Proof. unfold cnt. by rewrite filter_app, length_app. Qed.

Lemma start_S k ns : start (S k) ns = (start k ns + cnt k ns)%nat.
Proof.
  unfold start. induction ns as [|x ns IH]; [done|]. rewrite cnt_cons, !filter_cons.
  repeat case_decide; cbn [length]; lia.
Qed.

Lemma start_0 ns : start 0 ns = 0%nat.
Proof. unfold start. rewrite filter_none; [done|]. intros; lia. Qed.

Lemma start_all n ns : Forall (fun x => x < n)%nat ns -> start n ns = length ns.
Proof. intros Hn. unfold start. rewrite filter_all; [done|]. by apply Forall_forall. Qed.

Lemma start_mono k k' ns : (k <= k')%nat -> (start k ns <= start k' ns)%nat.
Proof. induction 1 as [|k' ? IH]; [done|]. rewrite start_S. lia. Qed.

Lemma start_le k ns : (start k ns <= length ns)%nat.
Proof. apply length_filter. Qed.

Lemma cnt_le k ns : (cnt k ns <= length ns)%nat.
Proof. apply length_filter. Qed.

(** Row [j] of partition [k] is preceded by the rows of [k] before it. *)
Lemma cnt_take_S k ns j :
  cnt k (take (S j) ns) = (cnt k (take j ns) + if decide (ns !! j = Some k) then 1 else 0)%nat.
Proof.
  destruct (ns !! j) as [x|] eqn:E.
  - rewrite (take_S_r _ _ _ E), cnt_app. f_equal. unfold cnt. rewrite filter_cons, filter_nil.
    repeat case_decide; simplify_eq; done.
  - apply lookup_ge_None in E. rewrite !take_ge by lia. case_decide; [done|lia].
Qed.

Lemma cnt_take_mono k ns i j : (i <= j)%nat -> (cnt k (take i ns) <= cnt k (take j ns))%nat.
Proof. induction 1 as [|j ? IH]; [done|]. rewrite cnt_take_S. lia. Qed.

Lemma cnt_take_le k ns j : (cnt k (take j ns) <= cnt k ns)%nat.
Proof. rewrite <- (take_drop j ns) at 2. rewrite cnt_app. lia. Qed.

(** The place of row [j], of partition [k], in the grouped order. *)
Definition place (k j : nat) (ns : list nat) : nat := (start k ns + cnt k (take j ns))%nat.

Lemma place_lt k j ns : ns !! j = Some k -> (place k j ns < start (S k) ns)%nat.
Proof.
  intros Hj. unfold place. rewrite start_S. pose proof (cnt_take_S k ns j) as Hs.
  rewrite decide_True in Hs by done. pose proof (cnt_take_le k ns (S j)). lia.
Qed.

Lemma place_inj k j k' j' ns :
  ns !! j = Some k -> ns !! j' = Some k' -> place k j ns = place k' j' ns -> j = j'.
Proof.
  intros Hj Hj' E. pose proof (place_lt _ _ _ Hj). pose proof (place_lt _ _ _ Hj').
  destruct (lt_eq_lt_dec k k') as [[Hlt|<-]|Hlt].
  - pose proof (start_mono (S k) k' ns ltac:(lia)). unfold place in *. lia.
  - pose proof (cnt_take_S k ns j) as Hs. pose proof (cnt_take_S k ns j') as Hs'.
    rewrite decide_True in Hs by done. rewrite decide_True in Hs' by done. unfold place in *.
    destruct (lt_eq_lt_dec j j') as [[Hl|?]|Hl]; [|done|].
    + pose proof (cnt_take_mono k ns (S j) j' Hl). lia.
    + pose proof (cnt_take_mono k ns (S j') j Hl). lia.
  - pose proof (start_mono (S k') k ns ltac:(lia)). unfold place in *. lia.
Qed.

(** * The loops *)

(** A vector of counters given by a function. *)
Definition vec (n : nat) (g : nat -> nat) : list Z := (fun k => Z.of_nat (g k)) <$> seq 0 n.

Lemma vec_lookup n g k : (k < n)%nat -> vec n g !! k = Some (Z.of_nat (g k)).
Proof. intros. unfold vec. rewrite list_lookup_fmap, lookup_seq_lt by done. done. Qed.

Lemma length_vec n g : length (vec n g) = n.
Proof. unfold vec. by rewrite length_fmap, length_seq. Qed.

Lemma vec_ext n g h : (forall k, (k < n)%nat -> g k = h k) -> vec n g = vec n h.
Proof.
  intros E. apply list_fmap_ext. intros i k Hk. apply lookup_seq in Hk. f_equal. apply E. lia.
Qed.

Lemma vec_update n g i f y :
  (i < n)%nat -> f (Z.of_nat (g i)) = Z.of_nat y ->
  update (vec n g) i f = Some (vec n (fun k => if (k =? i)%nat then y else g k)).
Proof.
  intros Hi Hf. unfold update. rewrite vec_lookup by done. cbn [mbind option_bind]. f_equal.
  apply list_eq. intros k. destruct (decide (k < n)%nat) as [Hk|Hk].
  2: { by rewrite !lookup_ge_None_2 by (rewrite ?length_insert, length_vec; lia). }
  rewrite (vec_lookup n _ k Hk). destruct (Nat.eqb_spec k i) as [->|Hne].
  - rewrite list_lookup_insert_eq by by rewrite length_vec. by rewrite Hf.
  - rewrite list_lookup_insert_ne by done. by apply vec_lookup.
Qed.

Lemma u32_nat x : Z.of_nat x < 2 ^ 32 -> u32 (Z.of_nat x) = Z.of_nat x.
Proof. intros. apply wrap_small. unfold in_u. lia. Qed.

Lemma count_partitions_spec n ns g :
  Forall (fun x => x < n)%nat ns -> (forall k, Z.of_nat (g k + cnt k ns) < 2 ^ 32) ->
  count_partitions (Z.of_nat <$> ns) (vec n g) = Some (vec n (fun k => g k + cnt k ns)%nat).
Proof.
  revert g. induction ns as [|x ns IH]; intros g Hn Hb; cbn [count_partitions fmap list_fmap].
  - f_equal. apply vec_ext. unfold cnt. simpl. lia.
  - apply Forall_cons_1 in Hn as [Hx Hn]. rewrite Nat2Z.id.
    rewrite (vec_update n g x _ (g x + 1)); [|done|].
    2: { rewrite <- (u32_nat (g x + 1)); [f_equal; lia|]. specialize (Hb x). rewrite cnt_cons, decide_True in Hb by done. lia. }
    cbn [mbind option_bind]. rewrite IH; [|done|].
    + f_equal. apply vec_ext. intros k _. rewrite cnt_cons. case_ltb; case_decide; subst; lia || done.
    + intros k. specialize (Hb k). rewrite cnt_cons in Hb. case_ltb; subst; case_decide; lia || done.
Qed.

Lemma accumulate_spec n ns :
  Z.of_nat (length ns) < 2 ^ 32 -> accumulate 0 (vec n (fun k => cnt k ns)) = vec n (fun k => start (S k) ns).
Proof.
  intros Hl. unfold vec. assert (G : forall m k,
    accumulate (Z.of_nat (start k ns)) ((fun k => Z.of_nat (cnt k ns)) <$> seq k m)
    = (fun k => Z.of_nat (start (S k) ns)) <$> seq k m).
  { induction m as [|m IH]; intros k; [done|]. cbn [seq fmap list_fmap accumulate].
    assert (E : u32 (Z.of_nat (cnt k ns) + Z.of_nat (start k ns)) = Z.of_nat (start (S k) ns)).
    { rewrite <- (u32_nat (start (S k) ns)); [|pose proof (start_le (S k) ns); lia]. f_equal. rewrite start_S. lia. }
    rewrite E. f_equal. apply IH. }
  pose proof (G n 0%nat) as G0. by rewrite start_0 in G0.
Qed.

(** What the scatter loop has done once the rows from [j] on are placed. *)
Definition placed (ns : list nat) (j : nat) (indices : list Z) : Prop :=
  length indices = length ns /\
  forall i k, (j <= i)%nat -> ns !! i = Some k -> indices !! place k i ns = Some (Z.of_nat i).

Lemma imap_pair_take_S {A} (l : list A) j x :
  l !! j = Some x -> reverse (imap pair (take (S j) l)) = (j, x) :: reverse (imap pair (take j l)).
Proof.
  intros Hx. rewrite (take_S_r _ _ _ Hx), imap_app. simpl. rewrite reverse_app. simpl.
  rewrite length_take, Nat.add_0_r, Nat.min_l; [done|]. apply lookup_lt_Some in Hx. lia.
Qed.

Lemma scatter_spec n ns j indices :
  Forall (fun x => x < n)%nat ns -> Z.of_nat (length ns) < 2 ^ 32 -> (j <= length ns)%nat ->
  placed ns j indices ->
  exists indices', scatter (reverse (imap pair (Z.of_nat <$> take j ns)))
      (vec (n + 1) (fun k => start k ns + cnt k (take j ns))%nat) indices
    = Some (vec (n + 1) (fun k => start k ns), indices') /\ placed ns 0 indices'.
Proof.
  intros Hn Hl. revert indices. induction j as [|j IH]; intros indices Hj Hp.
  { exists indices. split; [|done]. cbn [scatter]. simpl. do 2 f_equal. apply vec_ext. intros. unfold cnt. simpl. lia. }
  destruct (lookup_lt_is_Some_2 ns j ltac:(lia)) as [x Hx].
  assert (Hxn : (x < n)%nat) by by apply (Forall_lookup_1 _ _ _ _ Hn Hx).
  rewrite fmap_take, (imap_pair_take_S _ _ (Z.of_nat x)) by (rewrite list_lookup_fmap, Hx; done).
  cbn [scatter]. rewrite Nat2Z.id, <- fmap_take. pose proof (cnt_take_S x ns j) as Hc.
  rewrite decide_True in Hc by done. pose proof (place_lt x j ns Hx) as Hpl.
  pose proof (start_le (S x) ns) as Hsl.
  rewrite (vec_update _ _ x _ (place x j ns)); [|lia|].
  2: { rewrite <- (u32_nat (place x j ns)) by lia. f_equal. rewrite Hc. unfold place. lia. }
  cbn [mbind option_bind]. rewrite vec_lookup by lia. rewrite Nat.eqb_refl. cbn [mbind option_bind].
  rewrite Nat2Z.id. destruct Hp as [Hpl' Hp]. unfold update at 1.
  destruct (lookup_lt_is_Some_2 indices (place x j ns) ltac:(lia)) as [old ->]. cbn [mbind option_bind].
  rewrite u32_nat by lia.
  replace (vec (n + 1) _) with (vec (n + 1) (fun k => start k ns + cnt k (take j ns))%nat).
  2: { apply vec_ext. intros k _. rewrite cnt_take_S. unfold place. case_ltb; subst; try case_decide; simplify_eq; lia || done. }
  apply IH; [lia|]. split; [by rewrite length_insert|]. intros i k Hi Hk.
  destruct (decide (i = j)) as [->|Hne].
  - simplify_eq. rewrite list_lookup_insert_eq by lia. done.
  - rewrite list_lookup_insert_ne; [apply Hp; [lia|done]|].
    intros E. apply Hne. symmetry. by eapply place_inj.
Qed.

Lemma rows_before k ns j :
  (j <= length ns)%nat -> length (filter (fun i => ns !! i = Some k) (seq 0 j)) = cnt k (take j ns).
Proof.
  induction j as [|j IH]; intros Hj; [done|].
  rewrite seq_S, filter_app, length_app, IH, cnt_take_S by lia. f_equal. simpl.
  rewrite filter_cons, filter_nil. by repeat case_decide.
Qed.

Lemma rows_of_lookup k ns j : ns !! j = Some k -> rows_of k ns !! cnt k (take j ns) = Some j.
Proof.
  intros Hj. assert (Hl := lookup_lt_Some _ _ _ Hj). unfold rows_of.
  replace (length ns) with (j + S (length ns - S j))%nat by lia. rewrite seq_app, filter_app.
  rewrite lookup_app_r by (rewrite rows_before; lia). rewrite rows_before, Nat.sub_diag by lia.
  simpl. by rewrite filter_cons_True.
Qed.

Lemma length_rows_of k ns : length (rows_of k ns) = cnt k ns.
Proof. unfold rows_of. rewrite rows_before, take_ge by lia. done. Qed.

(** A fully placed index array is grouped by partition. *)
Lemma placed_slice ns indices k :
  placed ns 0 indices ->
  take (cnt k ns) (drop (start k ns) indices) = Z.of_nat <$> rows_of k ns.
Proof.
  intros [Hl Hp]. pose proof (start_le (S k) ns) as Hs. rewrite start_S in Hs.
  apply list_eq_same_length with (cnt k ns).
  - by rewrite length_fmap, length_rows_of.
  - rewrite length_take, length_drop. lia.
  - intros t x y Ht Hx Hy. rewrite lookup_take_lt, lookup_drop in Hx by done.
    rewrite list_lookup_fmap in Hy. destruct (rows_of k ns !! t) as [j|] eqn:Ej; [|done]. simplify_eq/=.
    assert (Hj : ns !! j = Some k).
    { apply list_elem_of_lookup_2, list_elem_of_filter in Ej. tauto. }
    pose proof (rows_of_lookup k ns j Hj) as Ej'.
    assert (t = cnt k (take j ns)) as ->.
    { eapply NoDup_lookup; [|exact Ej|exact Ej']. apply NoDup_filter, NoDup_seq. }
    specialize (Hp j k ltac:(lia) Hj). unfold place in Hp. congruence.
Qed.

(** The state the function leaves: the starts are the prefix sums, and the slice of
    each partition holds its rows in order. *)
Definition grouped (n : nat) (ns : list nat) (starts indices : list Z) : Prop :=
  starts = vec (n + 1) (fun k => start k ns) /\ length indices = length ns /\
  forall k, take (cnt k ns) (drop (start k ns) indices) = Z.of_nat <$> rows_of k ns.

Lemma map_partition_ids_spec scratch n ns :
  take (length ns) (partition_ids scratch) = Z.of_nat <$> ns ->
  Forall (fun x => x < n)%nat ns -> Z.of_nat (length ns) < 2 ^ 32 ->
  exists scratch', map_partition_ids_to_starts_and_indices scratch n (length ns) = Some scratch' /\
    hashes_buf scratch' = hashes_buf scratch /\ partition_ids scratch' = partition_ids scratch /\
    grouped n ns (partition_starts scratch') (partition_row_indices scratch').
Proof.
  intros Hids Hn Hl. unfold map_partition_ids_to_starts_and_indices, slice.
  assert (Hlen : (length ns <= length (partition_ids scratch))%nat).
  { apply (f_equal length) in Hids. rewrite length_take, length_fmap in Hids. lia. }
  simp_tests. rewrite drop_0, Nat.sub_0_r, Hids.
  replace (replicate (n + 1) 0) with (vec (n + 1) (fun _ => 0%nat)).
  2: { unfold vec. generalize 0%nat at 2. induction (n + 1)%nat as [|m IH]; intros i; [done|].
       cbn [seq fmap list_fmap replicate]. by rewrite IH. }
  rewrite count_partitions_spec; cycle 1.
  { eapply Forall_impl; [exact Hn|]. simpl. lia. }
  { intros k. pose proof (cnt_le k ns). lia. }
  cbn [mbind option_bind Nat.add]. rewrite accumulate_spec by done.
  destruct (scatter_spec n ns (length ns) (resize (length ns) 0 (partition_row_indices scratch)) Hn Hl) as (ind & E & Hp).
  { lia. } { split; [apply length_resize|]. intros i k Hi Hk. apply lookup_lt_Some in Hk. lia. }
  rewrite take_ge in E by lia.
  replace (vec (n + 1) (fun k => start (S k) ns)) with (vec (n + 1) (fun k => start k ns + cnt k ns)%nat)
    by (apply vec_ext; intros; by rewrite start_S).
  rewrite E. cbn [mbind option_bind]. eexists. split; [done|]. cbn [hashes_buf partition_ids partition_starts partition_row_indices].
  split_and!; [done..|]. split_and!; [done|apply Hp|]. intros k. by apply placed_slice.
Qed.

(** C11: The counting sort of the shuffle writer.  On partition numbers below the number
    of partitions it succeeds, whatever the scratch space held before, and for each
    partition [k] the slice of the row indices between the starts of [k] and [k + 1] is
    the ascending list of the rows with number [k]. *)
Theorem partition_rows_correct scratch n ns :
  take (length ns) (partition_ids scratch) = Z.of_nat <$> ns ->
  Forall (fun x => x < n)%nat ns -> Z.of_nat (length ns) < 2 ^ 32 ->
  exists scratch', map_partition_ids_to_starts_and_indices scratch n (length ns) = Some scratch' /\
    length (partition_starts scratch') = (n + 1)%nat /\
    partition_starts scratch' !! n = Some (Z.of_nat (length ns)) /\
    forall k, (k < n)%nat -> exists s e,
      partition_starts scratch' !! k = Some (Z.of_nat s) /\
      partition_starts scratch' !! S k = Some (Z.of_nat e) /\
      slice (partition_row_indices scratch') s e = Some (Z.of_nat <$> rows_of k ns).
Proof.
  intros Hids Hn Hl. destruct (map_partition_ids_spec scratch n ns Hids Hn Hl) as (sc & E & _ & _ & Hst & Hil & Hs).
  exists sc. split; [done|]. rewrite Hst, length_vec. split_and!; [done|..].
  - rewrite vec_lookup by lia. by rewrite start_all.
  - intros k Hk. exists (start k ns), (start (S k) ns). rewrite !vec_lookup by lia. split_and!; [done..|].
    unfold slice. pose proof (start_S k ns) as HS. pose proof (start_le (S k) ns). simp_tests.
    f_equal. rewrite <- Hs. f_equal. lia.
Qed.

Lemma partition_rows_correct_witness :
  exists scratch', map_partition_ids_to_starts_and_indices
      (MkScratch [] [3; 1; 1; 1; 2; 2; 0; 9] [77; 78] [5]) 4 7 = Some scratch' /\
    partition_starts scratch' !! 4%nat = Some 7 /\
    exists s e, partition_starts scratch' !! 1%nat = Some (Z.of_nat s) /\
      partition_starts scratch' !! 2%nat = Some (Z.of_nat e) /\
      slice (partition_row_indices scratch') s e = Some [1; 2; 3].
Proof.
  destruct (partition_rows_correct (MkScratch [] [3; 1; 1; 1; 2; 2; 0; 9] [77; 78] [5]) 4
    [3; 1; 1; 1; 2; 2; 0]%nat) as (sc & E & _ & Hn & Hk).
  - reflexivity.
  - repeat constructor; lia.
  - reflexivity.
  - exists sc. split; [exact E|]. split; [exact Hn|]. exact (Hk 1%nat ltac:(lia)).
Defined.
