(* ===== verification/ShuffleCodec.v ===== *)
(** Shuffle blocks (src/native/core/src/execution/shuffle/codec.rs), the buffered block
    writer of shuffle_writer.rs, and the JVM iterator that reads the blocks back
    (src/spark/src/main/scala/org/apache/spark/sql/comet/execution/shuffle/
    NativeBatchDecoderIterator.scala).

    Arrow record batches and their kernels, the Arrow IPC format and the compression
    codecs belong to other packages: they are the operations of class [Arrow], and what
    the shuffle relies on are the laws of class [ArrowLaws].  [None] is an error return,
    a panic or a thrown exception. *)

From S2P Require Import Prelude.
From stdpp Require Import list.
Open Scope Z_scope.

Inductive CompressionCodec := NoCompression | Lz4Frame | Zstd (level : Z) | Snappy.

(** The decoders [read_ipc_compressed] chooses from. *)
Inductive CodecKind := KSnap | KLz4 | KZstd | KNone.

Definition codec_kind (c : CompressionCodec) : CodecKind :=
  match c with Snappy => KSnap | Lz4Frame => KLz4 | Zstd _ => KZstd | NoCompression => KNone end.

(** * The Arrow interface *)

Class Arrow (Batch Row : Type) := {
  batch_rows : Batch -> list Row;
  num_columns : Batch -> nat;
  (** [RecordBatch::slice(offset, length)] *)
  batch_slice : Batch -> nat -> nat -> Batch;
  interleave_record_batch : list Batch -> list (nat * nat) -> option Batch;
  concat_batches : list Batch -> option Batch;
  (** the stream writer over the compressing encoder, and the first batch that the
      stream reader finds under the decoder *)
  ipc_encode : CompressionCodec -> Batch -> option (list Z);
  ipc_decode : CodecKind -> list Z -> option Batch;
}.

Section ArrowDefs.
Context {Batch Row : Type} `{Arrow Batch Row}.

Definition num_rows (b : Batch) : nat := length (batch_rows b).

(** The row an index pair of [interleave_record_batch] names. *)
Definition row_at (bs : list Batch) (ix : nat * nat) : option Row :=
  b ← bs !! ix.1; batch_rows b !! ix.2.
End ArrowDefs.

Class ArrowLaws (Batch Row : Type) `{Arrow Batch Row} := {
  slice_rows : forall b off len, (off + len <= num_rows b)%nat ->
    batch_rows (batch_slice b off len) = take len (drop off (batch_rows b));
  slice_columns : forall b off len, num_columns (batch_slice b off len) = num_columns b;
  interleave_rows : forall bs idx rs m, mapM (row_at bs) idx = Some rs -> Forall (fun b => num_columns b = m) bs ->
    idx <> [] -> exists b, interleave_record_batch bs idx = Some b /\ batch_rows b = rs /\ num_columns b = m;
  concat_rows : forall bs m, bs <> [] -> Forall (fun b => num_columns b = m) bs ->
    exists b, concat_batches bs = Some b /\ batch_rows b = concat (batch_rows <$> bs) /\ num_columns b = m;
  ipc_roundtrip : forall c b bytes, ipc_encode c b = Some bytes ->
    exists b', ipc_decode (codec_kind c) bytes = Some b' /\ batch_rows b' = batch_rows b /\
      num_columns b' = num_columns b;
}.

(** * [std::io::Cursor] over a vector *)

Record Cursor := MkCursor { c_data : list Z; c_pos : nat }.

(** [write_all]: overwrites and extends, filling a gap with zeroes. *)
Definition cursor_write (c : Cursor) (bytes : list Z) : Cursor :=
  MkCursor (take (c_pos c) (c_data c) ++ replicate (c_pos c - length (c_data c)) 0 ++ bytes
            ++ drop (c_pos c + length bytes) (c_data c)) (c_pos c + length bytes).

Definition cursor_seek (c : Cursor) (pos : nat) : Cursor := MkCursor (c_data c) pos.

(** * Writing blocks *)

Record ShuffleBlockWriter := MkBlockWriter { codec : CompressionCodec; header_bytes : list Z }.

Definition codec_header (c : CompressionCodec) : list Z :=
  match c with
  | Snappy => [83; 78; 65; 80]          (* SNAP *)
  | Lz4Frame => [76; 90; 52; 95]        (* LZ4_ *)
  | Zstd _ => [90; 83; 84; 68]          (* ZSTD *)
  | NoCompression => [78; 79; 78; 69]   (* NONE *)
  end.

Definition block_writer_new (field_count : nat) (c : CompressionCodec) : ShuffleBlockWriter :=
  let cursor := cursor_seek (MkCursor [] 0) 8 in
  let cursor := cursor_write cursor (to_le_bytes 8 (Z.of_nat field_count)) in
  let cursor := cursor_write cursor (codec_header c) in
  MkBlockWriter c (c_data cursor).

Section Codec.
Context {Batch Row : Type} `{Arrow Batch Row}.

(** [write_batch]: returns the bytes written and the cursor. *)
Definition write_batch (self : ShuffleBlockWriter) (batch : Batch) (output : Cursor) : option (nat * Cursor) :=
  if (num_rows batch =? 0)%nat then Some (0%nat, output)
  else
    let start_pos := c_pos output in
    let output := cursor_write output (header_bytes self) in
    ipc ← ipc_encode (codec self) batch;
    let output := cursor_write output ipc in
    let end_pos := c_pos output in
    let ipc_length := Z.of_nat end_pos - Z.of_nat start_pos - 8 in
    if 2 ^ 31 - 1 <? ipc_length then None
    else
      let output := cursor_seek output start_pos in
      let output := cursor_write output (to_le_bytes 8 ipc_length) in
      let output := cursor_seek output end_pos in
      Some ((end_pos - start_pos)%nat, output).

(** [BufBatchWriter]; [writer] is what has reached the file. *)
Record BufBatchWriter := MkBufWriter { shuffle_block_writer : ShuffleBlockWriter; writer : list Z; buffer : list Z }.

Definition buffer_max_size : nat := (1024 * 1024)%nat.

Definition buf_new (w : ShuffleBlockWriter) (file : list Z) : BufBatchWriter := MkBufWriter w file [].

Definition buf_write (self : BufBatchWriter) (batch : Batch) : option (nat * BufBatchWriter) :=
  let cursor := MkCursor (buffer self) 0 in
  let cursor := cursor_seek cursor (length (c_data cursor)) in
  '(bytes_written, cursor) ← write_batch (shuffle_block_writer self) batch cursor;
  if Z.of_nat buffer_max_size <=? Z.of_nat (c_pos cursor)
  then Some (bytes_written, MkBufWriter (shuffle_block_writer self) (writer self ++ c_data cursor) [])
  else Some (bytes_written, MkBufWriter (shuffle_block_writer self) (writer self) (c_data cursor)).

Definition buf_flush (self : BufBatchWriter) : BufBatchWriter :=
  MkBufWriter (shuffle_block_writer self) (writer self ++ buffer self) [].

(** * Reading blocks *)

(** [read_ipc_compressed] *)
Definition read_ipc_compressed (bytes : list Z) : option Batch :=
  if (length bytes <? 4)%nat then None
  else
    let magic := take 4 bytes in
    let body := drop 4 bytes in
    if decide (magic = [83; 78; 65; 80]) then ipc_decode KSnap body
    else if decide (magic = [76; 90; 52; 95]) then ipc_decode KLz4 body
    else if decide (magic = [90; 83; 84; 68]) then ipc_decode KZstd body
    else if decide (magic = [78; 79; 78; 69]) then ipc_decode KNone body
    else None.

(** [decodeShuffleBlock]: the column check of [prepare_output]. *)
Definition decode_shuffle_block (bytes : list Z) (num_cols : nat) : option Batch :=
  b ← read_ipc_compressed bytes;
  if (0 <? num_cols)%nat && negb (num_columns b =? num_cols)%nat then None else Some b.

(** [NativeBatchDecoderIterator]: the unread input, and the fetched batch. *)
Record DecoderIterator := MkIterator { channel : list Z; isClosed : bool; it_batch : option Batch }.

(** While the class is initialised [channel] is still null when [fetchNext] runs, so
    nothing is fetched yet. *)
Definition iterator_new (input : list Z) : DecoderIterator := MkIterator input false None.

(** Reads until the buffer is full or the stream ends. *)
Definition read_full (n : nat) (channel : list Z) : list Z * list Z := (take n channel, drop n channel).

Definition fetchNext (it : DecoderIterator) : option (option Batch * DecoderIterator) :=
  if isClosed it then Some (None, it)
  else
    let '(longBuf, ch) := read_full 8 (channel it) in
    if (length longBuf <? 8)%nat then
      if (length longBuf =? 0)%nat then Some (None, MkIterator ch true (it_batch it)) else None
    else
      let compressedLength := i64 (le_bytes longBuf) in
      let '(longBuf, ch) := read_full 8 ch in
      if (length longBuf <? 8)%nat then None
      else
        let fieldCount := i32 (i64 (le_bytes longBuf)) in
        let bytesToRead := i64 (compressedLength - 8) in
        if (2 ^ 31 - 1 <? bytesToRead) || (bytesToRead <? 0) then None
        else
          let '(dataBuf, ch) := read_full (Z.to_nat bytesToRead) ch in
          if (length dataBuf <? Z.to_nat bytesToRead)%nat then None
          else
            b ← decode_shuffle_block dataBuf (Z.to_nat fieldCount);
            Some (Some b, MkIterator ch (isClosed it) (it_batch it)).

Definition set_batch (it : DecoderIterator) (b : option Batch) : DecoderIterator :=
  MkIterator (channel it) (isClosed it) b.

Definition hasNext (it : DecoderIterator) : option (bool * DecoderIterator) :=
  if isClosed it then Some (false, it)
  else match it_batch it with
       | Some _ => Some (true, it)
       | None =>
           '(b, it) ← fetchNext it;
           match b with
           | Some b => Some (true, set_batch it (Some b))
           | None => Some (false, MkIterator (channel it) true None)
           end
       end.

Definition next (it : DecoderIterator) : option (Batch * DecoderIterator) :=
  '(more, it) ← hasNext it;
  match more, it_batch it with
  | true, Some b => Some (b, set_batch it None)
  | _, _ => None
  end.

(** [while (it.hasNext) out += it.next()], in at most [fuel] rounds. *)
Fixpoint drain (fuel : nat) (it : DecoderIterator) : option (list Batch) :=
  match fuel with
  | O => None
  | S fuel =>
      '(more, it) ← hasNext it;
      match more with
      | false => Some []
      | true => '(b, it) ← next it; bs ← drain fuel it; Some (b :: bs)
      end
  end.

(** A block takes at least 16 bytes, so the input bounds the rounds. *)
Definition read_blocks (input : list Z) : option (list Batch) :=
  drain (S (length input)) (iterator_new input).
End Codec.
