(* ===== verification/ShuffleCodecProps.v ===== *)
(** Shuffle blocks written by [BufBatchWriter] are read back by the JVM iterator. *)

From S2P Require Import Prelude Lists ShuffleCodec.
From stdpp Require Import list.
Open Scope Z_scope.

(** A block: length, number of columns, codec name, body. *)
Definition block_of (fields : nat) (c : CompressionCodec) (ipc : list Z) : list Z :=
  to_le_bytes 8 (12 + Z.of_nat (length ipc)) ++ to_le_bytes 8 (Z.of_nat fields) ++ codec_header c ++ ipc.

Lemma length_codec_header c : length (codec_header c) = 4%nat.
Proof. by destruct c. Qed.

Lemma length_block_of fields c ipc : length (block_of fields c ipc) = (20 + length ipc)%nat.
Proof. unfold block_of. rewrite !length_app, !length_to_le_bytes, length_codec_header. lia. Qed.

(** Writing at the end of the vector appends. *)
Lemma cursor_write_end d bytes :
  cursor_write (MkCursor d (length d)) bytes = MkCursor (d ++ bytes) (length (d ++ bytes)).
Proof.
  unfold cursor_write. simpl. rewrite firstn_all, Nat.sub_diag, length_app, drop_ge by lia.
  simpl. by rewrite app_nil_r.
Qed.

(** Overwriting the middle of the vector. *)
Lemma cursor_write_middle d old new rest :
  length old = length new ->
  cursor_write (MkCursor (d ++ old ++ rest) (length d)) new
  = MkCursor (d ++ new ++ rest) (length d + length new).
Proof.
  intros Hl. unfold cursor_write. simpl. rewrite take_app_length.
  replace (length d - length (d ++ old ++ rest))%nat with 0%nat by (rewrite length_app; lia).
  rewrite (app_assoc d old rest), drop_app_length' by (rewrite length_app; lia). done.
Qed.

Lemma header_bytes_new fields c :
  header_bytes (block_writer_new fields c) = replicate 8 0 ++ to_le_bytes 8 (Z.of_nat fields) ++ codec_header c.
Proof.
  unfold block_writer_new. cbn [header_bytes].
  replace (cursor_write (cursor_seek (MkCursor [] 0) 8) (to_le_bytes 8 (Z.of_nat fields)))
    with (MkCursor (replicate 8 0 ++ to_le_bytes 8 (Z.of_nat fields)) (length (replicate 8 0 ++ to_le_bytes 8 (Z.of_nat fields)))).
  - rewrite cursor_write_end. cbn [c_data]. by rewrite <- app_assoc.
  - unfold cursor_write, cursor_seek. cbn [c_data c_pos length]. rewrite drop_nil, app_nil_r, length_app, length_replicate. done.
Qed.

Section CodecProps.
Context {Batch Row : Type} `{ArrowLaws Batch Row}.
Context (fields : nat) (c : CompressionCodec).

(** The bytes of a batch: none for an empty one, an error for an oversized block. *)
Definition block_bytes (b : Batch) : option (list Z) :=
  if (num_rows b =? 0)%nat then Some []
  else
    ipc ← ipc_encode c b;
    if 2 ^ 31 - 1 <? 12 + Z.of_nat (length ipc) then None else Some (block_of fields c ipc).

Lemma write_batch_spec b d :
  write_batch (block_writer_new fields c) b (MkCursor d (length d))
  = (bytes ← block_bytes b; Some (length bytes, MkCursor (d ++ bytes) (length (d ++ bytes)))).
Proof.
  unfold write_batch, block_bytes. destruct (num_rows b =? 0)%nat; [simpl; by rewrite app_nil_r|].
  change (codec (block_writer_new fields c)) with c.
  destruct (ipc_encode c b) as [ipc|]; [|done]. cbn [mbind option_bind c_pos].
  rewrite header_bytes_new, !cursor_write_end. cbn [c_pos c_data].
  set (hdr := to_le_bytes 8 (Z.of_nat fields) ++ codec_header c).
  assert (Hh : length hdr = 12%nat) by (unfold hdr; by rewrite length_app, length_to_le_bytes, length_codec_header).
  assert (El : Z.of_nat (length ((d ++ replicate 8 0 ++ hdr) ++ ipc)) - Z.of_nat (length d) - 8
    = 12 + Z.of_nat (length ipc)) by (rewrite !length_app, length_replicate, Hh; lia).
  rewrite El. destruct (2 ^ 31 - 1 <? 12 + Z.of_nat (length ipc)); [done|]. cbn [mbind option_bind].
  unfold cursor_seek at 2. cbn [c_data]. rewrite <- !app_assoc.
  rewrite cursor_write_middle by by rewrite length_to_le_bytes, length_replicate.
  unfold cursor_seek, block_of. fold hdr. cbn [c_data].
  rewrite (app_assoc _ (codec_header c)). fold hdr. do 2 f_equal.
  - rewrite !length_app, length_replicate, !length_to_le_bytes. lia.
  - f_equal. rewrite !length_app, length_replicate, !length_to_le_bytes. lia.
Qed.

(** Everything a buffered writer holds, written through or not. *)
Definition contents (w : BufBatchWriter) : list Z := writer w ++ buffer w.

Lemma buf_write_spec w b bytes :
  shuffle_block_writer w = block_writer_new fields c -> block_bytes b = Some bytes ->
  exists w', buf_write w b = Some (length bytes, w') /\
    shuffle_block_writer w' = block_writer_new fields c /\ contents w' = contents w ++ bytes.
Proof.
  intros Hw Hb. unfold buf_write. cbn [c_data]. unfold cursor_seek. cbn [c_data].
  rewrite Hw, write_batch_spec, Hb. cbn [mbind option_bind c_pos c_data].
  case_ltb; eexists; (split; [done|]); (split; [done|]); unfold contents; cbn [writer buffer].
  - by rewrite app_nil_r, app_assoc.
  - by rewrite app_assoc.
Qed.

Lemma buf_flush_spec w : writer (buf_flush w) = contents w.
Proof. done. Qed.

(** * Reading back *)

Lemma le_bytes_8 z : in_u 63 z -> i64 (le_bytes (to_le_bytes 8 z)) = z.
Proof.
  intros Hz. rewrite le_bytes_to_le_bytes. change (8 * Z.of_nat 8) with 64.
  rewrite wrap_small by (eapply in_u_mono; [| |done]; lia). unfold in_u in Hz.
  apply swrap_small; [lia|]. unfold in_s. change (64 - 1) with 63. lia.
Qed.

Lemma read_full_app n l rest : length l = n -> read_full n (l ++ rest) = (l, rest).
Proof. intros <-. unfold read_full. by rewrite take_app_length, drop_app_length. Qed.

Lemma read_ipc_compressed_spec ipc : read_ipc_compressed (codec_header c ++ ipc) = ipc_decode (codec_kind c) ipc.
Proof.
  unfold read_ipc_compressed. rewrite length_app, length_codec_header.
  rewrite take_app_length', drop_app_length' by (by rewrite length_codec_header). simp_tests. by destruct c.
Qed.

Lemma fetchNext_block b bytes rest ob :
  Z.of_nat fields < 2 ^ 31 -> num_columns b = fields -> num_rows b <> 0%nat -> block_bytes b = Some bytes ->
  exists b', fetchNext (MkIterator (bytes ++ rest) false ob) = Some (Some b', MkIterator rest false ob) /\
    batch_rows b' = batch_rows b /\ bytes <> [].
Proof.
  intros Hf Hc Hn Hb. unfold block_bytes in Hb. rewrite (proj2 (Nat.eqb_neq _ _) Hn) in Hb.
  destruct (ipc_encode c b) as [ipc|] eqn:E; [|done]. cbn [mbind option_bind] in Hb.
  destruct (Z.ltb_spec (2 ^ 31 - 1) (12 + Z.of_nat (length ipc))); [done|]. injection Hb as <-.
  destruct (ipc_roundtrip c b ipc E) as (b' & Hd & Hr & Hcol). exists b'.
  split; [|split; [done|]]; [|intros Hnil; apply (f_equal length) in Hnil; rewrite length_block_of in Hnil; done].
  unfold fetchNext, block_of. cbn [isClosed channel it_batch]. rewrite <- !app_assoc.
  rewrite read_full_app, length_to_le_bytes by apply length_to_le_bytes. change (8 <? 8)%nat with false. cbv iota.
  rewrite read_full_app, length_to_le_bytes by apply length_to_le_bytes. change (8 <? 8)%nat with false. cbv iota.
  rewrite !le_bytes_8 by (unfold in_u; lia).
  rewrite (swrap_small 32) by (unfold in_s; lia). rewrite (swrap_small 64) by (unfold in_s; lia).
  simp_tests. rewrite (app_assoc (codec_header c)).
  rewrite read_full_app by (rewrite length_app, length_codec_header; lia).
  simp_tests. rewrite length_app, length_codec_header. simp_tests.
  unfold decode_shuffle_block. rewrite read_ipc_compressed_spec, Hd. cbn [mbind option_bind].
  rewrite Nat2Z.id, Hcol, Hc, Nat.eqb_refl, andb_false_r. done.
Qed.

Lemma fetchNext_end ob : fetchNext (MkIterator [] false ob) = Some (None, MkIterator [] true ob).
Proof. done. Qed.

(** A file that holds the blocks of some batches. *)
Definition file_holds (file : list Z) (bs : list Batch) : Prop :=
  exists blocks, mapM block_bytes bs = Some blocks /\ file = concat blocks.

Lemma file_holds_nil : file_holds [] [].
Proof. by exists []. Qed.

Lemma file_holds_app f g bs bs' : file_holds f bs -> file_holds g bs' -> file_holds (f ++ g) (bs ++ bs').
Proof.
  intros (x & Hx & ->) (y & Hy & ->). exists (x ++ y). rewrite concat_app. split; [|done].
  apply mapM_Some. apply mapM_Some in Hx, Hy. by apply Forall2_app.
Qed.

Lemma file_holds_one b bytes : block_bytes b = Some bytes -> file_holds bytes [b].
Proof. intros E. exists [bytes]. simpl. rewrite E. simpl. by rewrite app_nil_r. Qed.

(** The iterator delivers the batches that have rows, in order, and then stops. *)
Lemma drain_spec fuel file bs :
  Z.of_nat fields < 2 ^ 31 -> Forall (fun b => num_columns b = fields) bs -> file_holds file bs ->
  (length file < fuel)%nat ->
  exists bs', drain fuel (MkIterator file false None) = Some bs' /\
    batch_rows <$> bs' = batch_rows <$> filter (fun b => num_rows b <> 0%nat) bs.
Proof.
  intros Hf. revert fuel file. induction bs as [|b bs IH]; intros fuel file Hc (blocks & Hm & ->) Hfuel.
  - simpl in Hm. injection Hm as <-. destruct fuel as [|fuel]; [simpl in Hfuel; lia|]. by exists [].
  - apply Forall_cons_1 in Hc as [Hcb Hc]. simpl in Hm. destruct (block_bytes b) as [bytes|] eqn:Eb; [|done].
    simpl in Hm. destruct (mapM block_bytes bs) as [blocks'|] eqn:Em; [|done]. simpl in Hm. injection Hm as <-.
    destruct (decide (num_rows b = 0%nat)) as [H0'|Hn].
    + rewrite filter_cons_False by (simpl; lia). unfold block_bytes in Eb. rewrite H0' in Eb. injection Eb as <-.
      apply (IH fuel); [done|by exists blocks'|done].
    + rewrite filter_cons_True by done. cbn [concat]. cbn [concat] in Hfuel.
      destruct (fetchNext_block b bytes (concat blocks') None Hf Hcb Hn Eb) as (b' & Ef & Hr & Hne).
      destruct fuel as [|fuel]; [lia|].
      destruct (IH fuel (concat blocks')) as (bs' & Ed & Er); [done|by exists blocks'|..].
      { rewrite length_app in Hfuel. destruct bytes; [done|]. simpl in Hfuel. lia. }
      exists (b' :: bs'). split; [|by rewrite !fmap_cons, Hr, Er].
      cbn [drain]. unfold hasNext at 1. cbn [isClosed it_batch]. rewrite Ef. cbn [mbind option_bind].
      unfold next, hasNext, set_batch. cbn [isClosed it_batch mbind option_bind channel].
      by rewrite Ed.
Qed.

Lemma read_blocks_spec file bs :
  Z.of_nat fields < 2 ^ 31 -> Forall (fun b => num_columns b = fields) bs -> file_holds file bs ->
  exists bs', read_blocks file = Some bs' /\
    batch_rows <$> bs' = batch_rows <$> filter (fun b => num_rows b <> 0%nat) bs.
Proof. intros Hf Hc Hh. apply drain_spec; [done..|lia]. Qed.

Lemma concat_nonempty_rows bs :
  concat (batch_rows <$> filter (fun b => num_rows b <> 0%nat) bs) = concat (batch_rows <$> bs).
Proof.
  induction bs as [|b bs IH]; [done|]. rewrite filter_cons. case_decide as Hn.
  - rewrite !fmap_cons; cbn [concat]. by rewrite IH.
  - rewrite fmap_cons; cbn [concat]. rewrite IH. unfold num_rows in Hn. destruct (batch_rows b); [done|]. simpl in Hn. lia.
Qed.

(** A sequence of [write] calls. *)
Fixpoint buf_write_all (w : BufBatchWriter) (bs : list Batch) : option (nat * BufBatchWriter) :=
  match bs with
  | [] => Some (0%nat, w)
  | b :: bs => '(n, w) ← buf_write w b; '(m, w) ← buf_write_all w bs; Some ((n + m)%nat, w)
  end.

Lemma buf_write_all_spec w bs :
  shuffle_block_writer w = block_writer_new fields c -> Forall (fun b => is_Some (block_bytes b)) bs ->
  exists file w', buf_write_all w bs = Some (length file, w') /\
    shuffle_block_writer w' = block_writer_new fields c /\
    contents w' = contents w ++ file /\ file_holds file bs.
Proof.
  revert w. induction bs as [|b bs IH]; intros w Hw Hb.
  - exists [], w. rewrite app_nil_r. by repeat split; try apply file_holds_nil.
  - apply Forall_cons_1 in Hb as [[bytes Eb] Hb]. destruct (buf_write_spec w b bytes Hw Eb) as (w1 & E1 & Hw1 & Hc1).
    destruct (IH w1 Hw1 Hb) as (file & w2 & E2 & Hw2 & Hc2 & Hh). exists (bytes ++ file), w2.
    split_and!; [|done|by rewrite Hc2, Hc1, app_assoc|].
    + cbn [buf_write_all]. rewrite E1. cbn [mbind option_bind]. rewrite E2. cbn [mbind option_bind].
      by rewrite length_app.
    + apply (file_holds_app _ _ [b]); [by apply file_holds_one|done].
Qed.

(** C25: The shuffle block format round-trips between the native writer and the JVM
    reader.  Batches written through [BufBatchWriter] (whatever the moments at which
    its buffer spills over) and flushed are delivered by [NativeBatchDecoderIterator]
    with the same rows and in the same order, empty batches left out; the byte count
    returned is the number of bytes that reached the file. *)
Theorem blocks_roundtrip bs :
  Z.of_nat fields < 2 ^ 31 -> Forall (fun b => num_columns b = fields) bs ->
  Forall (fun b => is_Some (block_bytes b)) bs ->
  exists n w bs', buf_write_all (buf_new (block_writer_new fields c) []) bs = Some (n, w) /\
    n = length (writer (buf_flush w)) /\
    read_blocks (writer (buf_flush w)) = Some bs' /\
    batch_rows <$> bs' = batch_rows <$> filter (fun b => num_rows b <> 0%nat) bs.
Proof.
  intros Hf Hc Hb. destruct (buf_write_all_spec (buf_new (block_writer_new fields c) []) bs eq_refl Hb)
    as (file & w & E & _ & Hw & Hh). cbn in Hw.
  destruct (read_blocks_spec file bs Hf Hc Hh) as (bs' & Er & Hr).
  exists (length file), w, bs'. rewrite buf_flush_spec, Hw. done.
Qed.
End CodecProps.

(** * An instance: one column of numbers, which the codecs store as they are *)

Module PlainArrow.
#[export] Instance plain_arrow : Arrow (list Z) Z := {
  batch_rows b := b;
  num_columns _ := 1%nat;
  batch_slice b off len := take len (drop off b);
  interleave_record_batch bs idx := mapM (fun ix => b ← bs !! ix.1; b !! ix.2) idx;
  concat_batches bs := Some (concat bs);
  ipc_encode _ b := Some b;
  ipc_decode _ bytes := Some bytes;
}.

#[export] Instance plain_arrow_laws : ArrowLaws (list Z) Z.
Proof.
  split; cbn.
  - done.
  - done.
  - intros bs idx rs m Hm Hc Hi. exists rs. split_and!; [exact Hm|done|].
    destruct bs; [|by apply Forall_cons_1 in Hc as [??]]. destruct idx; [done|]. by simpl in Hm.
  - intros bs m Hn Hc. exists (concat bs). split_and!; [done|by rewrite list_fmap_id|].
    destruct bs; [done|]. by apply Forall_cons_1 in Hc as [??].
  - intros cc b bytes [= <-]. by exists b.
Qed.
End PlainArrow.
Import PlainArrow.

Lemma blocks_roundtrip_witness : exists n w bs',
  buf_write_all (buf_new (block_writer_new 1 (Zstd 1)) []) [[1; 2]; []; [7]] = Some (n, w) /\
  n = length (writer (buf_flush w)) /\ read_blocks (writer (buf_flush w)) = Some bs' /\ bs' = [[1; 2]; [7]].
Proof.
  destruct (blocks_roundtrip 1 (Zstd 1) [[1; 2]; []; [7]]) as (n & w & bs' & E & Hn & Hr & Hb).
  - reflexivity.
  - repeat constructor.
  - repeat constructor; eexists; vm_compute; reflexivity.
  - exists n, w, bs'. split; [exact E|]. split; [exact Hn|]. split; [exact Hr|].
    transitivity (batch_rows <$> bs'); [symmetry; apply list_fmap_id|exact Hb].
Defined.
