(* ===== verification/Shuffle.v ===== *)
(** The native shuffle writer
    (src/native/core/src/execution/shuffle/shuffle_writer.rs and
    comet_partitioning.rs): the multi-partition repartitioner with its spilling, the
    single-partition one, and the driver that chooses between them.

    Files are the lists of their bytes.  The memory pool is asked by [try_grow] after
    every buffered batch; its answers are the parameter [grant] (the answer to the
    [i]-th request), so every theorem holds for every pattern of spills.  The metrics
    other than the spill counters are not modelled.  [None] is an error, a panic, or a
    loop that does not finish. *)

From S2P Require Import Prelude BitUtil HashArrays Partition ShuffleCodec.
From stdpp Require Import list.
Open Scope Z_scope.

Section Shuffle.
Context {Batch Row : Type} `{Arrow Batch Row}.
(** Arrow's [take] kernel; the order of the row format; the memory pool. *)
Context (take_kernel : Array -> list (option Z) -> option Array).
Context {K : Type} (key_le : K -> K -> bool).
Context (grant : nat -> bool).

(** The evaluated partition expressions are arrays for hash partitioning, and rows of
    the row format (one key per row) for range partitioning. *)
Inductive CometPartitioning :=
  | SinglePartition
  | HashPartitioning (evaluate : Batch -> option (list Array)) (n : nat)
  | RangePartitioning (row_keys : Batch -> option (list K)) (n : nat) (bounds : list K).

Definition partition_count (p : CometPartitioning) : nat :=
  match p with SinglePartition => 1 | HashPartitioning _ n | RangePartitioning _ n _ => n end.

(** * Buffered rows of one partition, as batches *)

Record PartitionedBatchIterator := MkIter {
  record_batches : list Batch; iter_batch_size : nat; iter_indices : list (nat * nat); iter_position : nat }.

Definition iter_new (indices : list (Z * Z)) (buffered : list Batch) (batch_size : nat) : PartitionedBatchIterator :=
  match indices with
  | [] => MkIter [] batch_size [] 0
  | _ => MkIter buffered batch_size ((fun ix => (Z.to_nat ix.1, Z.to_nat ix.2)) <$> indices) 0
  end.

Definition iter_next (it : PartitionedBatchIterator) : option (option Batch * PartitionedBatchIterator) :=
  if (length (iter_indices it) <=? iter_position it)%nat then Some (None, it)
  else
    let indices_end := Nat.min (iter_position it + iter_batch_size it) (length (iter_indices it)) in
    let indices := take (indices_end - iter_position it) (drop (iter_position it) (iter_indices it)) in
    batch ← interleave_record_batch (record_batches it) indices;
    Some (Some batch, MkIter (record_batches it) (iter_batch_size it) (iter_indices it) indices_end).

(** [for batch in iter { bytes_written += writer.write(batch)?; }] *)
Fixpoint write_iter (fuel : nat) (it : PartitionedBatchIterator) (w : BufBatchWriter)
    : option (nat * BufBatchWriter) :=
  match fuel with
  | O => None
  | S fuel =>
      '(b, it) ← iter_next it;
      match b with
      | None => Some (0%nat, w)
      | Some b => '(n, w) ← buf_write w b; '(m, w) ← write_iter fuel it w; Some ((n + m)%nat, w)
      end
  end.

(** Every round but the last consumes an index, unless the batch size is zero. *)
Definition iter_fuel (it : PartitionedBatchIterator) : nat := S (length (iter_indices it)).

(** [PartitionWriter::spill] on the partition's spill file. *)
Definition partition_spill (bw : ShuffleBlockWriter) (spill_file : option (list Z)) (it : PartitionedBatchIterator)
    : option (nat * option (list Z)) :=
  '(b, it) ← iter_next it;
  match b with
  | None => Some (0%nat, spill_file)
  | Some b =>
      let w := buf_new bw (default [] spill_file) in
      '(n, w) ← buf_write w b;
      '(m, w) ← write_iter (iter_fuel it) it w;
      Some ((n + m)%nat, Some (writer (buf_flush w)))
  end.

(** * The multi-partition repartitioner *)

Record MultiPartitionShuffleRepartitioner := MkMulti {
  buffered_batches : list Batch;
  partition_indices : list (list (Z * Z));
  spill_files : list (option (list Z));
  block_writer : ShuffleBlockWriter;
  partitioning : CometPartitioning;
  scratch : ScratchSpace;
  batch_size : nat;
  spill_count : nat;
  spilled_bytes : nat;
  grow_requests : nat;
}.

Definition multi_new (fields : nat) (p : CometPartitioning) (bs : nat) (c : CompressionCodec)
    : option MultiPartitionShuffleRepartitioner :=
  let n := partition_count p in
  if (n =? 1)%nat then None
  else
    let hashes := match p with HashPartitioning _ _ => replicate bs 0 | _ => [] end in
    Some (MkMulti [] (replicate n []) (replicate n None) (block_writer_new fields c) p
      (MkScratch hashes (replicate bs 0) (replicate bs 0) (replicate (n + 1) 0)) bs 0 0 0).

(** The partition numbers of the rows of a batch, in the scratch space. *)
Definition set_partition_ids (s : ScratchSpace) (hashes ids : list Z) : ScratchSpace :=
  MkScratch hashes (ids ++ drop (length ids) (partition_ids s)) (partition_row_indices s) (partition_starts s).

Definition hash_partition_ids (evaluate : Batch -> option (list Array)) (n : nat) (input : Batch) (s : ScratchSpace)
    : option (nat * ScratchSpace) :=
  arrays ← evaluate input;
  first ← arrays !! 0%nat;
  let rows := array_len first in
  if (length (hashes_buf s) <? rows)%nat || (length (partition_ids s) <? rows)%nat then None
  else
    hashes ← create_murmur3_hashes take_kernel arrays (replicate rows 42);
    ids ← mapM (fun h => p ← pmod h (Z.of_nat n); Some (u32 p)) hashes;
    Some (rows, set_partition_ids s (hashes ++ drop rows (hashes_buf s)) ids).

Definition range_partition_ids (row_keys : Batch -> option (list K)) (bounds : list K) (input : Batch) (s : ScratchSpace)
    : option (nat * ScratchSpace) :=
  keys ← row_keys input;
  let rows := length keys in
  if (length (partition_ids s) <? rows)%nat then None
  else
    let ids := (fun k => u32 (Z.of_nat (partition_point (fun bound => key_le bound k) bounds))) <$> keys in
    Some (rows, set_partition_ids s (hashes_buf s) ids).

Definition compute_partition_ids (p : CometPartitioning) (input : Batch) (s : ScratchSpace)
    : option (nat * ScratchSpace) :=
  match p with
  | HashPartitioning evaluate n => hash_partition_ids evaluate n input s
  | RangePartitioning row_keys _ bounds => range_partition_ids row_keys bounds input s
  | SinglePartition => None
  end.

(** The loop over the non-empty windows of [partition_starts], from partition [pid]. *)
Fixpoint push_indices (batch_idx : Z) (row_indices : list Z) (pid : nat) (starts : list Z)
    (indices : list (list (Z * Z))) : option (list (list (Z * Z))) :=
  match starts with
  | s :: ((e :: _) as starts) =>
      if s <? e then
        rows ← slice row_indices (Z.to_nat s) (Z.to_nat e);
        old ← indices !! pid;
        push_indices batch_idx row_indices (S pid) starts (<[pid := old ++ ((fun r => (batch_idx, r)) <$> rows)]> indices)
      else push_indices batch_idx row_indices (S pid) starts indices
  | _ => Some indices
  end.

(** The loop of [spill] over the partitions from [i]. *)
Fixpoint spill_partitions (bw : ShuffleBlockWriter) (batches : list Batch) (indices : list (list (Z * Z))) (bs i : nat)
    (files : list (option (list Z))) : option (nat * list (option (list Z))) :=
  match files with
  | [] => Some (0%nat, [])
  | file :: files =>
      ix ← indices !! i;
      '(n, file) ← partition_spill bw file (iter_new ix batches bs);
      '(m, files) ← spill_partitions bw batches indices bs (S i) files;
      Some ((n + m)%nat, file :: files)
  end.

Definition spill (self : MultiPartitionShuffleRepartitioner) : option MultiPartitionShuffleRepartitioner :=
  match buffered_batches self with
  | [] => Some self
  | _ =>
      '(n, files) ← spill_partitions (block_writer self) (buffered_batches self) (partition_indices self)
                      (batch_size self) 0 (spill_files self);
      Some (MkMulti [] (replicate (length (partition_indices self)) []) files (block_writer self)
        (partitioning self) (scratch self) (batch_size self) (S (spill_count self)) (spilled_bytes self + n)
        (grow_requests self))
  end.

Definition buffer_partitioned_batch_may_spill (self : MultiPartitionShuffleRepartitioner) (input : Batch)
    (row_indices starts : list Z) : option MultiPartitionShuffleRepartitioner :=
  let buffered_partition_idx := u32 (Z.of_nat (length (buffered_batches self))) in
  indices ← push_indices buffered_partition_idx row_indices 0 starts (partition_indices self);
  let self := MkMulti (buffered_batches self ++ [input]) indices (spill_files self) (block_writer self)
    (partitioning self) (scratch self) (batch_size self) (spill_count self) (spilled_bytes self)
    (S (grow_requests self)) in
  if grant (grow_requests self) then Some self else spill self.

Definition set_scratch (self : MultiPartitionShuffleRepartitioner) (s : ScratchSpace) :=
  MkMulti (buffered_batches self) (partition_indices self) (spill_files self) (block_writer self)
    (partitioning self) s (batch_size self) (spill_count self) (spilled_bytes self) (grow_requests self).

Definition partitioning_batch (self : MultiPartitionShuffleRepartitioner) (input : Batch)
    : option MultiPartitionShuffleRepartitioner :=
  if (num_rows input =? 0)%nat then Some self
  else if (batch_size self <? num_rows input)%nat then None
  else
    '(rows, s) ← compute_partition_ids (partitioning self) input (scratch self);
    s ← map_partition_ids_to_starts_and_indices s (partition_count (partitioning self)) rows;
    self ← buffer_partitioned_batch_may_spill self input (partition_row_indices s) (partition_starts s);
    Some (set_scratch self s).

(** [insert_batch]: slices of at most [batch_size] rows from [start] on. *)
Fixpoint insert_slices (fuel : nat) (self : MultiPartitionShuffleRepartitioner) (batch : Batch) (start : nat)
    : option MultiPartitionShuffleRepartitioner :=
  if (start <? num_rows batch)%nat then
    match fuel with
    | O => None
    | S fuel =>
        let end_ := Nat.min (start + batch_size self) (num_rows batch) in
        self ← partitioning_batch self (batch_slice batch start (end_ - start));
        insert_slices fuel self batch end_
    end
  else Some self.

Definition multi_insert_batch (self : MultiPartitionShuffleRepartitioner) (batch : Batch) :=
  insert_slices (num_rows batch) self batch 0.

(** [shuffle_write]: the loop over the partitions from [i], with the offsets seen. *)
Fixpoint write_partitions (n : nat) (self : MultiPartitionShuffleRepartitioner) (i : nat) (output_data : list Z)
    : option (list Z * list Z) :=
  match n with
  | O => Some (output_data, [])
  | S n =>
      file ← spill_files self !! i;
      let offset := Z.of_nat (length output_data) in
      let output_data := output_data ++ default [] file in
      ix ← partition_indices self !! i;
      let it := iter_new ix (buffered_batches self) (batch_size self) in
      '(_, w) ← write_iter (iter_fuel it) it (buf_new (block_writer self) output_data);
      '(output_data, offsets) ← write_partitions n self (S i) (writer (buf_flush w));
      Some (output_data, offset :: offsets)
  end.

(** The data and index files. *)
Record ShuffleOutput := MkOutput { data_file : list Z; index_file : list Z }.

Definition index_bytes (offsets : list Z) : list Z := concat (to_le_bytes 8 <$> offsets).

Definition multi_shuffle_write (self : MultiPartitionShuffleRepartitioner) : option ShuffleOutput :=
  '(output_data, offsets) ← write_partitions (length (partition_indices self)) self 0 [];
  Some (MkOutput output_data (index_bytes (offsets ++ [Z.of_nat (length output_data)]))).

(** * The single-partition shuffle *)

Record SinglePartitionShufflePartitioner := MkSingle {
  output_data_writer : BufBatchWriter;
  single_buffered : list Batch;
  num_buffered_rows : nat;
  single_batch_size : nat;
}.

Definition single_new (fields bs : nat) (c : CompressionCodec) : SinglePartitionShufflePartitioner :=
  MkSingle (buf_new (block_writer_new fields c) []) [] 0 bs.

Definition add_buffered_batch (self : SinglePartitionShufflePartitioner) (batch : Batch) :=
  MkSingle (output_data_writer self) (single_buffered self ++ [batch])
    (num_buffered_rows self + num_rows batch) (single_batch_size self).

Definition concat_buffered_batches (self : SinglePartitionShufflePartitioner)
    : option (option Batch * SinglePartitionShufflePartitioner) :=
  match single_buffered self with
  | [] => Some (None, self)
  | [batch] => Some (Some batch, MkSingle (output_data_writer self) [] 0 (single_batch_size self))
  | batches =>
      batch ← concat_batches batches;
      Some (Some batch, MkSingle (output_data_writer self) [] 0 (single_batch_size self))
  end.

Definition single_write (self : SinglePartitionShufflePartitioner) (batch : Batch) :=
  '(_, w) ← buf_write (output_data_writer self) batch;
  Some (MkSingle w (single_buffered self) (num_buffered_rows self) (single_batch_size self)).

(** Writes out the buffered batches. *)
Definition write_buffered (self : SinglePartitionShufflePartitioner) : option SinglePartitionShufflePartitioner :=
  '(b, self) ← concat_buffered_batches self;
  match b with Some b => single_write self b | None => Some self end.

Definition single_insert_batch (self : SinglePartitionShufflePartitioner) (batch : Batch)
    : option SinglePartitionShufflePartitioner :=
  let rows := num_rows batch in
  if (rows =? 0)%nat then Some self
  else if (single_batch_size self <=? rows)%nat || (single_batch_size self <? rows + num_buffered_rows self)%nat then
    self ← write_buffered self;
    if (single_batch_size self <=? rows)%nat then single_write self batch
    else Some (add_buffered_batch self batch)
  else Some (add_buffered_batch self batch).

Definition single_shuffle_write (self : SinglePartitionShufflePartitioner) : option ShuffleOutput :=
  self ← write_buffered self;
  let data := writer (buf_flush (output_data_writer self)) in
  Some (MkOutput data (index_bytes [0; Z.of_nat (length data)])).

(** * The driver *)

Fixpoint insert_all {S} (insert : S -> Batch -> option S) (s : S) (input : list Batch) : option S :=
  match input with
  | [] => Some s
  | batch :: input => s ← insert s batch; insert_all insert s input
  end.

Definition external_shuffle (fields bs : nat) (c : CompressionCodec) (p : CometPartitioning) (input : list Batch)
    : option ShuffleOutput :=
  if (partition_count p =? 1)%nat then
    s ← insert_all single_insert_batch (single_new fields bs c) input;
    single_shuffle_write s
  else
    s ← multi_new fields p bs c;
    s ← insert_all multi_insert_batch s input;
    multi_shuffle_write s.
End Shuffle.

(** * Committing the output (CometNativeShuffleWriter.scala, [write])

    The JVM turns the index file into partition lengths; Spark's block resolver then
    serves partition [k] as the [k]-th of the consecutive segments of these lengths. *)

Fixpoint grouped8 (fuel : nat) (bytes : list Z) : list (list Z) :=
  match fuel, bytes with
  | S fuel, _ :: _ => take 8 bytes :: grouped8 fuel (drop 8 bytes)
  | _, _ => []
  end.

(** [ByteBuffer.getLong], little-endian: fails on fewer than eight bytes. *)
Definition get_long (b : list Z) : option Z := if (length b <? 8)%nat then None else Some (i64 (le_bytes b)).

Fixpoint lengths_from (offset : Z) (offsets : list Z) : list Z :=
  match offsets with
  | [] => []
  | o :: offsets => i64 (o - offset) :: lengths_from o offsets
  end.

Definition partition_lengths (index : list Z) : option (list Z) :=
  offsets ← mapM get_long (drop 1 (grouped8 (length index) index));
  Some (lengths_from 0 offsets).

Definition partition_segment (out : ShuffleOutput) (k : nat) : option (list Z) :=
  lengths ← partition_lengths (index_file out);
  let offset := foldr Z.add 0 (take k lengths) in
  len ← lengths !! k;
  slice (data_file out) (Z.to_nat offset) (Z.to_nat (offset + len)).
