(* ===== verification/ShuffleProps.v ===== *)
(** The shuffle writer: its loops over buffered rows and partitions. *)

From S2P Require Import Prelude BitUtil Lists HashArrays Partition ShuffleCodec ShuffleCodecProps Shuffle.
From stdpp Require Import list.
Open Scope Z_scope.

(** * Row indices *)

Lemma mapM_take_drop {A B} (f : A -> option B) l l' n :
  mapM f l = Some l' -> mapM f (take n l) = Some (take n l') /\ mapM f (drop n l) = Some (drop n l').
Proof.
  intros Hl. apply mapM_Some in Hl. split; apply mapM_Some; [by apply Forall2_take|by apply Forall2_drop].
Qed.

(** The rows of a group, looked up, are the filtered rows. *)
Lemma rows_of_snoc k ns x :
  rows_of k (ns ++ [x]) = rows_of k ns ++ (if decide (x = k) then [length ns] else []).
Proof.
  unfold rows_of. rewrite length_app, Nat.add_1_r, seq_S, filter_app. f_equal.
  - apply filter_iff_in. intros i Hi. apply elem_of_seq in Hi. by rewrite lookup_app_l by lia.
  - simpl. rewrite filter_cons, filter_nil. rewrite lookup_app_r, Nat.sub_diag by lia. simpl.
    repeat case_decide; naive_solver.
Qed.

Lemma mapM_ext_in {A B} (f g : A -> option B) l :
  (forall x, x ∈ l -> f x = g x) -> mapM f l = mapM g l.
Proof.
  induction l as [|x l IH]; intros E; [done|]. simpl. rewrite E by constructor.
  rewrite IH; [done|]. intros y Hy. apply E. by constructor.
Qed.

Lemma mapM_rows_of {A} (f : A -> nat) (l : list A) k :
  mapM (fun i => l !! i) (rows_of k (f <$> l)) = Some (filter (fun x => f x = k) l).
Proof.
  induction l as [|x l IH] using rev_ind; [done|].
  rewrite fmap_app. cbn [fmap list_fmap]. rewrite rows_of_snoc, filter_app. apply mapM_app_Some.
  - rewrite <- IH. apply mapM_ext_in. intros i Hi. apply list_elem_of_filter in Hi as [_ Hi].
    apply elem_of_seq in Hi. rewrite length_fmap in Hi. by rewrite lookup_app_l by lia.
  - rewrite length_fmap, filter_cons, filter_nil. case_decide; [|done]. simpl.
    by rewrite lookup_app_r, Nat.sub_diag by lia.
Qed.

Section ShuffleProps.
Context {Batch Row : Type} `{ArrowLaws Batch Row}.

(** Index pairs as [usize]. *)
Definition usize_pair (ix : Z * Z) : nat * nat := (Z.to_nat ix.1, Z.to_nat ix.2).

(** The rows the indices of a partition name. *)
Definition indexed_rows (batches : list Batch) (ix : list (Z * Z)) : option (list Row) :=
  mapM (row_at batches) (usize_pair <$> ix).

Lemma indexed_rows_old batches b ix rs :
  indexed_rows batches ix = Some rs -> indexed_rows (batches ++ [b]) ix = Some rs.
Proof.
  unfold indexed_rows. rewrite !mapM_Some. intros Hf. eapply Forall2_impl; [exact Hf|].
  intros [i j] r. unfold row_at. simpl. intros Hr. destruct (batches !! i) eqn:E; [|done].
  rewrite lookup_app_l; [by rewrite E|]. by apply lookup_lt_Some in E.
Qed.

(** The indices pushed for a new batch. *)
Lemma indexed_rows_new batches b k (pid : Row -> nat) :
  indexed_rows (batches ++ [b])
    ((fun r => (Z.of_nat (length batches), r)) <$> (Z.of_nat <$> rows_of k (pid <$> batch_rows b)))
  = Some (filter (fun r => pid r = k) (batch_rows b)).
Proof.
  unfold indexed_rows. rewrite <- (mapM_rows_of pid), <- !list_fmap_compose.
  assert (G : forall js, mapM (row_at (batches ++ [b])) ((fun j => usize_pair (Z.of_nat (length batches), Z.of_nat j)) <$> js)
    = mapM (fun i => batch_rows b !! i) js); [|apply G].
  induction js as [|j js IH]; [done|]. rewrite fmap_cons. cbn [mapM]. rewrite IH.
  unfold usize_pair, row_at. cbn [fst snd]. rewrite !Nat2Z.id, lookup_app_r, Nat.sub_diag by lia. done.
Qed.

Lemma indexed_rows_app batches ix ix' rs rs' :
  indexed_rows batches ix = Some rs -> indexed_rows batches ix' = Some rs' ->
  indexed_rows batches (ix ++ ix') = Some (rs ++ rs').
Proof. unfold indexed_rows. rewrite fmap_app. apply mapM_app_Some. Qed.

Lemma buffered_le_rows (bb : list Batch) :
  Forall (fun b => 0 < num_rows b)%nat bb -> (length bb <= length (concat (batch_rows <$> bb)))%nat.
Proof.
  induction 1 as [|b bb Hb _ IH]; [done|]. rewrite fmap_cons. cbn [concat length].
  rewrite length_app. unfold num_rows in Hb. lia.
Qed.

(** * Pushing the indices of a grouped batch *)

Lemma vec_drop n g k :
  (k < n)%nat -> drop k (vec n g) = Z.of_nat (g k) :: drop (S k) (vec n g).
Proof. intros Hk. apply drop_S. by apply vec_lookup. Qed.

Lemma push_indices_step idx ri pid s e rest pi :
  push_indices idx ri pid (s :: e :: rest) pi
  = if s <? e then
      rows ← slice ri (Z.to_nat s) (Z.to_nat e);
      old ← pi !! pid;
      push_indices idx ri (S pid) (e :: rest) (<[pid := old ++ ((fun r => (idx, r)) <$> rows)]> pi)
    else push_indices idx ri (S pid) (e :: rest) pi.
Proof. done. Qed.

Lemma push_indices_spec idx ri n ns pid pi :
  (forall k, take (cnt k ns) (drop (start k ns) ri) = Z.of_nat <$> rows_of k ns) -> length ri = length ns ->
  length pi = n -> (pid <= n)%nat ->
  exists pi', push_indices idx ri pid (drop pid (vec (n + 1) (fun k => start k ns))) pi = Some pi' /\
    length pi' = n /\
    forall k old, pi !! k = Some old ->
      pi' !! k = Some (if decide (pid <= k)%nat then old ++ ((fun r => (idx, r)) <$> (Z.of_nat <$> rows_of k ns)) else old).
Proof.
  intros Hg Hl. remember (n - pid)%nat as d eqn:Ed. revert pid pi Ed.
  induction d as [|d IH]; intros pid pi Ed Hpi Hp.
  - exists pi. rewrite vec_drop by lia. rewrite drop_ge by (rewrite length_vec; lia). split_and!; [done|done|].
    intros k old Hk. apply lookup_lt_Some in Hk as Hlt. rewrite decide_False by lia. done.
  - rewrite vec_drop by lia. rewrite (vec_drop _ _ (S pid)) by lia. rewrite push_indices_step.
    rewrite <- (vec_drop (n + 1) (fun k => start k ns) (S pid)) by lia.
    pose proof (start_S pid ns) as Hs. pose proof (start_le (S pid) ns) as Hsl.
    pose proof (length_rows_of pid ns) as Hr.
    destruct (Z.ltb_spec (Z.of_nat (start pid ns)) (Z.of_nat (start (S pid) ns))) as [Hlt|Hge].
    + rewrite !Nat2Z.id. unfold slice. simp_tests. replace (start (S pid) ns - start pid ns)%nat with (cnt pid ns) by lia.
      rewrite Hg. cbn [mbind option_bind].
      destruct (lookup_lt_is_Some_2 pi pid ltac:(lia)) as [old Hold]. rewrite Hold. cbn [mbind option_bind].
      destruct (IH (S pid) (<[pid:=old ++ ((fun r => (idx, r)) <$> (Z.of_nat <$> rows_of pid ns))]> pi))
        as (pi' & E & Hl' & Hk'); [lia|by rewrite length_insert|lia|].
      exists pi'. split_and!; [exact E|done|]. intros k o Hk. destruct (decide (k = pid)) as [->|Hne].
      * rewrite decide_True by lia. simplify_eq.
        rewrite (Hk' _ _ (list_lookup_insert_eq _ _ _ (lookup_lt_Some _ _ _ Hold))). by rewrite decide_False by lia.
      * rewrite (Hk' k o) by by rewrite list_lookup_insert_ne. repeat case_decide; lia || done.
    + destruct (IH (S pid) pi) as (pi' & E & Hl' & Hk'); [lia..|].
      exists pi'. split_and!; [exact E|done|]. intros k o Hk. rewrite (Hk' k o Hk).
      destruct (decide (k = pid)) as [->|Hne]; [|repeat case_decide; lia || done].
      rewrite decide_False, decide_True by lia. destruct (rows_of pid ns); [by rewrite app_nil_r|]. simpl in Hr. lia.
Qed.
End ShuffleProps.

(** * Writing the rows of a partition *)

Section WriteRows.
Context {Batch Row : Type} `{ArrowLaws Batch Row}.
Context (fields : nat) (c : CompressionCodec) (bs : nat).

(** Bytes that hold the blocks of batches with these rows. *)
Definition segment_ok (seg : list Z) (rs : list Row) : Prop :=
  exists batches, file_holds fields c seg batches /\ concat (batch_rows <$> batches) = rs /\
    Forall (fun b => num_columns b = fields) batches.

Lemma segment_ok_nil : segment_ok [] [].
Proof. exists []. split_and!; [apply file_holds_nil|done|constructor]. Qed.

Lemma segment_ok_app seg seg' rs rs' :
  segment_ok seg rs -> segment_ok seg' rs' -> segment_ok (seg ++ seg') (rs ++ rs').
Proof.
  intros (x & Hx & <- & Cx) (y & Hy & <- & Cy). exists (x ++ y).
  rewrite fmap_app, concat_app. split_and!; [by apply file_holds_app|done|by apply Forall_app].
Qed.

Lemma segment_ok_one b bytes :
  block_bytes fields c b = Some bytes -> num_columns b = fields -> segment_ok bytes (batch_rows b).
Proof.
  intros Hb Hc. exists [b]. rewrite fmap_cons. simpl. rewrite app_nil_r.
  split_and!; [by apply file_holds_one|done|by repeat constructor].
Qed.

Lemma segment_ok_read seg rs :
  Z.of_nat fields < 2 ^ 31 -> segment_ok seg rs ->
  exists batches, read_blocks seg = Some batches /\ concat (batch_rows <$> batches) = rs.
Proof.
  intros Hf (x & Hx & <- & Cx). destruct (read_blocks_spec fields c seg x Hf Cx Hx) as (y & E & Hy).
  exists y. by rewrite Hy, concat_nonempty_rows.
Qed.

(** Batches of the configured size can be encoded. *)
Definition encodable : Prop := forall b : Batch,
  num_columns b = fields -> (0 < num_rows b <= bs)%nat -> is_Some (block_bytes fields c b).

Context (Hbs : (0 < bs)%nat) (Henc : encodable).

Lemma iter_next_spec batches idx pos rs :
  Forall (fun b => num_columns b = fields) batches -> mapM (row_at batches) (drop pos idx) = Some rs ->
  if decide (length idx <= pos)%nat then iter_next (MkIter batches bs idx pos) = Some (None, MkIter batches bs idx pos)
  else exists b, iter_next (MkIter batches bs idx pos) = Some (Some b, MkIter batches bs idx (Nat.min (pos + bs) (length idx))) /\
         batch_rows b = take bs rs /\ num_columns b = fields /\ (0 < num_rows b <= bs)%nat /\
         mapM (row_at batches) (drop (Nat.min (pos + bs) (length idx)) idx) = Some (drop bs rs).
Proof.
  intros Hc Hm. unfold iter_next. cbn [iter_indices iter_position iter_batch_size record_batches].
  pose proof (mapM_length_eq _ _ _ Hm) as Hlen. rewrite length_drop in Hlen.
  case_decide as Hp; simp_tests; [done|].
  destruct (mapM_take_drop _ _ _ bs Hm) as [Ht Hd].
  assert (Et : take (Nat.min (pos + bs) (length idx) - pos) (drop pos idx) = take bs (drop pos idx)).
  { destruct (Nat.le_gt_cases (pos + bs) (length idx)); [f_equal; lia|].
    rewrite !take_ge by (rewrite length_drop; lia). done. }
  rewrite Et. destruct (interleave_rows _ _ _ _ Ht Hc) as (b & E & Hr & Hcb).
  { intros Hnil. apply (f_equal length) in Hnil. rewrite length_take, length_drop in Hnil. simpl in Hnil. lia. }
  rewrite E. cbn [mbind option_bind]. exists b. split_and!; try done.
  - unfold num_rows. rewrite Hr, length_take. lia.
  - unfold num_rows. rewrite Hr, length_take. lia.
  - rewrite drop_drop in Hd. destruct (Nat.le_gt_cases (pos + bs) (length idx)); [by rewrite Nat.min_l by lia|].
    rewrite Nat.min_r, drop_ge by lia. by rewrite drop_ge in Hd by lia.
Qed.

Lemma write_iter_spec fuel batches idx pos rs w :
  Forall (fun b => num_columns b = fields) batches -> mapM (row_at batches) (drop pos idx) = Some rs ->
  (length idx - pos < fuel)%nat -> shuffle_block_writer w = block_writer_new fields c ->
  exists seg w', write_iter fuel (MkIter batches bs idx pos) w = Some (length seg, w') /\
    shuffle_block_writer w' = block_writer_new fields c /\ contents w' = contents w ++ seg /\ segment_ok seg rs.
Proof.
  intros Hc. revert pos rs w. induction fuel as [|fuel IH]; intros pos rs w Hm Hf Hw; [lia|].
  pose proof (iter_next_spec batches idx pos rs Hc Hm) as Hn. pose proof (mapM_length_eq _ _ _ Hm) as Hlen.
  rewrite length_drop in Hlen. cbn [write_iter]. case_decide as Hp.
  - rewrite Hn. cbn [mbind option_bind]. exists [], w. rewrite app_nil_r.
    assert (rs = []) as -> by (apply nil_length_inv; lia). split_and!; try done. apply segment_ok_nil.
  - destruct Hn as (b & -> & Hr & Hcb & Hnb & Hm'). cbn [mbind option_bind].
    destruct (Henc b Hcb Hnb) as [bytes Hb]. destruct (buf_write_spec fields c w b bytes Hw Hb) as (w1 & -> & Hw1 & Hc1).
    cbn [mbind option_bind].
    destruct (IH _ _ w1 Hm') as (seg & w2 & -> & Hw2 & Hc2 & Hs); [lia|done|]. cbn [mbind option_bind].
    exists (bytes ++ seg), w2. split_and!; [by rewrite length_app|done|by rewrite Hc2, Hc1, app_assoc|].
    rewrite <- (take_drop bs rs), <- Hr. apply segment_ok_app; [by apply segment_ok_one|done].
Qed.

(** The iterator over the buffered rows of a partition. *)
Lemma iter_new_spec ix batches :
  exists batches', iter_new ix batches bs = MkIter batches' bs (usize_pair <$> ix) 0 /\
    (Forall (fun b => num_columns b = fields) batches -> Forall (fun b => num_columns b = fields) batches') /\
    mapM (row_at batches') (usize_pair <$> ix) = indexed_rows batches ix.
Proof.
  destruct ix as [|x ix]; [exists []|exists batches]; (split_and!; [done|done || constructor|done]).
Qed.

Lemma write_partition_spec ix batches rs w :
  Forall (fun b => num_columns b = fields) batches -> indexed_rows batches ix = Some rs ->
  shuffle_block_writer w = block_writer_new fields c ->
  exists seg w', write_iter (iter_fuel (iter_new ix batches bs)) (iter_new ix batches bs) w = Some (length seg, w') /\
    contents w' = contents w ++ seg /\ segment_ok seg rs.
Proof.
  intros Hc Hi Hw. destruct (iter_new_spec ix batches) as (batches' & -> & Hc' & Hm). rewrite Hi in Hm.
  destruct (write_iter_spec (iter_fuel (MkIter batches' bs (usize_pair <$> ix) 0)) batches' (usize_pair <$> ix) 0 rs w)
    as (seg & w' & E & _ & Hcon & Hs); [by apply Hc'|by rewrite drop_0|unfold iter_fuel; cbn [iter_indices]; lia|done|].
  by exists seg, w'.
Qed.

(** Spilling appends the buffered rows to the partition's file. *)
Lemma partition_spill_spec file ix batches rs :
  Forall (fun b => num_columns b = fields) batches -> indexed_rows batches ix = Some rs ->
  exists seg file', partition_spill (block_writer_new fields c) file (iter_new ix batches bs) = Some (length seg, file') /\
    default [] file' = default [] file ++ seg /\ segment_ok seg rs.
Proof.
  intros Hc Hi. destruct (iter_new_spec ix batches) as (batches' & -> & Hc' & Hm). rewrite Hi in Hm.
  pose proof (iter_next_spec batches' (usize_pair <$> ix) 0 rs (Hc' Hc)) as Hn. rewrite drop_0 in Hn.
  specialize (Hn Hm). pose proof (mapM_length_eq _ _ _ Hm) as Hlen. unfold partition_spill. case_decide as Hp.
  - rewrite Hn. cbn [mbind option_bind]. exists [], file. rewrite app_nil_r.
    assert (rs = []) as -> by (apply nil_length_inv; lia). split_and!; try done. apply segment_ok_nil.
  - destruct Hn as (b & -> & Hr & Hcb & Hnb & Hm'). cbn [mbind option_bind].
    destruct (Henc b Hcb Hnb) as [bytes Hb].
    destruct (buf_write_spec fields c (buf_new (block_writer_new fields c) (default [] file)) b bytes eq_refl Hb) as (w1 & -> & Hw1 & Hc1).
    cbn [mbind option_bind].
    edestruct write_iter_spec as (seg & w2 & -> & _ & Hc2 & Hs); [by apply Hc'|exact Hm'| |exact Hw1|].
    { unfold iter_fuel. cbn [iter_indices]. lia. }
    cbn [mbind option_bind]. eexists (bytes ++ seg), _. split_and!; [by rewrite length_app|..].
    + cbn [default]. rewrite buf_flush_spec, Hc2, Hc1. unfold contents, buf_new. cbn [writer buffer].
      by rewrite app_nil_r, app_assoc.
    + rewrite <- (take_drop bs rs), <- Hr. apply segment_ok_app; [by apply segment_ok_one|done].
Qed.
End WriteRows.
