(* ===== verification/ShuffleCorrect.v ===== *)
(** The shuffle delivers every row to its partition: the invariant of the repartitioner,
    the output files, and the end-to-end theorems for hash, range and single
    partitioning. *)

From S2P Require Import Prelude BitUtil Lists Murmur3 HashArrays Partition ShuffleCodec ShuffleCodecProps Shuffle ShuffleProps.
From stdpp Require Import list.
Open Scope Z_scope.

Section Multi.
Context {Batch Row : Type} `{ArrowLaws Batch Row}.
Context (take_kernel : Array -> list (option Z) -> option Array).
Context {K : Type} (key_le : K -> K -> bool).
Context (grant : nat -> bool).
Context (fields : nat) (c : CompressionCodec) (bs : nat) (p : CometPartitioning (Batch := Batch) (K := K)).
Context (pid : Row -> nat).

Abbreviation n := (partition_count p).
Abbreviation segment := (segment_ok fields c).

(** The rows of partition [k]. *)
Definition part (k : nat) (rows : list Row) : list Row := filter (fun r => pid r = k) rows.

Lemma part_app k rows rows' : part k (rows ++ rows') = part k rows ++ part k rows'.
Proof. apply filter_app. Qed.

(** The scratch space has room for a batch. *)
Definition scratch_ok (s : ScratchSpace) : Prop :=
  length (partition_ids s) = bs /\
  match p with HashPartitioning _ _ => length (hashes_buf s) = bs | _ => True end.

(** What the proofs need of the partitioning: the numbers of a batch are those of its
    rows.  It holds of hash and of range partitioning (below). *)
Definition ids_ok : Prop := forall input s,
  num_columns input = fields -> (0 < num_rows input <= bs)%nat -> scratch_ok s ->
  exists s', compute_partition_ids take_kernel key_le p input s = Some (num_rows input, s') /\
    take (num_rows input) (partition_ids s') = Z.of_nat <$> (pid <$> batch_rows input) /\ scratch_ok s'.

Context (Hbs : (0 < bs)%nat) (Henc : encodable fields c bs) (Hids : ids_ok).
Context (Hpid : forall r, (pid r < n)%nat).

(** * Spilling *)

Definition file_bytes (f : option (list Z)) : list Z := default [] f.

(** The sizes of the spill files. *)
Definition total_spilled (files : list (option (list Z))) : nat := sum_list ((fun f => length (file_bytes f)) <$> files).

Lemma total_spilled_cons f files : total_spilled (f :: files) = (length (file_bytes f) + total_spilled files)%nat.
Proof. done. Qed.

Lemma total_spilled_none m : total_spilled (replicate m None) = 0%nat.
Proof. induction m as [|m IH]; [done|]. by rewrite replicate_S, total_spilled_cons, IH. Qed.

Lemma spill_partitions_spec batches indices i files (part : nat -> list Row) :
  Forall (fun b => num_columns b = fields) batches ->
  (forall k, (i <= k < i + length files)%nat -> exists ix, indices !! k = Some ix /\ indexed_rows batches ix = Some (part k)) ->
  exists m files', spill_partitions (block_writer_new fields c) batches indices bs i files = Some (m, files') /\
    length files' = length files /\ total_spilled files' = (total_spilled files + m)%nat /\
    forall j f, files !! j = Some f -> exists f' seg, files' !! j = Some f' /\
      file_bytes f' = file_bytes f ++ seg /\ segment seg (part (i + j)%nat).
Proof.
  intros Hc. revert i. induction files as [|f files IH]; intros i Hi.
  - exists 0%nat, []. split_and!; try done.
  - destruct (Hi i) as (ix & Hix & Hr); [simpl; lia|].
    destruct (partition_spill_spec fields c bs Hbs Henc f ix batches _ Hc Hr) as (seg & f' & Ep & Ef & Hs).
    destruct (IH (S i)) as (m & files' & Em & Hl & Ht & Hj).
    { intros k Hk. apply Hi. simpl. lia. }
    exists (length seg + m)%nat, (f' :: files'). cbn [spill_partitions]. rewrite Hix. cbn [mbind option_bind].
    rewrite Ep. cbn [mbind option_bind]. rewrite Em. cbn [mbind option_bind]. split_and!; [done|simpl; lia|..].
    + rewrite !total_spilled_cons, Ht. fold (file_bytes f') in Ef. rewrite Ef, length_app. fold (file_bytes f). lia.
    + intros [|j] g Hg; simpl in Hg.
      * injection Hg as <-. exists f', seg. rewrite Nat.add_0_r. done.
      * destruct (Hj j g Hg) as (g' & seg' & ? & ? & Hsg). exists g', seg'.
        replace (i + S j)%nat with (S i + j)%nat by lia. done.
Qed.

(** * The invariant *)

Record multi_inv (s : MultiPartitionShuffleRepartitioner (Batch := Batch) (K := K)) (rows : list Row) : Prop := {
  inv_writer : block_writer s = block_writer_new fields c;
  inv_partitioning : partitioning s = p;
  inv_batch_size : batch_size s = bs;
  inv_scratch : scratch_ok (scratch s);
  inv_columns : Forall (fun b => num_columns b = fields) (buffered_batches s);
  inv_nonempty : Forall (fun b => 0 < num_rows b)%nat (buffered_batches s);
  inv_indices : length (partition_indices s) = n;
  inv_files : length (spill_files s) = n;
  inv_spilled : spilled_bytes s = total_spilled (spill_files s);
  (** the rows seen are those spilled followed by those buffered *)
  inv_rows : exists old, rows = old ++ concat (batch_rows <$> buffered_batches s) /\
    (forall k f, spill_files s !! k = Some f -> segment (file_bytes f) (part k old)) /\
    (forall k ix, partition_indices s !! k = Some ix ->
       indexed_rows (buffered_batches s) ix = Some (part k (concat (batch_rows <$> buffered_batches s))));
}.

Lemma multi_new_inv s : multi_new fields p bs c = Some s -> multi_inv s [].
Proof.
  unfold multi_new. destruct (n =? 1)%nat; [done|]. intros [= <-].
  constructor; cbn [block_writer partitioning batch_size scratch buffered_batches partition_indices spill_files spilled_bytes];
    rewrite ?length_replicate; try done.
  - split; cbn [partition_ids hashes_buf]; [apply length_replicate|]. destruct p; by rewrite ?length_replicate.
  - by rewrite total_spilled_none.
  - exists []. split_and!; [done|..].
    + intros k f Hf. apply lookup_replicate in Hf as [-> _]. apply segment_ok_nil.
    + intros k ix Hix. apply lookup_replicate in Hix as [-> _]. done.
Qed.

Lemma spill_spec s rows : multi_inv s rows -> exists s', spill s = Some s' /\ multi_inv s' rows /\ scratch s' = scratch s.
Proof.
  intros Hs. unfold spill. destruct (buffered_batches s) as [|b0 bb] eqn:Eb; [by exists s|]. rewrite <- Eb.
  destruct Hs as [Hw Hp Hb Hsc Hcol Hne Hil Hfl Hsp (old & Hrows & Hfiles & Hix)].
  rewrite Hw, Hb.
  destruct (spill_partitions_spec (buffered_batches s) (partition_indices s) 0 (spill_files s)
    (fun k => part k (concat (batch_rows <$> buffered_batches s)))) as (m & files & -> & Hl & Ht & Hj); [done|..].
  { intros k Hk. destruct (lookup_lt_is_Some_2 (partition_indices s) k) as [ix Ei]; [lia|]. exists ix. auto. }
  cbn [mbind option_bind]. eexists. split; [done|]. split; [|done].
  constructor; cbn [block_writer partitioning batch_size scratch buffered_batches partition_indices spill_files spilled_bytes];
    rewrite ?length_replicate; try done; try lia.
  exists rows. split_and!; [by rewrite app_nil_r|..].
  - intros k f' Hf'. destruct (lookup_lt_is_Some_2 (spill_files s) k) as [f Ef].
    { apply lookup_lt_Some in Hf'. lia. }
    destruct (Hj k f Ef) as (f'' & seg & E'' & Eb' & Hseg). simplify_eq. rewrite Eb', part_app.
    apply segment_ok_app; [by apply Hfiles|done].
  - intros k ix Hi. apply lookup_replicate in Hi as [-> _]. done.
Qed.

(** * Inserting a batch *)

(** Few enough rows for the 32-bit batch and row numbers, and for the byte offsets of
    the index (a block of at least one row takes at most [2^31 + 7] bytes). *)
Definition rows_fit (rows : list Row) : Prop := Z.of_nat (length rows) <= 2 ^ 32 - 16.

Lemma buffer_spec s rows input starts ri :
  multi_inv s rows -> num_columns input = fields -> (0 < num_rows input)%nat -> rows_fit rows ->
  grouped n (pid <$> batch_rows input) starts ri ->
  exists s', buffer_partitioned_batch_may_spill grant s input ri starts = Some s' /\
    multi_inv s' (rows ++ batch_rows input) /\ scratch s' = scratch s.
Proof.
  intros Hs Hci Hni Hfit (-> & Hl & Hg).
  destruct Hs as [Hw Hp Hb Hsc Hcol Hne Hil Hfl Hsp (old & Hrows & Hfiles & Hix)].
  unfold buffer_partitioned_batch_may_spill.
  assert (Hbuf : u32 (Z.of_nat (length (buffered_batches s))) = Z.of_nat (length (buffered_batches s))).
  { apply u32_nat. pose proof (buffered_le_rows _ Hne). unfold rows_fit in Hfit. rewrite Hrows, length_app in Hfit. lia. }
  rewrite Hbuf.
  destruct (push_indices_spec (Z.of_nat (length (buffered_batches s))) ri n (pid <$> batch_rows input) 0
    (partition_indices s) Hg Hl Hil ltac:(lia)) as (pi & E & Hpl & Hk). rewrite drop_0 in E. rewrite E.
  cbn [mbind option_bind].
  set (s1 := MkMulti (buffered_batches s ++ [input]) pi (spill_files s) (block_writer s) (partitioning s) (scratch s)
    (batch_size s) (spill_count s) (spilled_bytes s) (S (grow_requests s))).
  assert (Hs1 : multi_inv s1 (rows ++ batch_rows input)).
  { constructor; cbn [s1 block_writer partitioning batch_size scratch buffered_batches partition_indices spill_files spilled_bytes]; try done.
    - apply Forall_app. split; [done|]. by repeat constructor.
    - apply Forall_app. split; [done|]. by repeat constructor.
    - exists old. rewrite fmap_app, concat_app. cbn [fmap list_fmap concat]. rewrite app_nil_r. split_and!.
      + by rewrite Hrows, app_assoc.
      + done.
      + intros k ix Hi. destruct (lookup_lt_is_Some_2 (partition_indices s) k) as [ix0 Ei].
        { apply lookup_lt_Some in Hi. lia. }
        rewrite (Hk _ _ Ei), decide_True in Hi by lia. injection Hi as <-.
        rewrite part_app. apply indexed_rows_app; [apply indexed_rows_old; by apply Hix|apply indexed_rows_new]. }
  destruct (grant _); [by exists s1|]. destruct (spill_spec s1 _ Hs1) as (s' & E' & Hs' & Esc).
  exists s'. split_and!; [exact E'|done|exact Esc].
Qed.

Lemma partitioning_batch_spec s rows input :
  multi_inv s rows -> num_columns input = fields -> (0 < num_rows input <= bs)%nat ->
  rows_fit (rows ++ batch_rows input) ->
  exists s', partitioning_batch take_kernel key_le grant s input = Some s' /\ multi_inv s' (rows ++ batch_rows input).
Proof.
  intros Hs Hci Hni Hfit. unfold partitioning_batch. rewrite (inv_batch_size _ _ Hs), (inv_partitioning _ _ Hs).
  simp_tests. destruct (Hids input (scratch s) Hci Hni (inv_scratch _ _ Hs)) as (sc & -> & Ht & Hsc).
  cbn [mbind option_bind]. unfold rows_fit in Hfit. rewrite length_app in Hfit.
  destruct (map_partition_ids_spec sc n (pid <$> batch_rows input)) as (sc' & E & Eh & Ei & Hg).
  - rewrite length_fmap. exact Ht.
  - apply Forall_fmap, Forall_true. intros r. apply Hpid.
  - rewrite length_fmap. lia.
  - rewrite length_fmap in E. unfold num_rows. rewrite E. cbn [mbind option_bind].
    destruct (buffer_spec s rows input (partition_starts sc') (partition_row_indices sc') Hs Hci ltac:(lia)) as (s' & -> & Hs' & Esc); [unfold rows_fit; lia|exact Hg|].
    cbn [mbind option_bind]. eexists. split; [done|].
    destruct Hs' as [Hw Hp Hb _ Hcol Hne Hil Hfl Hsp Hr]. constructor; try done.
    unfold set_scratch. cbn [scratch]. unfold scratch_ok in *. by rewrite Eh, Ei.
Qed.

Lemma insert_slices_spec fuel s rows batch st :
  multi_inv s rows -> num_columns batch = fields -> (num_rows batch - st <= fuel)%nat ->
  rows_fit (rows ++ drop st (batch_rows batch)) ->
  exists s', insert_slices take_kernel key_le grant fuel s batch st = Some s' /\
    multi_inv s' (rows ++ drop st (batch_rows batch)).
Proof.
  revert s rows st. induction fuel as [|fuel IH]; intros s rows st Hs Hc Hf Hfit; cbn [insert_slices].
  - simp_tests. exists s. rewrite drop_ge, app_nil_r; [done|]. unfold num_rows in Hf. lia.
  - destruct (Nat.ltb_spec st (num_rows batch)) as [Hlt|Hge].
    2: { exists s. rewrite drop_ge, app_nil_r; [done|]. unfold num_rows in Hge. lia. }
    rewrite (inv_batch_size _ _ Hs). set (e := Nat.min (st + bs) (num_rows batch)).
    assert (He : (st < e <= num_rows batch)%nat /\ (e - st <= bs)%nat) by (unfold e; lia).
    assert (Hsl : batch_rows (batch_slice batch st (e - st)) = take (e - st) (drop st (batch_rows batch)))
      by (apply slice_rows; lia).
    assert (Hn : num_rows (batch_slice batch st (e - st)) = (e - st)%nat).
    { unfold num_rows. rewrite Hsl, length_take, length_drop. unfold num_rows in He. lia. }
    assert (Hd : drop st (batch_rows batch) = take (e - st) (drop st (batch_rows batch)) ++ drop e (batch_rows batch)).
    { rewrite <- (take_drop (e - st) (drop st (batch_rows batch))) at 1. rewrite drop_drop. do 2 f_equal. lia. }
    destruct (partitioning_batch_spec s rows (batch_slice batch st (e - st)) Hs) as (s1 & -> & Hs1).
    { by rewrite slice_columns. } { lia. }
    { rewrite Hsl. unfold rows_fit in *. rewrite Hd in Hfit. rewrite !length_app in Hfit. rewrite length_app. lia. }
    cbn [mbind option_bind]. rewrite Hsl in Hs1. rewrite Hd, app_assoc in Hfit |- *.
    apply IH; [done|done|lia|done].
Qed.

Lemma insert_all_spec s rows input :
  multi_inv s rows -> Forall (fun b => num_columns b = fields) input ->
  rows_fit (rows ++ concat (batch_rows <$> input)) ->
  exists s', insert_all (multi_insert_batch take_kernel key_le grant) s input = Some s' /\
    multi_inv s' (rows ++ concat (batch_rows <$> input)).
Proof.
  intros Hs Hc. revert s rows Hs. induction Hc as [|b input Hb Hc IH]; intros s rows Hs Hfit.
  - exists s. cbn. by rewrite app_nil_r.
  - rewrite fmap_cons in Hfit |- *. cbn [concat] in Hfit |- *. cbn [insert_all].
    change (multi_insert_batch take_kernel key_le grant s b) with (insert_slices take_kernel key_le grant (num_rows b) s b 0).
    destruct (insert_slices_spec (num_rows b) s rows b 0 Hs Hb ltac:(lia)) as (s1 & -> & Hs1).
    { unfold rows_fit in *. rewrite !length_app in Hfit. rewrite length_app, drop_0. lia. }
    cbn [mbind option_bind]. rewrite drop_0 in Hs1. rewrite app_assoc in Hfit |- *. by apply IH.
Qed.

(** * Writing the output *)

Fixpoint offsets_from (base : nat) (segs : list (list Z)) : list Z :=
  match segs with
  | [] => []
  | seg :: segs => Z.of_nat base :: offsets_from (base + length seg) segs
  end.

Lemma write_partitions_spec m i s rows out :
  multi_inv s rows -> (i + m = n)%nat ->
  exists segs, write_partitions m s i out = Some (out ++ concat segs, offsets_from (length out) segs) /\
    length segs = m /\ forall j seg, segs !! j = Some seg -> segment seg (part (i + j) rows).
Proof.
  intros Hs. destruct Hs as [Hw Hp Hb Hsc Hcol Hne Hil Hfl Hsp (old & Hrows & Hfiles & Hix)].
  revert i out. induction m as [|m IH]; intros i out Him.
  { exists []. rewrite app_nil_r. done. }
  cbn [write_partitions]. destruct (lookup_lt_is_Some_2 (spill_files s) i ltac:(lia)) as [f Ef].
  destruct (lookup_lt_is_Some_2 (partition_indices s) i ltac:(lia)) as [ix Ei].
  rewrite Ef. cbn [mbind option_bind]. rewrite Ei. cbn [mbind option_bind]. rewrite Hb, Hw.
  destruct (write_partition_spec fields c bs Hbs Henc ix (buffered_batches s) _
    (buf_new (block_writer_new fields c) (out ++ default [] f)) Hcol (Hix _ _ Ei) eq_refl) as (seg & w & -> & Hcon & Hseg).
  cbn [mbind option_bind]. rewrite buf_flush_spec, Hcon. unfold contents, buf_new at 1. cbn [writer buffer].
  rewrite app_nil_r, <- app_assoc.
  destruct (IH (S i) (out ++ default [] f ++ seg) ltac:(lia)) as (segs & E & Hl & Hj). rewrite E. cbn [mbind option_bind].
  exists ((default [] f ++ seg) :: segs). cbn [concat offsets_from]. split_and!.
  - f_equal. f_equal; [by rewrite <- !app_assoc|]. by rewrite !length_app.
  - simpl. lia.
  - intros [|j] g Hg; simpl in Hg.
    + injection Hg as <-. rewrite Nat.add_0_r, Hrows, part_app. apply segment_ok_app; [by apply Hfiles|done].
    + replace (i + S j)%nat with (S i + j)%nat by lia. by apply Hj.
Qed.
End Multi.

(** * The index file *)

Lemma grouped8_spec (offs : list Z) fuel :
  (length (index_bytes offs) <= fuel)%nat -> grouped8 fuel (index_bytes offs) = to_le_bytes 8 <$> offs.
Proof.
  revert fuel. induction offs as [|o offs IH]; intros fuel Hf; [by destruct fuel|].
  unfold index_bytes in *. rewrite fmap_cons in *. cbn [concat] in *. rewrite length_app, length_to_le_bytes in Hf.
  destruct fuel as [|fuel]; [lia|]. pose proof (length_to_le_bytes 8 o) as Hl.
  cbn [grouped8]. destruct (to_le_bytes 8 o ++ concat (to_le_bytes 8 <$> offs)) as [|x l] eqn:E.
  { apply (f_equal length) in E. rewrite length_app, Hl in E. simpl in E. lia. }
  rewrite <- E, take_app_length', drop_app_length' by done. f_equal. apply IH. lia.
Qed.

Lemma mapM_get_long offs :
  Forall (in_u 63) offs -> mapM get_long (to_le_bytes 8 <$> offs) = Some offs.
Proof.
  induction 1 as [|o offs Ho _ IH]; [done|]. rewrite fmap_cons.
  assert (G : get_long (to_le_bytes 8 o) = Some o).
  { unfold get_long. rewrite length_to_le_bytes. simp_tests. by rewrite le_bytes_8. }
  cbn [mapM]. rewrite G. cbn [mbind option_bind]. by rewrite IH.
Qed.

Lemma lengths_from_spec base segs :
  Z.of_nat (base + length (concat segs)) < 2 ^ 63 ->
  lengths_from (Z.of_nat base) (drop 1 (offsets_from base segs ++ [Z.of_nat (base + length (concat segs))]))
  = (fun seg => Z.of_nat (length seg)) <$> segs.
Proof.
  revert base. induction segs as [|seg segs IH]; intros base Hb; [done|].
  cbn [offsets_from concat] in *. rewrite length_app in *. specialize (IH (base + length seg)%nat).
  destruct segs as [|seg' segs].
  - cbn. cbn in Hb. rewrite swrap_small; [f_equal; lia|lia|]. unfold in_s. change (64 - 1) with 63. lia.
  - rewrite Nat.add_assoc. cbn [offsets_from app drop lengths_from] in *. rewrite fmap_cons.
    rewrite (swrap_small 64) by (unfold in_s; lia). f_equal; [lia|].
    change (Z.of_nat (base + length seg)) with (Z.of_nat (base + length seg)) in IH.
    rewrite <- IH by lia. done.
Qed.

Lemma offsets_from_bound base segs :
  Forall (fun o => 0 <= o <= Z.of_nat (base + length (concat segs))) (offsets_from base segs).
Proof.
  revert base. induction segs as [|seg segs IH]; intros base; constructor; [lia|].
  cbn [concat]. rewrite length_app. eapply Forall_impl; [apply IH|]. simpl. lia.
Qed.

Lemma sum_lengths (segs : list (list Z)) :
  foldr Z.add 0 ((fun seg => Z.of_nat (length seg)) <$> segs) = Z.of_nat (length (concat segs)).
Proof.
  induction segs as [|seg segs IH]; [done|]. rewrite fmap_cons. cbn [foldr concat]. rewrite IH, length_app. lia.
Qed.

Lemma partition_segment_spec segs k seg :
  Z.of_nat (length (concat segs)) < 2 ^ 63 -> segs !! k = Some seg ->
  partition_segment (MkOutput (concat segs) (index_bytes (offsets_from 0 segs ++ [Z.of_nat (length (concat segs))]))) k
  = Some seg.
Proof.
  intros Hb Hk. unfold partition_segment, partition_lengths. cbn [index_file data_file].
  rewrite grouped8_spec, <- fmap_drop by lia. rewrite mapM_get_long.
  2: { apply Forall_drop, Forall_app. split; [|repeat constructor; lia].
       eapply Forall_impl; [apply offsets_from_bound|]. unfold in_u. simpl. lia. }
  cbn [mbind option_bind]. rewrite (lengths_from_spec 0) by done.
  rewrite list_lookup_fmap, Hk. cbn [fmap option_fmap option_map mbind option_bind].
  rewrite <- fmap_take, sum_lengths, <- Nat2Z.inj_add, !Nat2Z.id.
  assert (E : concat segs = concat (take k segs) ++ seg ++ concat (drop (S k) segs)).
  { rewrite <- (take_drop_middle _ _ _ Hk) at 1. by rewrite concat_app. }
  rewrite E. unfold slice.
  rewrite !length_app. simp_tests. rewrite drop_app_length. f_equal.
  replace (length (concat (take k segs)) + length seg - length (concat (take k segs)))%nat with (length seg) by lia.
  apply take_app_length.
Qed.

(** * Sizes *)

Section Sizes.
Context {Batch Row : Type} `{ArrowLaws Batch Row}.
Context (fields : nat) (c : CompressionCodec).

Lemma block_bytes_length (b : Batch) bytes :
  block_bytes fields c b = Some bytes -> Z.of_nat (length bytes) <= (2 ^ 31 + 7) * Z.of_nat (num_rows b).
Proof.
  unfold block_bytes. destruct (Nat.eqb_spec (num_rows b) 0); [intros [= <-]; simpl; lia|].
  destruct (ipc_encode c b) as [ipc|]; [|done]. cbn [mbind option_bind].
  destruct (Z.ltb_spec (2 ^ 31 - 1) (12 + Z.of_nat (length ipc))); [done|]. intros [= <-].
  rewrite length_block_of. nia.
Qed.

Lemma segment_ok_length seg (rs : list Row) :
  segment_ok fields c seg rs -> Z.of_nat (length seg) <= (2 ^ 31 + 7) * Z.of_nat (length rs).
Proof.
  intros (x & (blocks & Hb & ->) & <- & _). revert blocks Hb. induction x as [|b x IH]; intros blocks Hb.
  - simpl in Hb. injection Hb as <-. simpl. lia.
  - cbn [mapM] in Hb. destruct (block_bytes fields c b) as [bytes|] eqn:Eb; [|done]. cbn [mbind option_bind] in Hb.
    destruct (mapM (block_bytes fields c) x) as [blocks'|]; [|done]. injection Hb as <-.
    rewrite fmap_cons. cbn [concat]. rewrite !length_app. pose proof (block_bytes_length b bytes Eb).
    unfold num_rows in *. specialize (IH _ eq_refl). nia.
Qed.

Lemma segments_length (segs : list (list Z)) (f : nat -> list Row) i :
  (forall j seg, segs !! j = Some seg -> segment_ok fields c seg (f (i + j)%nat)) ->
  Z.of_nat (length (concat segs)) <= (2 ^ 31 + 7) * Z.of_nat (length (concat (f <$> seq i (length segs)))).
Proof.
  revert i. induction segs as [|seg segs IH]; intros i Hs; [done|].
  cbn [concat length seq]. rewrite fmap_cons. cbn [concat]. rewrite !length_app.
  pose proof (segment_ok_length _ _ (Hs 0%nat seg eq_refl)) as H1. rewrite Nat.add_0_r in H1.
  assert (Hs' : forall j seg, segs !! j = Some seg -> segment_ok fields c seg (f (S i + j)%nat)).
  { intros j g Hg. replace (S i + j)%nat with (i + S j)%nat by lia. by apply Hs. }
  specialize (IH (S i) Hs'). nia.
Qed.
End Sizes.
