(* ===== verification/ShuffleTheorems.v ===== *)
(** The shuffle, end to end: what the reader of a partition finds in the files that
    [external_shuffle] writes. *)

From S2P Require Import Prelude BitUtil Lists Murmur3 HashArrays Partition ShuffleCodec ShuffleCodecProps Shuffle ShuffleProps.
From S2P Require Import ShuffleCorrect.
From stdpp Require Import list sorting.
Open Scope Z_scope.
Import PlainArrow.

(** A partition of the output, read as Spark and the JVM iterator read it. *)
Definition read_partition {Batch Row} `{Arrow Batch Row} (out : ShuffleOutput) (k : nat) : option (list Batch) :=
  seg ← partition_segment out k; read_blocks seg.

(** Partition [k] of the output holds exactly these rows, in this order. *)
Definition delivers {Batch Row} `{Arrow Batch Row} (out : ShuffleOutput) (k : nat) (rows : list Row) : Prop :=
  exists batches, read_partition out k = Some batches /\ concat (batch_rows <$> batches) = rows.

(** All rows of the input. *)
Definition all_rows {Batch Row} `{Arrow Batch Row} (input : list Batch) : list Row := concat (batch_rows <$> input).

Section Generic.
Context {Batch Row : Type} `{ArrowLaws Batch Row}.
Context (take_kernel : Array -> list (option Z) -> option Array).
Context {K : Type} (key_le : K -> K -> bool).
Context (grant : nat -> bool).
Context (fields : nat) (c : CompressionCodec) (bs : nat) (p : CometPartitioning (Batch := Batch) (K := K)).
Context (pid : Row -> nat).

Lemma multi_shuffle_spec input :
  (0 < bs)%nat -> Z.of_nat fields < 2 ^ 31 -> encodable fields c bs -> ids_ok take_kernel key_le fields bs p pid ->
  (forall r, pid r < partition_count p)%nat -> partition_count p <> 1%nat ->
  Forall (fun b => num_columns b = fields) input -> rows_fit (all_rows input) ->
  exists out, external_shuffle take_kernel key_le grant fields bs c p input = Some out /\
    forall k, (k < partition_count p)%nat -> delivers out k (part pid k (all_rows input)).
Proof.
  intros Hbs Hf Henc Hids Hpid Hn Hc Hfit. unfold external_shuffle. rewrite (proj2 (Nat.eqb_neq _ _) Hn).
  destruct (multi_new fields p bs c) as [s0|] eqn:E0.
  2: { unfold multi_new in E0. by rewrite (proj2 (Nat.eqb_neq _ _) Hn) in E0. }
  pose proof (multi_new_inv fields c bs p pid Hpid s0 E0) as H1.
  destruct (insert_all_spec take_kernel key_le grant fields c bs p pid Hbs Henc Hids Hpid s0 [] input H1 Hc Hfit)
    as (s & Es & Hs). cbn [mbind option_bind app] in *. rewrite Es. cbn [mbind option_bind].
  unfold multi_shuffle_write. rewrite (inv_indices _ _ _ _ _ _ _ Hs).
  destruct (write_partitions_spec grant fields c bs p pid Hbs Henc (partition_count p) 0 s _ [] Hs eq_refl) as (segs & -> & Hl & Hj).
  cbn [mbind option_bind app length]. eexists. split; [done|]. intros k Hk.
  assert (Hsize : Z.of_nat (length (concat segs)) < 2 ^ 63).
  { pose proof (segments_length fields c segs (fun k => part pid k (all_rows input)) 0 Hj) as Hb.
    assert (El : length (concat ((fun k => part pid k (all_rows input)) <$> seq 0 (length segs))) = length (all_rows input)).
    { rewrite Hl. apply Permutation_length, (pass_Permutation pid), Forall_forall. intros r _. apply Hpid. }
    unfold rows_fit in Hfit. nia. }
  destruct (lookup_lt_is_Some_2 segs k ltac:(lia)) as [seg Eseg]. unfold delivers, read_partition.
  rewrite (partition_segment_spec segs k seg Hsize Eseg). cbn [mbind option_bind].
  by apply (segment_ok_read fields c); [done|apply Hj].
Qed.
End Generic.

(** * Hash partitioning *)

Section Hash.
Context {Batch Row : Type} `{ArrowLaws Batch Row}.
Context (take_kernel : Array -> list (option Z) -> option Array).
Context {K : Type} (key_le : K -> K -> bool).
Context (grant : nat -> bool).
Context (fields : nat) (c : CompressionCodec) (bs n : nat).
Context (evaluate : Batch -> option (list Array)).
(** The bytes each partition expression contributes for a row, [None] for null. *)
Context (key_columns : list (Row -> option (list Z))).

(** The partition of a row: its Murmur3 hash from seed 42, as a signed integer, modulo
    the number of partitions. *)
Definition row_hash (r : Row) : Z :=
  foldl (fun h f => fold_cell spark_compatible_murmur3_hash h (f r)) 42 key_columns.
Definition hash_pid (r : Row) : nat := Z.to_nat (i32 (row_hash r) `mod` Z.of_nat n).

(** Evaluation is row by row. *)
Definition evaluates : Prop := forall input,
  num_columns input = fields -> (0 < num_rows input <= bs)%nat ->
  exists arrays, evaluate input = Some arrays /\
    Forall2 (fun a f => array_ok a /\ hash_inputs a = f <$> batch_rows input) arrays key_columns.

Lemma zip_with_fmap_same {A B C D} (f : B -> C -> D) (g : A -> B) (h : A -> C) l :
  zip_with f (g <$> l) (h <$> l) = (fun x => f (g x) (h x)) <$> l.
Proof. induction l as [|x l IH]; [done|]. rewrite !fmap_cons. cbn [zip_with]. by rewrite IH. Qed.

Lemma hash_rows_spec arrays fs (rows : list Row) (g : Row -> Z) :
  Forall2 (fun a f => array_ok a /\ hash_inputs a = f <$> rows) arrays fs ->
  hash_rows spark_compatible_murmur3_hash arrays (g <$> rows)
  = (fun r => foldl (fun h f => fold_cell spark_compatible_murmur3_hash h (f r)) (g r) fs) <$> rows.
Proof.
  intros Hf. revert g. induction Hf as [|a f arrays fs [_ Ha] _ IH]; intros g; [done|].
  unfold hash_rows in *. cbn [foldl]. by rewrite Ha, zip_with_fmap_same, IH.
Qed.

Lemma hash_pid_lt r : (0 < n)%nat -> (hash_pid r < n)%nat.
Proof. intros Hn. unfold hash_pid. pose proof (Z.mod_pos_bound (i32 (row_hash r)) (Z.of_nat n)). lia. Qed.

Lemma mapM_pmod (l : list Row) :
  (0 < n)%nat -> Z.of_nat n < 2 ^ 31 ->
  mapM (fun h => q ← pmod h (Z.of_nat n); Some (u32 q)) (row_hash <$> l) = Some (Z.of_nat <$> (hash_pid <$> l)).
Proof.
  intros Hn Hn'. induction l as [|r l IH]; [done|]. rewrite !fmap_cons.
  assert (G : (q ← pmod (row_hash r) (Z.of_nat n); Some (u32 q)) = Some (Z.of_nat (hash_pid r))).
  { rewrite pmod_spec by lia. cbn [mbind option_bind]. pose proof (hash_pid_lt r Hn) as Hp. unfold hash_pid in *.
    pose proof (Z.mod_pos_bound (i32 (row_hash r)) (Z.of_nat n) ltac:(lia)).
    rewrite Z2Nat.id by lia. rewrite wrap_small; [done|]. unfold in_u. lia. }
  cbn [mapM]. rewrite G. cbn [mbind option_bind]. by rewrite IH.
Qed.

Lemma hash_ids_ok :
  take_spec take_kernel -> evaluates -> key_columns <> [] -> (0 < n)%nat -> Z.of_nat n < 2 ^ 31 ->
  ids_ok take_kernel key_le fields bs (HashPartitioning evaluate n) hash_pid.
Proof.
  intros Ht Hev Hkc Hn Hn' input s Hc Hnr [Hpl Hhl]. destruct (Hev input Hc Hnr) as (arrays & Ea & Hf).
  assert (Hlen : Forall (fun a => array_ok a /\ array_len a = num_rows input) arrays).
  { eapply Forall2_Forall_l; [exact Hf|]. apply Forall_true. intros f a [Ha Hi]. split; [done|].
    rewrite <- length_hash_inputs, Hi. apply length_fmap. }
  destruct arrays as [|a0 arrays]; [by inversion Hf; subst|].
  pose proof (proj2 (proj1 (Forall_cons_1 _ _ _ Hlen))) as Ha0.
  cbn [compute_partition_ids]. unfold hash_partition_ids. rewrite Ea. cbn [mbind option_bind].
  change ((a0 :: arrays) !! 0%nat) with (Some a0). cbn [mbind option_bind]. rewrite Ha0, Hpl. simpl in Hhl. rewrite Hhl.
  rewrite (proj2 (Nat.ltb_ge bs (num_rows input))) by lia. cbn [orb].
  unfold create_murmur3_hashes, create_hashes. rewrite hash_columns_spec; [|done|by rewrite length_replicate|].
  2: { intros _ ks vs rest _. by rewrite length_replicate. }
  cbn [mbind option_bind].
  replace (replicate (num_rows input) 42) with ((fun _ => 42) <$> batch_rows input)
    by (unfold num_rows; by apply const_fmap).
  rewrite (hash_rows_spec _ _ _ _ Hf). fold row_hash. rewrite mapM_pmod by done. cbn [mbind option_bind].
  eexists. split; [done|]. unfold set_partition_ids, scratch_ok. cbn [partition_ids hashes_buf]. split_and!.
  - apply take_app_length'. by rewrite !length_fmap.
  - rewrite length_app, length_drop, !length_fmap. unfold num_rows in Hnr. lia.
  - rewrite length_app, length_drop, length_fmap, Hhl. unfold num_rows in *. lia.
Qed.

(** C3: Hash shuffle, end to end.  For any input of batches, any pattern of memory
    denials (so any sequence of spills) and any codec, [external_shuffle] succeeds, and
    for every partition [k] the segment of the data file that the index assigns to [k],
    read by the JVM iterator, yields exactly the input rows whose Spark hash selects
    [k], each once and in input order. *)
Theorem hash_shuffle_correct input :
  take_spec take_kernel -> evaluates -> key_columns <> [] ->
  (1 < n)%nat -> Z.of_nat n < 2 ^ 31 -> (0 < bs)%nat -> Z.of_nat fields < 2 ^ 31 -> encodable fields c bs ->
  Forall (fun b => num_columns b = fields) input -> rows_fit (all_rows input) ->
  exists out, external_shuffle take_kernel key_le grant fields bs c (HashPartitioning evaluate n) input = Some out /\
    forall k, (k < n)%nat -> delivers out k (filter (fun r => hash_pid r = k) (all_rows input)).
Proof.
  intros Ht Hev Hkc Hn Hn' Hbs Hf Henc Hc Hfit.
  apply (multi_shuffle_spec take_kernel key_le grant fields c bs (HashPartitioning evaluate n) hash_pid); try done.
  - apply hash_ids_ok; try done. lia.
  - intros r. apply hash_pid_lt. lia.
  - simpl. lia.
Qed.
End Hash.

Lemma plain_encodable fields c bs : Z.of_nat bs < 2 ^ 31 - 12 -> encodable (Batch := list Z) fields c bs.
Proof.
  intros Hb b _ Hn. unfold block_bytes. rewrite (proj2 (Nat.eqb_neq _ 0)) by lia.
  cbn [ipc_encode PlainArrow.plain_arrow mbind option_bind]. unfold num_rows in Hn.
  cbn [batch_rows PlainArrow.plain_arrow] in Hn. rewrite (proj2 (Z.ltb_ge _ _)) by lia. by eexists.
Qed.

(** Rows 1 .. 6 in two batches, hashed as 32-bit integers into three partitions, with
    batches of two rows and every other memory request denied. *)
Definition sample_evaluate (b : list Z) : option (list Array) := Some [Primitive Int32 (Some <$> b)].
Definition sample_key (r : Z) : option (list Z) := Some (to_le_bytes 4 r).

Lemma hash_shuffle_correct_witness : exists out,
  external_shuffle (fun v k => Some (gather v k)) (fun _ _ : unit => true) Nat.even 1 2 (Zstd 1)
    (HashPartitioning sample_evaluate 3) [[1; 2; 3]; [4; 5; 6]] = Some out /\
  delivers out 0 [2; 3; 4; 5] /\ delivers out 1 [1; 6] /\ delivers out 2 [].
Proof.
  destruct (hash_shuffle_correct (fun v k => Some (gather v k)) (fun _ _ : unit => true) Nat.even 1 (Zstd 1) 2 3
    sample_evaluate [sample_key] [[1; 2; 3]; [4; 5; 6]]) as (out & E & Hd).
  - by intros values keys _.
  - intros input _ _. eexists. split; [reflexivity|]. constructor; [|constructor]. split; [exact I|].
    cbn [hash_inputs]. unfold inputs. rewrite <- list_fmap_compose. reflexivity.
  - discriminate.
  - lia.
  - reflexivity.
  - lia.
  - reflexivity.
  - apply plain_encodable. reflexivity.
  - repeat constructor.
  - unfold rows_fit. cbn. lia.
  - exists out. split; [exact E|].
    split; [apply (Hd 0%nat); lia|]. split; [apply (Hd 1%nat); lia|apply (Hd 2%nat); lia].
Defined.

(** * Range partitioning *)

Section Range.
Context {Batch Row : Type} `{ArrowLaws Batch Row}.
Context (take_kernel : Array -> list (option Z) -> option Array).
Context {K : Type} (key_le : K -> K -> bool).
Context (grant : nat -> bool).
Context (fields : nat) (c : CompressionCodec) (bs n : nat).
Context (row_keys : Batch -> option (list K)) (bounds : list K) (key : Row -> K).

(** The rows of partition [k] by the bounds: every bound before the [k]-th is at most the key of the row, and the [k]-th, if there is one, is not.
    The last partition with rows is the one after the last bound. *)
Definition in_range (k : nat) (r : Row) : bool :=
  (k <=? length bounds)%nat && forallb (fun b => key_le b (key r)) (take k bounds)
  && match bounds !! k with Some b => negb (key_le b (key r)) | None => true end.

(** What the binary search finds *)
Definition range_pid (r : Row) : nat := partition_point (fun b => key_le b (key r)) bounds.

(** The row format is computed row by row, its order is transitive, and the bounds are
    sorted in it. *)
Definition keyed : Prop := forall input,
  num_columns input = fields -> (0 < num_rows input <= bs)%nat -> row_keys input = Some (key <$> batch_rows input).
Definition le_trans_ok : Prop := forall x y z, key_le x y = true -> key_le y z = true -> key_le x z = true.
Definition bounds_sorted : Prop := StronglySorted (fun x y => key_le x y = true) bounds.

Lemma range_partitioned r :
  le_trans_ok -> bounds_sorted -> partitioned (fun b => key_le b (key r)) bounds (range_pid r).
Proof.
  intros Ht Hs. destruct (partitioned_exists (fun b => key_le b (key r)) bounds) as [i Hi].
  - intros i j bi bj Hij Ei Ej. apply Ht.
    assert (Hb : bi ∈ take j bounds /\ bj ∈ drop j bounds).
    { split; [apply (list_elem_of_lookup_2 _ i); by rewrite lookup_take_lt|].
      apply (list_elem_of_lookup_2 _ 0). by rewrite lookup_drop, Nat.add_0_r. }
    apply (StronglySorted_app_1_elem_of (fun x y => key_le x y = true) (take j bounds) (drop j bounds)); [|tauto..].
    by rewrite take_drop.
  - unfold range_pid. by rewrite (partition_point_spec _ _ i Hi).
Qed.

Lemma range_ids_ok :
  keyed -> le_trans_ok -> bounds_sorted -> (length bounds < n)%nat -> Z.of_nat n <= 2 ^ 32 ->
  ids_ok take_kernel key_le fields bs (RangePartitioning row_keys n bounds) range_pid.
Proof.
  intros Hk Ht Hs Hb Hn input s Hc Hnr [Hpl _]. cbn [compute_partition_ids]. unfold range_partition_ids.
  rewrite (Hk input Hc Hnr). cbn [mbind option_bind]. rewrite length_fmap, Hpl.
  change (length (batch_rows input)) with (num_rows input). rewrite (proj2 (Nat.ltb_ge bs (num_rows input))) by lia.
  eexists. split; [done|]. unfold set_partition_ids, scratch_ok. cbn [partition_ids hashes_buf]. split_and!; [|..|done].
  - rewrite take_app_length' by by rewrite !length_fmap. rewrite <- !list_fmap_compose. apply list_fmap_ext.
    intros i r _. unfold compose. fold (range_pid r). destruct (range_partitioned r Ht Hs) as [Hle _].
    apply wrap_small. unfold in_u. lia.
  - rewrite length_app, length_drop, !length_fmap. unfold num_rows in Hnr. lia.
Qed.

Lemma in_range_pid r k : le_trans_ok -> bounds_sorted -> in_range k r = true <-> range_pid r = k.
Proof.
  intros Ht Hs. destruct (range_partitioned r Ht Hs) as [Hle Hr]. unfold in_range. rewrite !andb_true_iff, Nat.leb_le, List.forallb_forall. split.
  - intros [[Hk Hbefore] Hat]. destruct (Nat.lt_trichotomy (range_pid r) k) as [Hlt|[?|Hlt]]; [|done|].
    + destruct (lookup_lt_is_Some_2 bounds (range_pid r)) as [b Eb]; [lia|]. pose proof (Hr _ _ Eb) as Hb. rewrite Nat.ltb_irrefl in Hb.
      rewrite Hbefore in Hb; [done|]. apply list_elem_of_In, (list_elem_of_lookup_2 _ (range_pid r)). by rewrite lookup_take_lt.
    + destruct (lookup_lt_is_Some_2 bounds k) as [b Eb]; [lia|]. rewrite Eb, (Hr _ _ Eb), (proj2 (Nat.ltb_lt _ _) Hlt) in Hat. done.
  - intros <-. split_and!; [done| |].
    + intros b Hb%list_elem_of_In. apply list_elem_of_lookup in Hb as [j Hj]. apply lookup_take_Some in Hj as [Hj Hlt].
      rewrite (Hr _ _ Hj). by apply Nat.ltb_lt.
    + destruct (bounds !! range_pid r) as [b|] eqn:Eb; [|done]. by rewrite (Hr _ _ Eb), Nat.ltb_irrefl.
Qed.

Lemma range_pid_ordered r r' : le_trans_ok -> bounds_sorted -> (range_pid r < range_pid r')%nat -> key_le (key r') (key r) = false.
Proof.
  intros Ht Hs Hlt. destruct (key_le (key r') (key r)) eqn:E; [|done].
  destruct (range_partitioned r Ht Hs) as [_ Hr]. destruct (range_partitioned r' Ht Hs) as [Hle' Hr'].
  destruct (lookup_lt_is_Some_2 bounds (range_pid r)) as [b Eb]; [lia|].
  pose proof (Hr _ _ Eb) as Hx. pose proof (Hr' _ _ Eb) as Hy. rewrite (proj2 (Nat.ltb_lt _ _) Hlt) in Hy.
  rewrite Nat.ltb_irrefl in Hx. rewrite (Ht _ _ _ Hy E) in Hx. done.
Qed.

(** C4: Range shuffle, end to end.  Partition [k] holds, in input order, exactly the rows whose key is at least the bounds before the [k]-th
    and below the [k]-th (the first partition has no lower bound, the one after the last bound no upper bound, and any further partition is
    empty).  Every row belongs to exactly one partition, and a key in a later partition is never at most a key in an earlier one. *)
Theorem range_shuffle_correct input :
  keyed -> le_trans_ok -> bounds_sorted -> (length bounds < n)%nat -> Z.of_nat n <= 2 ^ 32 -> n <> 1%nat ->
  (0 < bs)%nat -> Z.of_nat fields < 2 ^ 31 -> encodable fields c bs ->
  Forall (fun b => num_columns b = fields) input -> rows_fit (all_rows input) ->
  (exists out, external_shuffle take_kernel key_le grant fields bs c (RangePartitioning row_keys n bounds) input = Some out /\
    forall k, (k < n)%nat -> delivers out k (filter (fun r => in_range k r = true) (all_rows input))) /\
  (forall r, exists k, (k < n)%nat /\ in_range k r = true /\ forall k', in_range k' r = true -> k' = k) /\
  forall r r' k k', (k < k')%nat -> in_range k r = true -> in_range k' r' = true -> key_le (key r') (key r) = false.
Proof.
  intros Hk Ht Hs Hb Hn Hn1 Hbs Hf Henc Hc Hfit. split; [|split].
  - destruct (multi_shuffle_spec take_kernel key_le grant fields c bs (RangePartitioning row_keys n bounds) range_pid input) as (out & E & Hd); try done.
    + by apply range_ids_ok.
    + intros r. destruct (range_partitioned r Ht Hs) as [Hle _]. simpl. lia.
    + exists out. split; [done|]. intros k Hlt. rewrite (list_filter_iff _ (fun r => range_pid r = k)); [by apply Hd|].
      intros r. by apply in_range_pid.
  - intros r. exists (range_pid r). destruct (range_partitioned r Ht Hs) as [Hle _]. split_and!; [lia|by apply in_range_pid|].
    intros k' Hk'%in_range_pid; done.
  - intros r r' k k' Hlt Hr%in_range_pid Hr'%in_range_pid; try done. subst k k'. by apply range_pid_ordered.
Qed.
End Range.

Lemma range_shuffle_correct_witness :
  (exists out, external_shuffle (fun _ _ => None) Z.leb Nat.even 1 2 Snappy (RangePartitioning Some 3 [3; 5])
      [[1; 2; 3]; [4; 5; 6]] = Some out /\
    delivers out 0 [1; 2] /\ delivers out 1 [3; 4] /\ delivers out 2 [5; 6]) /\ Z.leb 4 2 = false.
Proof.
  destruct (range_shuffle_correct (fun _ _ => None) Z.leb Nat.even 1 Snappy 2 3 Some [3; 5] (fun r : Z => r)
    [[1; 2; 3]; [4; 5; 6]]) as [(out & E & Hd) [_ Ho]].
  - intros input _ _. by rewrite list_fmap_id.
  - intros x y z. rewrite !Z.leb_le. lia.
  - repeat constructor.
  - simpl. lia.
  - done.
  - lia.
  - lia.
  - reflexivity.
  - apply plain_encodable. reflexivity.
  - repeat constructor.
  - unfold rows_fit. cbn. lia.
  - split; [|apply (Ho 2 4 0%nat 1%nat); [lia|done|done]]. exists out. split; [exact E|].
    split; [apply (Hd 0%nat); lia|]. split; [apply (Hd 1%nat); lia|apply (Hd 2%nat); lia].
Defined.

(** * Single partition *)

Section Single.
Context {Batch Row : Type} `{ArrowLaws Batch Row}.
Context (fields : nat) (c : CompressionCodec) (bs : nat).
Context (Henc : encodable (Batch := Batch) fields c bs).

(** The rows seen are those in the file, those in its write buffer, and those waiting to
    be concatenated, of which there is at most one batch full. *)
Record single_inv (s : SinglePartitionShufflePartitioner (Batch := Batch)) (rows : list Row) : Prop := {
  sinv_writer : shuffle_block_writer (output_data_writer s) = block_writer_new fields c;
  sinv_batch_size : single_batch_size s = bs;
  sinv_columns : Forall (fun b => num_columns b = fields) (single_buffered s);
  sinv_nonempty : Forall (fun b => 0 < num_rows b)%nat (single_buffered s);
  sinv_count : num_buffered_rows s = length (all_rows (single_buffered s));
  sinv_bound : (num_buffered_rows s <= bs)%nat;
  sinv_rows : exists old, segment_ok fields c (contents (output_data_writer s)) old /\
    rows = old ++ all_rows (single_buffered s);
}.

Lemma single_write_spec s b old :
  shuffle_block_writer (output_data_writer s) = block_writer_new fields c ->
  num_columns b = fields -> is_Some (block_bytes fields c b) -> segment_ok fields c (contents (output_data_writer s)) old ->
  exists s', single_write s b = Some s' /\ shuffle_block_writer (output_data_writer s') = block_writer_new fields c /\
    segment_ok fields c (contents (output_data_writer s')) (old ++ batch_rows b) /\
    single_buffered s' = single_buffered s /\ num_buffered_rows s' = num_buffered_rows s /\
    single_batch_size s' = single_batch_size s.
Proof.
  intros Hw Hc [bytes Eb] Hs. unfold single_write.
  destruct (buf_write_spec fields c _ b bytes Hw Eb) as (w & -> & Hw' & Hcon). cbn [mbind option_bind].
  eexists. split; [done|]. cbn. split_and!; try done. rewrite Hcon. apply segment_ok_app; [done|by apply segment_ok_one].
Qed.

Lemma all_rows_nonempty (bb : list Batch) :
  bb <> [] -> Forall (fun b => 0 < num_rows b)%nat bb -> (0 < length (all_rows bb))%nat.
Proof. intros Hn Hf. pose proof (buffered_le_rows bb Hf). unfold all_rows. destruct bb; [done|]. simpl in *. lia. Qed.

(** Concatenating the buffered batches. *)
Lemma concat_buffered_spec s rows :
  single_inv s rows -> single_buffered s <> [] ->
  exists b, concat_buffered_batches s = Some (Some b, MkSingle (output_data_writer s) [] 0 (single_batch_size s)) /\
    batch_rows b = all_rows (single_buffered s) /\ num_columns b = fields.
Proof.
  intros [Hw Hb Hc Hne Hn Hbd _] Hnil. unfold concat_buffered_batches.
  destruct (single_buffered s) as [|b [|b' bb]] eqn:E; [done|..].
  - exists b. apply Forall_cons_1 in Hc as [Hc _]. split_and!; [done| |done]. unfold all_rows. simpl. by rewrite app_nil_r.
  - destruct (concat_rows (b :: b' :: bb) fields) as (x & -> & Hr & Hx); [done..|]. by exists x.
Qed.

Lemma write_buffered_spec s rows :
  single_inv s rows -> exists s', write_buffered s = Some s' /\ single_inv s' rows /\ single_buffered s' = [].
Proof.
  intros Hs. unfold write_buffered. destruct (decide (single_buffered s = [])) as [E|Hne].
  { exists s. unfold concat_buffered_batches. rewrite E. done. }
  destruct (concat_buffered_spec s rows Hs Hne) as (b & -> & Hr & Hcb). cbn [mbind option_bind].
  pose proof (all_rows_nonempty _ Hne (sinv_nonempty _ _ Hs)) as Hpos.
  pose proof (sinv_count _ _ Hs) as Hcnt. pose proof (sinv_bound _ _ Hs) as Hbd.
  destruct (sinv_rows _ _ Hs) as (old & Hseg & ->).
  destruct (single_write_spec (MkSingle (output_data_writer s) [] 0 (single_batch_size s)) b old)
    as (s' & Es & Hw & Hseg' & Hbuf & Hnum & Hsz); [apply Hs|done| |done|].
  { apply Henc; [done|]. unfold num_rows. rewrite Hr. lia. }
  exists s'. split; [done|]. cbn in Hbuf, Hnum, Hsz. split; [|done].
  constructor; rewrite ?Hbuf, ?Hnum, ?Hsz; try done; try apply Hs; try lia.
  exists (old ++ batch_rows b). split; [done|]. rewrite Hr. by rewrite app_nil_r.
Qed.

Lemma add_buffered_spec s rows b :
  single_inv s rows -> num_columns b = fields -> (0 < num_rows b)%nat -> (num_buffered_rows s + num_rows b <= bs)%nat ->
  single_inv (add_buffered_batch s b) (rows ++ batch_rows b).
Proof.
  intros [Hw Hb Hc Hne Hn Hbd (old & Hseg & ->)] Hcb Hnb Hle. unfold add_buffered_batch.
  assert (E : all_rows (single_buffered s ++ [b]) = all_rows (single_buffered s) ++ batch_rows b).
  { unfold all_rows. rewrite fmap_app, concat_app. cbn [fmap list_fmap concat]. by rewrite app_nil_r. }
  constructor; cbn [output_data_writer single_buffered num_buffered_rows single_batch_size]; try done.
  - apply Forall_app. split; [done|by repeat constructor].
  - apply Forall_app. split; [done|by repeat constructor].
  - rewrite E, length_app, Hn. done.
  - exists old. split; [done|]. by rewrite E, app_assoc.
Qed.

Lemma single_insert_spec s rows b :
  single_inv s rows -> num_columns b = fields -> is_Some (block_bytes fields c b) ->
  exists s', single_insert_batch s b = Some s' /\ single_inv s' (rows ++ batch_rows b).
Proof.
  intros Hs Hcb Heb. unfold single_insert_batch. destruct (Nat.eqb_spec (num_rows b) 0) as [E0|Hnz].
  { exists s. split; [done|]. unfold num_rows in E0. apply nil_length_inv in E0. by rewrite E0, app_nil_r. }
  rewrite (sinv_batch_size _ _ Hs). destruct ((bs <=? num_rows b)%nat || (bs <? num_rows b + num_buffered_rows s)%nat) eqn:Eo.
  - destruct (write_buffered_spec s rows Hs) as (s1 & -> & Hs1 & Hbuf). cbn [mbind option_bind].
    rewrite (sinv_batch_size _ _ Hs1). pose proof (sinv_count _ _ Hs1) as Hcnt. rewrite Hbuf in Hcnt. cbn in Hcnt.
    destruct (Nat.leb_spec bs (num_rows b)) as [Hge|Hlt].
    + destruct (sinv_rows _ _ Hs1) as (old & Hseg & ->).
      destruct (single_write_spec s1 b old) as (s' & Es & Hw & Hseg' & Hbuf' & Hnum & Hsz); [apply Hs1|done..|].
      exists s'. split; [done|]. rewrite Hbuf in Hbuf' |- *.
      constructor; rewrite ?Hbuf', ?Hnum, ?Hsz; try done; try apply Hs1.
      exists (old ++ batch_rows b). split; [done|]. cbn. by rewrite !app_nil_r.
    + exists (add_buffered_batch s1 b). split; [done|]. apply add_buffered_spec; [done|done|lia|lia].
  - apply orb_false_iff in Eo as [H1 H2]. apply Nat.leb_gt in H1. apply Nat.ltb_ge in H2.
    exists (add_buffered_batch s b). split; [done|]. apply add_buffered_spec; [done|done|lia|lia].
Qed.

Lemma single_insert_all_spec s rows input :
  single_inv s rows -> Forall (fun b => num_columns b = fields /\ is_Some (block_bytes fields c b)) input ->
  exists s', insert_all single_insert_batch s input = Some s' /\ single_inv s' (rows ++ all_rows input).
Proof.
  intros Hs Hc. revert s rows Hs. induction Hc as [|b input [Hb Heb] _ IH]; intros s rows Hs.
  - exists s. cbn. by rewrite app_nil_r.
  - cbn [insert_all]. destruct (single_insert_spec s rows b Hs Hb Heb) as (s1 & -> & Hs1). cbn [mbind option_bind].
    unfold all_rows. rewrite fmap_cons. cbn [concat]. rewrite app_assoc. by apply IH.
Qed.

(** Shuffle to a single partition, end to end: whatever way the small batches are
    concatenated, the one partition holds all rows of the input in order. *)
Theorem single_shuffle_correct {K} take_kernel (key_le : K -> K -> bool) grant p input :
  partition_count p = 1%nat -> Z.of_nat fields < 2 ^ 31 ->
  Forall (fun b => num_columns b = fields /\ is_Some (block_bytes fields c b)) input -> rows_fit (all_rows input) ->
  exists out, external_shuffle take_kernel key_le grant fields bs c p input = Some out /\
    delivers out 0 (all_rows input).
Proof.
  intros Hp Hf Hc Hfit. unfold external_shuffle. rewrite Hp. cbn [Nat.eqb].
  assert (H1 : single_inv (single_new fields bs c) []).
  { constructor; cbn; try done; try lia. exists []. split; [apply segment_ok_nil|done]. }
  destruct (single_insert_all_spec _ _ input H1 Hc) as (s & -> & Hs). cbn [mbind option_bind app] in *.
  unfold single_shuffle_write. destruct (write_buffered_spec s _ Hs) as (s' & -> & Hs' & Hbuf). cbn [mbind option_bind].
  eexists. split; [done|]. destruct (sinv_rows _ _ Hs') as (old & Hseg & E). rewrite Hbuf in E. cbn in E. rewrite app_nil_r in E.
  rewrite buf_flush_spec. set (data := contents (output_data_writer s')) in *.
  pose proof (segment_ok_length fields c data old Hseg) as Hlen. unfold rows_fit in Hfit. rewrite E in Hfit |- *.
  unfold delivers, read_partition. pose proof (partition_segment_spec [data] 0 data) as Hps.
  cbn [concat offsets_from app] in Hps. rewrite app_nil_r in Hps. change (Z.of_nat 0) with 0 in Hps.
  rewrite Hps; [|nia|done]. by apply (segment_ok_read fields c).
Qed.
End Single.

Lemma single_shuffle_correct_witness : exists out,
  external_shuffle (fun _ _ => None) (fun _ _ : unit => true) (fun _ => true) 1 3 Lz4Frame SinglePartition
    [[1; 2]; []; [3]; [4]; [5; 6; 7]; [8]] = Some out /\
  delivers out 0 [1; 2; 3; 4; 5; 6; 7; 8].
Proof.
  apply (single_shuffle_correct 1 Lz4Frame 3 (plain_encodable 1 Lz4Frame 3 eq_refl) (fun _ _ => None)
    (fun _ _ : unit => true) (fun _ => true) SinglePartition [[1; 2]; []; [3]; [4]; [5; 6; 7]; [8]]).
  - reflexivity.
  - reflexivity.
  - repeat constructor; eexists; vm_compute; reflexivity.
  - unfold rows_fit. cbn. lia.
Defined.
