(* ===== verification/BloomFilter.v ===== *)
(** Spark's Bloom filter
    (src/native/spark-expr/src/bloom_filter/spark_bit_array.rs, spark_bloom_filter.rs,
    bloom_filter_agg.rs and bloom_filter_might_contain.rs).

    The number of hash functions, which the aggregate computes in floating point
    ([optimal_num_hash_functions]), is an argument.  [None] is a panic. *)

From S2P Require Import Prelude BitUtil Murmur3 HashArrays.
From stdpp Require Import list.
Open Scope Z_scope.

(** * The bit array *)

Record SparkBitArray := MkBits { data : list Z; bit_count : nat }.

Definition count_ones (x : Z) : nat := length (filter (fun i => Z.testbit x i = true) (seqZ 0 64)).

Definition count_all (words : list Z) : nat := foldr (fun w n => (count_ones w + n)%nat) 0%nat words.

Definition bits_new (buf : list Z) : SparkBitArray := MkBits buf (count_all buf).

(** [self.data[index >> 6] & (1 << (index & 0x3f)) != 0] *)
Definition bits_get (self : SparkBitArray) (index : nat) : option bool :=
  word ← data self !! (index / 64)%nat;
  Some (negb (Z.land word (shl 64 1 (Z.of_nat (index mod 64))) =? 0)).

Definition bits_set (self : SparkBitArray) (index : nat) : option (bool * SparkBitArray) :=
  present ← bits_get self index;
  match present with
  | false =>
      words ← update (data self) (index / 64)%nat (fun w => Z.lor w (shl 64 1 (Z.of_nat (index mod 64))));
      Some (true, MkBits words (S (bit_count self)))
  | true => Some (false, self)
  end.

Definition word_size (self : SparkBitArray) : nat := length (data self).
Definition bit_size (self : SparkBitArray) : Z := u64 (Z.of_nat (word_size self) * 64).
Definition byte_size (self : SparkBitArray) : nat := (word_size self * 8)%nat.

Definition to_bytes (self : SparkBitArray) : list Z := concat (to_le_bytes 8 <$> data self).

(** The loop of [merge_bits] over the words and the eight-byte chunks. *)
Fixpoint merge_words (words : list Z) (other : list Z) : list Z :=
  match words with
  | [] => []
  | w :: words => Z.lor w (le_bytes (take 8 other)) :: merge_words words (drop 8 other)
  end.

Definition merge_bits (self : SparkBitArray) (other : list Z) : option SparkBitArray :=
  if (byte_size self =? length other)%nat
  then let words := merge_words (data self) other in Some (MkBits words (count_all words))
  else None.

Definition num_words (num_bits : nat) : nat := ((num_bits + 63) / 64)%nat.

(** * The filter *)

Record SparkBloomFilter := MkFilter { bit_array : SparkBitArray; num_hash_functions : nat }.

Definition SPARK_BLOOM_FILTER_VERSION_1 : Z := 1.

(** [From<(i32, i32)>], for a non-negative number of bits *)
Definition filter_new (num_hash_functions num_bits : nat) : SparkBloomFilter :=
  MkFilter (bits_new (replicate (num_words num_bits) 0)) num_hash_functions.

(** Big-endian integers *)
Definition to_be_bytes (n : nat) (z : Z) : list Z := reverse (to_le_bytes n z).
Definition read_be (n : nat) (buf : list Z) : option Z :=
  if (length buf <? n)%nat then None else Some (le_bytes (reverse (take n buf))).

Fixpoint read_words (n : nat) (buf : list Z) : option (list Z) :=
  match n with
  | O => Some []
  | S n => w ← read_be 8 buf; ws ← read_words n (drop 8 buf); Some (w :: ws)
  end.

(** [From<&[u8]>]; the fields are read as [i32] and cast. *)
Definition filter_from_bytes (buf : list Z) : option SparkBloomFilter :=
  version ← read_be 4 buf;
  if negb (i32 version =? SPARK_BLOOM_FILTER_VERSION_1) then None
  else
    hashes ← read_be 4 (drop 4 buf);
    words ← read_be 4 (drop 8 buf);
    if i32 words <? 0 then None
    else
      ws ← read_words (Z.to_nat (i32 words)) (drop 12 buf);
      Some (MkFilter (bits_new ws) (Z.to_nat (u32 (i32 hashes)))).

Definition spark_serialization (self : SparkBloomFilter) : list Z :=
  to_be_bytes 4 1 ++ to_be_bytes 4 (Z.of_nat (num_hash_functions self))
  ++ to_be_bytes 4 (u32 (Z.of_nat (word_size (bit_array self)))) ++ concat (to_be_bytes 8 <$> data (bit_array self)).

(** [h1 + i * h2] in wrapping [i32] arithmetic, complemented when negative. *)
Definition combined_hash (h1 h2 : Z) (i : nat) : Z :=
  let h := i32 (i32 h1 + i32 (i32 (Z.of_nat i) * i32 h2)) in
  if h <? 0 then - h - 1 else h.

(** [(combined_hash % bit_size) as usize]; the remainder by zero panics. *)
Definition hash_index (size h1 h2 : Z) (i : nat) : option nat :=
  if size =? 0 then None else Some (Z.to_nat (Z.rem (combined_hash h1 h2 i) size)).

(** The loop over the hash functions of [put_long] and [put_binary]. *)
Fixpoint put_loop (size h1 h2 : Z) (fns : list nat) (changed : bool) (b : SparkBitArray)
    : option (bool * SparkBitArray) :=
  match fns with
  | [] => Some (changed, b)
  | i :: fns =>
      ix ← hash_index size h1 h2 i;
      '(set, b) ← bits_set b ix;
      put_loop size h1 h2 fns (changed || set) b
  end.

Definition put_binary (self : SparkBloomFilter) (item : list Z) : option (bool * SparkBloomFilter) :=
  let h1 := spark_compatible_murmur3_hash item 0 in
  let h2 := spark_compatible_murmur3_hash item h1 in
  let size := i32 (bit_size (bit_array self)) in
  '(changed, b) ← put_loop size h1 h2 (seq 1 (num_hash_functions self)) false (bit_array self);
  Some (changed, MkFilter b (num_hash_functions self)).

Definition put_long (self : SparkBloomFilter) (item : Z) : option (bool * SparkBloomFilter) :=
  put_binary self (to_le_bytes 8 item).

Fixpoint contain_loop (size h1 h2 : Z) (fns : list nat) (b : SparkBitArray) : option bool :=
  match fns with
  | [] => Some true
  | i :: fns =>
      ix ← hash_index size h1 h2 i;
      present ← bits_get b ix;
      match present with true => contain_loop size h1 h2 fns b | false => Some false end
  end.

Definition might_contain_long (self : SparkBloomFilter) (item : Z) : option bool :=
  let h1 := spark_compatible_murmur3_hash (to_le_bytes 8 item) 0 in
  let h2 := spark_compatible_murmur3_hash (to_le_bytes 8 item) h1 in
  contain_loop (i32 (bit_size (bit_array self))) h1 h2 (seq 1 (num_hash_functions self)) (bit_array self).

(** Nulls stay null. *)
Definition might_contain_longs (self : SparkBloomFilter) (items : list (option Z)) : option (list (option bool)) :=
  mapM (fun v => match v with Some x => b ← might_contain_long self x; Some (Some b) | None => Some None end) items.

Definition state_as_bytes (self : SparkBloomFilter) : list Z := to_bytes (bit_array self).

Definition merge_filter (self : SparkBloomFilter) (other : list Z) : option SparkBloomFilter :=
  if (length other =? byte_size (bit_array self))%nat
  then b ← merge_bits (bit_array self) other; Some (MkFilter b (num_hash_functions self)) else None.

(** * The aggregate *)

Fixpoint put_longs (self : SparkBloomFilter) (items : list (option Z)) : option SparkBloomFilter :=
  match items with
  | [] => Some self
  | Some x :: items => '(_, self) ← put_long self x; put_longs self items
  | None :: _ => None
  end.

Fixpoint put_binaries (self : SparkBloomFilter) (items : list (option (list Z))) : option SparkBloomFilter :=
  match items with
  | [] => Some self
  | Some x :: items => '(_, self) ← put_binary self x; put_binaries self items
  | None :: _ => None
  end.

(** [update_batch]: a null, or a type not listed, is unreachable. *)
Definition update_batch (self : SparkBloomFilter) (values : list Array) : option SparkBloomFilter :=
  match values with
  | [] => Some self
  | Primitive (Int8 | Int16 | Int32 | Int64) v :: _ => put_longs self v
  | Bytes Utf8 v :: _ => put_binaries self v
  | a :: _ => if (array_len a =? 0)%nat then Some self else None
  end.

(** [merge_batch]: one state of one row. *)
Definition merge_batch (self : SparkBloomFilter) (states : list (list (list Z))) : option SparkBloomFilter :=
  match states with
  | [[state]] => merge_filter self state
  | _ => None
  end.

(** * The [might_contain] function *)

Inductive MightContainArg := ScalarLong (v : option Z) | ArrayLong (v : list (option Z)) | OtherArg.
Inductive MightContainResult := ScalarBool (v : option bool) | ArrayBool (v : list (option bool)).

(** [evaluate_bloom_filter] on the value of the filter expression *)
Definition evaluate_bloom_filter (v : option (list Z)) : option (option SparkBloomFilter) :=
  match v with
  | Some bytes => f ← filter_from_bytes bytes; Some (Some f)
  | None => Some None
  end.

Definition execute_might_contain (filter : option SparkBloomFilter) (arg : MightContainArg) : option MightContainResult :=
  match arg, filter with
  | ScalarLong (Some x), Some f => b ← might_contain_long f x; Some (ScalarBool (Some b))
  | ScalarLong _, _ => Some (ScalarBool None)
  | ArrayLong v, Some f => bs ← might_contain_longs f v; Some (ArrayBool bs)
  | ArrayLong _, None => Some (ScalarBool None)
  | OtherArg, _ => None
  end.
