(* ===== verification/BloomFilterProps.v ===== *)
(** The Bloom filter: no false negatives, exact merging, and the serialized form. *)

From S2P Require Import Prelude BitUtil Murmur3 HashArrays Lists BloomFilter.
From stdpp Require Import list.
Open Scope Z_scope.

(** * Bits of a word array *)

Definition has_bit (words : list Z) (ix : nat) : bool :=
  match words !! (ix / 64)%nat with Some w => Z.testbit w (Z.of_nat (ix mod 64)) | None => false end.

Definition or_bit (words : list Z) (ix : nat) : list Z :=
  alter (fun w => Z.lor w (2 ^ Z.of_nat (ix mod 64))) (ix / 64)%nat words.

Lemma ix_mod ix : 0 <= Z.of_nat (ix mod 64) < 64.
Proof. pose proof (Nat.mod_upper_bound ix 64). lia. Qed.

Lemma ix_div (words : list Z) ix : (ix < 64 * length words)%nat -> (ix / 64 < length words)%nat.
Proof. intros. apply Nat.Div0.div_lt_upper_bound. lia. Qed.

Lemma length_or_bit words ix : length (or_bit words ix) = length words.
Proof. apply length_alter. Qed.

Lemma in_u64_lor a b : in_u 64 a -> in_u 64 b -> in_u 64 (Z.lor a b).
Proof.
  intros Ha Hb. rewrite <- (wrap_small 64 a Ha), <- (wrap_small 64 b Hb), <- wrap_lor by lia. by apply wrap_range.
Qed.

Lemma in_u64_pow ix : in_u 64 (2 ^ Z.of_nat (ix mod 64)).
Proof. pose proof (ix_mod ix). split; [lia|]. apply Z.pow_lt_mono_r; lia. Qed.

Lemma or_bit_ok words ix : Forall (in_u 64) words -> Forall (in_u 64) (or_bit words ix).
Proof.
  intros Hw. apply Forall_alter; [done|]. intros w _ Hx. apply in_u64_lor; [done|apply in_u64_pow].
Qed.

Lemma lor_present w k : 0 <= k -> Z.testbit w k = true -> Z.lor w (2 ^ k) = w.
Proof.
  intros Hk Hw. apply Z.bits_inj'. intros i Hi. rewrite Z.lor_spec, testbit_pow2 by lia.
  destruct (Z.eqb_spec k i); [subst; by rewrite Hw|]. by rewrite orb_false_r.
Qed.

(** Number of bits set. *)
Lemma count_ones_lor w k :
  0 <= k < 64 -> Z.testbit w k = false -> count_ones (Z.lor w (2 ^ k)) = S (count_ones w).
Proof.
  intros Hk Hw. unfold count_ones.
  assert (Hin : k ∈ seqZ 0 64) by (apply elem_of_seqZ; lia).
  pose proof (NoDup_seqZ 0 64) as Hnd. apply list_elem_of_split in Hin as (l1 & l2 & E). rewrite E in Hnd |- *.
  apply NoDup_app in Hnd as (_ & Hd & Hnd). apply NoDup_cons in Hnd as [Hk2 _].
  rewrite !filter_app, !length_app.
  assert (Hsame : forall l : list Z, k ∉ l -> filter (fun i => Z.testbit (Z.lor w (2 ^ k)) i = true) l
    = filter (fun i => Z.testbit w i = true) l).
  { intros l Hl. apply filter_iff_in. intros i Hi. rewrite Z.lor_spec, testbit_pow2 by lia.
    destruct (Z.eqb_spec k i); [by subst|]. by rewrite orb_false_r. }
  rewrite (Hsame l1). 2: { intros Hin. apply (Hd k Hin). constructor. }
  rewrite filter_cons_True, filter_cons_False, (Hsame l2 Hk2).
  - simpl. lia.
  - by rewrite Hw.
  - rewrite Z.lor_spec, testbit_pow2, Z.eqb_refl, orb_true_r by lia. done.
Qed.

Lemma count_all_alter words i w f :
  words !! i = Some w -> count_ones (f w) = S (count_ones w) -> count_all (alter f i words) = S (count_all words).
Proof.
  intros Hw Hf. revert i Hw. induction words as [|x words IH]; intros [|i] Hw; simpl in Hw; simplify_eq.
  - change (alter f 0%nat (w :: words)) with (f w :: words). cbn [count_all foldr]. rewrite Hf. lia.
  - change (alter f (S i) (x :: words)) with (x :: alter f i words). cbn [count_all foldr].
    fold (count_all (alter f i words)). rewrite (IH i Hw). unfold count_all. lia.
Qed.

(** * Well-formed filters *)

Record bits_ok (b : SparkBitArray) : Prop := {
  bo_words : Forall (in_u 64) (data b);
  bo_count : bit_count b = count_all (data b);
}.

(** At least one word, and a size in bits that fits [i32]. *)
Definition size_ok (words : nat) : Prop := 0 < Z.of_nat words * 64 < 2 ^ 31.

Record filter_ok (f : SparkBloomFilter) : Prop := {
  fo_bits : bits_ok (bit_array f);
  fo_size : size_ok (word_size (bit_array f));
  fo_hashes : Z.of_nat (num_hash_functions f) < 2 ^ 32;
}.

Lemma bits_ok_eq b b' : bits_ok b -> bits_ok b' -> data b = data b' -> b = b'.
Proof. destruct b, b'. intros [_ H1] [_ H2] E. simpl in *. subst. done. Qed.

Lemma bits_get_spec b ix : (ix < 64 * word_size b)%nat -> bits_get b ix = Some (has_bit (data b) ix).
Proof.
  intros Hi. unfold bits_get, has_bit. destruct (lookup_lt_is_Some_2 _ _ (ix_div _ _ Hi)) as [w Hw]. rewrite Hw.
  cbn [mbind option_bind]. pose proof (ix_mod ix). rewrite shl_1 by lia. f_equal. apply land_pow2_testbit. lia.
Qed.

Lemma bits_set_spec b ix :
  bits_ok b -> (ix < 64 * word_size b)%nat ->
  exists changed b', bits_set b ix = Some (changed, b') /\ bits_ok b' /\ data b' = or_bit (data b) ix.
Proof.
  intros [Hw Hc] Hi. unfold bits_set. rewrite bits_get_spec by done. cbn [mbind option_bind].
  pose proof (ix_mod ix) as Hm. unfold has_bit, or_bit, update.
  destruct (lookup_lt_is_Some_2 _ _ (ix_div _ _ Hi)) as [w Ew]. rewrite Ew. destruct (Z.testbit w _) eqn:Et.
  - exists false, b. split_and!; [done|done|]. rewrite (alter_insert _ _ _ _ Ew), list_insert_id; [done|]. by rewrite lor_present by (done || lia).
  - cbn [mbind option_bind]. rewrite shl_1 by lia. eexists true, _. split; [done|].
    assert (Ea : alter (fun w => Z.lor w (2 ^ Z.of_nat (ix mod 64))) (ix / 64)%nat (data b)
      = <[(ix / 64)%nat := Z.lor w (2 ^ Z.of_nat (ix mod 64))]> (data b)) by exact (alter_insert _ _ _ _ Ew).
    split; [|by rewrite Ea]. split; cbn [data bit_count]; rewrite <- Ea.
    + by apply or_bit_ok.
    + rewrite Hc. symmetry. eapply count_all_alter; [done|]. by apply count_ones_lor.
Qed.

(** * Putting items *)

(** The bits of an item in a filter of [words] words and [k] hash functions. *)
Definition item_bits (words k : nat) (item : list Z) : list nat :=
  let h1 := spark_compatible_murmur3_hash item 0 in
  let h2 := spark_compatible_murmur3_hash item h1 in
  (fun i => Z.to_nat (combined_hash h1 h2 i `mod` (Z.of_nat words * 64))) <$> seq 1 k.

Definition or_bits (words : list Z) (ixs : list nat) : list Z := foldl or_bit words ixs.

Lemma combined_hash_range h1 h2 i : 0 <= combined_hash h1 h2 i < 2 ^ 31.
Proof.
  unfold combined_hash. pose proof (swrap_range 32 (i32 h1 + i32 (i32 (Z.of_nat i) * i32 h2)) ltac:(lia)) as Hr.
  unfold in_s in Hr. change (2 ^ (32 - 1)) with (2 ^ 31) in Hr. case_ltb; lia.
Qed.

Lemma i32_bit_size b : size_ok (word_size b) -> i32 (bit_size b) = Z.of_nat (word_size b) * 64.
Proof.
  intros Hs. unfold size_ok in Hs. unfold bit_size. rewrite (wrap_small 64) by (unfold in_u; lia).
  apply swrap_small; [lia|]. unfold in_s. lia.
Qed.

Lemma bloom_index_spec words h1 h2 i :
  size_ok words -> let ix := Z.to_nat (combined_hash h1 h2 i `mod` (Z.of_nat words * 64)) in
  hash_index (Z.of_nat words * 64) h1 h2 i = Some ix /\ (ix < 64 * words)%nat.
Proof.
  intros Hs ix. unfold size_ok in Hs. unfold hash_index. simp_tests. pose proof (combined_hash_range h1 h2 i).
  rewrite Z.rem_mod_nonneg by lia. split; [done|]. unfold ix.
  pose proof (Z.mod_pos_bound (combined_hash h1 h2 i) (Z.of_nat words * 64) ltac:(lia)). lia.
Qed.

Lemma length_or_bits words ixs : length (or_bits words ixs) = length words.
Proof. unfold or_bits. revert words. induction ixs as [|ix ixs IH]; intros words; [done|]. simpl. by rewrite IH, length_or_bit. Qed.

Lemma put_loop_spec words h1 h2 fns changed b :
  bits_ok b -> word_size b = words -> size_ok words ->
  exists changed' b', put_loop (Z.of_nat words * 64) h1 h2 fns changed b = Some (changed', b') /\ bits_ok b' /\
    data b' = or_bits (data b) ((fun i => Z.to_nat (combined_hash h1 h2 i `mod` (Z.of_nat words * 64))) <$> fns).
Proof.
  intros Hb Hw Hs. revert changed b Hb Hw. induction fns as [|i fns IH]; intros changed b Hb Hw.
  { by exists changed, b. }
  cbn [put_loop]. destruct (bloom_index_spec words h1 h2 i Hs) as [-> Hlt]. cbn [mbind option_bind].
  destruct (bits_set_spec b _ Hb ltac:(rewrite Hw; exact Hlt)) as (ch & b1 & -> & Hb1 & Ed). cbn [mbind option_bind].
  destruct (IH (changed || ch) b1 Hb1) as (ch' & b' & -> & Hb' & Ed'); [unfold word_size; by rewrite Ed, length_or_bit|].
  exists ch', b'. split_and!; [done|done|]. by rewrite Ed', Ed.
Qed.

Lemma put_binary_spec f item :
  filter_ok f -> exists changed f', put_binary f item = Some (changed, f') /\ filter_ok f' /\
    num_hash_functions f' = num_hash_functions f /\
    data (bit_array f') = or_bits (data (bit_array f)) (item_bits (word_size (bit_array f)) (num_hash_functions f) item).
Proof.
  intros [Hb Hs Hk]. unfold put_binary. rewrite i32_bit_size by done.
  destruct (put_loop_spec (word_size (bit_array f)) (spark_compatible_murmur3_hash item 0)
    (spark_compatible_murmur3_hash item (spark_compatible_murmur3_hash item 0))
    (seq 1 (num_hash_functions f)) false (bit_array f) Hb eq_refl Hs) as (ch & b & -> & Hb' & Ed).
  cbn [mbind option_bind]. eexists _, _. split; [done|]. split_and!; [|done|done].
  split; cbn [bit_array num_hash_functions]; [done| |done]. unfold word_size. by rewrite Ed, length_or_bits.
Qed.

(** * Queries *)

Lemma has_bit_or_bit words ix j :
  (ix < 64 * length words)%nat -> has_bit (or_bit words ix) j = has_bit words j || (j =? ix)%nat.
Proof.
  intros Hi. unfold has_bit, or_bit. destruct (lookup_lt_is_Some_2 _ _ (ix_div _ _ Hi)) as [w Hw].
  rewrite (alter_insert _ _ _ _ Hw). pose proof (ix_mod ix). pose proof (ix_mod j).
  pose proof (Nat.div_mod_eq j 64) as Dj. pose proof (Nat.div_mod_eq ix 64) as Di.
  destruct (decide (j / 64 = ix / 64)%nat) as [E|Hne].
  - rewrite E, list_lookup_insert_eq, Hw by by apply ix_div. rewrite Z.lor_spec, testbit_pow2 by lia. f_equal.
    destruct (Z.eqb_spec (Z.of_nat (ix mod 64)) (Z.of_nat (j mod 64))), (Nat.eqb_spec j ix); try done; subst; lia.
  - rewrite list_lookup_insert_ne by lia. rewrite (proj2 (Nat.eqb_neq j ix)) by (intros ->; lia). by rewrite orb_false_r.
Qed.

Lemma has_bit_or_bits words ixs j :
  Forall (fun ix => ix < 64 * length words)%nat ixs ->
  has_bit (or_bits words ixs) j = has_bit words j || existsb (Nat.eqb j) ixs.
Proof.
  intros Hi. unfold or_bits. revert words Hi. induction ixs as [|ix ixs IH]; intros words Hi; [by rewrite orb_false_r|].
  apply Forall_cons_1 in Hi as [Hix Hi]. cbn [foldl existsb]. rewrite IH by by rewrite length_or_bit.
  by rewrite has_bit_or_bit, orb_assoc.
Qed.

Lemma item_bits_lt words k item : size_ok words -> Forall (fun ix => ix < 64 * words)%nat (item_bits words k item).
Proof. intros Hs. apply Forall_fmap, Forall_true. intros i. by apply bloom_index_spec. Qed.

Lemma contain_loop_spec words h1 h2 fns b :
  word_size b = words -> size_ok words ->
  contain_loop (Z.of_nat words * 64) h1 h2 fns b
  = Some (forallb (has_bit (data b)) ((fun i => Z.to_nat (combined_hash h1 h2 i `mod` (Z.of_nat words * 64))) <$> fns)).
Proof.
  intros Hw Hs. induction fns as [|i fns IH]; [done|]. cbn [contain_loop].
  destruct (bloom_index_spec words h1 h2 i Hs) as [-> Hlt]. cbn [mbind option_bind].
  rewrite bits_get_spec by by rewrite Hw. cbn [mbind option_bind]. rewrite fmap_cons. cbn [forallb].
  destruct (has_bit (data b) _); [done|]. done.
Qed.

(** A filter answers yes exactly when all bits of the item are set. *)
Lemma might_contain_spec f x :
  filter_ok f -> might_contain_long f x
  = Some (forallb (has_bit (data (bit_array f))) (item_bits (word_size (bit_array f)) (num_hash_functions f) (to_le_bytes 8 x))).
Proof. intros [Hb Hs Hk]. unfold might_contain_long. rewrite i32_bit_size by done. by apply contain_loop_spec. Qed.

(** * Sequences of items and merging *)

Definition all_bits (words k : nat) (xs : list Z) : list nat :=
  concat ((fun x => item_bits words k (to_le_bytes 8 x)) <$> xs).

Lemma or_bits_app words ixs ixs' : or_bits words (ixs ++ ixs') = or_bits (or_bits words ixs) ixs'.
Proof. apply foldl_app. Qed.

Lemma put_longs_spec f xs :
  filter_ok f -> exists f', put_longs f (Some <$> xs) = Some f' /\ filter_ok f' /\
    num_hash_functions f' = num_hash_functions f /\
    data (bit_array f') = or_bits (data (bit_array f)) (all_bits (word_size (bit_array f)) (num_hash_functions f) xs).
Proof.
  revert f. induction xs as [|x xs IH]; intros f Hf; [by exists f|]. rewrite fmap_cons. cbn [put_longs].
  destruct (put_binary_spec f (to_le_bytes 8 x) Hf) as (ch & f1 & E1 & Hf1 & Ek & Ed). unfold put_long. rewrite E1.
  cbn [mbind option_bind]. destruct (IH f1 Hf1) as (f' & E' & Hf' & Ek' & Ed'). exists f'. split_and!; [done|done|congruence|].
  unfold all_bits. rewrite fmap_cons. cbn [concat]. rewrite or_bits_app, Ed', Ed, Ek.
  unfold word_size. by rewrite Ed, length_or_bits.
Qed.

Lemma put_longs_app f xs ys :
  put_longs f (Some <$> (xs ++ ys)) = (f ← put_longs f (Some <$> xs); put_longs f (Some <$> ys)).
Proof.
  revert f. induction xs as [|x xs IH]; intros f; [done|]. cbn [app]. rewrite !fmap_cons. cbn [put_longs].
  destruct (put_long f x) as [[ch f1]|]; [|done]. cbn [mbind option_bind]. apply IH.
Qed.

Lemma merge_words_spec words other :
  Forall (in_u 64) other -> length other = length words ->
  merge_words words (concat (to_le_bytes 8 <$> other)) = zip_with Z.lor words other.
Proof.
  revert other. induction words as [|w words IH]; intros [|o other] Ho Hl; simpl in Hl; try done.
  apply Forall_cons_1 in Ho as [Ho Hos]. rewrite fmap_cons. cbn [concat merge_words zip_with].
  rewrite take_app_length', drop_app_length' by (by rewrite length_to_le_bytes).
  rewrite le_bytes_to_le_bytes, IH by (done || lia). change (8 * Z.of_nat 8) with 64. by rewrite wrap_small.
Qed.

Lemma zip_or_bit words other ix :
  length words = length other -> or_bit (zip_with Z.lor words other) ix = zip_with Z.lor words (or_bit other ix).
Proof.
  intros Hl. unfold or_bit. generalize (ix / 64)%nat as i. revert other Hl.
  induction words as [|w words IH]; intros [|o other] Hl [|i]; simpl in Hl; try done.
  - cbn. by rewrite Z.lor_assoc.
  - change (alter ?f (S i) (o :: other)) with (o :: alter f i other). cbn [zip_with].
    rewrite <- IH by lia. done.
Qed.

Lemma or_bits_merge words ixs :
  or_bits words ixs = zip_with Z.lor words (or_bits (replicate (length words) 0) ixs).
Proof.
  induction ixs as [|ix ixs IH] using rev_ind.
  - cbn. induction words as [|w words IH]; [done|]. cbn. by rewrite <- IH, Z.lor_0_r.
  - rewrite !or_bits_app, IH. cbn [or_bits foldl]. apply zip_or_bit. by rewrite length_or_bits, length_replicate.
Qed.

Lemma length_to_bytes b : length (to_bytes b) = byte_size b.
Proof.
  unfold to_bytes, byte_size, word_size. induction (data b) as [|w ws IH]; [done|]. rewrite fmap_cons. cbn [concat length].
  rewrite length_app, length_to_le_bytes, IH. lia.
Qed.

Lemma count_all_replicate n : count_all (replicate n 0) = 0%nat.
Proof. induction n as [|n IH]; [done|]. simpl. exact IH. Qed.

Lemma filter_new_ok k num_bits :
  0 < Z.of_nat (num_words num_bits) * 64 < 2 ^ 31 -> Z.of_nat k < 2 ^ 32 -> filter_ok (filter_new k num_bits).
Proof.
  intros Hs Hk. split; cbn [filter_new bit_array num_hash_functions]; [|unfold word_size, size_ok|done].
  - split; cbn [bits_new data bit_count]; [|done]. apply Forall_replicate. split; lia.
  - cbn [bits_new data]. by rewrite length_replicate.
Qed.

Lemma zip_lor_ok words other :
  Forall (in_u 64) words -> Forall (in_u 64) other -> Forall (in_u 64) (zip_with Z.lor words other).
Proof.
  intros Hw. revert other. induction Hw as [|w words Hx _ IH]; intros other Ho; [constructor|].
  destruct Ho as [|o other Hy Ho]; [constructor|]. constructor; [by apply in_u64_lor|by apply IH].
Qed.

(** Merging the state of a filter is or-ing its words. *)
Lemma merge_filter_spec f g :
  filter_ok f -> filter_ok g -> word_size (bit_array g) = word_size (bit_array f) ->
  exists h, merge_filter f (state_as_bytes g) = Some h /\ filter_ok h /\
    num_hash_functions h = num_hash_functions f /\
    data (bit_array h) = zip_with Z.lor (data (bit_array f)) (data (bit_array g)).
Proof.
  intros [[Hw Hc] Hs Hk] [[Hw' Hc'] _ _] El. unfold merge_filter, state_as_bytes, merge_bits.
  rewrite length_to_bytes. unfold byte_size at 1 2 3. rewrite El, Nat.eqb_refl.
  unfold byte_size. rewrite El, Nat.eqb_refl. cbn [mbind option_bind]. unfold to_bytes.
  rewrite merge_words_spec by done. eexists. split; [done|]. split_and!; [|done|done].
  split; cbn [bit_array num_hash_functions]; [|unfold word_size; cbn [data]; by rewrite length_zip_with_l_eq|done].
  split; cbn [data bit_count]; [|done]. by apply zip_lor_ok.
Qed.

(** C24: Partial aggregation is exact.  Aggregating two parts of the input in separate
    filters and merging the state of the second into the first gives the very filter
    (words, bit count and all) that aggregating the whole input gives. *)
Theorem bloom_merge_exact k num_bits xs ys :
  0 < Z.of_nat (num_words num_bits) * 64 < 2 ^ 31 -> Z.of_nat k < 2 ^ 32 ->
  exists fx fy f, put_longs (filter_new k num_bits) (Some <$> xs) = Some fx /\
    put_longs (filter_new k num_bits) (Some <$> ys) = Some fy /\
    merge_filter fx (state_as_bytes fy) = Some f /\
    put_longs (filter_new k num_bits) (Some <$> (xs ++ ys)) = Some f.
Proof.
  intros Hs Hk. pose proof (filter_new_ok k num_bits Hs Hk) as Hn.
  destruct (put_longs_spec _ xs Hn) as (fx & Ex & Hx & Kx & Dx).
  destruct (put_longs_spec _ ys Hn) as (fy & Ey & Hy & Ky & Dy).
  destruct (put_longs_spec fx ys Hx) as (f & Ef & Hf & Kf & Df).
  destruct (merge_filter_spec fx fy Hx Hy) as (h & Eh & Hh & Kh & Dh).
  { unfold word_size. by rewrite Dx, Dy, !length_or_bits. }
  exists fx, fy, h. split_and!; [done..|]. rewrite put_longs_app, Ex. cbn [mbind option_bind]. rewrite Ef. f_equal.
  assert (El : length (data (bit_array fx)) = num_words num_bits).
  { rewrite Dx, length_or_bits. cbn. apply length_replicate. }
  destruct f as [fb fk], h as [hb hk]. cbn [bit_array num_hash_functions] in *. f_equal; [|congruence].
  apply bits_ok_eq; [apply Hf|apply Hh|]. rewrite Df, Dh, or_bits_merge, Dy. f_equal.
  unfold word_size. rewrite El, Kx. cbn. by rewrite length_replicate.
Qed.

Lemma bloom_merge_exact_witness : exists fx fy f,
  put_longs (filter_new 4 128) (Some <$> [1; 2]) = Some fx /\ put_longs (filter_new 4 128) (Some <$> [3]) = Some fy /\
  merge_filter fx (state_as_bytes fy) = Some f /\ put_longs (filter_new 4 128) (Some <$> [1; 2; 3]) = Some f.
Proof.
  apply (bloom_merge_exact 4 128 [1; 2] [3]).
  - vm_compute. done.
  - vm_compute. done.
Defined.

(** * Serialization *)

Lemma length_to_be_bytes n z : length (to_be_bytes n z) = n.
Proof. unfold to_be_bytes. by rewrite length_reverse, length_to_le_bytes. Qed.

Lemma read_be_spec n z rest : read_be n (to_be_bytes n z ++ rest) = Some (wrap (8 * Z.of_nat n) z).
Proof.
  unfold read_be. rewrite length_app, length_to_be_bytes. simp_tests.
  rewrite take_app_length' by by rewrite length_to_be_bytes. unfold to_be_bytes. rewrite reverse_involutive.
  by rewrite le_bytes_to_le_bytes.
Qed.

Lemma drop_be n z rest : drop n (to_be_bytes n z ++ rest) = rest.
Proof. apply drop_app_length'. by rewrite length_to_be_bytes. Qed.

Lemma drop_be_8 a b rest : drop 8 (to_be_bytes 4 a ++ to_be_bytes 4 b ++ rest) = rest.
Proof. rewrite app_assoc. apply drop_app_length'. by rewrite length_app, !length_to_be_bytes. Qed.

Lemma drop_be_12 a b c rest : drop 12 (to_be_bytes 4 a ++ to_be_bytes 4 b ++ to_be_bytes 4 c ++ rest) = rest.
Proof. rewrite !app_assoc. apply drop_app_length'. by rewrite !length_app, !length_to_be_bytes. Qed.

Lemma read_words_spec ws rest :
  Forall (in_u 64) ws -> read_words (length ws) (concat (to_be_bytes 8 <$> ws) ++ rest) = Some ws.
Proof.
  induction 1 as [|w ws Hw _ IH]; [done|]. rewrite fmap_cons. cbn [length concat read_words]. rewrite <- app_assoc.
  rewrite read_be_spec, drop_be. cbn [mbind option_bind]. rewrite IH. cbn [mbind option_bind].
  change (8 * Z.of_nat 8) with 64. by rewrite wrap_small.
Qed.

Lemma serialization_spec f : filter_ok f -> filter_from_bytes (spark_serialization f) = Some f.
Proof.
  intros [[Hw Hc] Hs Hk]. unfold size_ok in Hs. unfold filter_from_bytes, spark_serialization.
  set (k := num_hash_functions f) in *. set (ws := data (bit_array f)) in *.
  rewrite read_be_spec. cbn [mbind option_bind]. change (i32 (wrap (8 * Z.of_nat 4) 1)) with 1. cbn [Z.eqb negb].
  rewrite drop_be, read_be_spec. cbn [mbind option_bind].
  rewrite drop_be_8, read_be_spec. cbn [mbind option_bind].
  change (8 * Z.of_nat 4) with 32. rewrite !wrap_wrap, !swrap_wrap, wrap_swrap by lia.
  rewrite (swrap_small 32 (Z.of_nat (word_size (bit_array f)))) by (unfold in_s; lia). simp_tests.
  rewrite drop_be_12, Nat2Z.id.
  unfold word_size. fold ws. rewrite <- (app_nil_r (concat _)), read_words_spec by done. cbn [mbind option_bind].
  rewrite wrap_small by (unfold in_u; lia). rewrite Nat2Z.id. f_equal. destruct f as [b k']. f_equal.
  by apply bits_ok_eq.
Qed.

Lemma existsb_In j ixs : j ∈ ixs -> existsb (Nat.eqb j) ixs = true.
Proof. intros Hj. apply existsb_exists. exists j. split; [by apply list_elem_of_In|apply Nat.eqb_refl]. Qed.

(** C13: No false negatives, from aggregation to query.  After the filter of any items
    has been built, serialized, and read back by the query side, [might_contain] is true
    of every item that was put in. *)
Theorem bloom_no_false_negatives k num_bits items :
  0 < Z.of_nat (num_words num_bits) * 64 < 2 ^ 31 -> Z.of_nat k < 2 ^ 32 ->
  exists f f', update_batch (filter_new k num_bits) [Primitive Int64 (Some <$> items)] = Some f /\
    evaluate_bloom_filter (Some (spark_serialization f)) = Some (Some f') /\
    forall x, x ∈ items -> execute_might_contain (Some f') (ScalarLong (Some x)) = Some (ScalarBool (Some true)).
Proof.
  intros Hs Hk. pose proof (filter_new_ok k num_bits Hs Hk) as Hn.
  destruct (put_longs_spec _ items Hn) as (f & E & Hf & Kf & Df). exists f, f. split; [done|].
  unfold evaluate_bloom_filter. rewrite serialization_spec by done. split; [done|]. intros x Hx.
  cbn [execute_might_contain]. rewrite might_contain_spec by done. cbn [mbind option_bind]. do 3 f_equal.
  apply forallb_forall. intros j Hj. rewrite Df.
  assert (Hw : word_size (bit_array f) = word_size (bit_array (filter_new k num_bits))).
  { unfold word_size. by rewrite Df, length_or_bits. }
  rewrite has_bit_or_bits.
  - rewrite existsb_In; [by rewrite orb_true_r|]. apply list_elem_of_In, in_concat.
    eexists. split; [|exact Hj]. apply list_elem_of_In. rewrite Hw, Kf.
    by apply (list_elem_of_fmap_2 (fun x => item_bits _ _ (to_le_bytes 8 x))).
  - apply Forall_concat, Forall_fmap, Forall_true. intros y. apply item_bits_lt, Hn.
Qed.

Lemma bloom_no_false_negatives_witness : exists f f',
  update_batch (filter_new 3 64) [Primitive Int64 (Some <$> [7; -1; 123456789012])] = Some f /\
  evaluate_bloom_filter (Some (spark_serialization f)) = Some (Some f') /\
  execute_might_contain (Some f') (ScalarLong (Some (-1))) = Some (ScalarBool (Some true)).
Proof.
  destruct (bloom_no_false_negatives 3 64 [7; -1; 123456789012]) as (f & f' & E & E' & Hx).
  - vm_compute. done.
  - vm_compute. done.
  - exists f, f'. split; [exact E|]. split; [exact E'|]. apply Hx. apply list_elem_of_In. simpl. tauto.
Defined.

(** A null is not skipped: the aggregate panics on it. *)
Example update_batch_null : update_batch (filter_new 3 64) [Primitive Int64 [Some 1; None]] = None.
Proof. reflexivity. Qed.
