(* ===== verification/MemoryPools.v ===== *)
(** Memory pools (src/native/core/src/execution/memory_pools/: fair_pool.rs,
    unified_pool.rs, task_shared.rs, config.rs and create_memory_pool of mod.rs) and the
    JVM memory manager they call
    (src/spark/src/main/java/org/apache/spark/CometTaskMemoryManager.java).

    A pool method takes the lock (or one atomic update) and one call into the JVM, so a
    method is one step; the interleavings of the consumers of a task are the sequences
    of steps.  Spark's own memory manager decides how much of a request it grants: the
    granted amount is an argument of the step.  DataFusion's reservations (a size per
    registered consumer) are the client state.  [None] is a panic. *)

From S2P Require Import Prelude.
From stdpp Require Import gmap strings.
Open Scope Z_scope.

(** * The JVM side *)

(** [CometTaskMemoryManager]: the counter [used], an [AtomicLong]. *)
Record JvmManager := MkJvm { jvm_used : Z }.

(** [acquireMemory(size)] when Spark grants [granted] bytes. *)
Definition acquireMemory (m : JvmManager) (granted : Z) : Z * JvmManager := (granted, MkJvm (i64 (jvm_used m + granted))).
Definition releaseMemory (m : JvmManager) (size : Z) : JvmManager := MkJvm (i64 (jvm_used m - i64 size)).

(** [usize] arithmetic *)
Definition checked_add (a b : Z) : option Z := if a + b <? 2 ^ 64 then Some (a + b) else None.
Definition checked_sub (a b : Z) : option Z := if b <=? a then Some (a - b) else None.

(** * The pool interface (DataFusion's trait [MemoryPool]) *)

(** [try_grow] returns whether the request succeeded; both it and [shrink] see the
    current size of the reservation. *)
Class MemoryPool (P : Type) := {
  register : P -> option P;
  unregister : P -> option P;
  try_grow : P -> JvmManager -> Z -> Z -> Z -> option (bool * P * JvmManager);
  shrink : P -> JvmManager -> Z -> Z -> option (P * JvmManager);
  reserved : P -> Z;
}.

(** [grow] is [try_grow(..).unwrap()]. *)
Definition grow {P} `{MemoryPool P} (p : P) (m : JvmManager) (size additional granted : Z) : option (P * JvmManager) :=
  match try_grow p m size additional granted with
  | Some (true, p, m) => Some (p, m)
  | _ => None
  end.

(** * [CometFairMemoryPool] *)

Record FairPool := MkFair { pool_size : Z; fair_used : Z; fair_num : Z }.

Definition fair_new (size : Z) : FairPool := MkFair size 0 0.

Definition fair_register (p : FairPool) : option FairPool :=
  num ← checked_add (fair_num p) 1; Some (MkFair (pool_size p) (fair_used p) num).

Definition fair_unregister (p : FairPool) : option FairPool :=
  num ← checked_sub (fair_num p) 1; Some (MkFair (pool_size p) (fair_used p) num).

Definition fair_try_grow (p : FairPool) (m : JvmManager) (size additional granted : Z)
    : option (bool * FairPool * JvmManager) :=
  if 0 <? additional then
    if fair_num p =? 0 then None
    else
      let limit := pool_size p / fair_num p in
      if limit <? u64 (size + additional) then Some (false, p, m)
      else
        let '(acquired, m) := acquireMemory m granted in
        if acquired <? i64 additional then Some (false, p, releaseMemory m acquired)
        else used ← checked_add (fair_used p) additional; Some (true, MkFair (pool_size p) used (fair_num p), m)
  else Some (true, p, m).

Definition fair_shrink (p : FairPool) (m : JvmManager) (size subtractive : Z) : option (FairPool * JvmManager) :=
  if 0 <? subtractive then
    if size <? subtractive then None
    else
      let m := releaseMemory m subtractive in
      used ← checked_sub (fair_used p) subtractive; Some (MkFair (pool_size p) used (fair_num p), m)
  else Some (p, m).

#[export] Instance fair_pool : MemoryPool FairPool := {
  register := fair_register; unregister := fair_unregister;
  try_grow := fair_try_grow; shrink := fair_shrink; reserved := fair_used;
}.

(** * [CometUnifiedMemoryPool] *)

Record UnifiedPool := MkUnified { unified_used : Z }.

Definition unified_try_grow (p : UnifiedPool) (m : JvmManager) (size additional granted : Z)
    : option (bool * UnifiedPool * JvmManager) :=
  if 0 <? additional then
    let '(acquired, m) := acquireMemory m granted in
    if acquired <? i64 additional then Some (false, p, releaseMemory m acquired)
    else match checked_add (unified_used p) acquired with
         | Some used => Some (true, MkUnified used, m)
         | None => Some (false, p, m)
         end
  else Some (true, p, m).

Definition unified_shrink (p : UnifiedPool) (m : JvmManager) (size subtractive : Z) : option (UnifiedPool * JvmManager) :=
  let m := releaseMemory m subtractive in
  used ← checked_sub (unified_used p) subtractive; Some (MkUnified used, m).

(** [register] and [unregister] are the trait's defaults. *)
#[export] Instance unified_pool : MemoryPool UnifiedPool := {
  register := Some; unregister := Some;
  try_grow := unified_try_grow; shrink := unified_shrink; reserved := unified_used;
}.

(** * The pools of tasks *)

Inductive MemoryPoolType :=
  GreedyUnified | FairUnified | Greedy | FairSpill | GreedyTaskShared | FairSpillTaskShared
  | GreedyGlobal | FairSpillGlobal | Unbounded.

Definition is_task_shared (t : MemoryPoolType) : bool :=
  match t with GreedyTaskShared | FairSpillTaskShared => true | _ => false end.

Record MemoryPoolConfig := MkConfig { config_type : MemoryPoolType; config_size : Z }.

Definition parse_memory_pool_config (off_heap_mode : bool) (memory_pool_type : string)
    (memory_limit memory_limit_per_task : Z) : option MemoryPoolConfig :=
  let pool_size := u64 memory_limit in
  let s := memory_pool_type in
  if off_heap_mode then
    if decide (s = "default" \/ s = "fair_unified")%string then Some (MkConfig FairUnified pool_size)
    else if decide (s = "greedy_unified")%string then Some (MkConfig GreedyUnified 0)
    else None
  else
    let pool_size_per_task := u64 memory_limit_per_task in
    if decide (s = "fair_spill_task_shared")%string then Some (MkConfig FairSpillTaskShared pool_size_per_task)
    else if decide (s = "default" \/ s = "greedy_task_shared")%string then Some (MkConfig GreedyTaskShared pool_size_per_task)
    else if decide (s = "fair_spill_global")%string then Some (MkConfig FairSpillGlobal pool_size)
    else if decide (s = "greedy_global")%string then Some (MkConfig GreedyGlobal pool_size)
    else if decide (s = "fair_spill")%string then Some (MkConfig FairSpill pool_size_per_task)
    else if decide (s = "greedy")%string then Some (MkConfig Greedy pool_size_per_task)
    else if decide (s = "unbounded")%string then Some (MkConfig Unbounded 0)
    else None.

(** A pool object: its identity and the configuration it was made from. *)
Record PoolObject := MkPool { pool_id : nat; pool_type : MemoryPoolType; object_size : Z }.

Record PerTaskMemoryPool := MkPerTask { memory_pool : PoolObject; num_plans : Z }.

(** The process-wide state: the map of task pools, the two global pools, and a counter
    of the pool objects made so far. *)
Record PoolState := MkPools {
  task_shared : gmap Z PerTaskMemoryPool;
  global_greedy : option PoolObject;
  global_fair : option PoolObject;
  next_pool : nat;
}.

Definition pools_empty : PoolState := MkPools ∅ None None 0.

Definition create_memory_pool (c : MemoryPoolConfig) (task_attempt_id : Z) (s : PoolState) : PoolObject * PoolState :=
  let fresh := MkPool (next_pool s) (config_type c) (config_size c) in
  match config_type c with
  | GreedyUnified | FairUnified | Greedy | FairSpill | Unbounded =>
      (fresh, MkPools (task_shared s) (global_greedy s) (global_fair s) (S (next_pool s)))
  | GreedyGlobal =>
      match global_greedy s with
      | Some p => (p, s)
      | None => (fresh, MkPools (task_shared s) (Some fresh) (global_fair s) (S (next_pool s)))
      end
  | FairSpillGlobal =>
      match global_fair s with
      | Some p => (p, s)
      | None => (fresh, MkPools (task_shared s) (global_greedy s) (Some fresh) (S (next_pool s)))
      end
  | GreedyTaskShared | FairSpillTaskShared =>
      let '(entry, next) := match task_shared s !! task_attempt_id with
                            | Some entry => (entry, next_pool s)
                            | None => (MkPerTask fresh 0, S (next_pool s))
                            end in
      let entry := MkPerTask (memory_pool entry) (u64 (num_plans entry + 1)) in
      (memory_pool entry, MkPools (<[task_attempt_id := entry]> (task_shared s)) (global_greedy s) (global_fair s) next)
  end.

Definition handle_task_shared_pool_release (t : MemoryPoolType) (task_attempt_id : Z) (s : PoolState) : PoolState :=
  if negb (is_task_shared t) then s
  else
    match task_shared s !! task_attempt_id with
    | None => s
    | Some entry =>
        let entry := MkPerTask (memory_pool entry) (u64 (num_plans entry - 1)) in
        let m := if num_plans entry =? 0 then delete task_attempt_id (task_shared s)
                 else <[task_attempt_id := entry]> (task_shared s) in
        MkPools m (global_greedy s) (global_fair s) (next_pool s)
    end.
