(* ===== verification/MemoryPoolsProps.v ===== *)
(** Accounting of the memory pools: under every interleaving of the consumers of a task
    the pool, its reservations and the JVM agree on the bytes held. *)

From S2P Require Import Prelude MemoryPools.
From stdpp Require Import gmap relations.
Open Scope Z_scope.

(** * Sums over reservations *)

Definition total (m : gmap nat Z) : Z := map_fold (fun _ x acc => x + acc) 0 m.

Lemma total_empty : total ∅ = 0.
Proof. apply map_fold_empty. Qed.

Lemma total_insert m i x : m !! i = None -> total (<[i := x]> m) = x + total m.
Proof. intros Hi. apply map_fold_insert_L; [lia|done]. Qed.

Lemma total_delete m i x : m !! i = Some x -> total m = x + total (delete i m).
Proof.
  intros Hi. rewrite <- (insert_delete_id m i x Hi) at 1. apply total_insert. apply lookup_delete_eq.
Qed.

Lemma total_update m i x y : m !! i = Some x -> total (<[i := y]> m) = total m - x + y.
Proof.
  intros Hi. rewrite (total_delete m i x Hi). rewrite <- insert_delete_eq, total_insert; [lia|apply lookup_delete_eq].
Qed.

(** Sizes that are not negative have a non-negative sum, and bound each of them. *)
Definition sizes_ok (m : gmap nat Z) : Prop := map_Forall (fun _ x => 0 <= x) m.

Lemma total_nonneg m : sizes_ok m -> 0 <= total m.
Proof.
  induction m as [|i x m Hi IH] using map_ind; [by rewrite total_empty|]. intros Hs.
  apply map_Forall_insert in Hs as [Hx Hs]; [|done]. rewrite total_insert by done. specialize (IH Hs). lia.
Qed.

Lemma total_ge m i x : sizes_ok m -> m !! i = Some x -> 0 <= x <= total m.
Proof.
  intros Hs Hi. rewrite (total_delete m i x Hi). pose proof (Hs i x Hi).
  pose proof (total_nonneg (delete i m) (map_Forall_delete _ _ i Hs)). simpl in *. lia.
Qed.

(** * What a pool promises *)

Class MemoryPoolLaws (P : Type) `{MemoryPool P} := {
  (** the pool has [k] registered consumers *)
  pool_ok : P -> Z -> Prop;
  register_ok : forall p k, pool_ok p k -> 0 <= k < 2 ^ 64 - 1 ->
    exists p', register p = Some p' /\ pool_ok p' (k + 1) /\ reserved p' = reserved p;
  unregister_ok : forall p k, pool_ok p k -> 0 < k ->
    exists p', unregister p = Some p' /\ pool_ok p' (k - 1) /\ reserved p' = reserved p;
  (** a request is granted in full and accounted, or changes nothing *)
  try_grow_ok : forall p k m size n granted, pool_ok p k -> 0 < k -> 0 <= size -> 0 <= n -> 0 <= granted <= n ->
    size + n < 2 ^ 63 -> 0 <= reserved p -> reserved p + n < 2 ^ 63 -> 0 <= jvm_used m -> jvm_used m + n < 2 ^ 63 ->
    exists ok p' m', try_grow p m size n granted = Some (ok, p', m') /\ pool_ok p' k /\
      reserved p' = reserved p + (if ok : bool then n else 0) /\ jvm_used m' = jvm_used m + (if ok : bool then n else 0);
  shrink_ok : forall p k m size n, pool_ok p k -> 0 <= n <= size -> n <= reserved p -> n <= jvm_used m < 2 ^ 63 ->
    exists p' m', shrink p m size n = Some (p', m') /\ pool_ok p' k /\
      reserved p' = reserved p - n /\ jvm_used m' = jvm_used m - n;
}.

Lemma i64_small z : 0 <= z < 2 ^ 63 -> i64 z = z.
Proof. intros. apply swrap_small; [lia|]. unfold in_s. change (64 - 1) with 63. lia. Qed.

Lemma checked_add_small a b : 0 <= a -> 0 <= b -> a + b < 2 ^ 63 -> checked_add a b = Some (a + b).
Proof. intros. unfold checked_add. by rewrite (proj2 (Z.ltb_lt _ _)) by lia. Qed.

Lemma checked_sub_small a b : b <= a -> checked_sub a b = Some (a - b).
Proof. intros. unfold checked_sub. by rewrite (proj2 (Z.leb_le _ _)) by lia. Qed.

(** Acquiring and giving back leaves the JVM as it was. *)
Lemma acquire_release m g n :
  0 <= g <= n -> 0 <= jvm_used m -> jvm_used m + n < 2 ^ 63 ->
  jvm_used (releaseMemory (MkJvm (i64 (jvm_used m + g))) g) = jvm_used m.
Proof. intros. cbn. rewrite !i64_small by (rewrite ?i64_small; lia). lia. Qed.

#[export] Program Instance fair_pool_laws : MemoryPoolLaws FairPool := {
  pool_ok p k := fair_num p = k /\ 0 <= pool_size p;
}.
Next Obligation.
  intros p k [<- Hp] Hk. cbn. unfold fair_register, checked_add. rewrite (proj2 (Z.ltb_lt _ _)) by lia. by eexists.
Qed.
Next Obligation.
  intros p k [<- Hp] Hk. cbn. unfold fair_unregister. rewrite checked_sub_small by lia. by eexists.
Qed.
Next Obligation.
  intros p k m size n g [<- Hp] Hk Hs Hn Hg Hsn Hr Hrn Hj Hjn. cbn [try_grow reserved fair_pool] in *. unfold fair_try_grow.
  rewrite (wrap_small 64), (i64_small n) by (unfold in_u; lia). rewrite (proj2 (Z.eqb_neq _ 0)) by lia.
  destruct (Z.ltb_spec 0 n). 2: { exists true, p, m. split_and!; try done; lia. }
  destruct (Z.ltb_spec (pool_size p / fair_num p) (size + n)). { exists false, p, m. split_and!; try done; lia. }
  unfold acquireMemory. destruct (Z.ltb_spec g n).
  - exists false, p. eexists. split; [done|]. split_and!; try done; [lia|]. rewrite (acquire_release m g n) by lia. lia.
  - rewrite checked_add_small by lia. cbn [mbind option_bind]. eexists true, _, _. split; [done|]. cbn.
    split_and!; try done. rewrite i64_small by lia. lia.
Qed.
Next Obligation.
  intros p k m size n [<- Hp] Hn Hr Hj. cbn [shrink reserved fair_pool] in *. unfold fair_shrink.
  destruct (Z.ltb_spec 0 n). 2: { exists p, m. split_and!; try done; lia. }
  rewrite (proj2 (Z.ltb_ge size n)), checked_sub_small by lia. cbn [mbind option_bind]. eexists _, _. split; [done|]. cbn.
  split_and!; try done. rewrite !i64_small by (rewrite ?i64_small; lia). done.
Qed.

#[export] Program Instance unified_pool_laws : MemoryPoolLaws UnifiedPool := {
  pool_ok p k := True;
}.
Next Obligation. intros p k _ _. by exists p. Qed.
Next Obligation. intros p k _ _. by exists p. Qed.
Next Obligation.
  intros p k m size n g _ Hk Hs Hn Hg Hsn Hr Hrn Hj Hjn. cbn [try_grow reserved unified_pool] in *. unfold unified_try_grow.
  rewrite (i64_small n) by lia. destruct (Z.ltb_spec 0 n). 2: { exists true, p, m. split_and!; try done; lia. }
  unfold acquireMemory. destruct (Z.ltb_spec g n).
  - exists false, p. eexists. split; [done|]. split_and!; try done; [lia|]. rewrite (acquire_release m g n) by lia. lia.
  - rewrite checked_add_small by lia. eexists true, _, _. split; [done|]. cbn. split_and!; try done; [lia|].
    rewrite i64_small by lia. lia.
Qed.
Next Obligation.
  intros p k m size n _ Hn Hr Hj. cbn [shrink reserved unified_pool] in *. unfold unified_shrink.
  rewrite checked_sub_small by lia. cbn [mbind option_bind]. eexists _, _. split; [done|]. cbn.
  split_and!; try done. rewrite !i64_small by (rewrite ?i64_small; lia). done.
Qed.

(** * A task: a pool, the JVM and the reservations of the consumers *)

Section Task.
Context {P : Type} `{MemoryPoolLaws P}.

Record Task := MkTask { task_pool : P; task_jvm : JvmManager; reservations : gmap nat Z }.

(** What the consumers do, as DataFusion's [MemoryReservation] turns it into calls of the
    pool: [register] makes an empty reservation, [try_grow] adds to its size when the pool
    agrees, [shrink] takes from it, and dropping it frees what is left and unregisters. *)
Inductive Op :=
  | OpRegister (i : nat)
  | OpTryGrow (i : nat) (additional granted : Z)
  | OpShrink (i : nat) (capacity : Z)
  | OpDrop (i : nat).

(** The calls a consumer can make.  All memory of a process is below 2^63 bytes, and Spark
    grants at most what it is asked for. *)
Definition enabled (t : Task) (o : Op) : Prop :=
  match o with
  | OpRegister i => reservations t !! i = None /\ Z.of_nat (size (reservations t)) < 2 ^ 64 - 1
  | OpTryGrow i n g => is_Some (reservations t !! i) /\ 0 <= g <= n /\ total (reservations t) + n < 2 ^ 63
  | OpShrink i n => exists x, reservations t !! i = Some x /\ 0 <= n <= x
  | OpDrop i => is_Some (reservations t !! i)
  end.

(** The effect of a call; [None] when the pool panics. *)
Definition exec (t : Task) (o : Op) : option Task :=
  match o with
  | OpRegister i => p ← register (task_pool t); Some (MkTask p (task_jvm t) (<[i := 0]> (reservations t)))
  | OpTryGrow i n g =>
      x ← reservations t !! i;
      r ← try_grow (task_pool t) (task_jvm t) x n g;
      let '(ok, p, m) := r in
      Some (MkTask p m (if ok : bool then <[i := x + n]> (reservations t) else reservations t))
  | OpShrink i n =>
      x ← reservations t !! i;
      '(p, m) ← shrink (task_pool t) (task_jvm t) x n;
      Some (MkTask p m (<[i := x - n]> (reservations t)))
  | OpDrop i =>
      x ← reservations t !! i;
      '(p, m) ← (if x =? 0 then Some (task_pool t, task_jvm t) else shrink (task_pool t) (task_jvm t) x x);
      p ← unregister p;
      Some (MkTask p m (delete i (reservations t)))
  end.

Inductive step (t : Task) : Task -> Prop :=
  | step_op o t' : enabled t o -> exec t o = Some t' -> step t t'.

(** The books agree: the pool's counter and the JVM's are the sum of the reservations. *)
Definition balanced (t : Task) : Prop :=
  reserved (task_pool t) = total (reservations t) /\ jvm_used (task_jvm t) = total (reservations t).

Definition task_inv (t : Task) : Prop :=
  pool_ok (task_pool t) (Z.of_nat (size (reservations t))) /\ sizes_ok (reservations t) /\
  total (reservations t) < 2 ^ 63 /\ balanced t.

Lemma size_lookup_pos (m : gmap nat Z) i x : m !! i = Some x -> (0 < size m)%nat.
Proof. intros Hi. destruct (size m) eqn:Hs; [|lia]. apply map_size_empty_inv in Hs. by subst. Qed.

Lemma shrink_step t i x n :
  task_inv t -> reservations t !! i = Some x -> 0 <= n <= x ->
  exists p m, shrink (task_pool t) (task_jvm t) x n = Some (p, m) /\ task_inv (MkTask p m (<[i := x - n]> (reservations t))).
Proof.
  intros (Hp & Hs & Ht & Hr & Hj) Hi Hn. pose proof (total_ge _ _ _ Hs Hi).
  destruct (shrink_ok (task_pool t) _ (task_jvm t) x n Hp) as (p & m & He & Hp' & Hr' & Hj'); [lia..|].
  exists p, m. split; [done|]. unfold task_inv, balanced. cbn. rewrite (total_update _ _ _ _ Hi), Hr', Hj'.
  rewrite map_size_insert_Some by (by rewrite Hi). split_and!; try done; try lia.
  apply map_Forall_insert_2; [lia|done].
Qed.

(** Every enabled call runs without a panic and keeps the books. *)
Lemma exec_inv t o : task_inv t -> enabled t o -> exists t', exec t o = Some t' /\ task_inv t'.
Proof.
  intros Hinv. pose proof Hinv as (Hp & Hs & Ht & Hr & Hj). pose proof (total_nonneg _ Hs). destruct o as [i|i n g|i n|i]; cbn.
  - intros [Hi Hn]. destruct (register_ok _ _ Hp) as (p & -> & Hp' & Hr'); [lia|]. eexists. split; [done|].
    unfold task_inv, balanced. cbn. rewrite total_insert, map_size_insert_None, Hr' by done.
    split_and!; try lia; [|by apply map_Forall_insert_2]. by replace (Z.of_nat (S _)) with (Z.of_nat (size (reservations t)) + 1) by lia.
  - intros ([x Hi] & Hg & Hn). rewrite Hi. cbn. pose proof (total_ge _ _ _ Hs Hi). pose proof (size_lookup_pos _ _ _ Hi).
    destruct (try_grow_ok (task_pool t) _ (task_jvm t) x n g Hp) as (ok & p & m & -> & Hp' & Hr' & Hj'); [lia..|].
    eexists. split; [done|]. unfold task_inv, balanced. cbn. rewrite Hr', Hj'.
    destruct ok; [|by split_and!; try done; lia]. rewrite (total_update _ _ _ _ Hi), map_size_insert_Some by (by rewrite Hi).
    split_and!; try done; try lia. apply map_Forall_insert_2; [lia|done].
  - intros (x & Hi & Hn). rewrite Hi. cbn. destruct (shrink_step t i x n) as (p & m & -> & Ht'); try done. by eexists.
  - intros [x Hi]. rewrite Hi. cbn. pose proof (size_lookup_pos _ _ _ Hi). pose proof (total_ge _ _ _ Hs Hi).
    assert (exists p m, (if x =? 0 then Some (task_pool t, task_jvm t) else shrink (task_pool t) (task_jvm t) x x) = Some (p, m)
      /\ pool_ok p (Z.of_nat (size (reservations t))) /\ reserved p = total (reservations t) - x
      /\ jvm_used m = total (reservations t) - x) as (p & m & -> & Hp' & Hr' & Hj').
    { destruct (Z.eqb_spec x 0) as [->|]; [exists (task_pool t), (task_jvm t); split_and!; try done; lia|].
      destruct (shrink_ok (task_pool t) _ (task_jvm t) x x Hp) as (p & m & He & Hp' & Hr' & Hj'); [lia..|].
      exists p, m. split_and!; try done; lia. }
    cbn. destruct (unregister_ok _ _ Hp') as (q & -> & Hq & Hrq); [lia|]. eexists. split; [done|].
    unfold task_inv, balanced. cbn. rewrite Hrq, Hr', Hj', (total_delete _ _ _ Hi) in *.
    rewrite map_size_delete_Some by (by rewrite Hi). split_and!; try lia; [|by apply map_Forall_delete].
    by replace (Z.of_nat (Init.Nat.pred _)) with (Z.of_nat (size (reservations t)) - 1) by lia.
Qed.

Lemma steps_inv t t' : task_inv t -> rtc step t t' -> task_inv t'.
Proof.
  intros Ht Hs. induction Hs as [|t1 t2 t3 [o ? He Hx] _ IH]; [done|]. apply IH.
  destruct (exec_inv t1 o Ht He) as (? & ? & ?). congruence.
Qed.

(** A sequence of calls *)
Fixpoint exec_all (t : Task) (os : list Op) : option Task :=
  match os with [] => Some t | o :: os => t ← exec t o; exec_all t os end.

Lemma drop_reservations t i t' : exec t (OpDrop i) = Some t' -> reservations t' = delete i (reservations t).
Proof.
  cbn. destruct (reservations t !! i) as [x|]; [|done]. cbn [mbind option_bind].
  destruct (if x =? 0 then _ else _) as [[p m]|]; [|done]. cbn [mbind option_bind]. destruct (unregister p); [|done].
  by intros [= <-].
Qed.

(** Dropping every reservation, in whatever order, leaves nothing behind. *)
Lemma drop_all t l :
  task_inv t -> l ≡ₚ (map_to_list (reservations t)).*1 ->
  exists t', exec_all t (OpDrop <$> l) = Some t' /\ reservations t' = ∅ /\ reserved (task_pool t') = 0 /\ jvm_used (task_jvm t') = 0.
Proof.
  revert t. induction l as [|i l IH]; intros t Ht Hl.
  - exists t. apply Permutation_nil_l in Hl. symmetry in Hl. apply fmap_nil_inv, map_to_list_empty_iff in Hl. pose proof Ht as (_ & _ & _ & Hr & Hj).
    rewrite Hr, Hj, Hl, total_empty. done.
  - assert (is_Some (reservations t !! i)) as [x Hi].
    { assert (i ∈ (map_to_list (reservations t)).*1) as Hin by (rewrite <- Hl; left).
      apply list_elem_of_fmap in Hin as ([j y] & -> & Hy%elem_of_map_to_list). by exists y. }
    destruct (exec_inv t (OpDrop i) Ht) as (t1 & E & Ht1); [by exists x|]. pose proof (drop_reservations _ _ _ E) as Hd.
    destruct (IH t1 Ht1) as (t' & E' & Hend).
    { rewrite Hd. rewrite <- (map_to_list_delete _ _ _ Hi) in Hl. cbn in Hl. by apply Permutation_cons_inv in Hl. }
    exists t'. split; [|done]. rewrite fmap_cons. cbn [exec_all]. by rewrite E.
Qed.

End Task.
Arguments Task P : clear implicits.

(** * The pools of tasks *)

(** A call of [createPlan] that has taken a pool: the pool type, its task, its pool, and whether the call went on to make an execution context
    or failed after it. *)
Record Plan := MkPlan { plan_type : MemoryPoolType; plan_task : Z; plan_pool : PoolObject; plan_made : bool }.

(** The process: the pool state and the calls of [createPlan] whose pool has not been given back, by handle. *)
Record Process := MkProcess { pools : PoolState; counted : gmap nat Plan }.

(** The execution contexts, and the calls that failed after they had taken a pool, which no [releasePlan] can give back. *)
Definition live (p : Process) : gmap nat Plan := filter (fun il => plan_made il.2 = true) (counted p).
Definition failed (p : Process) : gmap nat Plan := filter (fun il => plan_made il.2 = false) (counted p).

(** [createPlan] takes a pool and then does what may fail: reading the local directories and preparing the session ([created] tells whether
    that succeeds).  [releasePlan] gives the share back unless the update of the metrics before it fails ([updated]). *)
Definition create_plan (c : MemoryPoolConfig) (tid : Z) (i : nat) (created : bool) (p : Process) : Process :=
  let '(pool, s) := create_memory_pool c tid (pools p) in
  MkProcess s (<[i := MkPlan (config_type c) tid pool created]> (counted p)).
Definition release_plan (i : nat) (l : Plan) (updated : bool) (p : Process) : Process :=
  if updated then MkProcess (handle_task_shared_pool_release (plan_type l) (plan_task l) (pools p)) (delete i (counted p)) else p.

Inductive plan_step (p : Process) : Process -> Prop :=
  | plan_create c tid i created : counted p !! i = None -> Z.of_nat (size (counted p)) < 2 ^ 64 - 1 -> plan_step p (create_plan c tid i created p)
  | plan_release i l updated : live p !! i = Some l -> plan_step p (release_plan i l updated p).

(** The plans that count for a task's shared pool. *)
Definition on_task (tid : Z) (l : Plan) : bool := is_task_shared (plan_type l) && (plan_task l =? tid).
Definition sharers (tid : Z) (m : gmap nat Plan) : Z := Z.of_nat (size (filter (fun il => on_task tid il.2 = true) m)).
Arguments sharers : simpl never.

Lemma sharers_insert tid m i l :
  m !! i = None -> sharers tid (<[i := l]> m) = sharers tid m + (if on_task tid l then 1 else 0).
Proof.
  intros Hi. unfold sharers. destruct (on_task tid l) eqn:Ho.
  - rewrite map_filter_insert_True by done. rewrite map_size_insert_None; [lia|]. apply map_lookup_filter_None. by left.
  - rewrite map_filter_insert_False by (cbn; congruence). rewrite delete_id by done. lia.
Qed.

Lemma sharers_delete tid m i l :
  m !! i = Some l -> sharers tid m = sharers tid (delete i m) + (if on_task tid l then 1 else 0).
Proof.
  intros Hi. rewrite <- (insert_delete_id m i l Hi) at 1. apply sharers_insert. apply lookup_delete_eq.
Qed.

Lemma sharers_bound tid m : 0 <= sharers tid m <= Z.of_nat (size m).
Proof.
  unfold sharers. split; [lia|]. apply inj_le. apply map_subseteq_size. apply map_filter_subseteq.
Qed.

(** Who a pool belongs to. *)
Inductive Owner := OfTask (tid : Z) | OfGreedy | OfFair | OfPlan (i : nat).

#[export] Instance owner_eq_dec : EqDecision Owner.
Proof. solve_decision. Defined.

Definition owner (i : nat) (t : MemoryPoolType) (tid : Z) : Owner :=
  match t with
  | GreedyTaskShared | FairSpillTaskShared => OfTask tid
  | GreedyGlobal => OfGreedy
  | FairSpillGlobal => OfFair
  | _ => OfPlan i
  end.

(** The pool an owner other than a plan has at present. *)
Definition owned (s : PoolState) (o : Owner) : option PoolObject :=
  match o with
  | OfTask tid => memory_pool <$> task_shared s !! tid
  | OfGreedy => global_greedy s
  | OfFair => global_fair s
  | OfPlan _ => None
  end.

(** [own] remembers who each pool object was made for. *)
Definition owners_ok (own : nat -> Owner) (s : PoolState) (m : gmap nat Plan) : Prop :=
  (forall o p, owned s o = Some p -> own (pool_id p) = o /\ (pool_id p < next_pool s)%nat) /\
  (forall i l, m !! i = Some l ->
    own (pool_id (plan_pool l)) = owner i (plan_type l) (plan_task l) /\ (pool_id (plan_pool l) < next_pool s)%nat /\
    (owner i (plan_type l) (plan_task l) = OfPlan i \/
     owned s (owner i (plan_type l) (plan_task l)) = Some (plan_pool l))).

Definition counts_ok (s : PoolState) (m : gmap nat Plan) : Prop :=
  forall tid, match task_shared s !! tid with
              | Some e => 0 < sharers tid m /\ num_plans e = sharers tid m
              | None => sharers tid m = 0
              end.

Definition process_inv (p : Process) : Prop :=
  counts_ok (pools p) (counted p) /\ (exists own, owners_ok own (pools p) (counted p)) /\ Z.of_nat (size (counted p)) < 2 ^ 64.

Lemma create_counts c tid i created p :
  counts_ok (pools p) (counted p) -> counted p !! i = None -> Z.of_nat (size (counted p)) < 2 ^ 64 - 1 ->
  counts_ok (pools (create_plan c tid i created p)) (counted (create_plan c tid i created p)).
Proof.
  intros Hc Hi Hn tid'. specialize (Hc tid'). pose proof (sharers_bound tid' (counted p)) as Hb. unfold create_plan, create_memory_pool.
  destruct (config_type c) eqn:Ht;
    repeat match goal with
       | |- context [match global_greedy ?s with _ => _ end] => destruct (global_greedy s)
       | |- context [match global_fair ?s with _ => _ end] => destruct (global_fair s)
       | |- context [match task_shared ?s !! tid with _ => _ end] => destruct (task_shared s !! tid) eqn:Hl
       end.
  all: cbn; rewrite sharers_insert by done; unfold on_task; cbn; rewrite ?Z.add_0_r; try exact Hc.
  all: destruct (Z.eqb_spec tid tid') as [->|Hne];
    [rewrite lookup_insert_eq; rewrite Hl in Hc; cbn | rewrite lookup_insert_ne, Z.add_0_r by done; exact Hc].
  all: rewrite wrap_small by (unfold in_u; lia); lia.
Qed.

Lemma release_counts i l p :
  counts_ok (pools p) (counted p) -> Z.of_nat (size (counted p)) < 2 ^ 64 -> counted p !! i = Some l ->
  counts_ok (pools (release_plan i l true p)) (counted (release_plan i l true p)).
Proof.
  intros Hc Hn Hi tid. specialize (Hc tid). pose proof (sharers_bound tid (counted p)). pose proof (sharers_bound tid (delete i (counted p))).
  pose proof (sharers_delete tid _ _ _ Hi) as Hd. unfold release_plan, handle_task_shared_pool_release, on_task in *.
  destruct (is_task_shared (plan_type l)); cbn in *; [|by rewrite Z.add_0_r in Hd; rewrite Hd in Hc].
  destruct (Z.eqb_spec (plan_task l) tid) as [<-|Hne]; cbn in *.
  - destruct (task_shared (pools p) !! plan_task l) as [e|] eqn:He; [|lia]. cbn.
    rewrite wrap_small by (unfold in_u; lia). destruct (Z.eqb_spec (num_plans e - 1) 0).
    + rewrite lookup_delete_eq. lia.
    + rewrite lookup_insert_eq. cbn. lia.
  - rewrite Z.add_0_r in Hd. rewrite Hd in Hc. destruct (task_shared (pools p) !! plan_task l) as [e|] eqn:He; [|done]. cbn.
    destruct (_ =? 0); [by rewrite lookup_delete_ne | by rewrite lookup_insert_ne].
Qed.

(** [create_memory_pool] either hands out the pool its owner has or makes a new one. *)
Lemma create_owned i c tid s q s' :
  create_memory_pool c tid s = (q, s') ->
  let o := owner i (config_type c) tid in
  (owned s o = Some q /\ next_pool s' = next_pool s /\ forall o', owned s' o' = owned s o') \/
  (owned s o = None /\ pool_id q = next_pool s /\ next_pool s' = S (next_pool s) /\
   (o = OfPlan i \/ owned s' o = Some q) /\ forall o', o' <> o -> owned s' o' = owned s o').
Proof.
  unfold create_memory_pool. destruct (config_type c) eqn:Ht; cbn; intros Heq.
  1-4,9: injection Heq as <- <-; right; split_and!; try done; by left.
  3,4: destruct (_ s) eqn:Hg; injection Heq as <- <-; [by left | right; split_and!; try done; [by right | by intros []]].
  all: destruct (task_shared s !! tid) as [e|] eqn:He; injection Heq as <- <-; cbn; [left | right];
    split_and!; try done; rewrite ?He, ?lookup_insert_eq; cbn; try done; try (by right); intros [tid'| | |]; cbn; try done.
  1,3: destruct (decide (tid = tid')) as [->|]; [by rewrite lookup_insert_eq, He | by rewrite lookup_insert_ne].
  all: intros Hne; by rewrite lookup_insert_ne by congruence.
Qed.

Lemma create_owners own c tid i created p :
  owners_ok own (pools p) (counted p) -> counted p !! i = None ->
  exists own', owners_ok own' (pools (create_plan c tid i created p)) (counted (create_plan c tid i created p)).
Proof.
  intros [Ho Hl] Hi. unfold create_plan. destruct (create_memory_pool c tid (pools p)) as [q s'] eqn:Hc. cbn.
  destruct (create_owned i _ _ _ _ _ Hc) as [(Hq & Hn & Hs) | (Hq & Hid & Hn & Hs & Hne)].
  - exists own. split; [intros o p' Hp; rewrite Hs in Hp; rewrite Hn; by apply Ho|].
    intros j l Hj. rewrite Hn, Hs. apply lookup_insert_Some in Hj as [[<- <-]|[? Hj]]; [|by apply Hl].
    cbn. destruct (Ho _ _ Hq). auto.
  - set (o := owner i (config_type c) tid) in *. exists (fun id => if decide (id = next_pool (pools p)) then o else own id). split.
    + intros o' p' Hp. destruct (decide (o' = o)) as [->|Hd].
      * destruct Hs as [Hs|Hs]; [by rewrite Hs in Hp|]. simplify_eq. rewrite Hid, decide_True, Hn by done. split; [done|lia].
      * rewrite Hne in Hp by done. destruct (Ho _ _ Hp). rewrite decide_False by lia. split; [done|lia].
    + intros j l Hj. apply lookup_insert_Some in Hj as [[<- <-]|[Hij Hj]]; cbn.
      * rewrite Hid, decide_True, Hn by done. fold o. split_and!; [done|lia|done].
      * destruct (Hl _ _ Hj) as (H1 & H2 & H3). rewrite decide_False by lia. split_and!; [done|lia|].
        destruct H3 as [H3|H3]; [by left|right]. rewrite Hne; [done|]. intros Heq. by rewrite Heq, Hq in H3.
Qed.

Lemma release_owned t tid s o q :
  owned (handle_task_shared_pool_release t tid s) o = Some q -> owned s o = Some q.
Proof.
  unfold handle_task_shared_pool_release. destruct (negb _); [done|]. destruct (task_shared s !! tid) as [e|] eqn:He; [|done].
  destruct o as [tid'| | |]; cbn; try done. destruct (decide (tid = tid')) as [<-|].
  - destruct (_ =? 0); [by rewrite lookup_delete_eq|]. by rewrite lookup_insert_eq, He.
  - destruct (_ =? 0); [by rewrite lookup_delete_ne | by rewrite lookup_insert_ne].
Qed.

Lemma release_next t tid s : next_pool (handle_task_shared_pool_release t tid s) = next_pool s.
Proof. unfold handle_task_shared_pool_release. destruct (negb _); [done|]. by destruct (task_shared s !! tid). Qed.

Lemma release_globals t tid s :
  global_greedy (handle_task_shared_pool_release t tid s) = global_greedy s /\
  global_fair (handle_task_shared_pool_release t tid s) = global_fair s.
Proof. unfold handle_task_shared_pool_release. destruct (negb _); [done|]. by destruct (task_shared s !! tid). Qed.

Lemma owner_task i t tid tid' : owner i t tid = OfTask tid' -> is_task_shared t = true /\ tid = tid'.
Proof. destruct t; cbn; intros; by simplify_eq. Qed.

Lemma release_owners own i l p :
  counts_ok (pools (release_plan i l true p)) (counted (release_plan i l true p)) ->
  owners_ok own (pools p) (counted p) -> owners_ok own (pools (release_plan i l true p)) (counted (release_plan i l true p)).
Proof.
  unfold release_plan. cbn. intros Hc [Ho Hl]. split; rewrite release_next.
  { intros o q Hq%release_owned. by apply Ho. }
  intros j l' Hj. pose proof Hj as [Hij Hj']%lookup_delete_Some. destruct (Hl _ _ Hj') as (H1 & H2 & H3). split_and!; try done.
  destruct H3 as [H3|H3]; [by left|right].
  destruct (owner j (plan_type l') (plan_task l')) as [tid| | |] eqn:Hw; cbn in *.
  - specialize (Hc tid). rewrite (sharers_delete tid _ _ _ Hj) in Hc. destruct (owner_task _ _ _ _ Hw) as [Hs <-].
    unfold on_task in Hc. rewrite Hs, Z.eqb_refl in Hc. cbn in Hc. pose proof (sharers_bound (plan_task l') (delete j (delete i (counted p)))).
    destruct (task_shared (handle_task_shared_pool_release _ _ _) !! plan_task l') as [e|] eqn:He; [|lia].
    pose proof (release_owned (plan_type l) (plan_task l) (pools p) (OfTask (plan_task l')) (memory_pool e)) as Hr.
    cbn in Hr. rewrite He in Hr. specialize (Hr eq_refl). by rewrite H3 in Hr.
  - by rewrite (proj1 (release_globals _ _ _)).
  - by rewrite (proj2 (release_globals _ _ _)).
  - done.
Qed.

Lemma sharers_split tid p : sharers tid (counted p) = sharers tid (live p) + sharers tid (failed p).
Proof.
  unfold live, failed. generalize (counted p) as m. induction m as [|i l m Hi IH] using map_ind; [done|].
  assert (Hf : forall b, filter (fun il : nat * Plan => plan_made il.2 = b) m !! i = None) by (intros b; apply map_lookup_filter_None; by left).
  rewrite sharers_insert by done. destruct (plan_made l) eqn:E.
  - rewrite (map_filter_insert_True _ _ i l), (map_filter_insert_False _ _ i l), delete_id, sharers_insert by (done || (cbn; congruence)). lia.
  - rewrite (map_filter_insert_False _ _ i l), (map_filter_insert_True _ _ i l), delete_id, sharers_insert by (done || (cbn; congruence)). lia.
Qed.

Lemma plan_steps_inv p q : process_inv p -> rtc plan_step p q -> process_inv q.
Proof.
  intros Hp Hs. induction Hs as [|p1 p2 p3 Hst _ IH]; [done|]. apply IH. clear IH.
  destruct Hp as (Hc & [own Ho] & Hn), Hst as [c tid i created Hi Hb | i l [] [Hi _]%map_lookup_filter_Some].
  - split_and!; [by apply create_counts | by eapply create_owners|].
    unfold create_plan. destruct (create_memory_pool c tid (pools p1)). cbn. rewrite map_size_insert_None by done. lia.
  - pose proof (release_counts i l p1 Hc Hn Hi). split_and!; [done | exists own; by apply release_owners |].
    cbn. rewrite map_size_delete_Some by (by rewrite Hi). lia.
  - by split_and!; [|exists own|].
Qed.

Lemma process_empty_inv : process_inv (MkProcess pools_empty ∅).
Proof.
  split_and!; [intros tid; unfold sharers; cbn; by rewrite lookup_empty | | by cbn].
  exists OfPlan. split; [|intros i l; cbn; by rewrite lookup_empty].
  intros [tid| | |] q; cbn; by rewrite ?lookup_empty.
Qed.

(** * The theorems *)

Definition fair_start (size : Z) : Task FairPool := MkTask (fair_new size) (MkJvm 0) ∅.
Definition unified_start : Task UnifiedPool := MkTask (MkUnified 0) (MkJvm 0) ∅.
Definition process_start : Process := MkProcess pools_empty ∅.

Lemma fair_start_inv size : 0 <= size -> task_inv (fair_start size).
Proof. intros Hs. unfold task_inv, balanced, fair_start. cbn. rewrite total_empty. split_and!; try done; lia. Qed.

Lemma unified_start_inv : task_inv unified_start.
Proof. unfold task_inv, balanced, unified_start. cbn. rewrite total_empty. by split_and!. Qed.

(** C12: for the fair pool and for the unified pool, in every state that any interleaving of
    consumers registering, growing, shrinking and dropping their reservations reaches from
    an empty pool, whatever part of each request Spark grants: the pool's counter and the
    bytes the JVM has lent are both exactly the sum of the reservations (a refused request
    leaves nothing behind), and no call a consumer can make next panics. *)
Theorem memory_conserved size :
  0 <= size ->
  (forall t, rtc step (fair_start size) t ->
    balanced t /\ forall o, enabled t o -> exists t', exec t o = Some t') /\
  (forall t, rtc step unified_start t ->
    balanced t /\ forall o, enabled t o -> exists t', exec t o = Some t').
Proof.
  intros Hs. split; intros t Ht.
  - pose proof (steps_inv _ _ (fair_start_inv size Hs) Ht) as Hi. split; [apply Hi|].
    intros o Ho. destruct (exec_inv t o Hi Ho) as (t' & ? & _). by exists t'.
  - pose proof (steps_inv _ _ unified_start_inv Ht) as Hi. split; [apply Hi|].
    intros o Ho. destruct (exec_inv t o Hi Ho) as (t' & ? & _). by exists t'.
Qed.

Lemma memory_conserved_witness :
  exists t, rtc step (fair_start 100) t /\ reservations t !! 0%nat = Some 60 /\ balanced t /\ forall o, enabled t o -> exists t', exec t o = Some t'.
Proof.
  exists (MkTask (MkFair 100 60 1) (MkJvm 60) {[0%nat := 60]}).
  assert (Ht : rtc step (fair_start 100) (MkTask (MkFair 100 60 1) (MkJvm 60) {[0%nat := 60]})).
  { eapply rtc_l; [apply (step_op _ (OpRegister 0)); [split; [done|vm_compute; done] | done]|].
    apply rtc_once. apply (step_op _ (OpTryGrow 0 60 60)); [split_and!; [by eexists|lia|lia|vm_compute; done] | done]. }
  split; [exact Ht|]. split; [done|]. exact (proj1 (memory_conserved 100 ltac:(lia)) _ Ht).
Defined.

(** C31: No memory is kept from Spark: in every reachable state of the fair and of the unified
    pool, dropping the reservations that are left, in any order, succeeds, and after the last
    one the pool's counter and the bytes lent by the JVM are zero. *)
Theorem memory_released size :
  0 <= size ->
  (forall t l, rtc step (fair_start size) t -> l ≡ₚ (map_to_list (reservations t)).*1 ->
    exists t', exec_all t (OpDrop <$> l) = Some t' /\ reservations t' = ∅ /\ reserved (task_pool t') = 0 /\ jvm_used (task_jvm t') = 0) /\
  (forall t l, rtc step unified_start t -> l ≡ₚ (map_to_list (reservations t)).*1 ->
    exists t', exec_all t (OpDrop <$> l) = Some t' /\ reservations t' = ∅ /\ reserved (task_pool t') = 0 /\ jvm_used (task_jvm t') = 0).
Proof.
  intros Hs. split; intros t l Ht Hl; apply drop_all; try done.
  - by apply (steps_inv (fair_start size)); [apply fair_start_inv|].
  - by apply (steps_inv unified_start); [apply unified_start_inv|].
Qed.

Lemma memory_released_witness : 0 <= 100 /\
  forall t l, rtc step (fair_start 100) t -> l ≡ₚ (map_to_list (reservations t)).*1 ->
    exists t', exec_all t (OpDrop <$> l) = Some t' /\ reservations t' = ∅ /\ reserved (task_pool t') = 0 /\ jvm_used (task_jvm t') = 0.
Proof. split; [lia|]. apply (memory_released 100). lia. Defined.

Lemma fair_try_grow_size p m x n g ok p' m' :
  fair_try_grow p m x n g = Some (ok, p', m') -> pool_size p' = pool_size p.
Proof.
  unfold fair_try_grow, acquireMemory. repeat case_match; intros Heq; simplify_eq; try done.
  by destruct (checked_add _ _); simplify_eq/=.
Qed.

Lemma fair_shrink_size p m x n p' m' : fair_shrink p m x n = Some (p', m') -> pool_size p' = pool_size p.
Proof. unfold fair_shrink. repeat case_match; intros; simplify_eq; try done. by destruct (checked_sub _ _); simplify_eq/=. Qed.

Lemma fair_exec_size (t t' : Task FairPool) o : exec t o = Some t' -> pool_size (task_pool t') = pool_size (task_pool t).
Proof.
  destruct o as [i|i n g|i n|i]; cbn; intros He.
  - unfold fair_register in He. by destruct (checked_add _ _); simplify_eq/=.
  - destruct (reservations t !! i) as [x|]; [|done]. cbn in He.
    destruct (fair_try_grow _ _ _ _ _) as [[[ok p] m]|] eqn:Hg; simplify_eq/=. by eapply fair_try_grow_size.
  - destruct (reservations t !! i) as [x|]; [|done]. cbn in He.
    destruct (fair_shrink _ _ _ _) as [[p m]|] eqn:Hg; simplify_eq/=. by eapply fair_shrink_size.
  - destruct (reservations t !! i) as [x|]; [|done]. cbn in He.
    destruct (if x =? 0 then _ else _) as [[p m]|] eqn:Hg; simplify_eq/=.
    unfold fair_unregister in He. destruct (checked_sub _ _); simplify_eq/=.
    case_match; simplify_eq; [done|]. by eapply fair_shrink_size.
Qed.

Lemma fair_steps_size size t : rtc step (fair_start size) t -> pool_size (task_pool t) = size.
Proof.
  intros Ht. transitivity (pool_size (task_pool (fair_start size))); [|done]. revert Ht. generalize (fair_start size). intros t0 Ht.
  induction Ht as [|t1 t2 t3 [o ? ? He] _ IH]; [done|]. rewrite IH. by eapply fair_exec_size.
Qed.

(** C30: in every reachable state of the fair pool, a consumer holding [x] bytes that asks for
    [n] more gets them exactly when Spark grants all of them and [x + n] is within an even
    share, [size] divided by the number of consumers registered; otherwise its reservation,
    like every other one, stays as it is. *)
Theorem fair_growth_limited size t i x n granted :
  0 <= size -> rtc step (fair_start size) t ->
  enabled t (OpTryGrow i n granted) -> reservations t !! i = Some x -> 0 < n ->
  exists t', exec t (OpTryGrow i n granted) = Some t' /\
    reservations t' =
      (if (x + n <=? size / Z.of_nat (base.size (reservations t))) && (granted =? n)
       then <[i := x + n]> (reservations t) else reservations t).
Proof.
  intros Hs Ht He Hi Hn. pose proof (steps_inv _ _ (fair_start_inv size Hs) Ht) as Hinv.
  destruct Hinv as ([Hk _] & Hsz & Htot & Hr & Hj). destruct He as (_ & Hg & Hb).
  pose proof (total_ge _ _ _ Hsz Hi). pose proof (size_lookup_pos _ _ _ Hi). cbn in Hr.
  cbn. rewrite Hi. cbn. unfold fair_try_grow, acquireMemory. rewrite (fair_steps_size _ _ Ht), Hk.
  rewrite (wrap_small 64), (i64_small n) by (unfold in_u; lia). rewrite (proj2 (Z.ltb_lt 0 n)), (proj2 (Z.eqb_neq _ 0)) by lia.
  rewrite Z.leb_antisym. destruct (_ <? x + n); cbn; [by eexists|].
  destruct (Z.ltb_spec granted n), (Z.eqb_spec granted n); try lia; cbn; [by eexists|].
  rewrite checked_add_small by lia. cbn. by eexists.
Qed.

Lemma fair_growth_limited_witness :
  exists t', exec (fair_start 100) (OpRegister 0) = Some t' /\ rtc step (fair_start 100) t' /\
  exists t'', exec t' (OpTryGrow 0 60 60) = Some t'' /\ reservations t'' = <[0%nat := 60]> (reservations t').
Proof.
  eexists. split; [reflexivity|]. assert (Ht : rtc step (fair_start 100) (MkTask (MkFair 100 0 1) (MkJvm 0) {[0%nat := 0]})).
  { apply rtc_once. apply (step_op _ (OpRegister 0)); [split; [done|vm_compute; done] | done]. }
  split; [exact Ht|]. destruct (fair_growth_limited 100 _ 0 0 60 60 ltac:(lia) Ht) as (t'' & He & Hr).
  - split_and!; [by eexists|lia|lia|vm_compute; done].
  - done.
  - lia.
  - exists t''. split; [exact He | exact Hr].
Defined.

(** The even share bounds a consumer only at the moment it grows: a fair pool of 100
    bytes with two consumers reaches a state in which it has handed out 150, the first
    consumer keeping twice its share. *)
Lemma fair_overcommit :
  exists t, rtc step (fair_start 100) t /\ fair_num (task_pool t) = 2 /\ reserved (task_pool t) = 150 /\
    reservations t !! 0%nat = Some 100.
Proof.
  exists (MkTask (MkFair 100 150 2) (MkJvm 150) (<[1%nat := 50]> {[0%nat := 100]})). split; [|done].
  eapply rtc_l; [apply (step_op _ (OpRegister 0)); [split; [done|vm_compute; done] | done]|].
  eapply rtc_l; [apply (step_op _ (OpTryGrow 0 100 100)); [split_and!; [by eexists|lia|lia|vm_compute; done] | done]|].
  eapply rtc_l; [apply (step_op _ (OpRegister 1)); [split; [done|vm_compute; done] | done]|].
  apply rtc_once. apply (step_op _ (OpTryGrow 1 50 50)); [split_and!; [by eexists|lia|lia|vm_compute; done] | done].
Qed.

(** In every state reached by creating and releasing plans, the map of shared pools counts the
    live plans of a task and the creations that failed. *)
Lemma task_pools_counted p tid :
  rtc plan_step process_start p ->
  (num_plans <$> task_shared (pools p) !! tid) = (let n := sharers tid (live p) + sharers tid (failed p) in if n =? 0 then None else Some n).
Proof.
  intros Hp. destruct (plan_steps_inv _ _ process_empty_inv Hp) as (Hc & _). specialize (Hc tid). rewrite sharers_split in Hc. cbn zeta.
  destruct (task_shared (pools p) !! tid) as [e|]; cbn.
  - destruct Hc as [? ->]. by rewrite (proj2 (Z.eqb_neq _ 0)) by lia.
  - by rewrite Hc.
Qed.

(** In every such state two live plans use the same pool object exactly when the pool
    types say they share: the task-shared plans of one task share one pool, the plans of a
    global type share the global one, and every other plan has a pool of its own. *)
Lemma pools_shared_by_owner p i j a b :
  rtc plan_step process_start p -> live p !! i = Some a -> live p !! j = Some b ->
  plan_pool a = plan_pool b <-> owner i (plan_type a) (plan_task a) = owner j (plan_type b) (plan_task b).
Proof.
  intros Hp [Ha _]%map_lookup_filter_Some [Hb _]%map_lookup_filter_Some. destruct (plan_steps_inv _ _ process_empty_inv Hp) as (_ & [own [_ Hl]] & _).
  destruct (Hl _ _ Ha) as (Ha1 & _ & Ha2), (Hl _ _ Hb) as (Hb1 & _ & Hb2). split; [intros Heq; by rewrite <- Ha1, <- Hb1, Heq|].
  intros Heq. destruct Ha2 as [Ha2|Ha2], Hb2 as [Hb2|Hb2].
  - assert (i = j) as -> by congruence. congruence.
  - by rewrite <- Heq, Ha2 in Hb2.
  - by rewrite Heq, Hb2 in Ha2.
  - rewrite Heq in Ha2. congruence.
Qed.

Definition shared_config : MemoryPoolConfig := MkConfig GreedyTaskShared 1000.
Definition two_plans : Process := create_plan shared_config 7 1 true (create_plan shared_config 7 0 true process_start).

Lemma two_plans_reachable : rtc plan_step process_start two_plans.
Proof.
  eapply rtc_l; [apply (plan_create _ shared_config 7 0 true); [done|vm_compute; done]|].
  apply rtc_once. apply (plan_create _ shared_config 7 1 true); [done|vm_compute; done].
Qed.

(** C29: In every state reached by creating and releasing plans, where either call may fail half way: the entry of a task in the map of shared
    pools counts its live plans of a task-shared pool type and the calls of [createPlan] that failed after they had taken the pool, and is
    there exactly while that number is not zero; so while no creation of the task has failed, the last release removes its pool and
    no earlier one does.  And two live plans use the same pool object exactly when the pool types say they share. *)
Theorem plan_pools_correct p :
  rtc plan_step process_start p ->
  (forall tid, (num_plans <$> task_shared (pools p) !! tid)
     = (let n := sharers tid (live p) + sharers tid (failed p) in if n =? 0 then None else Some n)) /\
  (forall i j a b, live p !! i = Some a -> live p !! j = Some b ->
    plan_pool a = plan_pool b <-> owner i (plan_type a) (plan_task a) = owner j (plan_type b) (plan_task b)).
Proof. intros Hp. split; intros; [by apply task_pools_counted|by eapply pools_shared_by_owner]. Qed.

Lemma plan_pools_correct_witness :
  (num_plans <$> task_shared (pools two_plans) !! 7) = Some 2 /\
  exists a b, live two_plans !! 0%nat = Some a /\ live two_plans !! 1%nat = Some b /\ plan_pool a = plan_pool b.
Proof.
  destruct (plan_pools_correct two_plans two_plans_reachable) as [Hc Ho]. split; [exact (Hc 7)|].
  exists (MkPlan GreedyTaskShared 7 (MkPool 0 GreedyTaskShared 1000) true), (MkPlan GreedyTaskShared 7 (MkPool 0 GreedyTaskShared 1000) true).
  split; [done|]. split; [done|]. by apply (Ho 0%nat 1%nat).
Defined.

(** A creation that fails after it has taken a shared pool leaves the pool and its count behind: with no live plan left, the task still has an entry. *)
Lemma failed_creation_leaks :
  exists p, rtc plan_step process_start p /\ live p = ∅ /\ (num_plans <$> task_shared (pools p) !! 7) = Some 1.
Proof.
  eexists. split; [apply rtc_once, (plan_create _ shared_config 7 0 false); [done|vm_compute; done]|]. by vm_compute.
Qed.
