(* ===== verification/UnsafeRow.v ===== *)
(** Spark's unsafe rows, arrays and maps as the native code reads them
    (src/native/core/src/execution/shuffle: the accessors of row.rs, list.rs and map.rs;
    [bytes_to_i128] of execution/utils.rs).

    The JVM passes addresses; memory is a partial function from addresses to bytes and a
    read of an unmapped byte is [None], like a panic.  Addresses are [i64] and wrap. *)

From S2P Require Import Prelude BitUtil.
From stdpp Require Import list.
Open Scope Z_scope.

Abbreviation Memory := (Z -> option Z).

(** [std::slice::from_raw_parts(addr, n)] *)
Fixpoint read_bytes (mem : Memory) (addr : Z) (n : nat) : option (list Z) :=
  match n with
  | O => Some []
  | S n => b ← mem addr; bs ← read_bytes mem (addr + 1) n; Some (b :: bs)
  end.

(** * UTF-8 ([std::str::from_utf8]) *)

Definition continuation (lo hi b : Z) : bool := (lo <=? b) && (b <=? hi).

(** The number of continuation bytes after a leading byte, and the range of the first. *)
Definition utf8_lead (b : Z) : option (nat * Z * Z) :=
  if b <=? 127 then Some (0%nat, 0, 0)
  else if continuation 194 223 b then Some (1%nat, 128, 191)
  else if b =? 224 then Some (2%nat, 160, 191)
  else if b =? 237 then Some (2%nat, 128, 159)
  else if continuation 225 239 b then Some (2%nat, 128, 191)
  else if b =? 240 then Some (3%nat, 144, 191)
  else if continuation 241 243 b then Some (3%nat, 128, 191)
  else if b =? 244 then Some (3%nat, 128, 143)
  else None.

Fixpoint utf8_from (pending : nat) (lo hi : Z) (l : list Z) : bool :=
  match l with
  | [] => (pending =? 0)%nat
  | b :: l =>
      match pending with
      | S pending => continuation lo hi b && utf8_from pending 128 191 l
      | O => match utf8_lead b with
             | Some (n, lo, hi) => utf8_from n lo hi l
             | None => false
             end
      end
  end.

Definition from_utf8 (l : list Z) : option (list Z) := if utf8_from 0 0 0 l then Some l else None.

(** * [bytes_to_i128] *)

(** The bytes from the end, at most 16 of them, padded with the sign; an empty slice panics. *)
Definition bytes_to_i128 (slice : list Z) : option Z :=
  let low := take 16 (reverse slice) in
  first ← slice !! 0%nat;
  let fill := if first <? 128 then 0 else 255 in
  Some (swrap 128 (le_bytes (low ++ replicate (16 - length low) fill))).

(** * The trait [SparkUnsafeObject] *)

Class SparkUnsafeObject (O : Type) := {
  get_row_addr : O -> Z;
  get_element_offset : O -> nat -> nat -> Z;
}.

Definition MAX_LONG_DIGITS : Z := 18.

Section Accessors.
Context (mem : Memory).
Context {O : Type} `{SparkUnsafeObject O}.

Definition get_element (o : O) (index size : nat) : option (list Z) :=
  read_bytes mem (get_element_offset o index size) size.

Definition get_boolean (o : O) (index : nat) : option bool :=
  b ← mem (get_element_offset o index 1); Some (negb (b =? 0)).
Definition get_byte (o : O) (index : nat) : option Z := l ← get_element o index 1; Some (swrap 8 (le_bytes l)).
Definition get_short (o : O) (index : nat) : option Z := l ← get_element o index 2; Some (swrap 16 (le_bytes l)).
Definition get_int (o : O) (index : nat) : option Z := l ← get_element o index 4; Some (i32 (le_bytes l)).
Definition get_long (o : O) (index : nat) : option Z := l ← get_element o index 8; Some (i64 (le_bytes l)).
(** Floats are their bit patterns. *)
Definition get_float (o : O) (index : nat) : option Z := l ← get_element o index 4; Some (le_bytes l).
Definition get_double (o : O) (index : nat) : option Z := l ← get_element o index 8; Some (le_bytes l).
Definition get_date (o : O) (index : nat) : option Z := get_int o index.
Definition get_timestamp (o : O) (index : nat) : option Z := get_long o index.

Definition get_offset_and_len (o : O) (index : nat) : option (Z * Z) :=
  offset_and_size ← get_long o index;
  Some (i32 (offset_and_size ≫ 32), i32 offset_and_size).

(** A negative length as [usize] is beyond any mapped range. *)
Definition get_binary (o : O) (index : nat) : option (list Z) :=
  '(offset, len) ← get_offset_and_len o index;
  if len <? 0 then None else read_bytes mem (i64 (get_row_addr o + offset)) (Z.to_nat len).

Definition get_string (o : O) (index : nat) : option (list Z) :=
  s ← get_binary o index; from_utf8 s.

Definition get_decimal (o : O) (index : nat) (precision : Z) : option Z :=
  if precision <=? MAX_LONG_DIGITS then get_long o index
  else s ← get_binary o index; bytes_to_i128 s.
End Accessors.

(** * [SparkUnsafeRow] *)

Record SparkUnsafeRow := MkRow { row_addr : Z; row_size : Z; row_bitset_width : Z }.

#[export] Instance row_object : SparkUnsafeObject SparkUnsafeRow := {
  get_row_addr r := row_addr r;
  get_element_offset r index _ := i64 (row_addr r + row_bitset_width r + Z.of_nat (index * 8));
}.

Definition get_row_bitset_width (num_fields : nat) : nat := ((num_fields + 63) / 64 * 8)%nat.

Definition row_default : SparkUnsafeRow := MkRow (-1) (-1) (-1).
Definition new_with_num_fields (num_fields : nat) : SparkUnsafeRow :=
  MkRow (-1) (-1) (Z.of_nat (get_row_bitset_width num_fields)).
Definition is_null_row (r : SparkUnsafeRow) : bool :=
  (row_addr r =? -1) && (row_size r =? -1) && (row_bitset_width r =? -1).
Definition point_to (r : SparkUnsafeRow) (addr size : Z) : SparkUnsafeRow := MkRow addr size (row_bitset_width r).

(** The null bit [index] of the words from [addr]. *)
Definition null_bit (mem : Memory) (addr : Z) (index : nat) : option bool :=
  l ← read_bytes mem (i64 (addr + Z.of_nat (index / 64 * 8))) 8;
  Some (negb (Z.land (le_bytes l) (shl 64 1 (Z.of_nat (index `mod` 64))) =? 0)).

Definition row_is_null_at (mem : Memory) (r : SparkUnsafeRow) (index : nat) : option bool :=
  null_bit mem (row_addr r) index.

Definition point_to_slice (r : SparkUnsafeRow) (slice_addr : Z) (slice : list Z) : SparkUnsafeRow :=
  MkRow slice_addr (i32 (Z.of_nat (length slice))) (row_bitset_width r).
Definition get_row_size (r : SparkUnsafeRow) : Z := row_size r.

(** Stores a word; the word has just been read, so it is mapped. *)
Definition write_bytes (mem : Memory) (addr : Z) (l : list Z) : Memory :=
  fun a => if (addr <=? a) && (a <? addr + Z.of_nat (length l)) then l !! Z.to_nat (a - addr) else mem a.

Definition set_not_null_at (mem : Memory) (r : SparkUnsafeRow) (index : nat) : option Memory :=
  let mask := shl 64 1 (Z.of_nat (index `mod` 64)) in
  let word_offset := i64 (row_addr r + Z.of_nat (index / 64 * 8)) in
  l ← read_bytes mem word_offset 8;
  Some (write_bytes mem word_offset (to_le_bytes 8 (Z.land (le_bytes l) (Z.lnot mask)))).

(** * [SparkUnsafeArray] *)

Record SparkUnsafeArray := MkArray { array_addr : Z; num_elements : nat; element_offset : Z }.

#[export] Instance array_object : SparkUnsafeObject SparkUnsafeArray := {
  get_row_addr a := array_addr a;
  get_element_offset a index size := i64 (element_offset a + Z.of_nat (index * size));
}.

Definition get_header_portion_in_bytes (num_fields : Z) : Z := 8 + (num_fields + 63) / 64 * 8.

Definition array_new (mem : Memory) (addr : Z) : option SparkUnsafeArray :=
  l ← read_bytes mem addr 8;
  let n := i64 (le_bytes l) in
  if (n <? 0) || (2 ^ 31 - 1 <? n) then None
  else Some (MkArray addr (Z.to_nat n) (i64 (addr + get_header_portion_in_bytes n))).

Definition array_is_null_at (mem : Memory) (a : SparkUnsafeArray) (index : nat) : option bool :=
  null_bit mem (i64 (array_addr a + 8)) index.

(** * [SparkUnsafeMap] *)

Record SparkUnsafeMap := MkMap { map_keys : SparkUnsafeArray; map_values : SparkUnsafeArray }.

Definition map_new (mem : Memory) (addr size : Z) : option SparkUnsafeMap :=
  l ← read_bytes mem addr 8;
  let key_array_size := i64 (le_bytes l) in
  if (key_array_size <? 0) || (2 ^ 31 - 1 <? key_array_size) then None
  else if i32 (i32 (size - key_array_size) - 8) <? 0 then None
  else
    keys ← array_new mem (i64 (addr + 8));
    values ← array_new mem (i64 (i64 (addr + 8) + key_array_size));
    if (num_elements keys =? num_elements values)%nat then Some (MkMap keys values) else None.

(** * Nested objects *)

Section Nested.
Context (mem : Memory).
Context {O : Type} `{SparkUnsafeObject O}.

Definition get_struct (o : O) (index num_fields : nat) : option SparkUnsafeRow :=
  '(offset, len) ← get_offset_and_len mem o index;
  Some (point_to (new_with_num_fields num_fields) (i64 (get_row_addr o + offset)) len).

Definition get_array (o : O) (index : nat) : option SparkUnsafeArray :=
  '(offset, _) ← get_offset_and_len mem o index;
  array_new mem (i64 (get_row_addr o + offset)).

Definition get_map (o : O) (index : nat) : option SparkUnsafeMap :=
  '(offset, len) ← get_offset_and_len mem o index;
  map_new mem (i64 (get_row_addr o + offset)) len.
End Nested.
