(* ===== verification/RowColumns.v ===== *)
(** From unsafe rows to Arrow columns (src/native/core/src/execution/shuffle: the
    append functions of row.rs, list.rs and map.rs, and [make_builders]).

    An Arrow builder is the data it has collected: a primitive builder its elements, a
    struct builder its validity and the builders of its fields, a list or map builder its
    validity, the end offset of each entry and the builders of the elements.  [finish]
    reads a builder as the column of its logical values.  A downcast to another builder
    type than the one at hand panics, so builders of elements carry their type.

    The tables of map types enumerate all pairs of element types; they are predicates
    here ([map_builder_types], [map_append_types]). *)

From S2P Require Import Prelude BitUtil UnsafeRow.
From stdpp Require Import list.
Open Scope Z_scope.

(** * Types and values *)

Inductive DataType :=
  | TBoolean | TInt8 | TInt16 | TInt32 | TInt64 | TFloat32 | TFloat64 | TDate32 | TTimestamp
  | TBinary | TUtf8
  | TDecimal128 (precision : Z)
  | TStruct (fields : list DataType)
  | TList (element : DataType)
  | TMap (entries : DataType)
  | TOther.

(** The primitive builder types; the builder of decimals serves every precision. *)
Inductive LeafBuilder :=
  | BooleanBuilder | Int8Builder | Int16Builder | Int32Builder | Int64Builder | Float32Builder
  | Float64Builder | Date32Builder | TimestampMicrosecondBuilder | BinaryBuilder | StringBuilder
  | Decimal128Builder.

#[export] Instance leaf_builder_eq_dec : EqDecision LeafBuilder.
Proof. solve_decision. Defined.

Definition leaf_builder (dt : DataType) : option LeafBuilder :=
  match dt with
  | TBoolean => Some BooleanBuilder | TInt8 => Some Int8Builder | TInt16 => Some Int16Builder
  | TInt32 => Some Int32Builder | TInt64 => Some Int64Builder | TFloat32 => Some Float32Builder
  | TFloat64 => Some Float64Builder | TDate32 => Some Date32Builder
  | TTimestamp => Some TimestampMicrosecondBuilder | TBinary => Some BinaryBuilder
  | TUtf8 => Some StringBuilder | TDecimal128 _ => Some Decimal128Builder
  | _ => None
  end.

(** A logical value; floats are their bit patterns. *)
Inductive Cell :=
  | CNull
  | CBool (b : bool)
  | CInt (z : Z)
  | CBytes (l : list Z)
  | CStruct (fields : list Cell)
  | CList (elements : list Cell)
  | CMap (keys values : list Cell).

(** * Builders *)

Inductive Builder :=
  | BLeaf (t : LeafBuilder) (values : list Cell)
  | BDict (t : LeafBuilder) (values : list Cell)
  | BStruct (validity : list bool) (fields : list Builder)
  | BList (validity : list bool) (ends : list nat) (values : Builder)
  | BMap (validity : list bool) (ends : list nat) (keys values : Builder).

(** [ArrayBuilder::len] *)
Definition builder_len (b : Builder) : nat :=
  match b with
  | BLeaf _ v | BDict _ v => length v
  | BStruct v _ | BList v _ _ | BMap v _ _ _ => length v
  end.

(** [append_value] and [append_null] of the builder of type [t] *)
Definition append_leaf (t : LeafBuilder) (b : Builder) (c : Cell) : option Builder :=
  match b with
  | BLeaf t' v => if decide (t = t') then Some (BLeaf t' (v ++ [c])) else None
  | _ => None
  end.
(** the same for the dictionary builders *)
Definition append_dict (t : LeafBuilder) (b : Builder) (c : Cell) : option Builder :=
  match b with
  | BDict t' v => if decide (t = t') then Some (BDict t' (v ++ [c])) else None
  | _ => None
  end.
Definition list_append (b : Builder) (valid : bool) : option Builder :=
  match b with
  | BList validity ends v => Some (BList (validity ++ [valid]) (ends ++ [builder_len v]) v)
  | _ => None
  end.
(** [MapBuilder::append] checks that there are as many keys as values. *)
Definition map_append (b : Builder) (valid : bool) : option Builder :=
  match b with
  | BMap validity ends k v =>
      if (builder_len k =? builder_len v)%nat then Some (BMap (validity ++ [valid]) (ends ++ [builder_len k]) k v)
      else None
  | _ => None
  end.

(** Whether a downcast to the builder of elements of type [dt] succeeds. *)
Definition is_builder (dt : DataType) (b : Builder) : bool :=
  match dt, b with
  | TStruct _, BStruct _ _ => true
  | _, BLeaf t _ => bool_decide (leaf_builder dt = Some t)
  | _, _ => false
  end.
Definition is_list_builder (dt : DataType) (b : Builder) : bool :=
  match b with BList _ _ v => is_builder dt v | _ => false end.
Definition is_map_builder (kdt vdt : DataType) (b : Builder) : bool :=
  match b with BMap _ _ k v => is_builder kdt k && is_builder vdt v | _ => false end.

(** * Reading an element *)

Section Append.
Context (mem : Memory).

(** The accessor each table pairs with the type, on a row or an array. *)
Definition get_leaf {O} `{SparkUnsafeObject O} (dt : DataType) (o : O) (idx : nat) : option Cell :=
  match dt with
  | TBoolean => CBool <$> get_boolean mem o idx
  | TInt8 => CInt <$> get_byte mem o idx
  | TInt16 => CInt <$> get_short mem o idx
  | TInt32 => CInt <$> get_int mem o idx
  | TInt64 => CInt <$> get_long mem o idx
  | TFloat32 => CInt <$> get_float mem o idx
  | TFloat64 => CInt <$> get_double mem o idx
  | TDate32 => CInt <$> get_date mem o idx
  | TTimestamp => CInt <$> get_timestamp mem o idx
  | TBinary => CBytes <$> get_binary mem o idx
  | TUtf8 => CBytes <$> get_string mem o idx
  | TDecimal128 p => CInt <$> get_decimal mem o idx p
  | _ => None
  end.

(** The value or null that goes into a primitive builder. *)
Definition leaf_or_null {O} `{SparkUnsafeObject O} (is_null : bool) (dt : DataType) (o : O) (idx : nat) : option Cell :=
  match is_null with true => Some CNull | false => get_leaf dt o idx end.

(** The types of map keys and values with an append function: 13 by 13 pairs. *)
Definition map_append_types (k v : DataType) : bool :=
  let ok dt := match dt with TStruct _ => true | _ => bool_decide (is_Some (leaf_builder dt)) end in
  ok k && ok v.

(** [append_field], on the builder of the field, is a parameter of the functions it calls. *)
Section Rec.
Context (append_field : DataType -> Builder -> SparkUnsafeRow -> nat -> option Builder).

(** [for (field_idx, field) in fields ... append_field(..)] *)
Definition append_fields (row : SparkUnsafeRow) :=
  fix go (dts : list DataType) (idx : nat) (fbs : list Builder) : option (list Builder) :=
    match dts with
    | [] => Some fbs
    | dt :: dts =>
        fb ← fbs !! idx;
        fb ← append_field dt fb row idx;
        go dts (S idx) (<[idx := fb]> fbs)
    end.

(** A struct value: the validity, then each field of the nested row. *)
Definition append_struct (fields : list DataType) (b : Builder) (valid : bool) (nested_row : SparkUnsafeRow) : option Builder :=
  match b with
  | BStruct validity fbs =>
      fbs ← append_fields nested_row fields 0 fbs;
      Some (BStruct (validity ++ [valid]) fbs)
  | _ => None
  end.

(** One element of an array, into the builder of the elements. *)
Definition append_element (dt : DataType) (b : Builder) (list : SparkUnsafeArray) (is_null : bool) (idx : nat) : option Builder :=
  match dt with
  | TStruct fields =>
      nested_row ← (match is_null with true => Some row_default | false => get_struct mem list idx (length fields) end);
      append_struct fields b (negb is_null) nested_row
  | _ =>
      t ← leaf_builder dt;
      c ← leaf_or_null is_null dt list idx;
      append_leaf t b c
  end.

(** The loop over the elements of an array. *)
Definition append_elements (dt : DataType) (list : SparkUnsafeArray) :=
  fix go (n idx : nat) (b : Builder) : option Builder :=
    match n with
    | O => Some b
    | S n =>
        is_null ← array_is_null_at mem list idx;
        b ← append_element dt b list is_null idx;
        go n (S idx) b
    end.

Definition append_list_element (element_dt : DataType) (list_builder : Builder) (list : SparkUnsafeArray) : option Builder :=
  match list_builder with
  | BList validity ends v =>
      v ← append_elements element_dt list (num_elements list) 0 v;
      list_append (BList validity ends v) true
  | _ => None
  end.

(** The loop of the map functions: a key, then its value or null. *)
Definition append_entries (kdt vdt : DataType) (keys values : SparkUnsafeArray) :=
  fix go (n idx : nat) (kb vb : Builder) : option (Builder * Builder) :=
    match n with
    | O => Some (kb, vb)
    | S n =>
        kb ← append_element kdt kb keys false idx;
        is_null ← array_is_null_at mem values idx;
        vb ← append_element vdt vb values is_null idx;
        go n (S idx) kb vb
    end.

Definition append_map_elements (kdt vdt : DataType) (map_builder : Builder) (map : SparkUnsafeMap) : option Builder :=
  if map_append_types kdt vdt then
    match map_builder with
    | BMap validity ends kb vb =>
        '(kb, vb) ← append_entries kdt vdt (map_keys map) (map_values map) (num_elements (map_keys map)) 0 kb vb;
        map_append (BMap validity ends kb vb) true
    | _ => None
    end
  else None.
End Rec.

(** The element types of lists that have an append function. *)
Definition list_append_types (dt : DataType) : bool :=
  match dt with TStruct _ => true | _ => bool_decide (is_Some (leaf_builder dt)) end.

(** The null test of [append_field]: a null row has no memory to look at. *)
Definition field_is_null (row : SparkUnsafeRow) (idx : nat) : option bool :=
  if is_null_row row then Some true else row_is_null_at mem row idx.

(** [append_field] on the builder of field [idx] *)
Fixpoint append_field (dt : DataType) (b : Builder) (row : SparkUnsafeRow) (idx : nat) {struct dt} : option Builder :=
  is_null ← field_is_null row idx;
  match dt with
  | TStruct fields =>
      nested_row ← (match is_null with true => Some row_default | false => get_struct mem row idx (length fields) end);
      append_struct append_field fields b (negb is_null) nested_row
  | TMap (TStruct [kdt; vdt]) =>
      if map_append_types kdt vdt && is_map_builder kdt vdt b then
        match is_null with
        | true => map_append b false
        | false => map ← get_map mem row idx; append_map_elements append_field kdt vdt b map
        end
      else None
  | TList dt =>
      if list_append_types dt && is_list_builder dt b then
        match is_null with
        | true => list_append b false
        | false => list ← get_array mem row idx; append_list_element append_field dt b list
        end
      else None
  | _ =>
      t ← leaf_builder dt;
      c ← leaf_or_null is_null dt row idx;
      append_leaf t b c
  end.
End Append.

(** * [append_columns] *)

Section Columns.
Context (mem : Memory).
(** the addresses of the rows, and whether strings go through a dictionary
    ([prefer_dictionary_ratio > 1.0]) *)
Context (row_addresses row_sizes : list Z) (schema : list DataType) (dictionary : bool).

(** The map types the top level and [make_builders] know: 12 by 12 pairs. *)
Definition map_builder_types (k v : DataType) : bool :=
  bool_decide (is_Some (leaf_builder k)) && bool_decide (is_Some (leaf_builder v)).

(** What the loop body appends for one row whose column is [is_null] or not. *)
Definition append_column (dt : DataType) (b : Builder) (row : SparkUnsafeRow) (is_null : bool) (idx : nat) : option Builder :=
  match dt with
  | TStruct fields =>
      nested_row ← (match is_null with true => Some row_default | false => get_struct mem row idx (length fields) end);
      append_struct (append_field mem) fields b (negb is_null) nested_row
  | TMap (TStruct [kdt; vdt]) =>
      if map_builder_types kdt vdt && is_map_builder kdt vdt b then
        match is_null with
        | true => map_append b false
        | false => map ← get_map mem row idx; append_map_elements mem (append_field mem) kdt vdt b map
        end
      else None
  | TList dt =>
      if list_append_types dt && is_list_builder dt b then
        match is_null with
        | true => list_append b false
        | false => list ← get_array mem row idx; append_list_element mem (append_field mem) dt b list
        end
      else None
  | TUtf8 =>
      c ← leaf_or_null mem is_null dt row idx;
      (if dictionary then append_dict StringBuilder b c else append_leaf StringBuilder b c)
  | TBinary =>
      c ← leaf_or_null mem is_null dt row idx;
      (if dictionary then append_dict BinaryBuilder b c else append_leaf BinaryBuilder b c)
  | _ =>
      t ← leaf_builder dt;
      c ← leaf_or_null mem is_null dt row idx;
      append_leaf t b c
  end.

(** The loop over the rows [row_start ..], [n] of them. *)
Fixpoint append_column_rows (dt : DataType) (column_idx n i : nat) (b : Builder) : option Builder :=
  match n with
  | O => Some b
  | S n =>
      addr ← row_addresses !! i;
      size ← row_sizes !! i;
      let row := point_to (new_with_num_fields (length schema)) addr size in
      is_null ← row_is_null_at mem row column_idx;
      b ← append_column dt b row is_null column_idx;
      append_column_rows dt column_idx n (S i) b
  end.

Definition append_columns (row_start row_end column_idx : nat) (b : Builder) : option Builder :=
  dt ← schema !! column_idx;
  append_column_rows dt column_idx (row_end - row_start) row_start b.
End Columns.

(** * [make_builders] *)

(** Nested strings never go through a dictionary. *)
Fixpoint make_builders (dictionary : bool) (dt : DataType) : option Builder :=
  match dt with
  | TUtf8 => Some (if dictionary then BDict StringBuilder [] else BLeaf StringBuilder [])
  | TBinary => Some (if dictionary then BDict BinaryBuilder [] else BLeaf BinaryBuilder [])
  | TStruct fields =>
      fbs ← (fix go (dts : list DataType) : option (list Builder) :=
               match dts with
               | [] => Some []
               | dt :: dts => b ← make_builders false dt; bs ← go dts; Some (b :: bs)
               end) fields;
      Some (BStruct [] fbs)
  | TList dt =>
      v ← make_builders false dt;
      if list_append_types dt then Some (BList [] [] v) else None
  | TMap (TStruct [kdt; vdt]) =>
      k ← make_builders false kdt;
      v ← make_builders false vdt;
      if map_builder_types kdt vdt then Some (BMap [] [] k v) else None
  | _ => t ← leaf_builder dt; Some (BLeaf t [])
  end.

(** * Columns *)

(** [starts] and [ends] of the entries of a list builder *)
Definition starts (ends : list nat) : list nat := 0%nat :: ends.

(** The entries of a list column: [None] if an offset is out of range. *)
Definition entries (validity : list bool) (ends : list nat) (values : list Cell) : list (option (list Cell)) :=
  zip_with (fun (valid : bool) se => if valid then Some (take (se.2 - se.1) (drop se.1 values)) else None)
    validity (zip (starts ends) ends).

Definition transpose_row (cols : list (list Cell)) (i : nat) : option (list Cell) := mapM (fun col : list Cell => col !! i) cols.

(** The column of logical values a builder holds, as [finish] makes it; a struct builder
    panics when its fields have different lengths. *)
Fixpoint finish (b : Builder) : option (list Cell) :=
  match b with
  | BLeaf _ v | BDict _ v => Some v
  | BStruct validity fbs =>
      cols ← (fix go (fbs : list Builder) : option (list (list Cell)) :=
                match fbs with
                | [] => Some []
                | fb :: fbs => c ← finish fb; cs ← go fbs; Some (c :: cs)
                end) fbs;
      if forallb (fun col : list Cell => (length col =? length validity)%nat) cols then
        mapM (fun iv : nat * bool => r ← transpose_row cols iv.1; Some (if iv.2 then CStruct r else CNull)) (imap pair validity)
      else None
  | BList validity ends values =>
      vs ← finish values;
      Some ((fun e : option (list Cell) => match e with Some l => CList l | None => CNull end) <$> entries validity ends vs)
  | BMap validity ends keys values =>
      ks ← finish keys;
      vs ← finish values;
      Some (zip_with (fun k v : option (list Cell) => match k, v with Some k, Some v => CMap k v | _, _ => CNull end)
              (entries validity ends ks) (entries validity ends vs))
  end.
