(* ===== verification/RowFormat.v ===== *)
(** The layout of Spark's unsafe rows, arrays and maps in memory, as a predicate: what a
    row written by the JVM looks like.  Together with the logical values of a row it is
    the precondition of the theorems about the readers.

    A row is a bit set of nulls, then an 8-byte slot for each field.  An array is its
    length, a bit set of nulls, then its elements at their natural size.  A map is the size
    of its key array, the key array and the value array.  Values of variable length are at
    an offset from the start of the row or array that refers to them; the slot holds the
    offset in its upper and the length in its lower half. *)

From S2P Require Import Prelude BitUtil UnsafeRow RowColumns.
From stdpp Require Import list.
Open Scope Z_scope.

Definition is_null_cell (c : Cell) : bool := match c with CNull => true | _ => false end.

(** Mapped addresses are addresses of user space; memory holds bytes. *)
Definition mem_ok (mem : Memory) : Prop := forall a b, mem a = Some b -> 0 <= a < 2 ^ 63 /\ in_u 8 b.

Section Format.
Context (mem : Memory).

Definition stored (addr : Z) (l : list Z) : Prop := read_bytes mem addr (length l) = Some l.

(** The slot of a value of variable length. *)
Definition pointer_stored (slot offset len : Z) : Prop :=
  0 <= offset < 2 ^ 31 /\ 0 <= len < 2 ^ 31 /\ stored slot (to_le_bytes 8 (offset * 2 ^ 32 + len)).

Definition bytes_stored (base slot : Z) (l : list Z) : Prop :=
  exists offset, pointer_stored slot offset (Z.of_nat (length l)) /\ stored (base + offset) l.

(** [BigInteger.toByteArray] of an unscaled decimal: two's complement, big-endian, at most
    16 bytes. *)
Definition big_endian (z : Z) (l : list Z) : Prop :=
  (1 <= length l <= 16)%nat /\ z = swrap (8 * Z.of_nat (length l)) (le_bytes (reverse l)).

Definition leaf_stored (dt : DataType) (base slot : Z) (c : Cell) : Prop :=
  match dt, c with
  | TBoolean, CBool b => mem slot = Some (if b then 1 else 0)
  | TInt8, CInt z => in_s 8 z /\ stored slot (to_le_bytes 1 z)
  | TInt16, CInt z => in_s 16 z /\ stored slot (to_le_bytes 2 z)
  | TInt32, CInt z | TDate32, CInt z => in_s 32 z /\ stored slot (to_le_bytes 4 z)
  | TInt64, CInt z | TTimestamp, CInt z => in_s 64 z /\ stored slot (to_le_bytes 8 z)
  | TFloat32, CInt z => in_u 32 z /\ stored slot (to_le_bytes 4 z)
  | TFloat64, CInt z => in_u 64 z /\ stored slot (to_le_bytes 8 z)
  | TBinary, CBytes l => bytes_stored base slot l
  | TUtf8, CBytes l => utf8_from 0 0 0 l = true /\ bytes_stored base slot l
  | TDecimal128 p, CInt z =>
      if p <=? MAX_LONG_DIGITS then in_s 64 z /\ stored slot (to_le_bytes 8 z)
      else exists l, big_endian z l /\ bytes_stored base slot l
  | _, _ => False
  end.

(** The bit sets of nulls *)
Definition nulls_stored (addr : Z) (cs : list Cell) : Prop :=
  forall i c, cs !! i = Some c -> exists word,
    in_u 64 word /\ stored (addr + Z.of_nat (i / 64 * 8)) (to_le_bytes 8 word) /\
    Z.testbit word (Z.of_nat (i `mod` 64)) = is_null_cell c.

(** The size of an element in an array *)
Definition element_size (dt : DataType) : nat :=
  match dt with
  | TBoolean | TInt8 => 1
  | TInt16 => 2
  | TInt32 | TFloat32 | TDate32 => 4
  | _ => 8
  end.

Section Rec.
Context (value_stored : DataType -> Z -> Z -> Cell -> Prop).

Definition fields_stored (addr : Z) (width : nat) :=
  fix go (dts : list DataType) (i : nat) (cs : list Cell) : Prop :=
    match dts, cs with
    | [], [] => True
    | dt :: dts, c :: cs =>
        (c = CNull \/ value_stored dt addr (addr + Z.of_nat width + Z.of_nat (i * 8)) c) /\ go dts (S i) cs
    | _, _ => False
    end.

Definition row_stored (addr : Z) (dts : list DataType) (cs : list Cell) : Prop :=
  nulls_stored addr cs /\ fields_stored addr (get_row_bitset_width (length dts)) dts 0 cs.

Definition array_stored (addr : Z) (dt : DataType) (cs : list Cell) : Prop :=
  Z.of_nat (length cs) < 2 ^ 31 /\ stored addr (to_le_bytes 8 (Z.of_nat (length cs))) /\
  nulls_stored (addr + 8) cs /\
  forall i c, cs !! i = Some c -> c = CNull \/
    value_stored dt addr (addr + get_header_portion_in_bytes (Z.of_nat (length cs)) + Z.of_nat (i * element_size dt)) c.
End Rec.

(** A value that is not null, with its slot. *)
Fixpoint value_stored (dt : DataType) (base slot : Z) (c : Cell) {struct dt} : Prop :=
  match dt, c with
  | TStruct dts, CStruct cs =>
      exists offset len, pointer_stored slot offset len /\ row_stored value_stored (base + offset) dts cs
  | TList dt, CList cs =>
      exists offset len, pointer_stored slot offset len /\ array_stored value_stored (base + offset) dt cs
  | TMap (TStruct [kdt; vdt]), CMap ks vs =>
      exists offset len key_size, pointer_stored slot offset len /\
        0 <= key_size /\ key_size + 8 <= len /\ stored (base + offset) (to_le_bytes 8 key_size) /\
        array_stored value_stored (base + offset + 8) kdt ks /\
        array_stored value_stored (base + offset + 8 + key_size) vdt vs /\
        length ks = length vs /\ Forall (fun c => c <> CNull) ks
  | _, _ => leaf_stored dt base slot c
  end.
End Format.

(** * Types the native code accepts *)

Definition is_leaf (dt : DataType) : bool := bool_decide (is_Some (leaf_builder dt)).

Fixpoint supported (dt : DataType) : bool :=
  match dt with
  | TStruct dts => forallb supported dts
  | TList dt => match dt with TStruct dts => forallb supported dts | _ => is_leaf dt end
  | TMap (TStruct [kdt; vdt]) => is_leaf kdt && is_leaf vdt
  | _ => is_leaf dt
  end.
