(* ===== verification/RowProps.v ===== *)
(** Reading unsafe rows: on memory laid out as in [RowFormat] the accessors return the
    stored values, and the append functions extend each column by them. *)

From S2P Require Import Prelude BitUtil UnsafeRow RowColumns RowFormat.
From stdpp Require Import list.
Open Scope Z_scope.

(** * Words in memory *)

Lemma swrap_add_l w a b : 0 <= w -> swrap w (swrap w a + b) = swrap w (a + b).
Proof.
  intros Hw. apply swrap_eq; [done|]. unfold wrap. rewrite <- (Zplus_mod_idemp_l (swrap w a)), <- (Zplus_mod_idemp_l a).
  pose proof (wrap_swrap w a Hw) as E. unfold wrap in E. by rewrite E.
Qed.

Lemma swrap_swrap w a : 0 < w -> swrap w (swrap w a) = swrap w a.
Proof. intros. apply swrap_small; [done|by apply swrap_range]. Qed.

Lemma le_bytes_signed n z : (0 < n)%nat -> in_s (8 * Z.of_nat n) z -> swrap (8 * Z.of_nat n) (le_bytes (to_le_bytes n z)) = z.
Proof. intros Hn Hz. rewrite le_bytes_to_le_bytes, swrap_wrap by lia. apply swrap_small; [lia|done]. Qed.

Section Read.
Context (mem : Memory) (Hmem : mem_ok mem).

Lemma read_bytes_ok addr n l : read_bytes mem addr n = Some l -> length l = n /\ bytes_ok l.
Proof.
  revert addr l. induction n as [|n IH]; intros addr l E; simpl in E; [simplify_eq; by split; [|constructor]|].
  destruct (mem addr) as [b|] eqn:Eb; [|done]. simpl in E. destruct (read_bytes mem (addr + 1) n) as [k|] eqn:Ek; simplify_eq/=.
  destruct (IH _ _ Ek). split; [lia|]. constructor; [by apply (Hmem _ _ Eb)|done].
Qed.

(** A non-empty range in memory is at an address the [i64] arithmetic keeps. *)
Lemma stored_range addr l : stored mem addr l -> l <> [] -> i64 addr = addr.
Proof.
  unfold stored. destruct l as [|b l]; [done|]. simpl. destruct (mem addr) eqn:E; [|done]. intros _ _.
  destruct (Hmem _ _ E). apply swrap_small; [lia|]. unfold in_s. change (64 - 1) with 63. lia.
Qed.

Lemma stored_read addr l : stored mem addr l -> read_bytes mem (i64 addr) (length l) = Some l.
Proof. intros Hs. destruct (decide (l = [])) as [->|Hl]; [done|]. by rewrite (stored_range addr l Hs Hl). Qed.

Lemma stored_word addr n z : (0 < n)%nat -> stored mem addr (to_le_bytes n z) -> read_bytes mem (i64 addr) n = Some (to_le_bytes n z).
Proof. intros Hn Hs. pose proof (stored_read _ _ Hs) as E. by rewrite length_to_le_bytes in E. Qed.

(** The null bit, addressed modulo 2^64. *)
Lemma null_bit_spec a addr cs i c :
  i64 a = i64 addr -> nulls_stored mem addr cs -> cs !! i = Some c -> null_bit mem a i = Some (is_null_cell c).
Proof.
  intros Ha Hn Hi. destruct (Hn i c Hi) as (word & Hw & Hs & Hb). unfold null_bit.
  rewrite <- swrap_add_l, Ha, swrap_add_l by lia. rewrite (stored_word _ 8 word) by (done || lia). cbn [mbind option_bind].
  rewrite le_bytes_to_le_bytes, wrap_small by done. f_equal. rewrite <- Hb.
  assert (0 <= Z.of_nat (i `mod` 64) < 64) by (pose proof (Nat.mod_upper_bound i 64); lia).
  rewrite shl_1 by lia. rewrite land_pow2_testbit by lia. by destruct (Z.testbit word _).
Qed.

(** * Setting a field not null *)

Lemma read_write_same m addr l : read_bytes (write_bytes m addr l) addr (length l) = Some l.
Proof.
  assert (forall k n, (k + n)%nat = length l -> read_bytes (write_bytes m addr l) (addr + Z.of_nat k) n = Some (drop k l)) as Hk.
  { intros k n. revert k. induction n as [|n IH]; intros k Hk; [by rewrite drop_ge by lia|]. cbn [read_bytes].
    destruct (lookup_lt_is_Some_2 l k) as [x Hx]; [lia|].
    replace (write_bytes m addr l (addr + Z.of_nat k)) with (Some x).
    - cbn [mbind option_bind]. replace (addr + Z.of_nat k + 1) with (addr + Z.of_nat (S k)) by lia. rewrite IH by lia.
      cbn [mbind option_bind]. by rewrite (drop_S l x k Hx).
    - unfold write_bytes. simp_tests. by replace (Z.to_nat (addr + Z.of_nat k - addr)) with k by lia. }
  pose proof (Hk 0%nat (length l) eq_refl) as E. by rewrite Z.add_0_r in E.
Qed.

Lemma read_write_other m addr l a n :
  a + Z.of_nat n <= addr \/ addr + Z.of_nat (length l) <= a -> read_bytes (write_bytes m addr l) a n = read_bytes m a n.
Proof.
  revert a. induction n as [|n IH]; intros a Ha; [done|]. cbn [read_bytes]. rewrite IH by lia.
  replace (write_bytes m addr l a) with (m a); [done|]. unfold write_bytes.
  destruct (Z.leb_spec addr a), (Z.ltb_spec a (addr + Z.of_nat (length l))); cbn [andb]; lia || done.
Qed.

(** The null bit [i] is cleared, the others of the row are kept. *)
Lemma set_not_null_spec r i j m' b :
  (forall k, (k = i \/ k = j) -> i64 (row_addr r + Z.of_nat (k / 64 * 8)) = row_addr r + Z.of_nat (k / 64 * 8)) ->
  set_not_null_at mem r i = Some m' -> row_is_null_at mem r j = Some b ->
  row_is_null_at m' r j = Some (if decide (i = j) then false else b).
Proof.
  intros Ha Hset Hj. unfold set_not_null_at in Hset. unfold row_is_null_at, null_bit in *. rewrite !Ha in * by auto.
  assert (0 <= Z.of_nat (i `mod` 64) < 64) by (pose proof (Nat.mod_upper_bound i 64); lia).
  assert (0 <= Z.of_nat (j `mod` 64) < 64) by (pose proof (Nat.mod_upper_bound j 64); lia).
  destruct (read_bytes mem (row_addr r + Z.of_nat (i / 64 * 8)) 8) as [l|] eqn:El; [|done].
  cbn [mbind option_bind] in Hset. apply (inj Some) in Hset. subst m'.
  destruct (decide (i / 64 = j / 64)%nat) as [Ew|Ew].
  - rewrite <- Ew, El in Hj. rewrite <- Ew. pose proof (read_write_same mem (row_addr r + Z.of_nat (i / 64 * 8))
      (to_le_bytes 8 (Z.land (le_bytes l) (Z.lnot (shl 64 1 (Z.of_nat (i `mod` 64))))))) as E.
    rewrite length_to_le_bytes in E. rewrite E. cbn [mbind option_bind] in *. apply (inj Some) in Hj. subst b. f_equal.
    rewrite !shl_1, !land_pow2_testbit, le_bytes_to_le_bytes in * by lia. unfold wrap. change (8 * Z.of_nat 8) with 64.
    rewrite Z.mod_pow2_bits_low, Z.land_spec, Z.lnot_spec, Z.pow2_bits_eqb by lia.
    case_decide as Eij; [subst; rewrite Z.eqb_refl; cbn [negb]; by rewrite andb_false_r|].
    rewrite (proj2 (Z.eqb_neq _ _)); [cbn [negb]; by rewrite andb_true_r|].
    intros Em%Nat2Z.inj. apply Eij. rewrite (Nat.div_mod_eq i 64), (Nat.div_mod_eq j 64). lia.
  - rewrite decide_False by congruence. rewrite read_write_other by (rewrite length_to_le_bytes; lia). exact Hj.
Qed.

Section Object.
Context {O : Type} `{SparkUnsafeObject O} (o : O) (idx : nat) (base slot : Z).
Context (Hbase : i64 (get_row_addr o) = i64 base).

Lemma get_element_spec n z :
  (0 < n)%nat -> get_element_offset o idx n = i64 slot -> stored mem slot (to_le_bytes n z) ->
  get_element mem o idx n = Some (to_le_bytes n z).
Proof. intros Hn Hs Hz. unfold get_element. rewrite Hs. by apply stored_word. Qed.

Lemma get_signed_spec w n z :
  w = 8 * Z.of_nat n -> (0 < n)%nat -> get_element_offset o idx n = i64 slot -> in_s w z -> stored mem slot (to_le_bytes n z) ->
  (l ← get_element mem o idx n; Some (swrap w (le_bytes l))) = Some z.
Proof. intros -> Hn Hs Hz Hm. rewrite (get_element_spec n z) by done. cbn. f_equal. by apply le_bytes_signed. Qed.

Lemma get_unsigned_spec n z :
  (0 < n)%nat -> get_element_offset o idx n = i64 slot -> in_u (8 * Z.of_nat n) z -> stored mem slot (to_le_bytes n z) ->
  (l ← get_element mem o idx n; Some (le_bytes l)) = Some z.
Proof. intros Hn Hs Hz Hm. rewrite (get_element_spec n z) by done. cbn. by rewrite le_bytes_to_le_bytes, wrap_small. Qed.

Lemma get_pointer_spec offset len :
  get_element_offset o idx 8 = i64 slot -> pointer_stored mem slot offset len ->
  get_offset_and_len mem o idx = Some (offset, len).
Proof.
  intros Hs (Ho & Hl & Hp). unfold get_offset_and_len, get_long.
  rewrite (get_signed_spec 64 8 (offset * 2 ^ 32 + len)); [|done|lia|done|unfold in_s; lia|done]. cbn [mbind option_bind].
  rewrite Z.shiftr_div_pow2 by lia. rewrite Z.div_add_l by lia. rewrite Z.div_small, Z.add_0_r by lia.
  rewrite (swrap_small 32 offset) by (unfold in_s; lia). do 2 f_equal.
  rewrite <- (swrap_small 32 len) at 2 by (unfold in_s; lia). apply swrap_eq; [lia|]. unfold wrap.
  by rewrite Z.add_comm, Z_mod_plus_full.
Qed.

Lemma get_binary_spec l :
  get_element_offset o idx 8 = i64 slot -> bytes_stored mem base slot l -> get_binary mem o idx = Some l.
Proof.
  intros Hs (offset & Hp & Hl). unfold get_binary. rewrite (get_pointer_spec _ _ Hs Hp). cbn [mbind option_bind].
  rewrite (proj2 (Z.ltb_ge _ 0)), Nat2Z.id by lia. rewrite <- swrap_add_l, Hbase, swrap_add_l by lia. by apply stored_read.
Qed.
End Object.

End Read.

(** * Decimals *)

Lemma le_bytes_app_add l k : bytes_ok l -> le_bytes (l ++ k) = le_bytes l + le_bytes k * 2 ^ (8 * Z.of_nat (length l)).
Proof.
  intros Hl. rewrite le_bytes_app, <- Z.shiftl_mul_pow2 by (done || lia). rewrite <- (Z.add_lor_land (le_bytes l)).
  pose proof (le_bytes_bound l Hl). replace (Z.land _ _) with 0; [lia|]. symmetry. apply Z.bits_inj'. intros i Hi.
  rewrite Z.land_spec, Z.bits_0, shiftl_total by lia. destruct (Z.ltb_spec i (8 * Z.of_nat (length l))).
  - by rewrite (Z.testbit_neg_r _ (i - _)), andb_false_r by lia.
  - by rewrite (in_u_testbit (8 * Z.of_nat (length l))) by (done || lia).
Qed.

Lemma le_bytes_replicate_255 n : le_bytes (replicate n 255) = 2 ^ (8 * Z.of_nat n) - 1.
Proof.
  induction n as [|n IH]; [done|]. replace (replicate (S n) 255) with ([255] ++ replicate n 255) by done.
  rewrite le_bytes_app_add, IH by (constructor; [split; lia|constructor]). cbn [length].
  replace (8 * Z.of_nat (S n)) with (8 + 8 * Z.of_nat n) by lia. rewrite Z.pow_add_r by lia.
  change (le_bytes [255]) with 255. change (8 * Z.of_nat 1) with 8. change (2 ^ 8) with 256. lia.
Qed.

Lemma sign_extend m v (neg : bool) :
  0 < m <= 128 -> in_u m v -> neg = (2 ^ (m - 1) <=? v) ->
  swrap 128 (v + (if neg then 2 ^ (128 - m) - 1 else 0) * 2 ^ m) = swrap m v.
Proof.
  intros Hm Hv ->. assert (E : 2 ^ m = 2 * 2 ^ (m - 1)) by (rewrite <- Z.pow_succ_r by lia; f_equal; lia).
  assert (2 ^ (m - 1) <= 2 ^ 127) by (apply Z.pow_le_mono_r; lia). pose proof (Z.pow_pos_nonneg 2 (m - 1)). unfold in_u in Hv.
  destruct (Z.leb_spec (2 ^ (m - 1)) v).
  - replace (_ + _) with ((v - 2 ^ m) + 1 * 2 ^ 128).
    2: { rewrite Z.mul_sub_distr_r, <- Z.pow_add_r by lia. replace (128 - m + m) with 128 by lia. lia. }
    transitivity (v - 2 ^ m).
    + rewrite <- (swrap_small 128 (v - 2 ^ m)) at 2 by (unfold in_s; lia). apply swrap_eq; [lia|]. unfold wrap. by rewrite Z_mod_plus_full.
    + rewrite <- (swrap_small m (v - 2 ^ m)) by (unfold in_s; lia). apply swrap_eq; [lia|]. unfold wrap.
      replace (v - 2 ^ m) with (v + -1 * 2 ^ m) by lia. by rewrite Z_mod_plus_full.
  - rewrite Z.mul_0_l, Z.add_0_r, !swrap_small by (unfold in_s; lia). done.
Qed.

(** [bytes_to_i128] is the sign extension of the big-endian number. *)
Lemma bytes_to_i128_spec z l : bytes_ok l -> big_endian z l -> bytes_to_i128 l = Some z.
Proof.
  intros Hl [Hlen ->]. unfold bytes_to_i128. rewrite take_ge by (rewrite length_reverse; lia). rewrite length_reverse.
  destruct l as [|b l]; [simpl in Hlen; lia|]. cbn [lookup list_lookup mbind option_bind]. f_equal.
  assert (Hr : bytes_ok (reverse (b :: l))) by (unfold bytes_ok; by rewrite Forall_reverse).
  rewrite (le_bytes_app_add (reverse (b :: l))), length_reverse by done. pose proof (le_bytes_bound _ Hr) as Hv. rewrite length_reverse in Hv.
  rewrite <- (sign_extend (8 * Z.of_nat (length (b :: l))) _ (negb (b <? 128))); [..|done|].
  - do 2 f_equal. destruct (Z.ltb_spec b 128); cbn [negb]; [by rewrite le_bytes_replicate_0|].
    rewrite le_bytes_replicate_255. by replace (8 * Z.of_nat (16 - _)) with (128 - 8 * Z.of_nat (length (b :: l))) by lia.
  - cbn [length] in *. lia.
  - apply Forall_cons in Hl as [Hb Hl]. rewrite reverse_cons in *. assert (Hrl : bytes_ok (reverse l)) by (unfold bytes_ok; by rewrite Forall_reverse).
    rewrite le_bytes_app_add by done. pose proof (le_bytes_bound _ Hrl) as Hv'. rewrite length_reverse in *. cbn [le_bytes length].
    unfold in_u in *. rewrite Z.shiftl_0_l, Z.lor_0_r. set (p := 2 ^ (8 * Z.of_nat (length l))) in *.
    replace (2 ^ (8 * Z.of_nat (S (length l)) - 1)) with (128 * p).
    2: { unfold p. change 128 with (2 ^ 7). rewrite <- Z.pow_add_r by lia. f_equal. lia. }
    destruct (Z.ltb_spec b 128), (Z.leb_spec (128 * p) (little_endian_to_Z 8 (reverse l) + b * p)); nia || done.
Qed.

(** * Values *)

Section Values.
Context (mem : Memory) (Hmem : mem_ok mem).

Lemma bytes_stored_ok base slot l : bytes_stored mem base slot l -> bytes_ok l.
Proof. intros (offset & _ & Hl). by apply (read_bytes_ok mem Hmem _ _ _ Hl). Qed.

Section Object.
Context {O : Type} `{SparkUnsafeObject O}.

Lemma get_leaf_spec dt (o : O) idx base slot c :
  i64 (get_row_addr o) = i64 base -> get_element_offset o idx (element_size dt) = i64 slot ->
  leaf_stored mem dt base slot c -> get_leaf mem dt o idx = Some c.
Proof.
  intros Hb Hs Hl. destruct dt, c; try done; cbn [leaf_stored element_size get_leaf] in *.
  - assert (stored mem slot [if b then 1 else 0]) as Hst by (unfold stored; cbn; by rewrite Hl).
    unfold get_boolean. rewrite Hs, (stored_range mem Hmem _ _ Hst), Hl by done. by destruct b.
  - destruct Hl. unfold get_byte. by rewrite (get_signed_spec mem Hmem o idx slot 8 1 z) by (done || lia).
  - destruct Hl. unfold get_short. by rewrite (get_signed_spec mem Hmem o idx slot 16 2 z) by (done || lia).
  - destruct Hl. unfold get_int. by rewrite (get_signed_spec mem Hmem o idx slot 32 4 z) by (done || lia).
  - destruct Hl. unfold get_long. by rewrite (get_signed_spec mem Hmem o idx slot 64 8 z) by (done || lia).
  - destruct Hl. unfold get_float. by rewrite (get_unsigned_spec mem Hmem o idx slot 4 z) by (done || lia).
  - destruct Hl. unfold get_double. by rewrite (get_unsigned_spec mem Hmem o idx slot 8 z) by (done || lia).
  - destruct Hl. unfold get_date, get_int. by rewrite (get_signed_spec mem Hmem o idx slot 32 4 z) by (done || lia).
  - destruct Hl. unfold get_timestamp, get_long. by rewrite (get_signed_spec mem Hmem o idx slot 64 8 z) by (done || lia).
  - by rewrite (get_binary_spec mem Hmem o idx base slot Hb l) by done.
  - destruct Hl as [Hu Hl]. unfold get_string. rewrite (get_binary_spec mem Hmem o idx base slot Hb l) by done.
    cbn. unfold from_utf8. by rewrite Hu.
  - unfold get_decimal. destruct (precision <=? MAX_LONG_DIGITS).
    + destruct Hl. unfold get_long. by rewrite (get_signed_spec mem Hmem o idx slot 64 8 z) by (done || lia).
    + destruct Hl as (l & Hz & Hl). rewrite (get_binary_spec mem Hmem o idx base slot Hb l) by done. cbn.
      by rewrite (bytes_to_i128_spec z l) by (done || by eapply bytes_stored_ok).
Qed.

(** A row object that points to [addr] *)
Definition row_points (r : SparkUnsafeRow) (addr : Z) (width : nat) : Prop :=
  i64 (row_addr r) = i64 addr /\ row_bitset_width r = Z.of_nat width.

Lemma get_struct_spec (o : O) idx base slot n offset len :
  i64 (get_row_addr o) = i64 base -> get_element_offset o idx 8 = i64 slot -> pointer_stored mem slot offset len ->
  exists r, get_struct mem o idx n = Some r /\ is_null_row r = false /\ row_points r (base + offset) (get_row_bitset_width n).
Proof.
  intros Hb Hs Hp. unfold get_struct. rewrite (get_pointer_spec mem Hmem o idx slot offset len Hs Hp). cbn [mbind option_bind].
  eexists. split; [done|]. split.
  - unfold is_null_row. cbn [point_to new_with_num_fields row_addr row_size row_bitset_width]. rewrite (proj2 (Z.eqb_neq (Z.of_nat (get_row_bitset_width n)) (-1))) by lia. apply andb_false_r.
  - split; [|done]. cbn. rewrite swrap_swrap, <- swrap_add_l, Hb, swrap_add_l by lia. done.
Qed.

(** An array object for the [n] elements at [addr] *)
Definition array_points (a : SparkUnsafeArray) (addr : Z) (n : nat) : Prop :=
  i64 (array_addr a) = i64 addr /\ num_elements a = n /\
  i64 (element_offset a) = i64 (addr + get_header_portion_in_bytes (Z.of_nat n)).

Lemma array_new_spec a addr n :
  i64 a = i64 addr -> Z.of_nat n < 2 ^ 31 -> stored mem addr (to_le_bytes 8 (Z.of_nat n)) ->
  exists arr, array_new mem (i64 a) = Some arr /\ array_points arr addr n.
Proof.
  intros Ha Hn Hs. unfold array_new. rewrite Ha, (stored_word mem Hmem addr 8 (Z.of_nat n)) by (done || lia). cbn [mbind option_bind].
  rewrite (le_bytes_signed 8) by (unfold in_s; lia). simp_tests. cbn [orb]. rewrite Nat2Z.id. eexists. split; [done|].
  split; [|split]; cbn; [by rewrite swrap_swrap by lia|done|]. by rewrite swrap_swrap, swrap_add_l by lia.
Qed.

Lemma get_array_spec (o : O) idx base slot offset len n :
  i64 (get_row_addr o) = i64 base -> get_element_offset o idx 8 = i64 slot -> pointer_stored mem slot offset len ->
  Z.of_nat n < 2 ^ 31 -> stored mem (base + offset) (to_le_bytes 8 (Z.of_nat n)) ->
  exists arr, get_array mem o idx = Some arr /\ array_points arr (base + offset) n.
Proof.
  intros Hb Hs Hp Hn Hst. unfold get_array. rewrite (get_pointer_spec mem Hmem o idx slot offset len Hs Hp). cbn [mbind option_bind].
  apply array_new_spec; [|done..]. rewrite <- swrap_add_l, Hb, swrap_add_l by lia. done.
Qed.

Lemma get_map_spec (o : O) idx base slot offset len key_size n :
  i64 (get_row_addr o) = i64 base -> get_element_offset o idx 8 = i64 slot -> pointer_stored mem slot offset len ->
  0 <= key_size -> key_size + 8 <= len -> stored mem (base + offset) (to_le_bytes 8 key_size) ->
  Z.of_nat n < 2 ^ 31 -> stored mem (base + offset + 8) (to_le_bytes 8 (Z.of_nat n)) ->
  stored mem (base + offset + 8 + key_size) (to_le_bytes 8 (Z.of_nat n)) ->
  exists m, get_map mem o idx = Some m /\ array_points (map_keys m) (base + offset + 8) n /\
    array_points (map_values m) (base + offset + 8 + key_size) n.
Proof.
  intros Hb Hs Hp Hk Hkl Hks Hn Hst Hst'. unfold get_map. rewrite (get_pointer_spec mem Hmem o idx slot offset len Hs Hp).
  cbn [mbind option_bind]. assert (E : i64 (get_row_addr o + offset) = i64 (base + offset)).
  { by rewrite <- swrap_add_l, Hb, swrap_add_l by lia. }
  destruct Hp as (Ho & Hl & _). unfold map_new. rewrite E, (stored_word mem Hmem _ 8 key_size) by (done || lia). cbn [mbind option_bind].
  rewrite (le_bytes_signed 8) by (unfold in_s; lia). rewrite !(swrap_small 32) by (unfold in_s; rewrite ?(swrap_small 32) by (unfold in_s; lia); lia).
  simp_tests. cbn [orb].
  destruct (array_new_spec (i64 (base + offset) + 8) (base + offset + 8) n) as (ks & -> & Hks'); [by rewrite swrap_add_l by lia|done..|].
  cbn [mbind option_bind].
  destruct (array_new_spec (i64 (i64 (base + offset) + 8) + key_size) (base + offset + 8 + key_size) n) as (vs & -> & Hvs).
  { by rewrite swrap_add_l, <- Z.add_assoc, swrap_add_l, Z.add_assoc by lia. } 1-2: done.
  cbn [mbind option_bind]. rewrite (proj1 (proj2 Hks')), (proj1 (proj2 Hvs)), Nat.eqb_refl. by eexists.
Qed.
End Object.
End Values.
