(* ===== verification/RowAppend.v ===== *)
(** The append functions: each call extends the column of its builder by the value that
    is stored in memory. *)

From S2P Require Import Prelude Lists BitUtil UnsafeRow RowColumns RowFormat RowProps.
From stdpp Require Import list.
Open Scope Z_scope.

(** * List columns *)

Definition last_end (ends : list nat) : nat := default 0%nat (last ends).

Lemma zip_starts_snoc (ends : list nat) e :
  zip (starts (ends ++ [e])) (ends ++ [e]) = zip (starts ends) ends ++ [(last_end ends, e)].
Proof.
  unfold starts, last_end. generalize 0%nat. induction ends as [|x ends IH]; intros s; [done|].
  transitivity ((s, x) :: zip (x :: ends ++ [e]) (ends ++ [e])); [done|]. rewrite (IH x).
  transitivity ((s, x) :: (zip (x :: ends) ends ++ [(default s (last (x :: ends)), e)])); [|done].
  rewrite last_cons. by destruct (last ends).
Qed.

Lemma length_zip_starts ends : length (zip (starts ends) ends) = length ends.
Proof. rewrite length_zip_with. unfold starts. cbn [length]. lia. Qed.

Lemma entries_snoc validity ends valid e vs :
  length validity = length ends ->
  entries (validity ++ [valid]) (ends ++ [e]) vs
  = entries validity ends vs ++ [if valid then Some (take (e - last_end ends) (drop (last_end ends) vs)) else None].
Proof.
  intros Hl. unfold entries. rewrite zip_starts_snoc, zip_with_app by (rewrite length_zip_starts; lia). by destruct valid.
Qed.

Lemma length_entries validity ends vs : length validity = length ends -> length (entries validity ends vs) = length validity.
Proof. intros Hl. unfold entries. rewrite length_zip_with, length_zip_starts. lia. Qed.

(** Entries already closed do not see later elements. *)
Lemma entries_app validity ends vs ws :
  Forall (fun e => e <= length vs)%nat ends -> entries validity ends (vs ++ ws) = entries validity ends vs.
Proof.
  intros He. unfold entries. apply list_eq. intros i. rewrite !lookup_zip_with.
  destruct (validity !! i) as [valid|]; [|done]. cbn [mbind option_bind].
  destruct (starts ends !! i) as [s|], (ends !! i) as [e|] eqn:Hei; try done. cbn [mbind option_bind fst snd].
  destruct valid; [|done]. do 2 f_equal.
  pose proof (proj1 (Forall_lookup _ _) He _ _ Hei) as Hle. simpl in Hle.
  destruct (decide (s <= length vs)%nat) as [Hs|].
  - rewrite drop_app_le by done. apply take_app_le. rewrite length_drop. lia.
  - replace (e - s)%nat with 0%nat by lia. done.
Qed.

(** * Builders that match a type *)

Section Fields.
Context (shape : DataType -> Builder -> Prop).
Definition shapes :=
  fix go (dts : list DataType) (fbs : list Builder) : Prop :=
    match dts, fbs with
    | [], [] => True
    | dt :: dts, fb :: fbs => shape dt fb /\ go dts fbs
    | _, _ => False
    end.
End Fields.

Definition ends_ok (validity : list bool) (ends : list nat) (n : nat) : Prop :=
  length validity = length ends /\ Forall (fun e => e <= n)%nat ends /\ last_end ends = n.

Fixpoint shape (dt : DataType) (b : Builder) {struct dt} : Prop :=
  match dt, b with
  | TStruct dts, BStruct _ fbs => shapes shape dts fbs
  | TList dt, BList validity ends v => shape dt v /\ exists vs, finish v = Some vs /\ ends_ok validity ends (length vs)
  | TMap (TStruct [kdt; vdt]), BMap validity ends kb vb =>
      shape kdt kb /\ shape vdt vb /\ exists ks vs, finish kb = Some ks /\ finish vb = Some vs /\
        length ks = length vs /\ ends_ok validity ends (length ks)
  | _, BLeaf t _ => leaf_builder dt = Some t
  | _, _ => False
  end.

Lemma shapes_Forall2 P dts fbs : shapes P dts fbs <-> Forall2 P dts fbs.
Proof.
  revert fbs. induction dts as [|dt dts IH]; intros [|fb fbs]; cbn; split; try done.
  - by inversion 1.
  - by inversion 1.
  - intros [? ?]. constructor; [done|by apply IH].
  - inversion 1; subst. split; [done|by apply IH].
Qed.

Lemma finish_struct validity fbs :
  finish (BStruct validity fbs) =
    (cols ← mapM finish fbs;
     if forallb (fun col : list Cell => (length col =? length validity)%nat) cols then
       mapM (fun iv : nat * bool => r ← transpose_row cols iv.1; Some (if iv.2 then CStruct r else CNull)) (imap pair validity)
     else None).
Proof. reflexivity. Qed.

(** The column of a builder is as long as the builder. *)
Lemma finish_length dt b col : shape dt b -> finish b = Some col -> length col = builder_len b.
Proof.
  destruct b as [t v|t v|validity fbs|validity ends v|validity ends kb vb]; intros Hs.
  - by intros [= <-].
  - by destruct dt as [| | | | | | | | | | | | | |[| | | | | | | | | | | |[|? [|? [|]]]| | |]|].
  - rewrite finish_struct. destruct (mapM finish fbs) as [cols|]; [|done]. cbn [mbind option_bind].
    destruct (forallb _ _); [|done]. intros E%mapM_length_eq. by rewrite E, length_imap.
  - cbn [finish builder_len]. destruct (finish v) as [vs|]; [|done]. intros [= <-]. rewrite length_fmap. apply length_entries.
    destruct dt as [| | | | | | | | | | | | | |[| | | | | | | | | | | |[|? [|? [|]]]| | |]|]; try done. by destruct Hs as (_ & ? & _ & ? & _).
  - cbn [finish builder_len]. destruct (finish kb) as [ks|]; [|done]. destruct (finish vb) as [vs|]; [|done]. intros [= <-].
    assert (length validity = length ends) as Hl.
    { destruct dt as [| | | | | | | | | | | | | |[| | | | | | | | | | | |[|? [|? [|]]]| | |]|]; try done. by destruct Hs as (_ & _ & ? & ? & _ & _ & _ & ? & _). }
    rewrite length_zip_with, !length_entries by done. lia.
Qed.

(** * Elements *)

(** [b'] is [b] with one more value. *)
Definition extends (dt : DataType) (b b' : Builder) (cs : list Cell) : Prop :=
  shape dt b' /\ forall col, finish b = Some col -> finish b' = Some (col ++ cs).

Lemma extends_nil dt b : shape dt b -> extends dt b b [].
Proof. intros Hs. split; [done|]. intros col E. by rewrite app_nil_r. Qed.

Lemma extends_trans dt b b' b'' cs cs' : extends dt b b' cs -> extends dt b' b'' cs' -> extends dt b b'' (cs ++ cs').
Proof. intros [_ H1] [Hs H2]. split; [done|]. intros col E. rewrite app_assoc. by apply H2, H1. Qed.

Lemma leaf_shape dt t b : leaf_builder dt = Some t -> shape dt b -> exists v, b = BLeaf t v.
Proof. intros Ht Hs. destruct dt, b; cbn in Ht, Hs; simplify_eq; eauto; done. Qed.

Lemma append_leaf_spec dt t b c :
  leaf_builder dt = Some t -> shape dt b -> exists b', append_leaf t b c = Some b' /\ extends dt b b' [c].
Proof.
  intros Ht Hs. destruct (leaf_shape dt t b Ht Hs) as [v ->]. cbn. rewrite decide_True by done. eexists. split; [done|].
  split; [|by intros col [= <-]]. by destruct dt; simplify_eq.
Qed.

Lemma is_leaf_builder dt : is_leaf dt = true -> exists t, leaf_builder dt = Some t.
Proof. intros [t Ht]%bool_decide_eq_true. eauto. Qed.

(** * Struct columns *)

Definition snoc (col : list Cell) (c : Cell) : list Cell := col ++ [c].

Lemma Forall2_snoc cols cs n :
  Forall (fun col => length col = n) cols -> length cs = length cols ->
  Forall2 (fun col' col => exists c, col' = snoc col c /\ length col = n) (zip_with snoc cols cs) cols /\
  Forall2 (fun col' c => exists col, col' = snoc col c /\ length col = n) (zip_with snoc cols cs) cs.
Proof.
  intros Hc. revert cs. induction Hc as [|col cols Hcol _ IH]; intros [|c cs] Hl; try done. cbn in *.
  destruct (IH cs ltac:(lia)). split; constructor; eauto.
Qed.

Lemma transpose_snoc_old cols cs n i :
  Forall (fun col => length col = n) cols -> length cs = length cols -> (i < n)%nat ->
  transpose_row (zip_with snoc cols cs) i = transpose_row cols i.
Proof.
  intros Hc Hl Hi. apply Forall2_mapM_ext. eapply Forall2_impl; [by apply (Forall2_snoc cols cs n)|].
  intros ? col (c & -> & Hcol). unfold snoc. by rewrite lookup_app_l by lia.
Qed.

Lemma transpose_snoc_new cols cs n :
  Forall (fun col => length col = n) cols -> length cs = length cols -> transpose_row (zip_with snoc cols cs) n = Some cs.
Proof.
  intros Hc Hl. apply mapM_Some. eapply Forall2_impl; [by apply (Forall2_snoc cols cs n)|].
  intros ? c (col & -> & Hcol). unfold snoc. by rewrite lookup_app_r, Hcol, Nat.sub_diag by lia.
Qed.

Lemma finish_struct_snoc validity fbs fbs' cols cs valid col :
  mapM finish fbs = Some cols -> mapM finish fbs' = Some (zip_with snoc cols cs) -> length cs = length cols ->
  finish (BStruct validity fbs) = Some col ->
  finish (BStruct (validity ++ [valid]) fbs') = Some (col ++ [if valid then CStruct cs else CNull]).
Proof.
  intros Hc Hc' Hl. rewrite !finish_struct, Hc, Hc'. cbn [mbind option_bind].
  destruct (forallb _ cols) eqn:Hf; [|done]. intros Hcol.
  assert (Hn : Forall (fun c => length c = length validity) cols).
  { apply Forall_forall. intros c Hin. rewrite forallb_forall in Hf. apply Nat.eqb_eq, Hf. by apply list_elem_of_In. }
  assert (forallb (fun c : list Cell => (length c =? length (validity ++ [valid]))%nat) (zip_with snoc cols cs) = true) as ->.
  { clear -Hn Hl. revert cs Hl. induction Hn as [|c0 cols H0 _ IH]; intros [|c cs] Hl; try done. cbn in *.
    rewrite IH by lia. unfold snoc. rewrite !length_app, H0. cbn. by rewrite Nat.eqb_refl. }
  rewrite imap_app. cbn [imap]. apply mapM_app_Some.
  - rewrite <- Hcol. apply Forall_mapM_ext, Forall_forall. intros [i v] Hin. cbn [fst snd].
    apply list_elem_of_lookup in Hin as [j Hj]. rewrite list_lookup_imap in Hj.
    destruct (validity !! j) eqn:Ej; simplify_eq/=. by rewrite (transpose_snoc_old cols cs (length validity)) by (done || by eapply lookup_lt_Some).
  - cbn [mapM fst snd]. by rewrite Nat.add_0_r, (transpose_snoc_new cols cs _ Hn Hl).
Qed.

Section Append.
Context (mem : Memory) (Hmem : mem_ok mem).

(** The value of an element of a row or an array *)
Definition object_value {O} `{SparkUnsafeObject O} (dt : DataType) (o : O) (idx : nat) (c : Cell) : Prop :=
  exists base slot, i64 (get_row_addr o) = i64 base /\ get_element_offset o idx (element_size dt) = i64 slot /\
    (c = CNull \/ value_stored mem dt base slot c).

Lemma value_stored_leaf dt base slot c : is_leaf dt = true -> value_stored mem dt base slot c -> leaf_stored mem dt base slot c.
Proof. intros Hl Hv. destruct dt; try done; by destruct c. Qed.

Lemma value_stored_not_null dt base slot c : value_stored mem dt base slot c -> is_null_cell c = false.
Proof. destruct c; [|done..]. by destruct dt as [| | | | | | | | | | | | | |[| | | | | | | | | | | |[|? [|? [|]]]| | |]|]. Qed.

Lemma object_value_leaf {O} `{SparkUnsafeObject O} dt (o : O) idx c :
  is_leaf dt = true -> object_value dt o idx c -> leaf_or_null mem (is_null_cell c) dt o idx = Some c.
Proof.
  intros Hl (base & slot & Hb & Hs & [->|Hv]); [done|].
  unfold leaf_or_null. rewrite (value_stored_not_null dt base slot c Hv).
  apply (get_leaf_spec mem Hmem dt o idx base slot c Hb Hs). by apply value_stored_leaf.
Qed.

(** A field of a row: every field of a null row is null. *)
Definition field_stored (dt : DataType) (row : SparkUnsafeRow) (idx : nat) (c : Cell) : Prop :=
  (is_null_row row = true /\ c = CNull) \/
  (is_null_row row = false /\ null_bit mem (row_addr row) idx = Some (is_null_cell c) /\ object_value dt row idx c).

Lemma field_is_null_spec dt row idx c : field_stored dt row idx c -> field_is_null mem row idx = Some (is_null_cell c).
Proof. unfold field_is_null. intros [[-> ->]|(-> & Hn & _)]; done. Qed.

Lemma field_leaf_spec dt row idx c :
  is_leaf dt = true -> field_stored dt row idx c -> leaf_or_null mem (is_null_cell c) dt row idx = Some c.
Proof. intros Hl [[_ ->]|(_ & _ & Hv)]; [done|by apply object_value_leaf]. Qed.

(** The fields of a nested row, as the logical struct [c] *)
Definition struct_fields (dts : list DataType) (row : SparkUnsafeRow) (c : Cell) (cs : list Cell) : Prop :=
  length cs = length dts /\ c = (if is_null_cell c then CNull else CStruct cs) /\
  forall i dt ci, dts !! i = Some dt -> cs !! i = Some ci -> field_stored dt row i ci.

Lemma fields_stored_lookup P addr width dts k cs :
  fields_stored P addr width dts k cs ->
  length cs = length dts /\ forall i dt c, dts !! i = Some dt -> cs !! i = Some c ->
    c = CNull \/ P dt addr (addr + Z.of_nat width + Z.of_nat ((k + i) * 8)) c.
Proof.
  revert k cs. induction dts as [|d dts IH]; intros k [|c cs] Hf; cbn in Hf; try done. destruct Hf as [Hc Hf].
  destruct (IH _ _ Hf) as [Hl Hi]. split; [cbn; lia|]. intros [|i] dt ci; cbn; intros; simplify_eq; [by rewrite Nat.add_0_r|].
  replace (k + S i)%nat with (S k + i)%nat by lia. by apply Hi.
Qed.

Lemma nested_row_spec {O} `{SparkUnsafeObject O} dts (o : O) idx c :
  object_value (TStruct dts) o idx c ->
  exists r cs, (match is_null_cell c with true => Some row_default | false => get_struct mem o idx (length dts) end) = Some r /\
    struct_fields dts r c cs.
Proof.
  intros (base & slot & Hb & Hs & [->|Hv]).
  - exists row_default, (replicate (length dts) CNull). split; [done|]. split; [apply length_replicate|]. split; [done|].
    intros i dt ci _ Hi. apply lookup_replicate in Hi as [-> _]. by left.
  - destruct c as [| | | |cs| |]; try done. destruct Hv as (offset & len & Hp & Hn & Hf).
    destruct (get_struct_spec mem Hmem o idx base slot (length dts) offset len Hb Hs Hp) as (r & -> & Hr & Hra & Hrw).
    apply fields_stored_lookup in Hf as [Hl Hf]. exists r, cs. split; [done|]. split; [done|]. split; [done|].
    intros i dt ci Hd Hi. right. split; [done|]. split; [by apply (null_bit_spec mem Hmem _ (base + offset) cs)|].
    exists (base + offset), (base + offset + Z.of_nat (get_row_bitset_width (length dts)) + Z.of_nat (i * 8)).
    split; [done|]. split; [|by apply (Hf i dt ci)]. cbn [get_element_offset row_object].
    rewrite Hrw, <- (Z.add_assoc (row_addr r)), <- swrap_add_l, Hra, swrap_add_l, Z.add_assoc by lia. done.
Qed.

(** What is proved of [append_field] for each type. *)
Definition appends (dt : DataType) : Prop := forall b row idx c,
  supported dt = true -> shape dt b -> field_stored dt row idx c ->
  exists b', append_field mem dt b row idx = Some b' /\ extends dt b b' [c].

Lemma append_fields_spec row dts k pre fbs cs :
  length pre = k -> Forall appends dts -> forallb supported dts = true -> Forall2 shape dts fbs -> length cs = length dts ->
  (forall i dt ci, dts !! i = Some dt -> cs !! i = Some ci -> field_stored dt row (k + i) ci) ->
  exists fbs', append_fields (append_field mem) row dts k (pre ++ fbs) = Some (pre ++ fbs') /\ Forall2 shape dts fbs' /\
    forall cols, mapM finish fbs = Some cols -> mapM finish fbs' = Some (zip_with snoc cols cs).
Proof.
  intros Hk Ha. revert k pre fbs cs Hk. induction Ha as [|dt dts Hdt _ IH]; intros k pre fbs cs Hk Hsup Hsh Hl Hf.
  { inversion Hsh; subst. exists []. split; [done|]. split; [done|]. intros cols [= <-]. done. }
  inversion Hsh as [|? fb ? fbs0 Hfb Hfbs]; subst. destruct cs as [|c cs]; [done|]. cbn in Hsup. apply andb_prop in Hsup as [Hs1 Hs2].
  destruct (Hdt fb row (length pre) c Hs1 Hfb) as (fb' & E & He).
  { specialize (Hf 0%nat dt c eq_refl eq_refl). by rewrite Nat.add_0_r in Hf. }
  destruct (IH (S (length pre)) (pre ++ [fb']) fbs0 cs) as (fbs' & E' & Hsh' & Hc'); [rewrite length_app; cbn; lia|done|done|cbn in Hl; lia| |].
  { intros i d ci Hd Hi. specialize (Hf (S i) d ci Hd Hi). by rewrite <- Nat.add_succ_comm in Hf. }
  exists (fb' :: fbs'). cbn [append_fields]. rewrite list_lookup_middle by done. cbn [mbind option_bind]. rewrite E. cbn [mbind option_bind].
  rewrite insert_app_r_alt, Nat.sub_diag by lia. cbn [insert list_insert]. rewrite <- app_assoc in E'. cbn [app] in E'.
  unfold append_fields in *. rewrite E', <- app_assoc. split; [done|]. split; [constructor; [apply He|done]|].
  intros cols. cbn. destruct (finish fb) as [col|] eqn:Ef; [|done]. cbn. destruct (mapM finish fbs0) as [cols0|]; [|done]. intros [= <-].
  rewrite (proj2 He col Ef), (Hc' cols0 eq_refl). done.
Qed.

Lemma append_struct_spec dts b row c cs :
  Forall appends dts -> forallb supported dts = true -> shape (TStruct dts) b -> struct_fields dts row c cs ->
  exists b', append_struct (append_field mem) dts b (negb (is_null_cell c)) row = Some b' /\ extends (TStruct dts) b b' [c].
Proof.
  intros Ha Hsup Hs (Hl & Hc & Hf). destruct b as [| |validity fbs| |]; try done. apply shapes_Forall2 in Hs.
  destruct (append_fields_spec row dts 0 [] fbs cs) as (fbs' & E & Hsh & Hcols); [done..|]. cbn [app] in E.
  cbn [append_struct]. rewrite E. cbn [mbind option_bind]. eexists. split; [done|]. split; [by apply shapes_Forall2|].
  intros col Hcol. assert (exists cols, mapM finish fbs = Some cols) as [cols Ec].
  { rewrite finish_struct in Hcol. destruct (mapM finish fbs); [by eexists|done]. }
  rewrite (finish_struct_snoc validity fbs fbs' cols cs _ col Ec (Hcols cols Ec)).
  - rewrite Hc at 2. by destruct (is_null_cell c).
  - apply mapM_length_eq in Ec. apply Forall2_length in Hs. lia.
  - done.
Qed.

(** The element types of lists and maps, which may not nest further than a struct. *)
Definition element_ok (dt : DataType) : Prop :=
  is_leaf dt = true \/ exists dts, dt = TStruct dts /\ Forall appends dts /\ forallb supported dts = true.

Lemma append_element_spec dt b arr idx c :
  element_ok dt -> shape dt b -> object_value dt arr idx c ->
  exists b', append_element mem (append_field mem) dt b arr (is_null_cell c) idx = Some b' /\ extends dt b b' [c].
Proof.
  intros [Hl|(dts & -> & Ha & Hsup)] Hs Hv.
  - destruct (is_leaf_builder dt Hl) as [t Ht]. pose proof (object_value_leaf dt arr idx c Hl Hv) as E.
    destruct (append_leaf_spec dt t b c Ht Hs) as (b' & E' & He). exists b'. split; [|done].
    destruct dt; try done; unfold append_element; rewrite Ht; cbn [mbind option_bind]; rewrite E; done.
  - destruct (nested_row_spec dts arr idx c Hv) as (r & cs & E & Hf). cbn [append_element]. rewrite E. cbn [mbind option_bind].
    by apply (append_struct_spec dts b r c cs).
Qed.

(** The elements of an array *)
Lemma array_object_value dt arr addr n cs i c :
  array_points arr addr n -> array_stored mem (value_stored mem) addr dt cs -> n = length cs -> cs !! i = Some c ->
  object_value dt arr i c /\ array_is_null_at mem arr i = Some (is_null_cell c).
Proof.
  intros (Ha & _ & Ho) (_ & _ & Hn & Hv) -> Hi. split.
  - exists addr, (addr + get_header_portion_in_bytes (Z.of_nat (length cs)) + Z.of_nat (i * element_size dt)).
    split; [done|]. split; [|by apply Hv]. cbn [get_element_offset array_object].
    by rewrite <- swrap_add_l, Ho, swrap_add_l by lia.
  - unfold array_is_null_at. apply (null_bit_spec mem Hmem _ (addr + 8) cs); [|done..].
    by rewrite swrap_swrap, <- swrap_add_l, Ha, swrap_add_l by lia.
Qed.

Lemma append_elements_spec dt arr cs n k b :
  element_ok dt -> shape dt b ->
  (forall i c, cs !! i = Some c -> object_value dt arr (k + i) c /\ array_is_null_at mem arr (k + i) = Some (is_null_cell c)) ->
  n = length cs ->
  exists b', append_elements mem (append_field mem) dt arr n k b = Some b' /\ extends dt b b' cs.
Proof.
  intros Ho Hs Hv ->. revert k b Hs Hv. induction cs as [|c cs IH]; intros k b Hs Hv.
  { exists b. split; [done|]. by apply extends_nil. }
  destruct (Hv 0%nat c eq_refl) as [Hc Hn]. rewrite Nat.add_0_r in *.
  destruct (append_element_spec dt b arr k c Ho Hs Hc) as (b' & E & He).
  destruct (IH (S k) b') as (b'' & E' & He'); [apply He| |].
  { intros i ci Hi. specialize (Hv (S i) ci Hi). by rewrite <- Nat.add_succ_comm in Hv. }
  exists b''. cbn [append_elements length]. rewrite Hn. cbn [mbind option_bind]. rewrite E. cbn [mbind option_bind].
  split; [exact E'|]. exact (extends_trans dt b b' b'' [c] cs He He').
Qed.

(** * Lists *)

Lemma ends_ok_snoc validity ends n m valid : ends_ok validity ends n -> (n <= m)%nat -> ends_ok (validity ++ [valid]) (ends ++ [m]) m.
Proof.
  intros (Hl & He & _) Hm. split; [rewrite !length_app; cbn; lia|]. split; [|unfold last_end; by rewrite last_snoc].
  apply Forall_app. split; [|by repeat constructor]. eapply Forall_impl; [exact He|]. cbn. lia.
Qed.

Lemma list_append_spec dt validity ends v v' valid cs :
  shape (TList dt) (BList validity ends v) -> extends dt v v' cs -> (valid = false -> cs = []) ->
  exists b', list_append (BList validity ends v') valid = Some b' /\
    extends (TList dt) (BList validity ends v) b' [if valid then CList cs else CNull].
Proof.
  intros (Hs & vs & Ev & Hends) [Hs' He] Hcs. specialize (He vs Ev). cbn [list_append]. eexists. split; [done|].
  rewrite <- (finish_length dt v' _ Hs' He). pose proof Hends as (Hl & Hle & Hlast). split.
  - split; [done|]. eexists. split; [exact He|]. eapply ends_ok_snoc; [done|]. rewrite length_app. lia.
  - intros col. cbn [finish]. rewrite Ev, He. intros [= <-]. cbn [mbind option_bind]. f_equal.
    rewrite entries_snoc, fmap_app, entries_app, Hlast by done. f_equal. cbn. f_equal. destruct valid; [|done].
    f_equal. rewrite drop_app_length, length_app. rewrite take_ge; [done|lia].
Qed.

Lemma is_list_builder_shape dt b : element_ok dt -> shape (TList dt) b -> is_list_builder dt b = true.
Proof.
  intros Ho Hs. destruct b as [| | |validity ends v|]; try done. destruct Hs as [Hv _]. cbn.
  destruct Ho as [Hl|(dts & -> & _)]; [|by destruct v].
  destruct (is_leaf_builder dt Hl) as [t Ht]. destruct (leaf_shape dt t v Ht Hv) as [w ->].
  destruct dt; try done; cbn; by rewrite bool_decide_eq_true_2.
Qed.

Lemma append_list_spec {O} `{SparkUnsafeObject O} dt b (o : O) idx c :
  element_ok dt -> shape (TList dt) b -> object_value (TList dt) o idx c ->
  exists b', (match is_null_cell c with
              | true => list_append b false
              | false => list ← get_array mem o idx; append_list_element mem (append_field mem) dt b list
              end) = Some b' /\ extends (TList dt) b b' [c].
Proof.
  intros Ho Hs (base & slot & Hb & Hsl & Hv). destruct b as [| | |validity ends v|]; try done. pose proof Hs as [Hsv _].
  destruct Hv as [->|Hv]; [by apply (list_append_spec dt validity ends v v false []); [|apply extends_nil|]|].
  destruct c as [| | | | |cs|]; try done. destruct Hv as (offset & len & Hp & Hst). pose proof Hst as (Hn & Hw & _).
  destruct (get_array_spec mem Hmem o idx base slot offset len (length cs) Hb Hsl Hp Hn Hw) as (arr & Ea & Hpt). cbn [is_null_cell].
  rewrite Ea. cbn [mbind option_bind append_list_element]. rewrite (proj1 (proj2 Hpt)).
  destruct (append_elements_spec dt arr cs (length cs) 0 v Ho Hsv) as (v' & -> & He); [|done|].
  { intros i c Hi. by apply (array_object_value dt arr (base + offset) (length cs) cs i c). }
  cbn [mbind option_bind]. by apply (list_append_spec dt validity ends v v' true cs).
Qed.

(** * Maps *)

Lemma append_entries_spec kdt vdt karr varr ks vs n k kb vb :
  element_ok kdt -> element_ok vdt -> shape kdt kb -> shape vdt vb ->
  (forall i c, ks !! i = Some c -> object_value kdt karr (k + i) c /\ is_null_cell c = false) ->
  (forall i c, vs !! i = Some c -> object_value vdt varr (k + i) c /\ array_is_null_at mem varr (k + i) = Some (is_null_cell c)) ->
  length ks = n -> length vs = n ->
  exists kb' vb', append_entries mem (append_field mem) kdt vdt karr varr n k kb vb = Some (kb', vb') /\
    extends kdt kb kb' ks /\ extends vdt vb vb' vs.
Proof.
  intros Hok Hov. revert k kb vb ks vs. induction n as [|n IH]; intros k kb vb ks vs Hsk Hsv Hk Hv Hlk Hlv.
  { apply nil_length_inv in Hlk as ->. apply nil_length_inv in Hlv as ->. exists kb, vb. split; [done|]. split; by apply extends_nil. }
  destruct ks as [|kc ks], vs as [|vc vs]; try done. destruct (Hk 0%nat kc eq_refl) as [Hkc Hkn], (Hv 0%nat vc eq_refl) as [Hvc Hvn].
  rewrite Nat.add_0_r in *. destruct (append_element_spec kdt kb karr k kc Hok Hsk Hkc) as (kb' & Ek & Hek). rewrite Hkn in Ek.
  destruct (append_element_spec vdt vb varr k vc Hov Hsv Hvc) as (vb' & Ev & Hev).
  destruct (IH (S k) kb' vb' ks vs) as (kb'' & vb'' & E & Hek' & Hev'); [apply Hek|apply Hev|..]; try (cbn in *; lia).
  { intros i ci Hi. specialize (Hk (S i) ci Hi). by rewrite <- Nat.add_succ_comm in Hk. }
  { intros i ci Hi. specialize (Hv (S i) ci Hi). by rewrite <- Nat.add_succ_comm in Hv. }
  exists kb'', vb''. cbn [append_entries]. rewrite Ek. cbn [mbind option_bind]. rewrite Hvn. cbn [mbind option_bind]. rewrite Ev.
  cbn [mbind option_bind]. split; [exact E|].
  split; [exact (extends_trans kdt kb kb' kb'' [kc] ks Hek Hek')|exact (extends_trans vdt vb vb' vb'' [vc] vs Hev Hev')].
Qed.

Lemma map_append_spec kdt vdt validity ends kb vb kb' vb' valid ks vs :
  shape (TMap (TStruct [kdt; vdt])) (BMap validity ends kb vb) -> extends kdt kb kb' ks -> extends vdt vb vb' vs ->
  length ks = length vs -> (valid = false -> ks = [] /\ vs = []) ->
  exists b', map_append (BMap validity ends kb' vb') valid = Some b' /\
    extends (TMap (TStruct [kdt; vdt])) (BMap validity ends kb vb) b' [if valid then CMap ks vs else CNull].
Proof.
  intros (Hsk & Hsv & ks0 & vs0 & Ek & Ev & Hlen & Hends) [Hsk' Hek] [Hsv' Hev] Hl Hval. specialize (Hek ks0 Ek). specialize (Hev vs0 Ev).
  cbn [map_append]. rewrite <- (finish_length kdt kb' _ Hsk' Hek), <- (finish_length vdt vb' _ Hsv' Hev).
  rewrite (proj2 (Nat.eqb_eq _ _)) by (rewrite !length_app; lia). eexists. split; [done|]. pose proof Hends as (Hl' & Hle & Hlast). split.
  - split; [done|]. split; [done|]. exists (ks0 ++ ks), (vs0 ++ vs). split; [done|]. split; [done|].
    split; [rewrite !length_app; lia|]. eapply ends_ok_snoc; [done|]. rewrite length_app. lia.
  - intros col. cbn [finish]. rewrite Ek, Ev, Hek, Hev. intros [= <-]. cbn [mbind option_bind]. f_equal.
    rewrite !entries_snoc, !entries_app, Hlast by (done || by rewrite <- Hlen). rewrite zip_with_app by (by rewrite !length_entries).
    f_equal. cbn. f_equal. destruct valid; [|done]. rewrite !drop_app_length' by done. rewrite length_app.
    by rewrite !take_ge by lia.
Qed.

Lemma is_map_builder_shape kdt vdt b :
  is_leaf kdt = true -> is_leaf vdt = true -> shape (TMap (TStruct [kdt; vdt])) b -> is_map_builder kdt vdt b = true.
Proof.
  intros Hk Hv Hs. destruct b as [| | | |validity ends kb vb]; try done. destruct Hs as (Hsk & Hsv & _). cbn.
  destruct (is_leaf_builder kdt Hk) as [kt Hkt], (is_leaf_builder vdt Hv) as [vt Hvt].
  destruct (leaf_shape kdt kt kb Hkt Hsk) as [k ->], (leaf_shape vdt vt vb Hvt Hsv) as [v ->].
  apply andb_true_intro. split; [destruct kdt|destruct vdt]; try done; cbn; by rewrite bool_decide_eq_true_2.
Qed.

Lemma leaf_map_types kdt vdt : is_leaf kdt = true -> is_leaf vdt = true -> map_append_types kdt vdt = true /\ map_builder_types kdt vdt = true.
Proof.
  intros Hk Hv. unfold map_append_types, map_builder_types. fold (is_leaf kdt) (is_leaf vdt). rewrite Hk, Hv.
  split; [|done]. by destruct kdt, vdt.
Qed.

Lemma append_map_spec {O} `{SparkUnsafeObject O} kdt vdt b (o : O) idx c :
  is_leaf kdt = true -> is_leaf vdt = true -> shape (TMap (TStruct [kdt; vdt])) b ->
  object_value (TMap (TStruct [kdt; vdt])) o idx c ->
  exists b', (match is_null_cell c with
              | true => map_append b false
              | false => map ← get_map mem o idx; append_map_elements mem (append_field mem) kdt vdt b map
              end) = Some b' /\ extends (TMap (TStruct [kdt; vdt])) b b' [c].
Proof.
  intros Hk Hv Hs (base & slot & Hb & Hsl & Hc). destruct b as [| | | |validity ends kb vb]; try done. pose proof Hs as (Hsk & Hsv & _).
  destruct Hc as [->|Hc].
  { by apply (map_append_spec kdt vdt validity ends kb vb kb vb false [] []); [|apply extends_nil..| |]. }
  destruct c as [| | | | | |ks vs]; try done. destruct Hc as (offset & len & ksz & Hp & Hk0 & Hkl & Hks & Hka & Hva & Hl & Hnn).
  pose proof Hka as (Hn & Hwk & _). pose proof Hva as (_ & Hwv & _). rewrite <- Hl in Hwv.
  destruct (get_map_spec mem Hmem o idx base slot offset len ksz (length ks)) as (m & Em & Hmk & Hmv); try done. cbn [is_null_cell].
  rewrite Em. cbn [mbind option_bind]. unfold append_map_elements. rewrite (proj1 (leaf_map_types kdt vdt Hk Hv)), (proj1 (proj2 Hmk)).
  destruct (append_entries_spec kdt vdt (map_keys m) (map_values m) ks vs (length ks) 0 kb vb) as (kb' & vb' & -> & Hek & Hev);
    [by left|by left|done|done|..|done|done|].
  - intros i c Hi. split; [by apply (array_object_value kdt (map_keys m) (base + offset + 8) (length ks) ks i c)|].
    pose proof (proj1 (Forall_lookup _ _) Hnn i c Hi) as Hcn. by destruct c.
  - intros i c Hi. by apply (array_object_value vdt (map_values m) (base + offset + 8 + ksz) (length ks) vs i c).
  - cbn [mbind option_bind]. by apply (map_append_spec kdt vdt validity ends kb vb kb' vb' true ks vs).
Qed.

(** * Every supported type *)

Lemma list_types dt : element_ok dt -> list_append_types dt = true.
Proof. intros [Hl|(dts & -> & _)]; [|done]. unfold list_append_types. fold (is_leaf dt). by destruct dt. Qed.

(** For the cases of a null row there is no object to read. *)
Lemma field_object dt row idx c :
  field_stored dt row idx c -> object_value dt row idx c \/ c = CNull.
Proof. intros [[_ ->]|(_ & _ & Hv)]; auto. Qed.

Lemma null_object_value dt c : c = CNull -> object_value dt (MkRow 0 0 0) 0 c.
Proof. intros ->. exists 0, 0. split; [done|]. split; [done|]. by left. Qed.

Lemma appends_struct dts : Forall appends dts -> appends (TStruct dts).
Proof.
  intros Ha b row idx c Hsup Hs Hf. cbn [append_field]. rewrite (field_is_null_spec _ _ _ _ Hf). cbn [mbind option_bind].
  assert (exists r cs, (match is_null_cell c with true => Some row_default | false => get_struct mem row idx (length dts) end) = Some r
    /\ struct_fields dts r c cs) as (r & cs & -> & Hr).
  { destruct (field_object _ _ _ _ Hf) as [Hv| ->]; [by apply nested_row_spec|].
    by apply (nested_row_spec dts (MkRow 0 0 0) 0 CNull), null_object_value. }
  cbn [mbind option_bind]. by apply (append_struct_spec dts b r c cs).
Qed.

Lemma appends_list dt : element_ok dt -> appends (TList dt).
Proof.
  intros Ho b row idx c Hsup Hs Hf. cbn [append_field]. rewrite (field_is_null_spec _ _ _ _ Hf). cbn [mbind option_bind].
  rewrite list_types, is_list_builder_shape by done. cbn [andb].
  destruct (field_object _ _ _ _ Hf) as [Hv| ->]; [by apply append_list_spec|].
  apply (append_list_spec dt b (MkRow 0 0 0) 0 CNull); [done|done|by apply null_object_value].
Qed.

Lemma appends_map kdt vdt : is_leaf kdt = true -> is_leaf vdt = true -> appends (TMap (TStruct [kdt; vdt])).
Proof.
  intros Hk Hv b row idx c Hsup Hs Hf. cbn [append_field]. rewrite (field_is_null_spec _ _ _ _ Hf). cbn [mbind option_bind].
  rewrite (proj1 (leaf_map_types kdt vdt Hk Hv)), is_map_builder_shape by done. cbn [andb].
  destruct (field_object _ _ _ _ Hf) as [Hc| ->]; [by apply append_map_spec|].
  apply (append_map_spec kdt vdt b (MkRow 0 0 0) 0 CNull); [done|done|done|by apply null_object_value].
Qed.

Lemma appends_leaf dt : is_leaf dt = true -> appends dt.
Proof.
  intros Hl b row idx c Hsup Hs Hf. pose proof (field_is_null_spec _ _ _ _ Hf) as En. pose proof (field_leaf_spec dt row idx c Hl Hf) as E.
  destruct (is_leaf_builder dt Hl) as [t Ht]. destruct (append_leaf_spec dt t b c Ht Hs) as (b' & E' & He). exists b'. split; [|done].
  destruct dt; try done; cbn [append_field]; rewrite En; cbn [mbind option_bind]; cbn in Ht; simplify_eq; cbn [leaf_builder mbind option_bind];
    rewrite E; exact E'.
Qed.

Section Induction.
Context (P : DataType -> Prop) (Hstruct : forall dts, Forall P dts -> P (TStruct dts))
  (Hlist : forall dt, P dt -> P (TList dt)) (Hmap : forall dt, P dt -> P (TMap dt)) (Hrest : forall dt, is_leaf dt = true -> P dt)
  (Hother : P TOther).

(** Induction with the fields of a struct as hypotheses *)
Definition datatype_ind : forall dt, P dt :=
  fix F (dt : DataType) : P dt :=
    match dt with
    | TStruct dts => Hstruct dts ((fix G (l : list DataType) : Forall P l :=
                                     match l with [] => Forall_nil_2 P | d :: l => Forall_cons_2 P d l (F d) (G l) end) dts)
    | TList dt => Hlist dt (F dt)
    | TMap dt => Hmap dt (F dt)
    | TOther => Hother
    | dt => Hrest dt eq_refl
    end.
End Induction.

Lemma append_field_spec dt : supported dt = true -> appends dt.
Proof.
  assert ((supported dt = true -> appends dt) /\ (forall dts, dt = TStruct dts -> forallb supported dts = true -> Forall appends dts)) as [? _]; [|done].
  induction dt as [dts IH|dt IH|dt IH|dt Hl|] using datatype_ind.
  - assert (forallb supported dts = true -> Forall appends dts) as Ha.
    { intros Hf. rewrite forallb_forall in Hf. apply Forall_forall. intros d Hd.
      destruct (proj1 (Forall_forall _ _) IH d Hd) as [Hs _]. apply Hs, Hf. by apply list_elem_of_In. }
    split; [|by intros ? [= <-]]. intros Hs. by apply appends_struct, Ha.
  - split; [|done]. intros Hs. apply appends_list. destruct IH as [_ IH].
    destruct dt; try (by left). right. eexists. split; [done|]. split; [by eapply IH|done].
  - split; [|done]. intros Hs. destruct dt as [| | | | | | | | | | | |[|kdt [|vdt [|]]]| | |]; try done.
    cbn in Hs. apply andb_prop in Hs as [? ?]. by apply appends_map.
  - split; [by intros; apply appends_leaf|]. by intros ? ->.
  - split; done.
Qed.
End Append.
