(* ===== verification/SortedRows.v ===== *)
(** Writing a sorted partition of unsafe rows (src/native/core/src/execution/shuffle/row.rs,
    [process_sorted_row_partition] and its helpers; [Checksum] of codec.rs).

    Arrow's record batches of columns and its cast of dictionary arrays are operations of
    class [RowArrow]; the checksum algorithms (crc32fast, simd-adler32) are [Hasher]s. *)

From S2P Require Import Prelude UnsafeRow RowColumns ShuffleCodec.
From stdpp Require Import list.
Open Scope Z_scope.

(** * Checksums *)

Class Hasher (H : Type) := {
  hasher_new : H;
  (** [new_with_initial], [from_checksum] *)
  hasher_from : Z -> H;
  hasher_update : H -> list Z -> H;
  hasher_finish : H -> Z;
}.

(** Hashing is incremental. *)
Class HasherLaws (H : Type) `{Hasher H} := {
  hasher_update_nil : forall h, hasher_update h [] = h;
  hasher_update_app : forall h a b, hasher_update h (a ++ b) = hasher_update (hasher_update h a) b;
}.

Section Checksum.
Context {Crc Adler : Type} `{Hasher Crc} `{Hasher Adler}.

Inductive Checksum := CRC32 (hasher : Crc) | Adler32 (hasher : Adler).

Definition checksum_try_new (algo : Z) (initial_opt : option Z) : option Checksum :=
  if algo =? 0 then
    Some (CRC32 (match initial_opt with Some initial => hasher_from initial | None => hasher_new end))
  else if algo =? 1 then
    Some (Adler32 (match initial_opt with Some initial => hasher_from initial | None => hasher_new end))
  else None.

(** Seeks to the start and takes all the bytes of the cursor. *)
Definition checksum_update (self : Checksum) (cursor : Cursor) : Checksum :=
  match self with
  | CRC32 h => CRC32 (hasher_update h (drop 0 (c_data cursor)))
  | Adler32 h => Adler32 (hasher_update h (drop 0 (c_data cursor)))
  end.

Definition checksum_finalize (self : Checksum) : Z :=
  match self with CRC32 h => hasher_finish h | Adler32 h => hasher_finish h end.
End Checksum.
Arguments Checksum : clear implicits.

(** * Arrays and batches *)

(** An Arrow array: its logical values and whether it is dictionary-encoded. *)
Record ArrayRef := MkRef { ref_dictionary : bool; ref_cells : list Cell }.

Class RowArrow (Batch : Type) `{Arrow Batch (list Cell)} := {
  (** [RecordBatch::try_new_with_options] with the row count *)
  record_batch_try_new : list ArrayRef -> nat -> option Batch;
  (** [cast] to the type of the dictionary's values *)
  cast_dictionary : ArrayRef -> option ArrayRef;
}.

Class RowArrowLaws (Batch : Type) `{RowArrow Batch} := {
  record_batch_rows : forall arrays n, Forall (fun a => length (ref_cells a) = n) arrays ->
    exists b, record_batch_try_new arrays n = Some b /\ num_columns b = length arrays /\
      mapM (transpose_row (ref_cells <$> arrays)) (seq 0 n) = Some (batch_rows b);
  cast_dictionary_cells : forall a, exists a', cast_dictionary a = Some a' /\ ref_cells a' = ref_cells a;
}.

Section Process.
Context {Batch : Type} `{RowArrow Batch}.
Context {Crc Adler : Type} `{Hasher Crc} `{Hasher Adler}.
(** [prefer_dictionary_ratio > 1.0], and the comparison of a dictionary's keys with its
    values, both in floating point *)
Context (dictionary : bool) (efficient : nat -> nat -> bool).

(** The distinct values a dictionary builder has collected *)
Definition dictionary_values (cells : list Cell) : nat :=
  length (remove_dups (omap (fun c => match c with CBytes l => Some l | _ => None end) cells)).

Definition builder_to_array (b : Builder) (dt : DataType) : option ArrayRef :=
  match dt, dictionary with
  | TUtf8, true | TBinary, true =>
      match b with
      | BDict _ cells =>
          let dict_array := MkRef true cells in
          if efficient (length cells) (dictionary_values cells) then Some dict_array else cast_dictionary dict_array
      | _ => None
      end
  | _, _ => cells ← finish b; Some (MkRef false cells)
  end.

Definition make_batch (arrays : list ArrayRef) (row_count : nat) : option Batch := record_batch_try_new arrays row_count.

Context (mem : Memory) (row_addresses row_sizes : list Z) (schema : list DataType).

(** [for (idx, builder) in data_builders.iter_mut().enumerate()] *)
Fixpoint append_all_columns (row_start row_end idx : nat) (builders : list Builder) : option (list Builder) :=
  match builders with
  | [] => Some []
  | b :: builders =>
      b ← append_columns mem row_addresses row_sizes schema dictionary row_start row_end idx b;
      bs ← append_all_columns row_start row_end (S idx) builders;
      Some (b :: bs)
  end.

Definition row_step : nat := 10.

(** [while row_start < row_stop]; the step is positive. *)
Fixpoint append_steps (fuel row_start row_stop : nat) (builders : list Builder) : option (list Builder) :=
  match fuel with
  | O => None
  | S fuel =>
      if (row_start <? row_stop)%nat then
        let row_end := Nat.min (row_start + row_step) row_stop in
        builders ← append_all_columns row_start row_end 0 builders;
        append_steps fuel row_end row_stop builders
      else Some builders
  end.

Fixpoint builders_to_arrays (builders : list Builder) (dts : list DataType) : option (list ArrayRef) :=
  match builders, dts with
  | b :: builders, dt :: dts =>
      a ← builder_to_array b dt; arrays ← builders_to_arrays builders dts; Some (a :: arrays)
  | _, _ => Some []
  end.

Context (row_num batch_size : nat) (codec : CompressionCodec).

(** The loop over batches, in at most [fuel] rounds: the bytes written, the checksum and
    the output file. *)
Fixpoint process_batches (fuel current_row written : nat) (current_checksum : option (Checksum Crc Adler)) (output : list Z)
    : option (nat * option (Checksum Crc Adler) * list Z) :=
  if (current_row <? row_num)%nat then
    match fuel with
    | O => None
    | S fuel =>
        let n := Nat.min batch_size (row_num - current_row) in
        builders ← mapM (make_builders dictionary) schema;
        builders ← append_steps (S n) current_row (current_row + n) builders;
        arrays ← builders_to_arrays builders schema;
        batch ← make_batch arrays n;
        let cursor := MkCursor [] 0 in
        let block_writer := block_writer_new (num_columns batch) codec in
        '(bytes, cursor) ← write_batch block_writer batch cursor;
        let current_checksum := option_map (fun c => checksum_update c cursor) current_checksum in
        process_batches fuel (current_row + n) (written + bytes) current_checksum (output ++ c_data cursor)
    end
  else Some (written, current_checksum, output).

Definition checksum_start (checksum_enabled : bool) (checksum_algo : Z) (initial_checksum : option Z)
    : option (option (Checksum Crc Adler)) :=
  match checksum_enabled with
  | true => c ← checksum_try_new checksum_algo initial_checksum; Some (Some c)
  | false => Some None
  end.

(** Every round takes at least one row, unless [batch_size] is 0. *)
Definition process_sorted_row_partition (checksum_enabled : bool) (checksum_algo : Z) (initial_checksum : option Z)
    (output : list Z) : option (Z * option Z * list Z) :=
  checksum ← checksum_start checksum_enabled checksum_algo initial_checksum;
  '(written, checksum, output) ← process_batches row_num 0 0 checksum output;
  Some (i64 (Z.of_nat written), option_map checksum_finalize checksum, output).
End Process.
