(* ===== verification/SortedRowsProps.v ===== *)
(** A partition written by [process_sorted_row_partition] reads back as the rows that are
    in memory, whatever the batch size and the encoding of the strings. *)

From S2P Require Import Prelude Lists UnsafeRow RowColumns RowFormat RowProps RowAppend ShuffleCodec ShuffleCodecProps SortedRows.
From stdpp Require Import list countable.
Open Scope Z_scope.

(** * Fresh builders *)

Definition fresh (dt : DataType) (b : Builder) : Prop := shape dt b /\ finish b = Some [].

Lemma fresh_leaf dt t : is_leaf dt = true -> leaf_builder dt = Some t -> fresh dt (BLeaf t []).
Proof. intros Hl Ht. split; [|done]. by destruct dt. Qed.

Lemma make_leaf dt : is_leaf dt = true -> exists b, make_builders false dt = Some b /\ fresh dt b.
Proof.
  intros Hl. destruct (is_leaf_builder dt Hl) as [t Ht]. exists (BLeaf t []). split; [|by apply fresh_leaf].
  by destruct dt; simplify_eq/=.
Qed.

Lemma make_struct dts :
  Forall (fun dt => exists b, make_builders false dt = Some b /\ fresh dt b) dts ->
  exists b, make_builders false (TStruct dts) = Some b /\ fresh (TStruct dts) b.
Proof.
  intros Hd. cbn [make_builders].
  match goal with |- context [mbind (M := option) _ (?f dts)] => set (go := f) end.
  assert (exists fbs, go dts = Some fbs /\ Forall2 shape dts fbs /\ mapM finish fbs = Some (replicate (length dts) [])) as (fbs & -> & Hs & Hf).
  { induction Hd as [|dt dts (b & Eb & Hsh & Hfin) _ (fbs & E & Hs & Hf)]; [by exists []|]. exists (b :: fbs). cbn. rewrite Eb. cbn. fold go.
    rewrite E. split_and!; [done|by constructor|]. by rewrite Hfin, Hf. }
  eexists. split; [done|]. split; [by apply shapes_Forall2|]. rewrite finish_struct, Hf. cbn [mbind option_bind length imap].
  rewrite (proj2 (forallb_forall _ _)); [done|]. intros x Hx%list_elem_of_In. apply elem_of_replicate in Hx as [-> _]. done.
Qed.

Lemma make_list dt : list_append_types dt = true -> (exists b, make_builders false dt = Some b /\ fresh dt b) ->
  exists b, make_builders false (TList dt) = Some b /\ fresh (TList dt) b.
Proof.
  intros Ht (b & E & Hs & Hf). exists (BList [] [] b). split; [cbn [make_builders]; by rewrite E, Ht|]. split; [|cbn [finish]; by rewrite Hf].
  split; [done|]. exists []. split; [done|]. by repeat split.
Qed.

Lemma make_map kdt vdt : is_leaf kdt = true -> is_leaf vdt = true ->
  exists b, make_builders false (TMap (TStruct [kdt; vdt])) = Some b /\ fresh (TMap (TStruct [kdt; vdt])) b.
Proof.
  intros Hk Hv. destruct (make_leaf kdt Hk) as (kb & Ek & Hks & Hkf), (make_leaf vdt Hv) as (vb & Ev & Hvs & Hvf).
  exists (BMap [] [] kb vb). cbn [make_builders]. rewrite Ek, Ev. cbn [mbind option_bind].
  rewrite (proj2 (leaf_map_types kdt vdt Hk Hv)). split; [done|]. split; [|cbn [finish]; by rewrite Hkf, Hvf].
  split; [done|]. split; [done|]. exists [], []. by repeat split.
Qed.

Lemma make_builders_spec dt : supported dt = true -> exists b, make_builders false dt = Some b /\ fresh dt b.
Proof.
  set (P := fun dt => exists b, make_builders false dt = Some b /\ fresh dt b).
  assert ((supported dt = true -> P dt) /\ (forall dts, dt = TStruct dts -> forallb supported dts = true -> P dt)) as [? _]; [|done].
  induction dt as [dts IH|dt IH|dt IH|dt Hl|] using datatype_ind.
  - assert (forallb supported dts = true -> P (TStruct dts)) as Ha.
    { intros Hf. rewrite forallb_forall in Hf. apply make_struct, Forall_forall. intros d Hd.
      destruct (proj1 (Forall_forall _ _) IH d Hd) as [Hs _]. by apply Hs, Hf. }
    split; [exact Ha|]. intros ? [= <-]. exact Ha.
  - split; [|done]. intros Hs. destruct dt; try (by apply make_list; [|by apply make_leaf]).
    apply make_list; [done|]. by apply (proj2 IH fields).
  - split; [|done]. intros Hs. destruct dt as [| | | | | | | | | | | |[|kdt [|vdt [|]]]| | |]; try done.
    cbn in Hs. apply andb_prop in Hs as [? ?]. by apply make_map.
  - split; [by intros; apply make_leaf|]. by intros ? ->.
  - by split.
Qed.

(** * Columns *)

Definition is_string (dt : DataType) : bool := match dt with TUtf8 | TBinary => true | _ => false end.

Section Columns.
Context (mem : Memory) (Hmem : mem_ok mem) (dictionary : bool).

(** The builder of a top-level column that holds [cells]. *)
Definition column_holds (dt : DataType) (b : Builder) (cells : list Cell) : Prop :=
  (if dictionary && is_string dt then exists t, leaf_builder dt = Some t /\ b = BDict t cells else shape dt b)
  /\ finish b = Some cells.

Lemma make_column dt : supported dt = true -> exists b, make_builders dictionary dt = Some b /\ column_holds dt b [].
Proof.
  intros Hs. unfold column_holds. destruct (make_builders_spec dt Hs) as (b & E & Hsh & Hf).
  destruct dictionary; [|by exists b]. destruct dt; try (exists b; done); eexists; (split; [done|]); (split; [|done]); by eexists.
Qed.

(** The top level and [append_field] agree on the columns that are not dictionaries. *)
Lemma append_column_field dt b row n idx :
  supported dt = true -> dictionary && is_string dt = false -> field_is_null mem row idx = Some n ->
  append_column mem dictionary dt b row n idx = append_field mem dt b row idx.
Proof.
  intros Hs Hd Hn. destruct dt; cbn [append_column append_field]; rewrite Hn; cbn [mbind option_bind]; try done.
  1,2: destruct dictionary; [done|]; done.
  destruct dt as [| | | | | | | | | | | |[|kdt [|vdt [|]]]| | |]; try done. cbn in Hs. apply andb_prop in Hs as [Hk Hv].
  by destruct (leaf_map_types kdt vdt Hk Hv) as [-> ->].
Qed.

Lemma append_column_spec dt b row idx c cells :
  supported dt = true -> column_holds dt b cells -> field_stored mem dt row idx c ->
  exists b', append_column mem dictionary dt b row (is_null_cell c) idx = Some b' /\ column_holds dt b' (cells ++ [c]).
Proof.
  intros Hs [Hsh Hf] Hc. unfold column_holds. destruct (dictionary && is_string dt) eqn:Ed.
  - destruct Hsh as (t & Ht & ->). apply andb_prop in Ed as [-> Hst]. exists (BDict t (cells ++ [c])). split; [|by eauto].
    destruct dt; try done; cbn in Ht; simplify_eq; cbn [append_column]; rewrite (field_leaf_spec mem Hmem _ row idx c) by done;
      cbn; by rewrite decide_True.
  - rewrite (append_column_field _ _ _ _ _ Hs Ed (field_is_null_spec mem _ _ _ _ Hc)).
    destruct (append_field_spec mem Hmem dt Hs b row idx c Hs Hsh Hc) as (b' & E & Hsh' & Hf'). exists b'. by rewrite (Hf' _ Hf).
Qed.

(** * Rows *)

Definition column (idx : nat) (rs : list (list Cell)) : list Cell := (fun r => default CNull (r !! idx)) <$> rs.

Context (row_addresses row_sizes : list Z) (schema : list DataType) (rows : list (list Cell)).
Context (Hsup : forallb supported schema = true).
Context (Hrows : Forall2 (fun addr r => row_stored mem (value_stored mem) addr schema r) row_addresses rows).
Context (Hsizes : length row_sizes = length row_addresses).

Lemma row_length : Forall (fun r => length r = length schema) rows.
Proof.
  apply Forall_forall. intros r Hr%list_elem_of_In. apply list_elem_of_lookup in Hr as [i Hi].
  destruct (Forall2_lookup_r _ _ _ _ _ Hrows Hi) as (addr & _ & _ & Hf). by apply fields_stored_lookup in Hf as [? _].
Qed.

(** The field of a row the loop points to *)
Lemma row_field addr size r idx dt :
  row_stored mem (value_stored mem) addr schema r -> schema !! idx = Some dt ->
  let row := point_to (new_with_num_fields (length schema)) addr size in
  let c := default CNull (r !! idx) in
  row_is_null_at mem row idx = Some (is_null_cell c) /\ field_stored mem dt row idx c.
Proof.
  intros [Hn Hf] Hdt row c. apply fields_stored_lookup in Hf as [Hl Hf].
  destruct (lookup_lt_is_Some_2 r idx) as [ci Hi]; [rewrite Hl; by eapply lookup_lt_Some|].
  assert (c = ci) as -> by (unfold c; by rewrite Hi).
  assert (null_bit mem (row_addr row) idx = Some (is_null_cell ci)) as E by by apply (null_bit_spec mem Hmem _ addr r).
  split; [exact E|]. right. split; [|split; [exact E|]].
  - unfold is_null_row, row, point_to, new_with_num_fields. cbn [row_bitset_width].
    rewrite (proj2 (Z.eqb_neq (Z.of_nat _) (-1))) by lia. by rewrite andb_false_r.
  - exists addr, (addr + Z.of_nat (get_row_bitset_width (length schema)) + Z.of_nat (idx * 8)).
    split; [done|]. split; [done|]. by apply (Hf idx dt ci).
Qed.

Lemma append_column_rows_spec dt idx n i b cells :
  schema !! idx = Some dt -> (i + n <= length rows)%nat -> column_holds dt b cells ->
  exists b', append_column_rows mem row_addresses row_sizes schema dictionary dt idx n i b = Some b' /\
    column_holds dt b' (cells ++ column idx (take n (drop i rows))).
Proof.
  intros Hdt. assert (supported dt = true) as Hs.
  { rewrite forallb_forall in Hsup. apply Hsup, list_elem_of_In. by eapply list_elem_of_lookup_2. }
  revert i b cells. induction n as [|n IH]; intros i b cells Hi Hb.
  { exists b. rewrite app_nil_r. done. }
  destruct (lookup_lt_is_Some_2 rows i) as [r Er]; [lia|].
  destruct (Forall2_lookup_r _ _ _ _ _ Hrows Er) as (addr & Ea & Hr).
  destruct (lookup_lt_is_Some_2 row_sizes i) as [size Ez]; [rewrite Hsizes; by eapply lookup_lt_Some|].
  cbn [append_column_rows]. rewrite Ea, Ez. cbn [mbind option_bind].
  destruct (row_field addr size r idx dt Hr Hdt) as [-> Hc]. cbn [mbind option_bind].
  destruct (append_column_spec dt b _ idx _ cells Hs Hb Hc) as (b1 & -> & Hb1). cbn [mbind option_bind].
  destruct (IH (S i) b1 _ ltac:(lia) Hb1) as (b2 & E2 & Hb2). exists b2. split; [done|].
  rewrite (drop_S rows r i Er), firstn_cons. unfold column. rewrite fmap_cons. by rewrite <- app_assoc in Hb2.
Qed.

(** Builders [bs] of the columns from [k] on hold the rows [rs]. *)
Definition built (k : nat) (bs : list Builder) (rs : list (list Cell)) : Prop :=
  forall i b, bs !! i = Some b -> exists dt, schema !! (k + i)%nat = Some dt /\ column_holds dt b (column (k + i) rs).

Lemma built_cons k b bs rs :
  built k (b :: bs) rs <-> (exists dt, schema !! k = Some dt /\ column_holds dt b (column k rs)) /\ built (S k) bs rs.
Proof.
  unfold built. split.
  - intros Hb. split; [destruct (Hb 0%nat b eq_refl) as (dt & ? & ?); rewrite Nat.add_0_r in *; eauto|].
    intros i b' Hi. destruct (Hb (S i) b' Hi) as (dt & ? & ?). rewrite Nat.add_succ_r in *. eauto.
  - intros [Hb Hbs] [|i] b' Hi; [simplify_eq/=; by rewrite Nat.add_0_r|]. rewrite Nat.add_succ_r. by apply Hbs.
Qed.

Lemma append_all_columns_spec row_start row_end k bs rs :
  (row_start <= row_end)%nat -> (row_end <= length rows)%nat -> built k bs rs ->
  exists bs', append_all_columns dictionary mem row_addresses row_sizes schema row_start row_end k bs = Some bs' /\
    length bs' = length bs /\ built k bs' (rs ++ take (row_end - row_start) (drop row_start rows)).
Proof.
  intros Hse He. revert k. induction bs as [|b bs IH]; intros k Hb; [by exists []|].
  apply built_cons in Hb as [(dt & Hdt & Hb) Hbs]. cbn [append_all_columns]. unfold append_columns at 1. rewrite Hdt. cbn [mbind option_bind].
  destruct (append_column_rows_spec dt k (row_end - row_start) row_start b _ Hdt ltac:(lia) Hb) as (b' & -> & Hb').
  destruct (IH (S k) Hbs) as (bs' & E & Hl & Hbs'). cbn [mbind option_bind]. rewrite E. exists (b' :: bs').
  split; [done|]. split; [cbn; lia|]. apply built_cons. split; [|done]. exists dt. split; [done|].
  unfold column. by rewrite fmap_app.
Qed.

Lemma append_steps_spec fuel row_start row_stop bs rs :
  (row_stop - row_start < fuel)%nat -> (row_start <= row_stop)%nat -> (row_stop <= length rows)%nat -> built 0 bs rs ->
  exists bs', append_steps dictionary mem row_addresses row_sizes schema fuel row_start row_stop bs = Some bs' /\
    length bs' = length bs /\ built 0 bs' (rs ++ take (row_stop - row_start) (drop row_start rows)).
Proof.
  revert row_start bs rs. induction fuel as [|fuel IH]; intros row_start bs rs Hfu Hss Hst Hb; [lia|]. cbn [append_steps].
  case_ltb.
  - destruct (append_all_columns_spec row_start (Nat.min (row_start + row_step) row_stop) 0 bs rs ltac:(lia) ltac:(lia) Hb) as (bs1 & -> & Hl1 & Hb1).
    cbn [mbind option_bind]. assert (0 < row_step)%nat by (unfold row_step; lia).
    set (e := Nat.min (row_start + row_step) row_stop) in *.
    destruct (IH e bs1 _ ltac:(lia) ltac:(lia) Hst Hb1) as (bs2 & E & Hl2 & Hb2). exists bs2. split; [done|]. split; [lia|].
    rewrite <- app_assoc in Hb2. replace (row_stop - row_start)%nat with ((e - row_start) + (row_stop - e))%nat by lia.
    rewrite <- take_take_drop, drop_drop. by replace (row_start + (e - row_start))%nat with e by lia.
  - exists bs. split; [done|]. split; [done|]. replace (row_stop - row_start)%nat with 0%nat by lia. by rewrite app_nil_r.
Qed.
End Columns.

(** * Batches *)

Section Batches.
Context {Batch : Type} `{Arrow Batch (list Cell)} `{!ArrowLaws Batch (list Cell)} `{!RowArrow Batch} `{!RowArrowLaws Batch}.
Context (dictionary : bool) (efficient : nat -> nat -> bool).

Lemma builder_to_array_spec dt b cells :
  column_holds dictionary dt b cells ->
  exists a, builder_to_array (Batch := Batch) dictionary efficient b dt = Some a /\ ref_cells a = cells.
Proof.
  intros [Hs Hf]. destruct (cast_dictionary_cells (Batch := Batch) (MkRef true cells)) as (a' & Ea & Hc).
  destruct (dictionary && is_string dt) eqn:Ed.
  - apply andb_prop in Ed as [-> Hst]. destruct Hs as (t & _ & ->).
    destruct dt; try done; cbn [builder_to_array]; destruct (efficient _ _); eauto.
  - exists (MkRef false cells). split; [|done]. unfold builder_to_array. rewrite Hf.
    by destruct dt; try done; destruct dictionary.
Qed.

Lemma builders_to_arrays_spec dts pre bs rs :
  length bs = length dts -> built dictionary (pre ++ dts) (length pre) bs rs ->
  exists arrays, builders_to_arrays (Batch := Batch) dictionary efficient bs dts = Some arrays /\
    ref_cells <$> arrays = (fun idx => column idx rs) <$> seq (length pre) (length dts).
Proof.
  revert pre bs. induction dts as [|dt dts IH]; intros pre [|b bs] Hl Hb; try done; [by exists []|].
  apply built_cons in Hb as [(dt' & Hdt & Hc) Hb]. rewrite list_lookup_middle in Hdt by done. simplify_eq/=.
  destruct (builder_to_array_spec dt' b _ Hc) as (a & -> & Ha).
  destruct (IH (pre ++ [dt']) bs ltac:(lia)) as (arrays & E & Hcs).
  { by rewrite <- app_assoc, length_app, Nat.add_1_r. }
  rewrite length_app, Nat.add_1_r in Hcs.
  exists (a :: arrays). cbn [mbind option_bind]. rewrite E. split; [done|]. by rewrite !fmap_cons, Ha, Hcs.
Qed.

(** Transposing the columns gives the rows back. *)
Lemma transpose_columns n rs :
  Forall (fun r => length r = n) rs ->
  mapM (transpose_row ((fun idx => column idx rs) <$> seq 0 n)) (seq 0 (length rs)) = Some rs.
Proof.
  intros Hl. apply mapM_Some, Forall2_same_length_lookup_2; [by rewrite length_seq|].
  intros i j r Hi Hr. apply lookup_seq in Hi as [-> _]. cbn [Nat.add] in *. unfold transpose_row. apply mapM_Some.
  assert (length r = n) as Hn by (rewrite Forall_forall in Hl; apply Hl, list_elem_of_In; by eapply list_elem_of_lookup_2).
  apply Forall2_same_length_lookup_2; [by rewrite length_fmap, length_seq|]. intros k col c Hcol Hc.
  rewrite list_lookup_fmap in Hcol. destruct (seq 0 n !! k) as [k'|] eqn:Ek; [|done]. apply lookup_seq in Ek as [-> _]. simplify_eq/=.
  unfold column. rewrite list_lookup_fmap, Hr. cbn. by rewrite Hc.
Qed.

(** The batch of a chunk of rows *)
Lemma make_batch_spec schema bs rs n :
  built dictionary schema 0 bs rs -> length bs = length schema -> Forall (fun r => length r = length schema) rs -> length rs = n ->
  exists arrays batch, builders_to_arrays (Batch := Batch) dictionary efficient bs schema = Some arrays /\
    make_batch arrays n = Some batch /\ num_columns batch = length schema /\ batch_rows batch = rs.
Proof.
  intros Hb Hl Hr <-. destruct (builders_to_arrays_spec schema [] bs rs Hl Hb) as (arrays & E & Hcs).
  assert (length arrays = length schema) as Hla by (apply (f_equal length) in Hcs; by rewrite !length_fmap, length_seq in Hcs).
  destruct (record_batch_rows (Batch := Batch) arrays (length rs)) as (batch & Eb & Hn & Ht).
  { assert (Forall (fun l => length l = length rs) (ref_cells <$> arrays)) as Hall; [|by apply Forall_fmap in Hall].
    rewrite Hcs. apply Forall_fmap, Forall_true. intros idx. cbn. unfold column. by rewrite length_fmap. }
  exists arrays, batch. split_and!; [done|done|lia|]. rewrite Hcs, transpose_columns in Ht by done. by injection Ht.
Qed.

(** * The loop over batches *)

Context {Crc Adler : Type} `{HasherLaws Crc} `{HasherLaws Adler}.

Definition checksum_bytes (c : Checksum Crc Adler) (bytes : list Z) : Checksum Crc Adler := checksum_update c (MkCursor bytes (length bytes)).

Lemma checksum_bytes_nil c : checksum_bytes c [] = c.
Proof. unfold checksum_bytes, checksum_update. cbn [c_data]. by destruct c; rewrite !drop_0, hasher_update_nil. Qed.

Lemma checksum_bytes_app c a b : checksum_bytes c (a ++ b) = checksum_bytes (checksum_bytes c a) b.
Proof. unfold checksum_bytes, checksum_update. cbn [c_data]. by destruct c; rewrite !drop_0, hasher_update_app. Qed.

Context (mem : Memory) (Hmem : mem_ok mem) (row_addresses row_sizes : list Z) (schema : list DataType) (rows : list (list Cell)).
Context (Hsup : forallb supported schema = true).
Context (Hrows : Forall2 (fun addr r => row_stored mem (value_stored mem) addr schema r) row_addresses rows).
Context (Hsizes : length row_sizes = length row_addresses).
Context (batch_size : nat) (Hbs : (0 < batch_size)%nat) (codec : CompressionCodec).

(** Every batch of consecutive rows fits in a block. *)
Definition rows_encodable : Prop := forall (b : Batch) i n,
  num_columns b = length schema -> batch_rows b = take n (drop i rows) -> (n <= batch_size)%nat ->
  is_Some (block_bytes (length schema) codec b).
Context (Henc : rows_encodable).

Lemma make_columns dts : forallb supported dts = true ->
  exists bs, mapM (make_builders dictionary) dts = Some bs /\ length bs = length dts /\ built dictionary dts 0 bs [].
Proof.
  intros Hd. destruct (proj2 (mapM_is_Some (make_builders dictionary) dts)) as [bs E].
  { apply Forall_forall. intros dt Hdt. rewrite forallb_forall in Hd. destruct (make_column dictionary dt (Hd _ Hdt)) as (b & E & _). by exists b. }
  exists bs. split; [done|]. apply mapM_Some in E. split; [symmetry; by eapply Forall2_length|].
  intros i b Hi. destruct (Forall2_lookup_r _ _ _ _ _ E Hi) as (dt & Hdt & Eb). exists dt. split; [done|].
  rewrite forallb_forall in Hd. destruct (make_column dictionary dt) as (b' & Eb' & Hc); [|by simplify_eq].
  apply Hd, list_elem_of_In. by eapply list_elem_of_lookup_2.
Qed.

(** One round of the loop *)
Lemma round_spec current n :
  (current + n <= length rows)%nat -> (n <= batch_size)%nat ->
  exists builders builders' arrays batch bytes,
    mapM (make_builders dictionary) schema = Some builders /\
    append_steps dictionary mem row_addresses row_sizes schema (S n) current (current + n) builders = Some builders' /\
    builders_to_arrays (Batch := Batch) dictionary efficient builders' schema = Some arrays /\
    make_batch arrays n = Some batch /\ num_columns batch = length schema /\
    write_batch (block_writer_new (num_columns batch) codec) batch (MkCursor [] 0) = Some (length bytes, MkCursor bytes (length bytes)) /\
    file_holds (length schema) codec bytes [batch] /\ batch_rows batch = take n (drop current rows).
Proof.
  intros Hc Hn. destruct (make_columns schema Hsup) as (bs0 & E0 & Hl0 & Hb0).
  destruct (append_steps_spec mem Hmem dictionary row_addresses row_sizes schema rows Hsup Hrows Hsizes
    (S n) current (current + n) bs0 [] ltac:(lia) ltac:(lia) Hc Hb0) as (bs1 & E1 & Hl1 & Hb1).
  replace (current + n - current)%nat with n in Hb1 by lia.
  destruct (make_batch_spec schema bs1 (take n (drop current rows)) n Hb1) as (arrays & batch & Ea & Em & Hcol & Hr); [lia| | |].
  { by eapply Forall_take, Forall_drop, row_length. }
  { rewrite length_take, length_drop. lia. }
  destruct (Henc batch current n Hcol Hr Hn) as [bytes Eb]. exists bs0, bs1, arrays, batch, bytes. split_and!; try done.
  - rewrite Hcol. pose proof (write_batch_spec (length schema) codec batch []) as W. cbn [length] in W. rewrite W, Eb. done.
  - by apply file_holds_one.
Qed.

Lemma process_batches_spec fuel current written (cs : option (Checksum Crc Adler)) output :
  (length rows - current <= fuel)%nat -> (current <= length rows)%nat ->
  exists bytes bs,
    process_batches dictionary efficient mem row_addresses row_sizes schema (length rows) batch_size codec
      fuel current written cs output
    = Some ((written + length bytes)%nat, option_map (fun c => checksum_bytes c bytes) cs, output ++ bytes) /\
    file_holds (length schema) codec bytes bs /\ Forall (fun b => num_columns b = length schema) bs /\
    concat (batch_rows <$> bs) = drop current rows.
Proof.
  revert current written cs output. induction fuel as [|fuel IH]; intros current written cs output Hf Hc; cbn [process_batches]; case_ltb; try lia.
  1,3: exists [], []; rewrite app_nil_r, drop_ge, Nat.add_0_r by lia; split_and!; [|apply file_holds_nil|constructor|done];
    by destruct cs; cbn; rewrite ?checksum_bytes_nil.
  set (n := Nat.min batch_size (length rows - current)).
  destruct (round_spec current n) as (bs0 & bs1 & arrays & batch & bytes & E0 & E1 & Ea & Em & Hcol & Ew & Hh & Hr); [lia|lia|].
  rewrite E0. cbn [mbind option_bind]. rewrite E1. cbn [mbind option_bind]. rewrite Ea. cbn [mbind option_bind].
  rewrite Em. cbn [mbind option_bind]. rewrite Ew. cbn [mbind option_bind].
  destruct (IH (current + n)%nat (written + length bytes)%nat (option_map (fun c => checksum_update c (MkCursor bytes (length bytes))) cs)
    (output ++ bytes) ltac:(lia) ltac:(lia)) as (rest & bs & E & Hh' & Hcols & Hrows').
  exists (bytes ++ rest), (batch :: bs). split_and!.
  - cbn [c_data]. rewrite E, app_assoc, length_app, Nat.add_assoc. destruct cs as [c|]; [|done]. cbn. by rewrite checksum_bytes_app.
  - by apply (file_holds_app _ _ _ _ [batch]).
  - by constructor.
  - rewrite fmap_cons. cbn [concat]. rewrite Hr, Hrows', <- drop_drop. apply take_drop.
Qed.

(** C5: The columnar shuffle of unsafe rows end to end.  Given rows in memory in Spark's
    layout, of a schema the native code supports, [process_sorted_row_partition] succeeds: it
    appends to the output file bytes whose number it returns and whose checksum, continued
    from the initial one, it returns; and the iterator that reads shuffle blocks delivers from
    those bytes the very rows, in order, with dictionary encoding or without, whatever the
    batch size. *)
Theorem sorted_partition_roundtrip checksum_enabled checksum_algo initial_checksum (start : option (Checksum Crc Adler)) output :
  Z.of_nat (length schema) < 2 ^ 31 ->
  checksum_start checksum_enabled checksum_algo initial_checksum = Some start ->
  exists bytes bs,
    process_sorted_row_partition (Crc := Crc) (Adler := Adler) dictionary efficient mem row_addresses row_sizes schema
      (length rows) batch_size codec checksum_enabled checksum_algo initial_checksum output
    = Some (i64 (Z.of_nat (length bytes)), option_map (fun c => checksum_finalize (checksum_bytes c bytes)) start, output ++ bytes) /\
    read_blocks bytes = Some bs /\ concat (batch_rows <$> bs) = rows.
Proof.
  intros Hs Hst. destruct (process_batches_spec (length rows) 0 0 start output) as (bytes & bs & E & Hh & Hc & Hr); [lia..|].
  destruct (read_blocks_spec (length schema) codec bytes bs Hs Hc Hh) as (bs' & Er & Hb). exists bytes, bs'.
  unfold process_sorted_row_partition. rewrite Hst. cbn [mbind option_bind]. rewrite E. cbn [mbind option_bind].
  split; [by destruct start|]. split; [done|]. by rewrite Hb, concat_nonempty_rows, Hr.
Qed.
End Batches.

(** * A concrete Arrow *)

(** Batches are a number of columns and rows; flat batches can be encoded. *)
Module PlainRows.
Definition cell_code (c : Cell) : option (option (Z + list Z)) :=
  match c with CNull => Some None | CInt z => Some (Some (inl z)) | CBytes l => Some (Some (inr l)) | _ => None end.
Definition code_cell (c : option (Z + list Z)) : Cell :=
  match c with None => CNull | Some (inl z) => CInt z | Some (inr l) => CBytes l end.
Definition uncode (codes : list (list (option (Z + list Z)))) : list (list Cell) := map (map code_cell) codes.

#[export] Instance rows_arrow : Arrow (nat * list (list Cell)) (list Cell) := {
  batch_rows := snd;
  num_columns := fst;
  batch_slice b off len := (b.1, take len (drop off b.2));
  interleave_record_batch bs idx :=
    rs ← mapM (fun ix => b ← bs !! ix.1; b.2 !! ix.2) idx; b ← head bs; Some (b.1, rs);
  concat_batches bs := b ← head bs; Some (b.1, concat (snd <$> bs));
  ipc_encode _ b := codes ← mapM (mapM cell_code) b.2; Some [Zpos (encode (b.1, codes))];
  ipc_decode _ bytes :=
    match bytes with
    | [Zpos p] => '(m, codes) ← decode (A := nat * list (list (option (Z + list Z)))) p; Some (m, uncode codes)
    | _ => None
    end;
}.

Lemma code_cells r codes : mapM cell_code r = Some codes -> map code_cell codes = r.
Proof.
  intros Hm%mapM_Some. induction Hm as [|c k r codes Hc _ IH]; [done|]. cbn. rewrite IH. by destruct c; simplify_eq/=.
Qed.

Lemma code_rows rs codes : mapM (mapM cell_code) rs = Some codes -> uncode codes = rs.
Proof.
  intros Hm%mapM_Some. induction Hm as [|r k rs codes Hr _ IH]; [done|]. cbn. fold (uncode codes).
  by rewrite IH, (code_cells r k Hr).
Qed.

#[export] Instance rows_arrow_laws : ArrowLaws (nat * list (list Cell)) (list Cell).
Proof.
  split.
  - done.
  - done.
  - intros bs idx rs m Hm Hc Hi. destruct bs as [|b bs]; [destruct idx; [done|]; by simpl in Hm|].
    apply Forall_cons_1 in Hc as [Hc _]. exists (m, rs). split; [|done]. cbn [interleave_record_batch rows_arrow].
    unfold row_at in Hm. cbn [batch_rows rows_arrow] in Hm. rewrite Hm. cbn in *. by subst.
  - intros bs m Hn Hc. destruct bs as [|b bs]; [done|]. apply Forall_cons_1 in Hc as [Hc _]. exists (m, concat (snd <$> b :: bs)).
    split; [|done]. cbn in *. by subst.
  - intros c [m rs] bytes. cbn [ipc_encode ipc_decode rows_arrow fst snd]. destruct (mapM _ rs) as [codes|] eqn:E; [|done].
    intros [= <-]. rewrite decode_encode. cbn [mbind option_bind]. eexists. split; [done|]. cbn. by rewrite (code_rows _ _ E).
Qed.

#[export] Instance rows_row_arrow : RowArrow (nat * list (list Cell)) := {
  record_batch_try_new arrays n :=
    rs ← mapM (transpose_row (ref_cells <$> arrays)) (seq 0 n); Some (length arrays, rs);
  cast_dictionary a := Some (MkRef false (ref_cells a));
}.

#[export] Instance rows_row_arrow_laws : RowArrowLaws (nat * list (list Cell)).
Proof.
  split; [|by intros a; eexists].
  intros arrays n Hl. destruct (proj2 (mapM_is_Some (transpose_row (ref_cells <$> arrays)) (seq 0 n))) as [rs E].
  - apply Forall_seq. intros i Hi. unfold compose, transpose_row. apply mapM_is_Some, Forall_fmap. revert Hl. apply Forall_impl.
    intros a Ha. apply lookup_lt_is_Some_2. lia.
  - exists (length arrays, rs). cbn [record_batch_try_new rows_row_arrow]. by rewrite E.
Qed.

(** A polynomial hash *)
#[export] Instance poly_hasher : Hasher Z := {
  hasher_new := 0;
  hasher_from z := z;
  hasher_update := foldl (fun h b => wrap 32 (31 * h + b));
  hasher_finish h := h;
}.

#[export] Instance poly_hasher_laws : HasherLaws Z.
Proof. split; [done|]. intros h a b. apply foldl_app. Qed.

(** Two rows of an int and a string in memory, at 1024 and 1056; the second string is null. *)
Definition image : list Z :=
  to_le_bytes 8 0 ++ to_le_bytes 8 7 ++ to_le_bytes 8 (24 * 2 ^ 32 + 2) ++ [104; 105; 0; 0; 0; 0; 0; 0] ++
  to_le_bytes 8 2 ++ to_le_bytes 8 (-5) ++ to_le_bytes 8 0.
Definition memory : Memory := fun a => if 1024 <=? a then image !! Z.to_nat (a - 1024) else None.
Definition values : list (list Cell) := [[CInt 7; CBytes [104; 105]]; [CInt (-5); CNull]].

Lemma memory_ok : mem_ok memory.
Proof.
  intros a b. unfold memory. destruct (Z.leb_spec 1024 a); [|done]. intros Hl. split.
  - apply lookup_lt_Some in Hl. change (length image) with 56%nat in Hl. lia.
  - assert (Forall (in_u 8) image) as Hi by (repeat (constructor; [by vm_compute|]); constructor).
    by apply (Forall_lookup_1 _ _ _ _ Hi Hl).
Qed.

Lemma memory_rows :
  Forall2 (fun addr r => row_stored memory (value_stored memory) addr [TInt32; TUtf8] r) [1024; 1056] values.
Proof.
  apply Forall2_cons; [|apply Forall2_cons; [|done]]; (split; [|cbn [fields_stored]; split; [right|split; [|done]]]).
  - intros [|[|i]] c; cbn; intros; simplify_eq; exists 0; by vm_compute.
  - split; [done|]. by vm_compute.
  - right. split; [done|]. exists 24. by vm_compute.
  - intros [|[|i]] c; cbn; intros; simplify_eq; exists 2; by vm_compute.
  - split; [done|]. by vm_compute.
  - by left.
Qed.

Lemma values_encodable batch_size codec :
  rows_encodable (Batch := nat * list (list Cell)) [TInt32; TUtf8] values batch_size codec.
Proof.
  intros [m rs] i n Hm Hr _. cbn [num_columns batch_rows rows_arrow fst snd length] in *. subst.
  unfold block_bytes. destruct (_ =? 0)%nat; [done|]. cbn [ipc_encode rows_arrow fst snd].
  assert (Forall (fun r => is_Some (mapM cell_code r)) (take n (drop i values))) as Hf.
  { apply Forall_take, Forall_drop. repeat constructor; by eexists. }
  apply mapM_is_Some in Hf as [codes ->]. by eexists.
Qed.
End PlainRows.
Import PlainRows.

Lemma sorted_partition_roundtrip_witness : exists bytes bs,
  process_sorted_row_partition (Batch := nat * list (list Cell)) (Crc := Z) (Adler := Z) true (fun keys vals => vals <? keys)%nat
    memory [1024; 1056] [26; 24] [TInt32; TUtf8] 2 1 (Zstd 1) true 1 (Some 9) [42]
  = Some (i64 (Z.of_nat (length bytes)), Some (hasher_update 9 bytes), [42] ++ bytes) /\
  read_blocks (Batch := nat * list (list Cell)) bytes = Some bs /\ concat (snd <$> bs) = values.
Proof.
  destruct (sorted_partition_roundtrip (Batch := nat * list (list Cell)) (Crc := Z) (Adler := Z) true (fun keys vals => vals <? keys)%nat
    memory memory_ok [1024; 1056] [26; 24] [TInt32; TUtf8] values eq_refl memory_rows eq_refl 1 ltac:(lia) (Zstd 1)
    (values_encodable _ _) true 1 (Some 9) (Some (Adler32 9)) [42] ltac:(reflexivity) eq_refl) as (bytes & bs & E & Hr & Hb).
  exists bytes, bs. exact (conj E (conj Hr Hb)).
Defined.
