(* ===== verification/Casts.v ===== *)
(** Casts between strings and numbers (src/native/spark-expr/src/conversion_funcs/cast.rs).

    A [str] is the list of its Unicode scalar values; a byte slice is a list of bytes.  Float
    conversions, time zones and the casts DataFusion does are not modelled; the calendar of
    chrono is a parameter of the date parser. *)

From S2P Require Import Prelude.
From stdpp Require Import list strings.
Open Scope Z_scope.

Inductive EvalMode := Legacy | Ansi | Try.

Definition is_ansi (m : EvalMode) : bool := match m with Ansi => true | _ => false end.
Definition is_legacy (m : EvalMode) : bool := match m with Legacy => true | _ => false end.

(** The text of an error message's operands: code points. *)
Definition text := list Z.

Inductive SparkError :=
  | CastInvalidValue (value from_type to_type : text)
  | NumericValueOutOfRange (value : text) (precision scale : Z)
  | CastOverFlow (value from_type to_type : text)
  | ArithmeticOverflow (from_type : text)
  | DivideByZero
  | SparkArrow
  | SparkInternal.

(** A result with errors in [E], or a panic *)
Inductive Result (E A : Type) := Ok (a : A) | Err (e : E) | Panic.
Arguments Ok {E A} a.
Arguments Err {E A} e.
Arguments Panic {E A}.
Abbreviation SparkResult := (Result SparkError).

#[export] Instance result_ret E : MRet (Result E) := fun A a => Ok a.
#[export] Instance result_bind E : MBind (Result E) := fun A B f r =>
  match r with Ok a => f a | Err e => Err e | Panic => Panic end.

(** * Characters *)

Definition code (c : Ascii.ascii) : Z := Z.of_nat (Ascii.nat_of_ascii c).
Definition codes (s : string) : text := code <$> String.list_ascii_of_string s.

Definition is_ascii_digit (c : Z) : bool := (48 <=? c) && (c <=? 57).

Definition len_utf8 (c : Z) : nat := if c <? 128 then 1 else if c <? 2048 then 2 else if c <? 65536 then 3 else 4.

(** [str::len], in bytes *)
Definition str_len (s : text) : nat := foldr (fun c n => len_utf8 c + n)%nat 0%nat s.

Fixpoint char_indices (off : nat) (s : text) : list (nat * Z) :=
  match s with [] => [] | c :: s => (off, c) :: char_indices (off + len_utf8 c) s end.

(** [char::is_whitespace] *)
Definition is_whitespace (c : Z) : bool :=
  ((9 <=? c) && (c <=? 13)) || (c =? 32) || (c =? 133) || (c =? 160) || (c =? 5760)
  || ((8192 <=? c) && (c <=? 8202)) || (c =? 8232) || (c =? 8233) || (c =? 8239) || (c =? 8287) || (c =? 12288).

Fixpoint trim_start (s : text) : text :=
  match s with [] => [] | c :: s' => if is_whitespace c then trim_start s' else s end.
Definition trim (s : text) : text := reverse (trim_start (reverse (trim_start s))).

Definition to_ascii_lowercase (s : text) : text := (fun c => if (65 <=? c) && (c <=? 90) then c + 32 else c) <$> s.

(** [i128::to_string]: decimal digits, at most [fuel] of them. *)
Fixpoint digits_of (fuel : nat) (n : Z) : text :=
  match fuel with
  | O => []
  | S fuel => (if n <? 10 then [] else digits_of fuel (n / 10)) ++ [48 + n mod 10]
  end.
Definition to_string (z : Z) : text := (if z <? 0 then [45] else []) ++ digits_of 40 (Z.abs z).

(** * Strings to integers *)

Definition invalid_value (value from_type to_type : text) : SparkError := CastInvalidValue value from_type to_type.
Definition cast_overflow (value from_type to_type : text) : SparkError := CastOverFlow value from_type to_type.

Definition none_or_err {A} (eval_mode : EvalMode) (type_name : text) (str : text) : SparkResult (option A) :=
  match eval_mode with Ansi => Err (invalid_value str (codes "STRING") type_name) | _ => Ok None end.

Definition checked (w z : Z) : option Z := if bool_decide (in_s w z) then Some z else None.

Section Parse.
(** The [w]-bit type [T]; early returns of the loop are [None]. *)
Context (w : Z) (eval_mode : EvalMode) (len : nat) (stop_value : Z).

(** [result], [negative] and [parse_sign_and_digits] *)
Record ParseState := MkParse { ps_result : Z; ps_negative : bool; ps_digits : bool }.

(** A digit of the integral part *)
Definition parse_digit (st : ParseState) (ch : Z) : option ParseState :=
  if is_ascii_digit ch then
    if ps_result st <? stop_value then None
    else
      x ← checked w (swrap w (ps_result st * 10) - (ch - 48));
      if x <=? 0 then Some (MkParse x (ps_negative st) (ps_digits st)) else None
  else None.

Definition parse_char (st : ParseState) (i : nat) (ch : Z) : option ParseState :=
  if ps_digits st then
    let negative := if (i =? 0)%nat then ch =? 45 else ps_negative st in
    let st := MkParse (ps_result st) negative (ps_digits st) in
    if (i =? 0)%nat && ((ch =? 45) || (ch =? 43)) then
      if (i + 1 =? len)%nat then None else Some st
    else if ch =? 46 then
      if is_legacy eval_mode then Some (MkParse (ps_result st) (ps_negative st) false) else None
    else parse_digit st ch
  else if is_ascii_digit ch then Some st else None.

Fixpoint parse_chars (st : ParseState) (cs : list (nat * Z)) : option ParseState :=
  match cs with
  | [] => Some st
  | (i, ch) :: cs => st ← parse_char st i ch; parse_chars st cs
  end.
End Parse.

Definition do_cast_string_to_int (w : Z) (str : text) (eval_mode : EvalMode) (type_name : text) (min_value : Z)
    : SparkResult (option Z) :=
  let trimmed_str := trim str in
  if (str_len trimmed_str =? 0)%nat then none_or_err eval_mode type_name str
  else
    let len := str_len trimmed_str in
    let stop_value := Z.quot min_value 10 in
    match parse_chars w eval_mode len stop_value (MkParse 0 false true) (char_indices 0 trimmed_str) with
    | None => none_or_err eval_mode type_name str
    | Some st =>
        if ps_negative st then Ok (Some (ps_result st))
        else
          match checked w (- ps_result st) with
          | Some neg => if neg <? 0 then none_or_err eval_mode type_name str else Ok (Some neg)
          | None => none_or_err eval_mode type_name str
          end
    end.

Definition cast_string_to_int_with_range_check (str : text) (eval_mode : EvalMode) (type_name : text) (min max : Z)
    : SparkResult (option Z) :=
  r ← do_cast_string_to_int 32 str eval_mode type_name (- 2 ^ 31);
  match r with
  | None => Ok None
  | Some v =>
      if (min <=? v) && (v <=? max) then Ok (Some v)
      else if is_ansi eval_mode then Err (invalid_value str (codes "STRING") type_name)
      else Ok None
  end.

Definition cast_string_to_i8 (str : text) (eval_mode : EvalMode) : SparkResult (option Z) :=
  r ← cast_string_to_int_with_range_check str eval_mode (codes "TINYINT") (- 2 ^ 7) (2 ^ 7 - 1); Ok (option_map (swrap 8) r).
Definition cast_string_to_i16 (str : text) (eval_mode : EvalMode) : SparkResult (option Z) :=
  r ← cast_string_to_int_with_range_check str eval_mode (codes "SMALLINT") (- 2 ^ 15) (2 ^ 15 - 1); Ok (option_map (swrap 16) r).
Definition cast_string_to_i32 (str : text) (eval_mode : EvalMode) : SparkResult (option Z) :=
  do_cast_string_to_int 32 str eval_mode (codes "INT") (- 2 ^ 31).
Definition cast_string_to_i64 (str : text) (eval_mode : EvalMode) : SparkResult (option Z) :=
  do_cast_string_to_int 64 str eval_mode (codes "BIGINT") (- 2 ^ 63).

(** The integer types a cast can have as its target *)
Inductive IntType := Int8 | Int16 | Int32 | Int64.
Definition int_width (t : IntType) : Z := match t with Int8 => 8 | Int16 => 16 | Int32 => 32 | Int64 => 64 end.
Definition int_name (t : IntType) : text :=
  codes (match t with Int8 => "TINYINT" | Int16 => "SMALLINT" | Int32 => "INT" | Int64 => "BIGINT" end).

Definition cast_string_to (to_type : IntType) : text -> EvalMode -> SparkResult (option Z) :=
  match to_type with
  | Int8 => cast_string_to_i8
  | Int16 => cast_string_to_i16
  | Int32 => cast_string_to_i32
  | Int64 => cast_string_to_i64
  end.

(** The loops over arrays: null stays null, the first error ends the cast. *)
Definition cast_elements {A B} (f : A -> SparkResult (option B)) (array : list (option A)) : SparkResult (list (option B)) :=
  mapM (fun v => match v with Some v => f v | None => Ok None end) array.

Definition cast_string_to_int (to_type : IntType) (array : list (option text)) (eval_mode : EvalMode) :=
  cast_elements (fun s => cast_string_to to_type s eval_mode) array.

(** * Strings to booleans *)

Definition str_is (s : text) (l : list string) : bool := existsb (fun x => bool_decide (s = codes x)) l.

Definition cast_string_to_boolean (value : text) (eval_mode : EvalMode) : SparkResult (option bool) :=
  let s := trim (to_ascii_lowercase value) in
  if str_is s ["t"; "true"; "y"; "yes"; "1"]%string then Ok (Some true)
  else if str_is s ["f"; "false"; "n"; "no"; "0"]%string then Ok (Some false)
  else if is_ansi eval_mode then Err (CastInvalidValue value (codes "STRING") (codes "BOOLEAN"))
  else Ok None.

Definition spark_cast_utf8_to_boolean (array : list (option text)) (eval_mode : EvalMode) :=
  cast_elements (fun s => cast_string_to_boolean s eval_mode) array.

(** * Integers to narrower integers *)

Definition literal_suffix (t : IntType) : text :=
  match t with Int64 => codes "L" | Int16 => codes "S" | Int8 => codes "T" | Int32 => [] end.

Definition int_to_int (eval_mode : EvalMode) (from_type to_type : IntType) (value : Z) : SparkResult (option Z) :=
  match eval_mode with
  | Legacy => Ok (Some (swrap (int_width to_type) value))
  | _ =>
      match checked (int_width to_type) value with
      | None => Err (cast_overflow (to_string value ++ literal_suffix from_type) (int_name from_type) (int_name to_type))
      | Some v => Ok (Some v)
      end
  end.

Definition spark_cast_int_to_int (array : list (option Z)) (eval_mode : EvalMode) (from_type to_type : IntType)
    : SparkResult (list (option Z)) :=
  match from_type, to_type with
  | Int64, Int32 | Int64, Int16 | Int64, Int8 | Int32, Int16 | Int32, Int8 | Int16, Int8 =>
      cast_elements (int_to_int eval_mode from_type to_type) array
  | _, _ => Panic
  end.

(** * Decimals to integers *)

(** [10_i128.pow(scale as u32)] *)
Definition pow10 (scale : Z) : Z := swrap 128 (10 ^ wrap 32 scale).

Definition decimal_name (precision scale : Z) : text :=
  codes "DECIMAL(" ++ to_string precision ++ codes "," ++ to_string scale ++ codes ")".

Definition decimal_text (truncated decimal : Z) : text := to_string truncated ++ codes "." ++ to_string decimal ++ codes "BD".

(** The truncated quotient and the fraction of a decimal; a divisor of 0 panics. *)
Definition split_decimal (scale value : Z) : option (Z * Z) :=
  let divisor := pow10 scale in
  if divisor =? 0 then None else Some (Z.quot value divisor, swrap 128 (Z.abs (Z.rem value divisor))).

(** To [i8] and [i16], by way of [i32] *)
Definition decimal_to_int16_down (to_type : IntType) (eval_mode : EvalMode) (precision scale value : Z) : SparkResult (option Z) :=
  match split_decimal scale value with
  | None => Panic
  | Some (truncated, decimal) =>
      let w := int_width to_type in
      let overflow := Err (cast_overflow (decimal_text truncated decimal) (decimal_name precision scale) (int_name to_type)) in
      match eval_mode with
      | Ansi =>
          if 2 ^ 31 - 1 <? swrap 128 (Z.abs truncated) then overflow
          else match checked w (swrap 32 truncated) with Some v => Ok (Some v) | None => overflow end
      | _ => Ok (Some (swrap w (swrap 32 truncated)))
      end
  end.

(** To [i32] and [i64] *)
Definition decimal_to_int32_up (to_type : IntType) (eval_mode : EvalMode) (precision scale value : Z) : SparkResult (option Z) :=
  match split_decimal scale value with
  | None => Panic
  | Some (truncated, decimal) =>
      let w := int_width to_type in
      match eval_mode with
      | Ansi =>
          if 2 ^ (w - 1) - 1 <? swrap 128 (Z.abs truncated) then
            Err (cast_overflow (decimal_text truncated decimal) (decimal_name precision scale) (int_name to_type))
          else Ok (Some (swrap w truncated))
      | _ => Ok (Some (swrap w truncated))
      end
  end.

Definition decimal_to_int (to_type : IntType) : EvalMode -> Z -> Z -> Z -> SparkResult (option Z) :=
  match to_type with
  | Int8 | Int16 => decimal_to_int16_down to_type
  | Int32 | Int64 => decimal_to_int32_up to_type
  end.

(** The decimal arms of [spark_cast_nonintegral_numeric_to_integral] *)
Definition cast_decimal_to_integral (array : list (option Z)) (eval_mode : EvalMode) (precision scale : Z) (to_type : IntType) :=
  cast_elements (decimal_to_int to_type eval_mode precision scale) array.

(** * Strings to dates *)

Section Date.
(** The bytes of a string; [NaiveDate::from_ymd_opt], as days since the epoch *)
Context (from_ymd_opt : Z -> Z -> Z -> option Z).

(** [is_ascii_whitespace] is a control character or the space. *)
Definition is_whitespace_or_iso_control (b : Z) : bool := (b <=? 31) || (b =? 32) || (b =? 127).

Fixpoint get_trimmed_start (bytes : list Z) : nat :=
  match bytes with [] => 0 | b :: bytes => if is_whitespace_or_iso_control b then S (get_trimmed_start bytes) else 0 end.

(** [while end > start && ...], from [end = bytes.len() - 1] *)
Fixpoint trimmed_end_loop (start : nat) (bytes : list Z) (e : nat) : option nat :=
  if (start <? e)%nat then
    match e with
    | O => Some e
    | S e' => b ← bytes !! e; if is_whitespace_or_iso_control b then trimmed_end_loop start bytes e' else Some e
    end
  else Some e.
Definition get_trimmed_end (start : nat) (bytes : list Z) : option nat :=
  e ← trimmed_end_loop start bytes (length bytes - 1); Some (S e).

Definition is_valid_digits (segment digits : nat) : bool :=
  ((segment =? 0)%nat && (4 <=? digits)%nat && (digits <=? 7)%nat)
  || (negb (segment =? 0)%nat && (0 <? digits)%nat && (digits <=? 2)%nat).

Record DateState := MkDate { date_segments : list Z; current_segment : nat; current_segment_value : Z; current_segment_digits : nat }.

(** The loop over the bytes up to [str_end_trimmed]: the state and the bytes not consumed, or
    [None] where the code returns early. *)
Fixpoint date_loop (bytes : list Z) (st : DateState) : option (DateState * list Z) :=
  match bytes with
  | [] => Some (st, [])
  | b :: rest =>
      if (current_segment st <? 3)%nat && negb ((b =? 32) || (b =? 84)) then
        if (current_segment st <? 2)%nat && (b =? 45) then
          if negb (is_valid_digits (current_segment st) (current_segment_digits st)) then None
          else
            date_loop rest
              (MkDate (<[current_segment st := current_segment_value st]> (date_segments st)) (S (current_segment st)) 0 0)
        else if negb (is_ascii_digit b) then None
        else
          date_loop rest
            (MkDate (date_segments st) (current_segment st)
               (swrap 32 (swrap 32 (current_segment_value st * 10) + (b - 48))) (S (current_segment_digits st)))
      else Some (st, bytes)
  end.

Definition return_result (date_str : list Z) (eval_mode : EvalMode) : SparkResult (option Z) :=
  if is_ansi eval_mode then Err (CastInvalidValue date_str (codes "STRING") (codes "DATE")) else Ok None.

(** From the sign on *)
Definition date_body (date_str : list Z) (eval_mode : EvalMode) (sign : Z) (bytes : list Z) : SparkResult (option Z) :=
  match date_loop bytes (MkDate [1; 1; 1] 0 0 0) with
  | None => return_result date_str eval_mode
  | Some (st, rest) =>
      if negb (is_valid_digits (current_segment st) (current_segment_digits st)) then return_result date_str eval_mode
      else if (current_segment st <? 2)%nat && negb (bool_decide (rest = [])) then return_result date_str eval_mode
      else
        match <[current_segment st := current_segment_value st]> (date_segments st) with
        | [y; m; d] =>
            match from_ymd_opt (swrap 32 (sign * y)) (wrap 32 m) (wrap 32 d) with
            | Some days => match checked 32 days with Some days => Ok (Some days) | None => Panic end
            | None => Ok None
            end
        | _ => Panic
        end
  end.

Definition date_parser (date_str : list Z) (eval_mode : EvalMode) : SparkResult (option Z) :=
  if (length date_str =? 0)%nat then return_result date_str eval_mode
  else
    let j := get_trimmed_start date_str in
    match get_trimmed_end j date_str with
    | None => Panic
    | Some str_end_trimmed =>
        if (j =? str_end_trimmed)%nat then return_result date_str eval_mode
        else
          match take (str_end_trimmed - j) (drop j date_str) with
          | [] => Panic
          | (b :: rest) as bytes =>
              if (b =? 45) || (b =? 43) then date_body date_str eval_mode (if b =? 45 then -1 else 1) rest
              else date_body date_str eval_mode 1 bytes
          end
    end.

Definition cast_string_to_date (array : list (option (list Z))) (eval_mode : EvalMode) :=
  cast_elements (fun s => date_parser s eval_mode) array.
End Date.
