(* ===== verification/CastProps.v ===== *)
(** What the casts of [Casts] compute: the string parsers against grammars with unbounded
    integers, the numeric casts against ranges. *)

From S2P Require Import Prelude Casts.
From stdpp Require Import list strings.
Open Scope Z_scope.

(** * Strings to integers *)

(** The value of [digits[.digits]], the fraction only in legacy mode; [v] is the value of the
    digits before. *)
Fixpoint body_value (legacy : bool) (v : Z) (l : text) : option Z :=
  match l with
  | [] => Some v
  | c :: l =>
      if c =? 46 then if legacy && forallb is_ascii_digit l then Some v else None
      else if is_ascii_digit c then body_value legacy (10 * v + (c - 48)) l
      else None
  end.

Definition int_value (eval_mode : EvalMode) (s : text) : option Z :=
  match trim s with
  | [] => None
  | c :: l =>
      if (c =? 45) || (c =? 43) then
        if bool_decide (l = []) then None
        else v ← body_value (is_legacy eval_mode) 0 l; Some (if c =? 45 then - v else v)
      else body_value (is_legacy eval_mode) 0 (c :: l)
  end.

Lemma is_ascii_digit_range c : is_ascii_digit c = true -> 0 <= c - 48 <= 9.
Proof. unfold is_ascii_digit. lia. Qed.

Lemma body_value_ge legacy v l V : 0 <= v -> body_value legacy v l = Some V -> v <= V.
Proof.
  revert v. induction l as [|c l IH]; intros v Hv E; cbn in E; [simplify_eq; lia|].
  destruct (c =? 46); [destruct (legacy && _); simplify_eq; lia|].
  destruct (is_ascii_digit c) eqn:Ec; [|done]. apply is_ascii_digit_range in Ec. apply IH in E; lia.
Qed.

Section ParseProps.
Context (w : Z) (Hw : 8 <= w) (eval_mode : EvalMode) (len : nat).
Abbreviation M := (2 ^ (w - 1)).
Abbreviation stop := (Z.quot (- M) 10).
Abbreviation parse_chars := (parse_chars w eval_mode len stop).

Lemma checked_spec z : checked w z = if (- M <=? z) && (z <? M) then Some z else None.
Proof.
  unfold checked. case_bool_decide as Hz; unfold in_s in Hz.
  - by simp_tests.
  - destruct (Z.leb_spec (- M) z); [|done]. simp_tests. done.
Qed.

Lemma M_pos : 128 <= M.
Proof. change 128 with (2 ^ 7). apply Z.pow_le_mono_r; lia. Qed.

Lemma parse_frac st off l :
  ps_digits st = false -> parse_chars st (char_indices off l) = if forallb is_ascii_digit l then Some st else None.
Proof.
  intros Hd. revert off. induction l as [|c l IH]; intros off; [done|]. cbn [char_indices parse_chars Casts.parse_chars forallb].
  unfold parse_char. rewrite Hd. destruct (is_ascii_digit c); [|done]. cbn [mbind option_bind andb]. apply IH.
Qed.

(** The digits after the first character *)
Lemma parse_digit_spec st v c :
  ps_result st = - v -> 0 <= v <= M -> is_ascii_digit c = true ->
  parse_digit w stop st c
  = if 10 * v + (c - 48) <=? M then Some (MkParse (- (10 * v + (c - 48))) (ps_negative st) (ps_digits st)) else None.
Proof.
  intros Hr Hv Hc. pose proof M_pos. unfold parse_digit. rewrite Hc, Hr. apply is_ascii_digit_range in Hc.
  rewrite Z.quot_opp_l, Z.quot_div_nonneg by lia. pose proof (Z.div_mod M 10 ltac:(lia)). pose proof (Z.mod_pos_bound M 10 ltac:(lia)).
  destruct (Z.ltb_spec (- v) (- (M / 10))); [simp_tests; done|].
  rewrite swrap_small by (unfold in_s; lia). rewrite checked_spec.
  destruct (Z.leb_spec (10 * v + (c - 48)) M); simp_tests; cbn [mbind option_bind]; [|done]. simp_tests. by do 2 f_equal; lia.
Qed.

Definition outcome (st : ParseState) : Z * bool := (ps_result st, ps_negative st).

Lemma parse_tail st v off l :
  (0 < off)%nat -> ps_digits st = true -> ps_result st = - v -> 0 <= v <= M ->
  option_map outcome (parse_chars st (char_indices off l))
  = match body_value (is_legacy eval_mode) v l with
    | Some V => if V <=? M then Some (- V, ps_negative st) else None
    | None => None
    end.
Proof.
  revert st v off. induction l as [|c l IH]; intros st v off Ho Hd Hr Hv.
  { cbn. simp_tests. unfold outcome. by rewrite Hr. }
  cbn [char_indices Casts.parse_chars body_value]. unfold parse_char. rewrite Hd. rewrite (proj2 (Nat.eqb_neq off 0)) by lia. cbn [andb].
  destruct (Z.eqb_spec c 46) as [->|Hc].
  - destruct (is_legacy eval_mode); [|done]. cbn [mbind option_bind andb]. rewrite parse_frac by done.
    destruct (forallb _ _); [|done]. simp_tests. cbn. unfold outcome. cbn. by rewrite Hr.
  - destruct (is_ascii_digit c) eqn:Ec; [|unfold parse_digit; by rewrite Ec].
    rewrite (parse_digit_spec _ v c) by done. pose proof (is_ascii_digit_range c Ec). cbn [ps_negative ps_digits].
    destruct (Z.leb_spec (10 * v + (c - 48)) M).
    + cbn [mbind option_bind].
      by rewrite (IH (MkParse (- (10 * v + (c - 48))) (ps_negative st) true) (10 * v + (c - 48))) by (cbn; done || lia).
    + cbn [mbind option_bind option_map]. destruct (body_value _ _ l) as [V|] eqn:E; [|done]. apply body_value_ge in E; [|lia].
      simp_tests. done.
Qed.
End ParseProps.

Lemma len_utf8_pos c : (0 < len_utf8 c)%nat.
Proof. unfold len_utf8. repeat case_match; lia. Qed.

Lemma str_len_zero s : (str_len s =? 0)%nat = bool_decide (s = []).
Proof. destruct s as [|c s]; [done|]. pose proof (len_utf8_pos c). cbn. by rewrite (proj2 (Nat.eqb_neq _ _)) by lia. Qed.

(** A range check of the value, with the failure of the evaluation mode *)
Definition in_range_or_err (w : Z) (eval_mode : EvalMode) (type_name str : text) (v : option Z) : SparkResult (option Z) :=
  match v with
  | Some z => if bool_decide (in_s w z) then Ok (Some z) else none_or_err eval_mode type_name str
  | None => none_or_err eval_mode type_name str
  end.

(** The first character, which may be a sign *)
Lemma parse_first w eval_mode c l :
  8 <= w ->
  option_map outcome (parse_chars w eval_mode (str_len (c :: l)) (Z.quot (- 2 ^ (w - 1)) 10) (MkParse 0 false true) (char_indices 0 (c :: l)))
  = if (c =? 45) || (c =? 43) then
      if bool_decide (l = []) then None
      else match body_value (is_legacy eval_mode) 0 l with
           | Some V => if V <=? 2 ^ (w - 1) then Some (- V, c =? 45) else None
           | None => None
           end
    else match body_value (is_legacy eval_mode) 0 (c :: l) with
         | Some V => if V <=? 2 ^ (w - 1) then Some (- V, false) else None
         | None => None
         end.
Proof.
  intros Hw. pose proof (M_pos w Hw). pose proof (len_utf8_pos c). cbn [char_indices parse_chars].
  unfold parse_char at 1. cbn [ps_digits ps_result Nat.eqb]. rewrite Nat.add_0_l. cbn [andb].
  destruct ((c =? 45) || (c =? 43)) eqn:Es.
  - assert (len_utf8 c = 1%nat) as Hl by (unfold len_utf8; apply orb_prop in Es as [Es|Es]; apply Z.eqb_eq in Es; by subst).
    cbn [str_len foldr]. rewrite Hl. change (1 + foldr _ _ l)%nat with (1 + str_len l)%nat. rewrite Nat.add_0_l.
    replace (1 =? 1 + str_len l)%nat with (bool_decide (l = [])) by (rewrite <- str_len_zero; by destruct (str_len l)).
    case_bool_decide; [done|]. cbn [mbind option_bind]. rewrite (parse_tail w Hw eval_mode _ _ 0) by (cbn; done || lia). done.
  - cbn [body_value]. apply orb_false_elim in Es as [-> _]. destruct (Z.eqb_spec c 46) as [->|Hc].
    + destruct (is_legacy eval_mode); [|done]. cbn [mbind option_bind andb]. rewrite parse_frac by done.
      destruct (forallb _ l); [|done]. by simp_tests.
    + destruct (is_ascii_digit c) eqn:Ec; [|unfold parse_digit; by rewrite Ec]. pose proof (is_ascii_digit_range c Ec).
      rewrite (parse_digit_spec w Hw _ 0 c) by (cbn; done || lia). simp_tests. cbn [mbind option_bind ps_negative ps_digits].
      rewrite (parse_tail w Hw eval_mode _ _ (10 * 0 + (c - 48))) by (cbn; done || lia). done.
Qed.

(** The sign, after the loop *)
Definition signed_result (w : Z) (eval_mode : EvalMode) (type_name s : text) (o : option (Z * bool)) : SparkResult (option Z) :=
  match o with
  | Some (r, true) => Ok (Some r)
  | Some (r, false) =>
      match checked w (- r) with
      | Some neg => if neg <? 0 then none_or_err eval_mode type_name s else Ok (Some neg)
      | None => none_or_err eval_mode type_name s
      end
  | None => none_or_err eval_mode type_name s
  end.

Lemma signed_result_spec w eval_mode type_name s V (negative : bool) :
  8 <= w -> 0 <= V ->
  signed_result w eval_mode type_name s (if V <=? 2 ^ (w - 1) then Some (- V, negative) else None)
  = in_range_or_err w eval_mode type_name s (Some (if negative then - V else V)).
Proof.
  intros Hw HV. pose proof (M_pos w Hw). unfold in_range_or_err, signed_result. destruct (Z.leb_spec V (2 ^ (w - 1))).
  - destruct negative; [by rewrite bool_decide_true by (unfold in_s; lia)|]. rewrite Z.opp_involutive. unfold checked.
    case_bool_decide; [|done]. by simp_tests.
  - rewrite bool_decide_false; [done|]. unfold in_s. destruct negative; lia.
Qed.

Lemma do_cast_spec w eval_mode type_name s :
  8 <= w ->
  do_cast_string_to_int w s eval_mode type_name (- 2 ^ (w - 1)) = in_range_or_err w eval_mode type_name s (int_value eval_mode s).
Proof.
  intros Hw. unfold do_cast_string_to_int, int_value. rewrite str_len_zero. destruct (trim s) as [|c l]; [done|].
  rewrite bool_decide_false by done.
  transitivity (signed_result w eval_mode type_name s (option_map outcome (parse_chars w eval_mode (str_len (c :: l))
    (Z.quot (- 2 ^ (w - 1)) 10) (MkParse 0 false true) (char_indices 0 (c :: l))))).
  { destruct (parse_chars _ _ _ _ _ _) as [[r [] ?]|]; done. }
  rewrite parse_first by done. destruct ((c =? 45) || (c =? 43)).
  - case_bool_decide; [done|]. destruct (body_value _ 0 l) as [V|] eqn:E; [|done]. apply body_value_ge in E; [|lia].
    cbn [mbind option_bind]. by apply signed_result_spec.
  - destruct (body_value _ 0 (c :: l)) as [V|] eqn:E; [|done]. apply body_value_ge in E; [|lia]. by apply signed_result_spec.
Qed.

Lemma range_check_spec w eval_mode type_name s :
  8 <= w <= 32 ->
  cast_string_to_int_with_range_check s eval_mode type_name (- 2 ^ (w - 1)) (2 ^ (w - 1) - 1)
  = in_range_or_err w eval_mode type_name s (int_value eval_mode s).
Proof.
  intros Hw. unfold cast_string_to_int_with_range_check. change (- 2 ^ 31) with (- 2 ^ (32 - 1)). rewrite do_cast_spec by lia.
  unfold in_range_or_err, none_or_err. assert (2 ^ (w - 1) <= 2 ^ (32 - 1)) by (apply Z.pow_le_mono_r; lia).
  destruct (int_value eval_mode s) as [z|]; [|by destruct eval_mode].
  destruct (decide (in_s w z)) as [Hz|Hz].
  - rewrite !bool_decide_true by (unfold in_s in *; lia). cbn. unfold in_s in Hz. by simp_tests.
  - rewrite (bool_decide_false (in_s w z)) by done. case_bool_decide; [|by destruct eval_mode]. cbn.
    destruct (Z.leb_spec (- 2 ^ (w - 1)) z), (Z.leb_spec z (2 ^ (w - 1) - 1)); cbn [andb]; try by destruct eval_mode.
    exfalso. apply Hz. unfold in_s. lia.
Qed.

Lemma cast_string_spec to_type s eval_mode :
  cast_string_to to_type s eval_mode
  = in_range_or_err (int_width to_type) eval_mode (int_name to_type) s (int_value eval_mode s).
Proof.
  assert (forall w type_name, 0 < w -> (r ← in_range_or_err w eval_mode type_name s (int_value eval_mode s); Ok (option_map (swrap w) r))
    = in_range_or_err w eval_mode type_name s (int_value eval_mode s)) as Hcast.
  { intros w type_name Hw. unfold in_range_or_err, none_or_err. destruct (int_value eval_mode s) as [z|]; [|by destruct eval_mode].
    case_bool_decide; [|by destruct eval_mode]. cbn. by rewrite swrap_small. }
  destruct to_type; cbn [cast_string_to int_width].
  - rewrite <- Hcast by lia. unfold cast_string_to_i8. by rewrite (range_check_spec 8) by lia.
  - rewrite <- Hcast by lia. unfold cast_string_to_i16. by rewrite (range_check_spec 16) by lia.
  - apply (do_cast_spec 32); lia.
  - apply (do_cast_spec 64); lia.
Qed.

(** C15: The string to integer casts, which accumulate negative values and test for overflow
    before each digit, agree with the grammar in unbounded integers: the result is the value
    of the string if the string is a number ([int_value]) that fits in the type, and otherwise
    null, or an invalid-value error in ANSI mode; it never panics. *)
Theorem string_to_int_correct to_type s eval_mode :
  cast_string_to to_type s eval_mode
  = in_range_or_err (int_width to_type) eval_mode (int_name to_type) s (int_value eval_mode s).
Proof. apply cast_string_spec. Qed.

(** * Printing and parsing integers *)

Definition digits_value (v : Z) (l : text) : Z := foldl (fun v c => 10 * v + (c - 48)) v l.

Lemma body_value_digits legacy v l r :
  Forall (fun c => is_ascii_digit c = true) l -> body_value legacy v (l ++ r) = body_value legacy (digits_value v l) r.
Proof.
  intros Hl. revert v. induction Hl as [|c l Hc _ IH]; intros v; [done|]. cbn [app body_value]. rewrite Hc, IH.
  apply is_ascii_digit_range in Hc. by rewrite (proj2 (Z.eqb_neq c 46)) by lia.
Qed.

Lemma digits_of_spec fuel n :
  0 <= n < 10 ^ Z.of_nat fuel -> (0 < fuel)%nat ->
  Forall (fun c => is_ascii_digit c = true) (digits_of fuel n) /\ digits_value 0 (digits_of fuel n) = n.
Proof.
  revert n. induction fuel as [|fuel IH]; intros n Hn Hf; [lia|]. cbn [digits_of].
  assert (is_ascii_digit (48 + n mod 10) = true) as Hd by (unfold is_ascii_digit; pose proof (Z.mod_pos_bound n 10); lia).
  destruct (Z.ltb_spec n 10).
  - split; [by repeat constructor|]. cbn. rewrite Z.mod_small; lia.
  - destruct (IH (n / 10)) as [Hds Hv].
    + rewrite Nat2Z.inj_succ, Z.pow_succ_r in Hn by lia. split; [apply Z.div_pos; lia|apply Z.div_lt_upper_bound; lia].
    + destruct fuel; [cbn in Hn; lia|lia].
    + split; [apply Forall_app; by repeat constructor|]. unfold digits_value in *. rewrite foldl_app, Hv. cbn.
      pose proof (Z.div_mod n 10). lia.
Qed.

Lemma trim_start_id s : Forall (fun c => is_whitespace c = false) s -> trim_start s = s.
Proof. intros Hs. destruct Hs as [|c s Hc _]; [done|]. cbn. by rewrite Hc. Qed.

Lemma trim_id s : Forall (fun c => is_whitespace c = false) s -> trim s = s.
Proof.
  intros Hs. unfold trim. rewrite (trim_start_id s Hs), trim_start_id by (by rewrite reverse_Forall || by apply Forall_reverse).
  apply reverse_involutive.
Qed.

Lemma digit_not_whitespace c : is_ascii_digit c = true -> is_whitespace c = false.
Proof. unfold is_ascii_digit, is_whitespace. lia. Qed.

Lemma int_value_to_string eval_mode z : Z.abs z < 10 ^ 40 -> int_value eval_mode (to_string z) = Some z.
Proof.
  intros Hz. destruct (digits_of_spec 40 (Z.abs z)) as [Hd Hv]; [lia|lia|]. unfold int_value, to_string.
  assert (Forall (fun c => is_whitespace c = false) (digits_of 40 (Z.abs z))) as Hw by (by eapply Forall_impl; [|apply digit_not_whitespace]).
  rewrite trim_id by (destruct (z <? 0); [by constructor|done]).
  pose proof (body_value_digits (is_legacy eval_mode) 0 _ [] Hd) as Hb. rewrite app_nil_r, Hv in Hb. cbn [body_value] in Hb.
  destruct (digits_of 40 (Z.abs z)) as [|c l] eqn:El; [cbn in Hv; assert (z = 0) as -> by lia; done|].
  destruct (Z.ltb_spec z 0); cbn [app].
  - change ((45 =? 45) || (45 =? 43)) with true. cbv iota. rewrite bool_decide_false by done. rewrite Hb. cbn. f_equal. lia.
  - apply Forall_cons_1 in Hd as [Hc _]. apply is_ascii_digit_range in Hc.
    rewrite (proj2 (Z.eqb_neq c 45)), (proj2 (Z.eqb_neq c 43)) by lia. cbn [orb]. rewrite Hb. f_equal. lia.
Qed.

(** An integer of any of the four types, printed in decimal and cast back, is itself in
    every evaluation mode. *)
Lemma int_string_roundtrip to_type z eval_mode :
  in_s (int_width to_type) z -> cast_string_to to_type (to_string z) eval_mode = Ok (Some z).
Proof.
  intros Hz. rewrite cast_string_spec, int_value_to_string.
  - unfold in_range_or_err. by rewrite bool_decide_true.
  - assert (2 ^ (int_width to_type - 1) <= 2 ^ 63) by (apply Z.pow_le_mono_r; destruct to_type; cbn; lia).
    unfold in_s in Hz. lia.
Qed.

(** * Decimals to integers *)

Lemma pow10_spec scale : 0 <= scale <= 38 -> pow10 scale = 10 ^ scale /\ 1 <= 10 ^ scale.
Proof.
  intros Hs. unfold pow10. rewrite wrap_small by (unfold in_u; lia). split; [|apply (Z.pow_le_mono_r 10 0); lia].
  assert (10 ^ scale <= 10 ^ 38) by (apply Z.pow_le_mono_r; lia). assert (0 < 10 ^ scale) by (apply Z.pow_pos_nonneg; lia).
  apply swrap_small; [lia|]. unfold in_s. change (2 ^ (128 - 1)) with 170141183460469231731687303715884105728.
  change (10 ^ 38) with 100000000000000000000000000000000000000 in *. lia.
Qed.

(** Casting down in two steps is casting down in one. *)
Lemma swrap_narrow w v z : 0 <= w <= v -> swrap w (swrap v z) = swrap w z.
Proof.
  intros Hw. apply swrap_eq; [lia|]. unfold wrap. unfold swrap. rewrite (Z.mod_eq (z + 2 ^ (v - 1))) by lia.
  replace (2 ^ v) with (2 ^ (v - w) * 2 ^ w) at 1 by (rewrite <- Z.pow_add_r by lia; f_equal; lia).
  match goal with |- (?a + ?b - ?c * ?d * ?e - ?b) mod _ = _ => replace (a + b - c * d * e - b) with (a + - (c * e) * d) by lia end.
  apply Z_mod_plus_full.
Qed.

(** The decimals of an Arrow array have at most 38 digits. *)
Definition decimal_ok (scale value : Z) : Prop := 0 <= scale <= 38 /\ Z.abs value < 10 ^ 38.

Lemma split_decimal_spec scale value :
  decimal_ok scale value ->
  split_decimal scale value = Some (Z.quot value (10 ^ scale), Z.abs (Z.rem value (10 ^ scale))) /\
  swrap 128 (Z.abs (Z.quot value (10 ^ scale))) = Z.abs (Z.quot value (10 ^ scale)).
Proof.
  intros [Hs Hv]. destruct (pow10_spec scale Hs) as [Hp H1]. unfold split_decimal. rewrite Hp.
  assert (forall z, 0 <= z <= Z.abs value -> swrap 128 z = z) as Hz.
  { intros z Hz. apply swrap_small; [lia|]. unfold in_s. change (2 ^ (128 - 1)) with 170141183460469231731687303715884105728.
    change (10 ^ 38) with 100000000000000000000000000000000000000 in *. lia. }
  assert (Z.abs (Z.quot value (10 ^ scale)) <= Z.abs value) as Hq by (rewrite <- Z.quot_abs, (Z.abs_eq (10 ^ scale)) by lia; apply Z.quot_le_upper_bound; nia).
  assert (Z.abs (Z.rem value (10 ^ scale)) <= Z.abs value) as Hr.
  { rewrite <- Z.rem_abs, (Z.abs_eq (10 ^ scale)) by lia. rewrite Z.rem_mod_nonneg by lia. apply Z.mod_le; lia. }
  rewrite (proj2 (Z.eqb_neq _ _)) by lia. rewrite !Hz by lia. done.
Qed.

(** The integers a decimal may be cast to in ANSI mode: the 32 and 64-bit casts exclude the
    smallest value of the type. *)
Definition accepted (to_type : IntType) (q : Z) : Prop :=
  match to_type with
  | Int8 | Int16 => in_s (int_width to_type) q
  | Int32 | Int64 => Z.abs q <= 2 ^ (int_width to_type - 1) - 1
  end.

#[export] Instance accepted_decision to_type q : Decision (accepted to_type q).
Proof. destruct to_type; unfold accepted, in_s; apply _. Defined.

Lemma small_check w q (e : SparkResult (option Z)) :
  8 <= w < 32 ->
  (if 2 ^ 31 - 1 <? Z.abs q then e else match checked w (swrap 32 q) with Some v => Ok (Some v) | None => e end)
  = if bool_decide (in_s w q) then Ok (Some q) else e.
Proof.
  intros Hw. assert (2 ^ (w - 1) <= 2 ^ 30) by (apply Z.pow_le_mono_r; lia). destruct (Z.ltb_spec (2 ^ 31 - 1) (Z.abs q)).
  - rewrite bool_decide_false; [done|]. unfold in_s. lia.
  - rewrite swrap_small by (unfold in_s; lia). unfold checked. by case_bool_decide.
Qed.

Lemma wide_check w q (e : SparkResult (option Z)) :
  8 <= w ->
  (if 2 ^ (w - 1) - 1 <? Z.abs q then e else Ok (Some (swrap w q)))
  = if bool_decide (Z.abs q <= 2 ^ (w - 1) - 1) then Ok (Some q) else e.
Proof.
  intros Hw. destruct (Z.ltb_spec (2 ^ (w - 1) - 1) (Z.abs q)).
  - by rewrite bool_decide_false by lia.
  - rewrite bool_decide_true by lia. rewrite swrap_small; [done|lia|]. unfold in_s. lia.
Qed.

(** C38: Casting a decimal to an integer truncates towards zero.  In ANSI mode it succeeds exactly if the truncated value is in the range of a
    TINYINT or SMALLINT, or, for INT and BIGINT, if its absolute value is at most the largest value of the type, which leaves out the
    smallest; otherwise it reports an overflow of the truncated value, a point and the remainder as a number, without the zeros it
    starts with.  In legacy mode it wraps around, never failing (in the mode Try the dispatch leaves the cast to DataFusion).  It never panics on a well-formed decimal. *)
Theorem decimal_to_int_correct to_type eval_mode precision scale value :
  decimal_ok scale value ->
  let q := Z.quot value (10 ^ scale) in
  decimal_to_int to_type eval_mode precision scale value
  = match eval_mode with
    | Ansi =>
        if bool_decide (accepted to_type q) then Ok (Some q)
        else Err (CastOverFlow (decimal_text q (Z.abs (Z.rem value (10 ^ scale)))) (decimal_name precision scale) (int_name to_type))
    | _ => Ok (Some (swrap (int_width to_type) q))
    end.
Proof.
  intros Hok q. destruct (split_decimal_spec scale value Hok) as [Hs Ha]. fold q in Hs, Ha.
  destruct to_type; cbn [decimal_to_int]; unfold decimal_to_int16_down, decimal_to_int32_up; rewrite Hs, ?Ha; cbn [int_width];
    destruct eval_mode; rewrite ?swrap_narrow by lia; try done; unfold accepted; cbn [int_width];
    by (apply small_check; lia) || (apply wide_check; lia).
Qed.

Lemma decimal_to_int_correct_witness :
  decimal_ok 2 (-12899) /\ decimal_to_int Int8 Ansi 5 2 (-12899) = Ok (Some (-128)).
Proof. split; [done|]. exact (decimal_to_int_correct Int8 Ansi 5 2 (-12899) ltac:(done)). Defined.

(** In ANSI mode the smallest INT is not accepted from a decimal, although it is in range
    and the string cast and the legacy cast accept it. *)
Lemma decimal_min_rejected :
  in_s 32 (- 2 ^ 31) /\
  cast_decimal_to_integral [Some (- 2 ^ 31)] Ansi 10 0 Int32
  = Err (CastOverFlow (codes "-2147483648.0BD") (codes "DECIMAL(10,0)") (codes "INT")) /\
  cast_decimal_to_integral [Some (- 2 ^ 31)] Legacy 10 0 Int32 = Ok [Some (- 2 ^ 31)] /\
  cast_string_to_int Int32 [Some (codes "-2147483648")] Ansi = Ok [Some (- 2 ^ 31)].
Proof. by vm_compute. Qed.

(** 300.05 is reported as 300.5: the fraction is printed without its leading zeros. *)
Lemma decimal_fraction_misprinted :
  cast_decimal_to_integral [Some 30005] Ansi 5 2 Int8 = Err (CastOverFlow (codes "300.5BD") (codes "DECIMAL(5,2)") (codes "TINYINT")).
Proof. by vm_compute. Qed.

(** * Arrays *)

(** A cast of an array succeeds when every element does. *)
Lemma cast_elements_Ok {A B} (f : A -> SparkResult (option B)) array out :
  cast_elements f array = Ok out ->
  Forall2 (fun v r => match v with Some v => f v = Ok r | None => r = None end) array out.
Proof.
  revert out. induction array as [|v array IH]; intros out; unfold cast_elements; cbn; [by intros [= <-]|].
  fold (cast_elements f array). destruct (match v with Some v => f v | None => Ok None end) as [r| |] eqn:E; cbn; [|done..].
  destruct (cast_elements f array) as [rs| |]; cbn; [|done..]. intros [= <-]. constructor; [|by apply IH].
  destruct v; [done|]. by injection E.
Qed.

Definition typed (w : Z) (v : option Z) : Prop := match v with Some z => in_s w z | None => True end.

(** Same length, nulls kept, every value in the range of the type *)
Definition typed_as {A} (w : Z) (array : list (option A)) (out : list (option Z)) : Prop :=
  Forall2 (fun v r => typed w r /\ (v = None -> r = None)) array out.

Lemma cast_elements_typed {A} w (f : A -> SparkResult (option Z)) array out :
  (forall v r, f v = Ok r -> typed w r) -> cast_elements f array = Ok out -> typed_as w array out.
Proof.
  intros Hf E%cast_elements_Ok. eapply Forall2_impl; [exact E|]. intros [v|] r Hr; cbn in Hr; [|by subst].
  split; [by eapply Hf|done].
Qed.

Lemma in_range_typed w eval_mode type_name s v r : in_range_or_err w eval_mode type_name s v = Ok r -> typed w r.
Proof.
  unfold in_range_or_err, none_or_err. destruct v as [z|]; [case_bool_decide|]; destruct eval_mode; intros; simplify_eq; done.
Qed.

Lemma int_to_int_typed eval_mode from_type to_type v r : int_to_int eval_mode from_type to_type v = Ok r -> typed (int_width to_type) r.
Proof.
  unfold int_to_int, checked. assert (0 < int_width to_type) by (by destruct to_type).
  destruct eval_mode; [intros [= <-]; by apply swrap_range| |]; case_bool_decide; intros; simplify_eq; done.
Qed.

Lemma decimal_to_int_typed to_type eval_mode precision scale v r :
  decimal_to_int to_type eval_mode precision scale v = Ok r -> typed (int_width to_type) r.
Proof.
  assert (0 < int_width to_type) as Hw by (by destruct to_type).
  assert (forall x, typed (int_width to_type) (Some (swrap (int_width to_type) x))) as Ht by (intros; by apply swrap_range).
  destruct to_type; cbn [decimal_to_int]; unfold decimal_to_int16_down, decimal_to_int32_up, checked;
    destruct (split_decimal scale v) as [[q d]|]; try done; destruct eval_mode; repeat case_match; intros; simplify_eq; try apply Ht;
    by repeat case_bool_decide; simplify_eq.
Qed.

(** The casts to an integer type are type correct in every evaluation mode: whatever the
    input, if a cast succeeds its output has the length of the input, nulls where the input
    has nulls, and only values of the target type. *)
Lemma int_casts_typed to_type eval_mode :
  (forall array out, cast_string_to_int to_type array eval_mode = Ok out -> typed_as (int_width to_type) array out) /\
  (forall from_type array out, spark_cast_int_to_int array eval_mode from_type to_type = Ok out ->
    typed_as (int_width to_type) array out) /\
  (forall precision scale array out, cast_decimal_to_integral array eval_mode precision scale to_type = Ok out ->
    typed_as (int_width to_type) array out).
Proof.
  split_and!.
  - intros array out. apply cast_elements_typed. intros s r E. rewrite cast_string_spec in E. by eapply in_range_typed.
  - intros from_type array out E. assert (cast_elements (int_to_int eval_mode from_type to_type) array = Ok out) as E'
      by (by destruct from_type, to_type). revert E'. apply cast_elements_typed. apply int_to_int_typed.
  - intros precision scale array out. apply cast_elements_typed. apply decimal_to_int_typed.
Qed.
