(* ===== verification/DateProps.v ===== *)
(** The date parser of [Casts] against the grammar of Spark's date strings:
    [+-]yyyy[yyy][-m[m][-d[d][( |T)*]]], in surrounding white space. *)

From S2P Require Import Prelude Casts CastProps RowProps.
From stdpp Require Import list strings.
Open Scope Z_scope.

(** * The grammar *)

Fixpoint span_digits (l : list Z) : list Z * list Z :=
  match l with
  | [] => ([], [])
  | c :: l' => if is_ascii_digit c then let '(ds, r) := span_digits l' in (c :: ds, r) else ([], l)
  end.

(** A field of [lo] to [hi] digits and what follows it *)
Definition field (lo hi : nat) (l : list Z) : option (Z * list Z) :=
  let '(ds, r) := span_digits l in
  if (lo <=? length ds)%nat && (length ds <=? hi)%nat then Some (digits_value 0 ds, r) else None.

Definition ends_date (l : list Z) : bool := match l with [] => true | c :: _ => (c =? 32) || (c =? 84) end.

Definition day_fields (y m : Z) (l : list Z) : option (Z * Z * Z) :=
  '(d, l) ← field 1 2 l; if ends_date l then Some (y, m, d) else None.

Definition month_fields (y : Z) (l : list Z) : option (Z * Z * Z) :=
  '(m, l) ← field 1 2 l;
  match l with [] => Some (y, m, 1) | c :: l => if c =? 45 then day_fields y m l else None end.

Definition date_fields (l : list Z) : option (Z * Z * Z) :=
  '(y, l) ← field 4 7 l;
  match l with [] => Some (y, 1, 1) | c :: l => if c =? 45 then month_fields y l else None end.

Fixpoint strip_start (l : list Z) : list Z :=
  match l with [] => [] | b :: l' => if is_whitespace_or_iso_control b then strip_start l' else l end.
Definition strip_end (l : list Z) : list Z := reverse (strip_start (reverse l)).

Definition date_value (l : list Z) : option (Z * Z * Z) :=
  match strip_end (strip_start l) with
  | [] => None
  | b :: rest =>
      if (b =? 45) || (b =? 43) then '(y, m, d) ← date_fields rest; Some ((if b =? 45 then - y else y), m, d)
      else date_fields (b :: rest)
  end.

(** * Trimming *)

Lemma drop_trimmed_start l : drop (get_trimmed_start l) l = strip_start l.
Proof. induction l as [|b l IH]; [done|]. cbn. destruct (is_whitespace_or_iso_control b); [exact IH|done]. Qed.

Lemma trimmed_start_le l : (get_trimmed_start l <= length l)%nat.
Proof. induction l as [|b l IH]; [done|]. cbn. destruct (is_whitespace_or_iso_control b); lia. Qed.

Lemma strip_start_head l b l' : strip_start l = b :: l' -> is_whitespace_or_iso_control b = false.
Proof. induction l as [|c l IH]; [done|]. cbn. destruct (is_whitespace_or_iso_control c) eqn:E; [done|]. intros [= -> ->]. done. Qed.

Lemma strip_end_snoc l b : strip_end (l ++ [b]) = if is_whitespace_or_iso_control b then strip_end l else l ++ [b].
Proof.
  unfold strip_end. rewrite reverse_snoc. cbn [strip_start]. destruct (is_whitespace_or_iso_control b); [done|].
  by rewrite reverse_cons, reverse_involutive.
Qed.

Lemma strip_end_nonempty b u : is_whitespace_or_iso_control b = false -> strip_end (b :: u) <> [].
Proof.
  intros Hb. induction u as [|c u IH] using rev_ind.
  - pose proof (strip_end_snoc [] b) as E. by rewrite Hb in E; cbn [app] in E; rewrite E.
  - change (b :: u ++ [c]) with ((b :: u) ++ [c]). rewrite strip_end_snoc. by destruct (is_whitespace_or_iso_control c).
Qed.

(** From the first character that is kept, [k] more *)
Lemma trimmed_end_loop_spec bytes start b u k :
  drop start bytes = b :: u -> is_whitespace_or_iso_control b = false -> (k <= length u)%nat ->
  exists e, trimmed_end_loop start bytes (start + k) = Some e /\ (start <= e)%nat /\
    take (S e - start) (b :: u) = strip_end (take (S k) (b :: u)).
Proof.
  intros Hd Hb. induction k as [|k IH]; intros Hk.
  - exists start. rewrite Nat.add_0_r. split_and!; [|done|].
    + destruct start; [done|]. cbn [trimmed_end_loop]. by rewrite (proj2 (Nat.ltb_ge _ _)) by lia.
    + replace (S start - start)%nat with 1%nat by lia. pose proof (strip_end_snoc [] b) as E. by rewrite Hb in E.
  - rewrite Nat.add_succ_r. cbn [trimmed_end_loop]. rewrite (proj2 (Nat.ltb_lt _ _)) by lia.
    destruct (lookup_lt_is_Some_2 u k) as [c Hc]; [lia|].
    assert (bytes !! S (start + k) = Some c) as Hl.
    { rewrite <- Nat.add_succ_r, <- lookup_drop, Hd. exact Hc. }
    rewrite Hl. cbn [mbind option_bind].
    assert (take (S (S k)) (b :: u) = take (S k) (b :: u) ++ [c]) as Ht by (cbn; f_equal; by apply take_S_r).
    rewrite Ht, strip_end_snoc. destruct (is_whitespace_or_iso_control c).
    + destruct (IH ltac:(lia)) as (e & E & He & Hte). by exists e.
    + exists (S (start + k)). split_and!; [done|lia|]. replace (S (S (start + k)) - start)%nat with (S (S k)) by lia. exact Ht.
Qed.

(** The bytes the parser looks at *)
Lemma trimmed_bytes l :
  l <> [] ->
  exists e, get_trimmed_end (get_trimmed_start l) l = Some e /\
    ((get_trimmed_start l =? e)%nat = bool_decide (strip_start l = [])) /\
    take (e - get_trimmed_start l) (drop (get_trimmed_start l) l) = strip_end (strip_start l).
Proof.
  intros Hl. pose proof (drop_trimmed_start l) as Hd. pose proof (trimmed_start_le l). unfold get_trimmed_end.
  set (j := get_trimmed_start l) in *. assert (0 < length l)%nat by (destruct l; [done|cbn; lia]).
  assert (length (strip_start l) = length l - j)%nat as Hlen by (rewrite <- Hd; apply length_drop).
  destruct (strip_start l) as [|b u] eqn:Es.
  - exists (length l). cbn in Hlen. assert (j = length l) as Ej by lia. rewrite Ej, Nat.sub_diag, Nat.eqb_refl. split_and!; [|done|done].
    replace (trimmed_end_loop (length l) l (length l - 1)) with (Some (length l - 1)%nat).
    + cbn. f_equal. lia.
    + destruct (length l - 1)%nat eqn:E; cbn [trimmed_end_loop]; by rewrite (proj2 (Nat.ltb_ge _ _)) by lia.
  - cbn in Hlen. pose proof (strip_start_head l b u Es) as Hb.
    destruct (trimmed_end_loop_spec l j b u (length u)) as (e & E & He & Ht); [done|done|done|].
    replace (length l - 1)%nat with (j + length u)%nat by lia. rewrite E. cbn [mbind option_bind]. exists (S e).
    split_and!; [done| |]; [by rewrite (proj2 (Nat.eqb_neq _ _)) by lia|]. rewrite Hd, Ht. by rewrite (take_ge (b :: u)) by (cbn; lia).
Qed.

(** * The loop *)

Lemma span_digits_spec l ds r :
  span_digits l = (ds, r) ->
  l = ds ++ r /\ Forall (fun c => is_ascii_digit c = true) ds /\ match r with [] => True | c :: _ => is_ascii_digit c = false end.
Proof.
  revert ds r. induction l as [|c l IH]; intros ds r E; cbn in E; [by simplify_eq|]. destruct (is_ascii_digit c) eqn:Ec.
  - destruct (span_digits l) as [ds' r']. simplify_eq. destruct (IH _ _ eq_refl) as (-> & ? & ?). by repeat constructor.
  - simplify_eq. by repeat constructor.
Qed.

Lemma is_ascii_digit_not c : is_ascii_digit c = true -> c <> 32 /\ c <> 84 /\ c <> 45.
Proof. unfold is_ascii_digit. lia. Qed.

Lemma swrap_digit v d : swrap 32 (swrap 32 (swrap 32 v * 10) + d) = swrap 32 (10 * v + d).
Proof.
  rewrite swrap_add_l by lia. apply swrap_eq; [lia|]. unfold wrap. rewrite Zplus_mod, Zmult_mod.
  change (swrap 32 v mod 2 ^ 32) with (wrap 32 (swrap 32 v)). rewrite wrap_swrap by lia. unfold wrap.
  rewrite <- Zmult_mod, <- Zplus_mod. f_equal. lia.
Qed.

(** A run of digits accumulates their value, modulo 2^32. *)
Lemma date_loop_digits segs seg ds r v k :
  (seg < 3)%nat -> Forall (fun c => is_ascii_digit c = true) ds ->
  date_loop (ds ++ r) (MkDate segs seg (swrap 32 v) k)
  = date_loop r (MkDate segs seg (swrap 32 (digits_value v ds)) (k + length ds)).
Proof.
  intros Hs Hd. revert v k. induction Hd as [|c ds Hc _ IH]; intros v k; [by rewrite Nat.add_0_r|].
  destruct (is_ascii_digit_not c Hc) as (?&?&?). cbn [app date_loop current_segment current_segment_value current_segment_digits date_segments].
  rewrite (proj2 (Nat.ltb_lt seg 3)) by lia. rewrite (proj2 (Z.eqb_neq c 32)), (proj2 (Z.eqb_neq c 84)), (proj2 (Z.eqb_neq c 45)) by done.
  cbn [andb orb negb]. rewrite andb_false_r, Hc. cbn [negb]. rewrite swrap_digit, IH. cbn [length digits_value foldl]. do 2 f_equal. lia.
Qed.

Lemma digits_value_bound ds :
  Forall (fun c => is_ascii_digit c = true) ds -> forall v k, 0 <= v < 10 ^ Z.of_nat k ->
  0 <= digits_value v ds < 10 ^ Z.of_nat (k + length ds).
Proof.
  induction 1 as [|c ds Hc _ IH]; intros v k Hv; [by rewrite Nat.add_0_r|]. apply is_ascii_digit_range in Hc.
  replace (k + length (c :: ds))%nat with (S k + length ds)%nat by (cbn; lia). apply IH.
  rewrite Nat2Z.inj_succ, Z.pow_succ_r by lia. lia.
Qed.

(** Fields of at most seven digits do not wrap around. *)
Lemma field_value_small ds : Forall (fun c => is_ascii_digit c = true) ds -> (length ds <= 7)%nat ->
  0 <= digits_value 0 ds < 10 ^ 7.
Proof.
  intros Hd Hl. destruct (digits_value_bound ds Hd 0 0) as [? Hb]; [done|]. split; [done|]. eapply Z.lt_le_trans; [exact Hb|].
  apply Z.pow_le_mono_r; lia.
Qed.

Lemma date_loop_segment segs seg l ds r :
  (seg < 3)%nat -> span_digits l = (ds, r) ->
  let st := MkDate segs seg (swrap 32 (digits_value 0 ds)) (length ds) in
  date_loop l (MkDate segs seg 0 0)
  = match r with
    | [] => Some (st, [])
    | c :: r' =>
        if (c =? 32) || (c =? 84) then Some (st, r)
        else if (seg <? 2)%nat && (c =? 45) then
          if is_valid_digits seg (length ds) then date_loop r' (MkDate (<[seg := swrap 32 (digits_value 0 ds)]> segs) (S seg) 0 0) else None
        else None
    end.
Proof.
  intros Hs Hsp st. apply span_digits_spec in Hsp as (-> & Hd & Hr). change 0 with (swrap 32 0) at 1.
  rewrite date_loop_digits by done. destruct r as [|c r]; [done|]. cbn [date_loop current_segment current_segment_value current_segment_digits date_segments Nat.add].
  rewrite (proj2 (Nat.ltb_lt seg 3)) by lia. destruct ((c =? 32) || (c =? 84)); [done|]. cbn [andb negb].
  destruct ((seg <? 2)%nat && (c =? 45)); [by destruct (is_valid_digits seg (length ds))|]. by rewrite Hr.
Qed.

Lemma width_le lo hi n : (hi <= 7)%nat -> (lo <=? n)%nat && (n <=? hi)%nat = true -> (n <= 7)%nat.
Proof. intros Hh [_ Hn%Nat.leb_le]%andb_prop. lia. Qed.

Lemma valid_year n : is_valid_digits 0 n = (4 <=? n)%nat && (n <=? 7)%nat.
Proof. unfold is_valid_digits. cbn [Nat.eqb negb andb]. by rewrite orb_false_r. Qed.

Lemma valid_field seg n : (0 < seg)%nat -> is_valid_digits seg n = (1 <=? n)%nat && (n <=? 2)%nat.
Proof. intros Hs. unfold is_valid_digits. rewrite (proj2 (Nat.eqb_neq seg 0)) by lia. done. Qed.

Section Parser.
Context (from_ymd_opt : Z -> Z -> Z -> option Z).
(** The calendar of chrono covers about 262000 years either side of the epoch. *)
Context (Hymd : forall y m d n, from_ymd_opt y m d = Some n -> in_s 32 n).

(** What follows the loop *)
Definition after_loop (date_str : list Z) (eval_mode : EvalMode) (sign : Z) (o : option (DateState * list Z)) : SparkResult (option Z) :=
  match o with
  | None => return_result date_str eval_mode
  | Some (st, rest) =>
      if negb (is_valid_digits (current_segment st) (current_segment_digits st)) then return_result date_str eval_mode
      else if (current_segment st <? 2)%nat && negb (bool_decide (rest = [])) then return_result date_str eval_mode
      else
        match <[current_segment st := current_segment_value st]> (date_segments st) with
        | [y; m; d] =>
            match from_ymd_opt (swrap 32 (sign * y)) (wrap 32 m) (wrap 32 d) with
            | Some days => match checked 32 days with Some days => Ok (Some days) | None => Panic end
            | None => Ok None
            end
        | _ => Panic
        end
  end.

Lemma date_result y m d sign :
  sign = 1 \/ sign = -1 -> 0 <= y < 10 ^ 7 -> 0 <= m < 10 ^ 7 -> 0 <= d < 10 ^ 7 ->
  match from_ymd_opt (swrap 32 (sign * swrap 32 y)) (wrap 32 (swrap 32 m)) (wrap 32 (swrap 32 d)) with
  | Some days => match checked 32 days with Some days => Ok (Some days) | None => Panic end
  | None => Ok None
  end =@{SparkResult (option Z)} Ok (from_ymd_opt (sign * y) m d).
Proof.
  intros Hs Hy Hm Hd. change (10 ^ 7) with 10000000 in *.
  rewrite (swrap_small 32 y), (swrap_small 32 m), (swrap_small 32 d) by (unfold in_s; lia).
  rewrite (swrap_small 32 (sign * y)) by (unfold in_s; lia). rewrite !wrap_small by (unfold in_u; lia).
  destruct (from_ymd_opt (sign * y) m d) as [n|] eqn:E; [|done]. unfold checked. by rewrite bool_decide_true by (by eapply Hymd).
Qed.

Context (date_str : list Z) (eval_mode : EvalMode) (sign : Z) (Hsign : sign = 1 \/ sign = -1).

(** The answer for the fields of a string *)
Definition answer (o : option (Z * Z * Z)) : SparkResult (option Z) :=
  match o with Some (y, m, d) => Ok (from_ymd_opt (sign * y) m d) | None => return_result date_str eval_mode end.

Abbreviation after := (after_loop date_str eval_mode sign).

Lemma day_spec y m l :
  0 <= y < 10 ^ 7 -> 0 <= m < 10 ^ 7 ->
  after (date_loop l (MkDate [swrap 32 y; swrap 32 m; 1] 2 0 0)) = answer (day_fields y m l).
Proof.
  intros Hy Hm. unfold day_fields, field. destruct (span_digits l) as [ds r] eqn:E. pose proof (span_digits_spec _ _ _ E) as (_ & Hd & _).
  rewrite (date_loop_segment _ 2 l ds r) by (done || lia). pose proof (valid_field 2 (length ds) ltac:(lia)) as Hv.
  destruct r as [|c r].
  - cbn [after_loop current_segment current_segment_digits]. rewrite Hv. destruct ((1 <=? length ds)%nat && (length ds <=? 2)%nat) eqn:El; [|done].
    cbn. apply date_result; [done..|]. apply field_value_small; [done|]. by eapply (width_le 1 2); [lia|].
  - change (2 <? 2)%nat with false. cbn [andb]. destruct ((c =? 32) || (c =? 84)) eqn:Ec.
    + cbn [after_loop current_segment current_segment_digits]. rewrite Hv. destruct ((1 <=? length ds)%nat && (length ds <=? 2)%nat) eqn:El; [|done].
      change (2 <? 2)%nat with false. cbn [negb andb]. cbn [mbind option_bind ends_date]. rewrite Ec. cbn. apply date_result; [done..|]. apply field_value_small; [done|]. by eapply (width_le 1 2); [lia|].
    + destruct ((1 <=? length ds)%nat && (length ds <=? 2)%nat); [|done]. cbn [mbind option_bind ends_date]. by rewrite Ec.
Qed.

Lemma month_spec y l :
  0 <= y < 10 ^ 7 ->
  after (date_loop l (MkDate [swrap 32 y; 1; 1] 1 0 0)) = answer (month_fields y l).
Proof.
  intros Hy. unfold month_fields, field. destruct (span_digits l) as [ds r] eqn:E. pose proof (span_digits_spec _ _ _ E) as (_ & Hd & _).
  rewrite (date_loop_segment _ 1 l ds r) by (done || lia). pose proof (valid_field 1 (length ds) ltac:(lia)) as Hv. rewrite Hv.
  destruct ((1 <=? length ds)%nat && (length ds <=? 2)%nat) eqn:El.
  - pose proof (field_value_small ds Hd (width_le 1 2 _ ltac:(lia) El)) as Hm. destruct r as [|c r].
    + cbn [after_loop current_segment current_segment_digits]. rewrite Hv. cbn. by apply (date_result y _ 1).
    + cbn [mbind option_bind]. destruct ((c =? 32) || (c =? 84)) eqn:Ec.
      * cbn [after_loop current_segment current_segment_digits]. rewrite Hv. rewrite (proj2 (Z.eqb_neq c 45)) by lia. done.
      * change (1 <? 2)%nat with true. cbn [andb]. destruct (c =? 45); [|done]. cbn [list_insert insert]. by apply day_spec.
  - destruct r as [|c r]; [cbn [after_loop current_segment current_segment_digits]; by rewrite Hv|].
    destruct ((c =? 32) || (c =? 84)); [cbn [after_loop current_segment current_segment_digits]; by rewrite Hv|].
    by destruct ((1 <? 2)%nat && (c =? 45)).
Qed.

Lemma year_spec l : after (date_loop l (MkDate [1; 1; 1] 0 0 0)) = answer (date_fields l).
Proof.
  unfold date_fields, field. destruct (span_digits l) as [ds r] eqn:E. pose proof (span_digits_spec _ _ _ E) as (_ & Hd & _).
  rewrite (date_loop_segment _ 0 l ds r) by (done || lia). pose proof (valid_year (length ds)) as Hv. rewrite Hv.
  destruct ((4 <=? length ds)%nat && (length ds <=? 7)%nat) eqn:El.
  - pose proof (field_value_small ds Hd (width_le 4 7 _ ltac:(lia) El)) as Hm. destruct r as [|c r].
    + cbn [after_loop current_segment current_segment_digits]. rewrite Hv. cbn. by apply (date_result _ 1 1).
    + cbn [mbind option_bind]. destruct ((c =? 32) || (c =? 84)) eqn:Ec.
      * cbn [after_loop current_segment current_segment_digits]. rewrite Hv. rewrite (proj2 (Z.eqb_neq c 45)) by lia. done.
      * change (0 <? 2)%nat with true. cbn [andb]. destruct (c =? 45); [|done]. cbn [list_insert insert]. by apply month_spec.
  - destruct r as [|c r]; [cbn [after_loop current_segment current_segment_digits]; by rewrite Hv|].
    destruct ((c =? 32) || (c =? 84)); [cbn [after_loop current_segment current_segment_digits]; by rewrite Hv|].
    by destruct ((0 <? 2)%nat && (c =? 45)).
Qed.
End Parser.

(** C16: The date parser, a loop over bytes with wrapping arithmetic, accepts exactly the
    strings of the grammar [date_value].  A string outside the grammar is null, or an error in
    ANSI mode; a string of the grammar that names no day of the calendar, or none chrono has,
    is null in every mode, ANSI included. *)
Theorem date_parser_correct (from_ymd_opt : Z -> Z -> Z -> option Z) date_str eval_mode :
  (forall y m d n, from_ymd_opt y m d = Some n -> in_s 32 n) ->
  date_parser from_ymd_opt date_str eval_mode
  = match date_value date_str with
    | Some (y, m, d) => Ok (from_ymd_opt y m d)
    | None => return_result date_str eval_mode
    end.
Proof.
  intros Hymd. unfold date_parser, date_value. destruct (decide (date_str = [])) as [->|Hne]; [done|].
  rewrite (proj2 (Nat.eqb_neq _ 0)) by (destruct date_str; cbn; [done|lia]).
  destruct (trimmed_bytes date_str Hne) as (e & -> & -> & ->). case_bool_decide as Hs; [by rewrite Hs|].
  destruct (strip_start date_str) as [|b0 u] eqn:Es; [done|]. pose proof (strip_start_head _ _ _ Es) as Hb0.
  destruct (strip_end (b0 :: u)) as [|b rest] eqn:Ee.
  { by destruct (strip_end_nonempty b0 u). }
  assert (forall sign l, sign = 1 \/ sign = -1 -> date_body from_ymd_opt date_str eval_mode sign l
    = answer from_ymd_opt date_str eval_mode sign (date_fields l)) as Hbody by (intros; by apply year_spec).
  destruct ((b =? 45) || (b =? 43)).
  - rewrite Hbody by (destruct (b =? 45); auto). destruct (date_fields rest) as [[[y m] d]|]; [|done]. cbn. do 2 f_equal. destruct (b =? 45); lia.
  - rewrite Hbody by auto. destruct (date_fields (b :: rest)) as [[[y m] d]|]; [|done]. cbn [answer]. by rewrite Z.mul_1_l.
Qed.

(** A calendar for the example *)
Definition month_days (y m : Z) : Z :=
  if m =? 2 then if (y mod 4 =? 0) && (negb (y mod 100 =? 0) || (y mod 400 =? 0)) then 29 else 28
  else if (m =? 4) || (m =? 6) || (m =? 9) || (m =? 11) then 30 else 31.
Definition civil_day (y m d : Z) : option Z :=
  if (-262143 <=? y) && (y <=? 262142) && (1 <=? m) && (m <=? 12) && (1 <=? d) && (d <=? month_days y m) then
    let y := if m <=? 2 then y - 1 else y in
    checked 32 (365 * y + y / 4 - y / 100 + y / 400 + (153 * ((m + 9) mod 12) + 2) / 5 + d - 1 - 719468)
  else None.

Lemma civil_day_i32 y m d n : civil_day y m d = Some n -> in_s 32 n.
Proof. unfold civil_day. destruct (_ && _); [|done]. unfold checked. case_bool_decide; [|done]. by intros [= <-]. Qed.

Lemma date_parser_correct_witness :
  date_parser civil_day (codes " 2020-1-1T12:00 ") Ansi = Ok (Some 18262) /\
  date_parser civil_day (codes "2023-02-30") Ansi = Ok None.
Proof.
  rewrite !(date_parser_correct civil_day _ Ansi civil_day_i32). by vm_compute.
Defined.
