(* ===== verification/Calendar.v ===== *)
(** The proleptic Gregorian calendar: day numbers, dates and times of day, the units [trunc] and [date_trunc] know, and
    the latest start of a unit, which is the reference for the truncations of Temporal.v. *)

From S2P Require Import Prelude.
From Stdlib Require Import ZifyNat.
From stdpp Require Import list.
Open Scope Z_scope.
Ltac Zify.zify_post_hook ::= Z.div_mod_to_equations.

(** * Dates *)

Definition is_leap (y : Z) : bool := (y mod 4 =? 0) && (negb (y mod 100 =? 0) || (y mod 400 =? 0)).

(** Days before January 1st of year [y], counted from January 1st of year 1 *)
Definition days_before_year (y : Z) : Z := let p := y - 1 in 365 * p + p / 4 - p / 100 + p / 400.

Definition month_lengths (y : Z) : list Z := [31; if is_leap y then 29 else 28; 31; 30; 31; 30; 31; 31; 30; 31; 30; 31].
Definition month_length (y m : Z) : Z := default 0 (month_lengths y !! Z.to_nat (m - 1)).
Definition days_before_month (y m : Z) : Z :=
  foldr Z.add 0 (take (Z.to_nat (m - 1)) (month_lengths y)).

(** The number of a day: January 1st of year 1 is day 1. *)
Definition day_number (y m d : Z) : Z := days_before_year y + days_before_month y m + d.

Definition date_ok (y m d : Z) : Prop := 1 <= m <= 12 /\ 1 <= d <= month_length y m.

(** The date of a day: the year is estimated from the mean length of a year and then corrected. *)
Definition year_of (n : Z) : Z :=
  let y := 400 * (n - 1) / 146097 in
  if n <=? days_before_year (y + 1) then y else if n <=? days_before_year (y + 2) then y + 1 else y + 2.
Fixpoint month_of (m : Z) (lengths : list Z) (d : Z) : Z * Z :=
  match lengths with
  | l :: lengths => if d <=? l then (m, d) else month_of (m + 1) lengths (d - l)
  | [] => (m, d)
  end.
Definition date_of (n : Z) : Z * Z * Z :=
  let y := year_of n in let '(m, d) := month_of 1 (month_lengths y) (n - days_before_year y) in (y, m, d).

Definition year_length (y : Z) : Z := if is_leap y then 366 else 365.

Lemma div_step y k : 0 < k -> y / k = (y - 1) / k + (if y mod k =? 0 then 1 else 0).
Proof.
  intros Hk. pose proof (Z.div_mod y k ltac:(lia)). pose proof (Z.mod_pos_bound y k Hk). destruct (Z.eqb_spec (y mod k) 0).
  - rewrite <- (Z.div_unique_pos (y - 1) k (y / k - 1) (k - 1)); lia.
  - rewrite <- (Z.div_unique_pos (y - 1) k (y / k) (y mod k - 1)); lia.
Qed.

Lemma days_before_next_year y : days_before_year (y + 1) = days_before_year y + year_length y.
Proof.
  unfold days_before_year, year_length, is_leap. replace (y + 1 - 1) with y by lia.
  rewrite (div_step y 4), (div_step y 100), (div_step y 400) by lia.
  assert (y mod 100 = 0 -> y mod 4 = 0) by lia. assert (y mod 400 = 0 -> y mod 100 = 0) by lia.
  destruct (Z.eqb_spec (y mod 4) 0), (Z.eqb_spec (y mod 100) 0), (Z.eqb_spec (y mod 400) 0); cbn; lia.
Qed.

Lemma days_before_year_le y y' : y <= y' -> days_before_year y <= days_before_year y'.
Proof. unfold days_before_year. lia. Qed.

Lemma days_before_year_lt y y' : y < y' -> days_before_year y + year_length y <= days_before_year y'.
Proof. intros. rewrite <- days_before_next_year. apply days_before_year_le. lia. Qed.

Lemma year_estimate n e : e = 400 * (n - 1) / 146097 -> days_before_year e < n <= days_before_year (e + 3).
Proof.
  intros ->. pose proof (Z.div_mod (400 * (n - 1)) 146097 ltac:(lia)). pose proof (Z.mod_pos_bound (400 * (n - 1)) 146097 ltac:(lia)).
  set (e := 400 * (n - 1) / 146097) in *. clearbody e. unfold days_before_year. lia.
Qed.

Lemma year_of_spec n y : days_before_year y < n <= days_before_year y + year_length y -> year_of n = y.
Proof.
  rewrite <- days_before_next_year. intros [Hlo Hhi]. unfold year_of. set (e := 400 * (n - 1) / 146097).
  destruct (year_estimate n e eq_refl) as [Hl Hr].
  assert (He : e <= y <= e + 2).
  { pose proof (days_before_year_le (y + 1) e). pose proof (days_before_year_le (e + 3) y). lia. }
  destruct (Z.leb_spec n (days_before_year (e + 1))), (Z.leb_spec n (days_before_year (e + 2))).
  all: try pose proof (days_before_year_le (y + 1) (e + 1)); try pose proof (days_before_year_le (y + 1) (e + 2)).
  all: try pose proof (days_before_year_le (e + 1) y); try pose proof (days_before_year_le (e + 2) y).
  all: lia.
Qed.

Lemma year_of_bounds n : days_before_year (year_of n) < n <= days_before_year (year_of n) + year_length (year_of n).
Proof.
  rewrite <- days_before_next_year. unfold year_of. set (e := 400 * (n - 1) / 146097).
  destruct (year_estimate n e eq_refl).
  destruct (Z.leb_spec n (days_before_year (e + 1))); [done|]. destruct (Z.leb_spec n (days_before_year (e + 2))).
  - by replace (e + 1 + 1) with (e + 2) by lia.
  - by replace (e + 2 + 1) with (e + 3) by lia.
Qed.

(** * Months *)

Lemma month_cases m : 1 <= m <= 12 -> m = 1 \/ m = 2 \/ m = 3 \/ m = 4 \/ m = 5 \/ m = 6 \/ m = 7 \/ m = 8 \/ m = 9 \/ m = 10 \/ m = 11 \/ m = 12.
Proof. lia. Qed.

(** Case analysis on a month and on leap years, computing lengths *)
Ltac by_month m H := destruct (month_cases m H) as [->|[->|[->|[->|[->|[->|[->|[->|[->|[->|[->| ->]]]]]]]]]]].

Lemma days_before_next_month y m : 1 <= m <= 12 -> days_before_month y (m + 1) = days_before_month y m + month_length y m.
Proof. intros H. unfold days_before_month, month_length, month_lengths. by_month m H; destruct (is_leap y); done. Qed.

Lemma month_length_pos y m : 1 <= m <= 12 -> 28 <= month_length y m <= 31.
Proof. intros H. unfold month_length, month_lengths. by_month m H; destruct (is_leap y); by (split; vm_compute). Qed.

Lemma days_before_month_13 y : days_before_month y 13 = year_length y.
Proof. unfold days_before_month, month_lengths, year_length. by destruct (is_leap y). Qed.

Lemma days_before_month_1 y : days_before_month y 1 = 0.
Proof. done. Qed.

Lemma days_before_month_lt y m m' : 1 <= m -> m < m' <= 13 -> days_before_month y m + month_length y m <= days_before_month y m'.
Proof.
  intros Hm [Hlt Hle]. rewrite <- days_before_next_month by lia. remember (Z.to_nat (m' - m - 1)) as n eqn:Hn.
  revert m' Hlt Hle Hn. induction n as [|n IH]; intros m' Hlt Hle Hn; [by replace m' with (m + 1) by lia|].
  specialize (IH (m' - 1) ltac:(lia) ltac:(lia) ltac:(lia)). pose proof (days_before_next_month y (m' - 1) ltac:(lia)) as E.
  pose proof (month_length_pos y (m' - 1) ltac:(lia)). replace (m' - 1 + 1) with m' in E by lia. lia.
Qed.

(** A day of a month is before every day of a later month. *)
Lemma day_number_lt y m d y' m' d' :
  date_ok y m d -> date_ok y' m' d' -> 12 * y + m < 12 * y' + m' -> day_number y m d < day_number y' m' d'.
Proof.
  intros [Hm Hd] [Hm' Hd'] Hlt. unfold day_number. destruct (decide (y = y')) as [->|].
  - pose proof (days_before_month_lt y' m m' ltac:(lia) ltac:(lia)). lia.
  - pose proof (days_before_year_lt y y' ltac:(lia)). pose proof (days_before_month_lt y m 13 ltac:(lia) ltac:(lia)) as H13.
    rewrite days_before_month_13 in H13. assert (0 <= days_before_month y' m'); [|lia].
    destruct (decide (m' = 1)) as [->|]; [done|]. pose proof (days_before_month_lt y' 1 m' ltac:(lia) ltac:(lia)) as H1.
    pose proof (month_length_pos y' 1 ltac:(lia)). rewrite days_before_month_1 in H1. lia.
Qed.

Lemma month_of_loop ls m d : 1 <= d <= foldr Z.add 0 ls ->
  exists k l d', month_of m ls d = (m + Z.of_nat k, d') /\ ls !! k = Some l /\ 1 <= d' <= l /\ foldr Z.add 0 (take k ls) + d' = d.
Proof.
  revert m d. induction ls as [|l ls IH]; intros m d Hd; cbn in *; [lia|]. destruct (Z.leb_spec d l).
  - exists O, l, d. rewrite Z.add_0_r. cbn. split_and!; done || lia.
  - destruct (IH (m + 1) (d - l) ltac:(lia)) as (k & l' & d' & -> & Hk & Hd' & Hs). exists (S k), l', d'. cbn.
    split_and!; done || lia || (f_equal; lia).
Qed.

Lemma month_of_spec y d : 1 <= d <= year_length y ->
  let '(m, d') := month_of 1 (month_lengths y) d in date_ok y m d' /\ days_before_month y m + d' = d.
Proof.
  rewrite <- days_before_month_13. intros Hd. destruct (month_of_loop (month_lengths y) 1 d Hd) as (k & l & d' & -> & Hk & Hd' & Hs).
  pose proof (lookup_lt_Some _ _ _ Hk) as Hlt. cbn [length month_lengths] in Hlt. unfold date_ok, month_length, days_before_month.
  replace (Z.to_nat (1 + Z.of_nat k - 1)) with k by lia. rewrite Hk. cbn. split_and!; done || lia.
Qed.

Lemma day_number_inj y m d y' m' d' : date_ok y m d -> date_ok y' m' d' -> day_number y m d = day_number y' m' d' -> (y, m, d) = (y', m', d').
Proof.
  intros H H' E. pose proof (day_number_lt _ _ _ _ _ _ H H'). pose proof (day_number_lt _ _ _ _ _ _ H' H).
  destruct H, H'. assert (y = y') as -> by lia. assert (m = m') as -> by lia. unfold day_number in E. f_equal. lia.
Qed.

Lemma date_of_spec n : let '(y, m, d) := date_of n in date_ok y m d /\ day_number y m d = n.
Proof.
  unfold date_of. pose proof (year_of_bounds n) as Hy. set (y := year_of n) in *. clearbody y.
  pose proof (month_of_spec y (n - days_before_year y) ltac:(lia)) as Hm.
  destruct (month_of 1 (month_lengths y) (n - days_before_year y)) as [m d]. destruct Hm as [Hok Hd]. split; [done|]. unfold day_number. lia.
Qed.

Lemma date_of_day_number y m d : date_ok y m d -> date_of (day_number y m d) = (y, m, d).
Proof.
  intros H. pose proof (date_of_spec (day_number y m d)) as Hs. destruct (date_of (day_number y m d)) as [[y' m'] d'].
  destruct Hs. by apply day_number_inj.
Qed.

(** * Dates with a time of day *)

Record Civil := MkCivil { c_year : Z; c_month : Z; c_day : Z; c_hour : Z; c_minute : Z; c_second : Z; c_nano : Z }.

Definition NANOS : Z := 10 ^ 9.
Definition DAY_NANOS : Z := 86400 * NANOS.
(** The day number of 1970-01-01 *)
Definition EPOCH : Z := 719163.

Definition time_nanos (c : Civil) : Z := (3600 * c_hour c + 60 * c_minute c + c_second c) * NANOS + c_nano c.
(** Nanoseconds since 1970-01-01T00:00:00 on the clock that shows [c] *)
Definition local_nanos (c : Civil) : Z := (day_number (c_year c) (c_month c) (c_day c) - EPOCH) * DAY_NANOS + time_nanos c.

Definition civil_ok (c : Civil) : Prop :=
  date_ok (c_year c) (c_month c) (c_day c) /\ 0 <= c_hour c < 24 /\ 0 <= c_minute c < 60 /\ 0 <= c_second c < 60 /\ 0 <= c_nano c < NANOS.

Definition civil_of (n : Z) : Civil :=
  let '(y, m, d) := date_of (n / DAY_NANOS + EPOCH) in
  let t := n mod DAY_NANOS in
  MkCivil y m d (t / (3600 * NANOS)) (t / (60 * NANOS) mod 60) (t / NANOS mod 60) (t mod NANOS).

Lemma time_nanos_bounds c : civil_ok c -> 0 <= time_nanos c < DAY_NANOS.
Proof. unfold civil_ok, time_nanos, DAY_NANOS, NANOS. lia. Qed.

Lemma civil_of_ok n : civil_ok (civil_of n).
Proof.
  unfold civil_of, civil_ok. pose proof (date_of_spec (n / DAY_NANOS + EPOCH)) as Hd.
  destruct (date_of (n / DAY_NANOS + EPOCH)) as [[y m] d]. destruct Hd as [Hok _]. cbn.
  split; [done|]. unfold DAY_NANOS, NANOS. lia.
Qed.

Lemma local_civil_of n : local_nanos (civil_of n) = n.
Proof.
  unfold civil_of, local_nanos, time_nanos. pose proof (date_of_spec (n / DAY_NANOS + EPOCH)) as Hd.
  destruct (date_of (n / DAY_NANOS + EPOCH)) as [[y m] d]. destruct Hd as [_ Hn]. cbn. rewrite Hn.
  unfold DAY_NANOS, NANOS. lia.
Qed.

Lemma civil_of_local c : civil_ok c -> civil_of (local_nanos c) = c.
Proof.
  intros Hok. pose proof (time_nanos_bounds c Hok) as Ht. destruct Hok as (Hd & Hh & Hm & Hs & Hn). unfold civil_of, local_nanos.
  rewrite Z.div_add_l, (Z.div_small (time_nanos c)), Z.add_0_r by (done || lia).
  replace (day_number (c_year c) (c_month c) (c_day c) - EPOCH + EPOCH) with (day_number (c_year c) (c_month c) (c_day c)) by lia.
  rewrite (date_of_day_number _ _ _ Hd), Z.add_comm, Z.mod_add, Z.mod_small by (done || lia).
  destruct c; cbn in *. unfold time_nanos, NANOS in *. cbn. f_equal; lia.
Qed.

(** * Units *)

Inductive TruncUnit := Year | Quarter | Month | Week | Day | Hour | Minute | Second | Millisecond | Microsecond.

(** Days since Monday *)
Definition weekday_of (c : Civil) : Z := (day_number (c_year c) (c_month c) (c_day c) - 1) mod 7.

(** The start of the unit [c] lies in *)
Definition trunc_civil (u : TruncUnit) (c : Civil) : Civil :=
  let '(MkCivil y m d h mi s n) := c in
  match u with
  | Year => MkCivil y 1 1 0 0 0 0
  | Quarter => MkCivil y (1 + 3 * ((m - 1) / 3)) 1 0 0 0 0
  | Month => MkCivil y m 1 0 0 0 0
  | Week => civil_of ((day_number y m d - weekday_of c - EPOCH) * DAY_NANOS)
  | Day => MkCivil y m d 0 0 0 0
  | Hour => MkCivil y m d h 0 0 0
  | Minute => MkCivil y m d h mi 0 0
  | Second => MkCivil y m d h mi s 0
  | Millisecond => MkCivil y m d h mi s (10 ^ 6 * (n / 10 ^ 6))
  | Microsecond => MkCivil y m d h mi s (10 ^ 3 * (n / 10 ^ 3))
  end.

(** The same on the clock: the latest start of the unit that is not after [n] (lemma [trunc_local_latest]) *)
Definition trunc_local (u : TruncUnit) (n : Z) : Z := local_nanos (trunc_civil u (civil_of n)).

Definition midnight (c : Civil) : Prop := time_nanos c = 0.
Definition unit_start (u : TruncUnit) (c : Civil) : Prop :=
  match u with
  | Year => c_month c = 1 /\ c_day c = 1 /\ midnight c
  | Quarter => c_month c mod 3 = 1 /\ c_day c = 1 /\ midnight c
  | Month => c_day c = 1 /\ midnight c
  | Week => weekday_of c = 0 /\ midnight c
  | Day => midnight c
  | Hour => c_minute c = 0 /\ c_second c = 0 /\ c_nano c = 0
  | Minute => c_second c = 0 /\ c_nano c = 0
  | Second => c_nano c = 0
  | Millisecond => c_nano c mod 10 ^ 6 = 0
  | Microsecond => c_nano c mod 10 ^ 3 = 0
  end.
Definition latest_start (u : TruncUnit) (n m : Z) : Prop :=
  unit_start u (civil_of m) /\ m <= n /\ forall k, unit_start u (civil_of k) -> k <= n -> k <= m.

Lemma date_ok_first y m : 1 <= m <= 12 -> date_ok y m 1.
Proof. intros H. pose proof (month_length_pos y m H). unfold date_ok. lia. Qed.

Lemma trunc_civil_ok u c : civil_ok c -> civil_ok (trunc_civil u c).
Proof.
  destruct c as [y m d h mi s n]. intros (Hd & Ht). pose proof Hd as [Hm _]. cbn in *.
  destruct u; cbn; try apply civil_of_ok; unfold civil_ok; cbn; unfold NANOS in *;
    (split; [apply date_ok_first || done; lia|lia]).
Qed.

(** Two clocks: the earlier reading has no later day. *)
Lemma day_number_le c c' : civil_ok c -> civil_ok c' -> local_nanos c <= local_nanos c' ->
  day_number (c_year c) (c_month c) (c_day c) <= day_number (c_year c') (c_month c') (c_day c').
Proof.
  intros H H' Hle. pose proof (time_nanos_bounds c H). pose proof (time_nanos_bounds c' H').
  unfold local_nanos, DAY_NANOS, NANOS in *. lia.
Qed.

Lemma month_index_le c c' : civil_ok c -> civil_ok c' -> local_nanos c <= local_nanos c' ->
  12 * c_year c + c_month c <= 12 * c_year c' + c_month c'.
Proof.
  intros H H' Hle. pose proof (day_number_le c c' H H' Hle). destruct H as [H _], H' as [H' _].
  pose proof (day_number_lt _ _ _ _ _ _ H' H). lia.
Qed.

(** Month starts are ordered as their months. *)
Lemma month_start_le c c' : civil_ok c -> civil_ok c' -> c_day c = 1 -> c_day c' = 1 -> midnight c -> midnight c' ->
  12 * c_year c + c_month c <= 12 * c_year c' + c_month c' -> local_nanos c <= local_nanos c'.
Proof.
  intros [H _] [H' _] Hd Hd' Hm Hm' Hle. unfold local_nanos. rewrite Hm, Hm', Hd, Hd' in *. unfold DAY_NANOS, NANOS.
  destruct (decide (12 * c_year c + c_month c = 12 * c_year c' + c_month c')) as [E|].
  - destruct H, H'. assert (c_year c = c_year c') as -> by lia. assert (c_month c = c_month c') as -> by lia. lia.
  - pose proof (day_number_lt _ _ _ _ _ _ H H' ltac:(lia)). lia.
Qed.

(** Days and shorter units are stretches of one length. *)
Definition unit_width (u : TruncUnit) : option Z :=
  match u with
  | Year | Quarter | Month | Week => None
  | Day => Some DAY_NANOS | Hour => Some (3600 * NANOS) | Minute => Some (60 * NANOS) | Second => Some NANOS
  | Millisecond => Some (10 ^ 6) | Microsecond => Some (10 ^ 3)
  end.

Lemma unit_start_width u w c : unit_width u = Some w -> civil_ok c -> unit_start u c <-> local_nanos c mod w = 0.
Proof.
  intros Hw (_ & Ht). unfold local_nanos. set (dn := day_number _ _ _). clearbody dn.
  unfold unit_start, midnight, time_nanos. destruct u; simplify_eq/=; unfold DAY_NANOS, NANOS in *; lia.
Qed.

Lemma trunc_civil_width u w c : unit_width u = Some w -> civil_ok c -> local_nanos (trunc_civil u c) = local_nanos c - local_nanos c mod w.
Proof.
  destruct c as [y m d h mi s n]. intros Hw (_ & Ht). unfold trunc_civil, local_nanos. cbn in Ht.
  destruct u; simplify_eq/=; unfold time_nanos; cbn; set (dn := day_number y m d); clearbody dn; unfold DAY_NANOS, NANOS in *; lia.
Qed.

Lemma unit_width_pos u w : unit_width u = Some w -> 0 < w.
Proof. destruct u; intros [= <-]; done. Qed.

(** The months a unit of months starts in *)
Definition month_unit (u : TruncUnit) : bool := match u with Year | Quarter | Month => true | _ => false end.

Lemma month_unit_start u c : month_unit u = true -> civil_ok c ->
  unit_start u (trunc_civil u c) /\ c_day (trunc_civil u c) = 1 /\ midnight (trunc_civil u c) /\
  (forall c', civil_ok c' -> unit_start u c' -> 12 * c_year c' + c_month c' <= 12 * c_year c + c_month c ->
    c_day c' = 1 /\ midnight c' /\ 12 * c_year c' + c_month c' <= 12 * c_year (trunc_civil u c) + c_month (trunc_civil u c)).
Proof.
  destruct c as [y m d h mi s n]. intros Hu [[Hm _] _]. cbn in Hm.
  destruct u; try discriminate; cbn; (split_and!; [done || lia..|]); unfold civil_ok, date_ok; intros c' Hc'; intros; split_and!; tauto || lia.
Qed.

Lemma latest_month_unit u c c' : month_unit u = true -> civil_ok c -> civil_ok c' -> unit_start u c' ->
  local_nanos c' <= local_nanos c -> local_nanos c' <= local_nanos (trunc_civil u c).
Proof.
  intros Hu Hc Hc' Hs Hle. destruct (month_unit_start u c Hu Hc) as (_ & Hd & Hmid & Hmax).
  destruct (Hmax c' Hc' Hs (month_index_le _ _ Hc' Hc Hle)) as (? & ? & ?).
  apply month_start_le; try done. by apply trunc_civil_ok.
Qed.

Lemma trunc_month_le u c : month_unit u = true -> civil_ok c -> local_nanos (trunc_civil u c) <= local_nanos c.
Proof.
  intros Hu Hc. pose proof (trunc_civil_ok u c Hc) as Ht. destruct (Z.le_gt_cases (local_nanos (trunc_civil u c)) (local_nanos c)) as [|Hgt]; [done|].
  pose proof (day_number_le c (trunc_civil u c) Hc Ht ltac:(lia)). destruct (month_unit_start u c Hu Hc) as (_ & Hd & Hmid & _).
  pose proof (time_nanos_bounds c Hc). destruct Hc as [Hc _], Ht as [Ht _]. rewrite Hd in *. unfold midnight in Hmid.
  assert (day_number (c_year (trunc_civil u c)) (c_month (trunc_civil u c)) 1 <= day_number (c_year c) (c_month c) (c_day c)) as Hn;
    [|unfold local_nanos in Hgt |- *; rewrite Hmid, Hd in *; unfold DAY_NANOS, NANOS in *; lia].
  destruct (decide (12 * c_year (trunc_civil u c) + c_month (trunc_civil u c) < 12 * c_year c + c_month c)).
  - apply Z.lt_le_incl, day_number_lt; done.
  - clear Hgt. destruct c as [y m d h mi s ns]. cbn in *. destruct Hc as [Hm Hdd]. destruct u; try discriminate; cbn in *; unfold day_number in *.
    all: try assert (m = 1) as -> by lia; try lia.
    assert (1 + 3 * ((m - 1) / 3) = m) as -> by lia. lia.
Qed.

Lemma latest_width u w c c' : unit_width u = Some w -> civil_ok c -> civil_ok c' -> unit_start u c' ->
  local_nanos c' <= local_nanos c -> local_nanos c' <= local_nanos (trunc_civil u c).
Proof.
  intros Hw Hc Hc' Hs Hle. apply (unit_start_width u w c' Hw Hc') in Hs. rewrite (trunc_civil_width u w c Hw Hc).
  pose proof (unit_width_pos u w Hw). apply Z.mod_divide in Hs as [q Hq]; [|lia].
  rewrite Hq in *. pose proof (Z.div_mod (local_nanos c) w ltac:(lia)) as E. assert (q <= local_nanos c / w); [apply Z.div_le_lower_bound; lia|nia].
Qed.

Lemma trunc_width_start u w c : unit_width u = Some w -> civil_ok c -> unit_start u (trunc_civil u c) /\ local_nanos (trunc_civil u c) <= local_nanos c.
Proof.
  intros Hw Hc. pose proof (unit_width_pos u w Hw). pose proof (Z.mod_pos_bound (local_nanos c) w ltac:(lia)). split.
  - apply (unit_start_width u w); [done|by apply trunc_civil_ok|]. rewrite (trunc_civil_width u w) by done.
    rewrite Zminus_mod, Z.mod_mod, Z.sub_diag, Z.mod_0_l by lia. done.
  - rewrite (trunc_civil_width u w) by done. lia.
Qed.

(** Midnight of a day *)
Lemma midnight_of k c : civil_ok c -> local_nanos c = k * DAY_NANOS -> midnight c /\ day_number (c_year c) (c_month c) (c_day c) = k + EPOCH.
Proof.
  intros Hok Hl. pose proof (time_nanos_bounds c Hok). unfold midnight, local_nanos in *. unfold DAY_NANOS, NANOS, EPOCH in *. lia.
Qed.

Lemma civil_of_midnight k : midnight (civil_of (k * DAY_NANOS)) /\
  day_number (c_year (civil_of (k * DAY_NANOS))) (c_month (civil_of (k * DAY_NANOS))) (c_day (civil_of (k * DAY_NANOS))) = k + EPOCH.
Proof. apply midnight_of; [apply civil_of_ok|apply local_civil_of]. Qed.

Lemma trunc_week_latest c : civil_ok c ->
  unit_start Week (trunc_civil Week c) /\ local_nanos (trunc_civil Week c) <= local_nanos c /\
  forall c', civil_ok c' -> unit_start Week c' -> local_nanos c' <= local_nanos c -> local_nanos c' <= local_nanos (trunc_civil Week c).
Proof.
  intros Hc. pose proof (time_nanos_bounds c Hc) as Ht. destruct c as [y m d h mi s n]. unfold trunc_civil.
  set (c := MkCivil y m d h mi s n) in *. set (k := day_number y m d - weekday_of c - EPOCH).
  destruct (civil_of_midnight k) as [Hmid Hk]. assert (Hl : local_nanos c = (day_number y m d - EPOCH) * DAY_NANOS + time_nanos c) by done.
  assert (Hw : weekday_of c = (day_number y m d - 1) mod 7) by done. rewrite local_civil_of. split_and!.
  - split; [|done]. unfold weekday_of. rewrite Hk. subst k. lia.
  - subst k. unfold DAY_NANOS, NANOS in *. lia.
  - intros c' Hc' [Hw' Hm'] Hle. pose proof (day_number_le c' c Hc' Hc Hle) as Hd. cbn in Hd. unfold local_nanos at 1. rewrite Hm'.
    unfold weekday_of in Hw'. set (dn := day_number (c_year c') _ _) in *. subst k. unfold DAY_NANOS, NANOS in *. lia.
Qed.

(** [trunc_local] is the latest start of the unit that is not after [n]. *)
Lemma trunc_local_latest u n : latest_start u n (trunc_local u n).
Proof.
  unfold latest_start, trunc_local. pose proof (civil_of_ok n) as Hc. rewrite civil_of_local by by apply trunc_civil_ok.
  assert (H : unit_start u (trunc_civil u (civil_of n)) /\ local_nanos (trunc_civil u (civil_of n)) <= local_nanos (civil_of n) /\
    forall c', civil_ok c' -> unit_start u c' -> local_nanos c' <= local_nanos (civil_of n) -> local_nanos c' <= local_nanos (trunc_civil u (civil_of n))).
  { destruct (month_unit u) eqn:Hm; [|destruct (unit_width u) as [w|] eqn:Hw].
    - split_and!; [by apply month_unit_start|by apply trunc_month_le|]. intros. by apply latest_month_unit.
    - destruct (trunc_width_start u w (civil_of n) Hw Hc). split_and!; [done..|]. intros. by eapply latest_width.
    - destruct u; try discriminate. by apply trunc_week_latest. }
  destruct H as (? & Hle & Hmax). rewrite local_civil_of in Hle. split_and!; [done..|]. intros k Hk Hkn.
  rewrite <- (local_civil_of k). apply Hmax; [apply civil_of_ok|done|]. rewrite !local_civil_of. done.
Qed.
