(* ===== verification/Exprs.v ===== *)
(** What the native expressions share: Arrow data types, columns and scalars, DataFusion errors,
    and the Arrow and DataFusion kernels the expressions call, as operations of type classes.

    A primitive array is the list of its slots: the raw value and whether the slot is valid.
    Floating-point values are their bits. *)

From S2P Require Import Prelude Casts.
From stdpp Require Import list.
Open Scope Z_scope.

Definition PArray := list (Z * bool).
Definition null_count (a : PArray) : nat := length (filter (fun x => x.2 = false) a).
Definition slot_value (x : Z * bool) : option Z := if x.2 then Some x.1 else None.
(** A slot of a builder: [append_option] *)
Definition append_option (v : option Z) : Z * bool := match v with Some v => (v, true) | None => (0, false) end.

Inductive DataType :=
  | IntegerType (t : IntType)
  | Decimal128 (precision scale : Z)
  | Float16 | Float32 | Float64
  | IntervalYearMonth | IntervalDayTime | IntervalMonthDayNano
  | OtherType (id : Z).
#[export] Instance IntType_eq_dec : EqDecision IntType.
Proof. solve_decision. Defined.
#[export] Instance DataType_eq_dec : EqDecision DataType.
Proof. solve_decision. Defined.

Inductive ColumnarValue := Array (data_type : DataType) (a : PArray) | Scalar (data_type : DataType) (v : option Z).

(** The message of an internal or execution error is left out. *)
Inductive DataFusionError := External (e : SparkError) | Internal | Execution | ArrowError.
Abbreviation DFResult := (Result DataFusionError).

(** [unwrap] and indexing: [None] is a panic. *)
Definition unwrap {E A} (o : option A) : Result E A := match o with Some a => Ok a | None => Panic end.

(** The loops of [arrow::compute::kernels::arity], which also visit the raw values of null slots, and
    [ScalarValue::to_array_of_size].  A closure returns [None] if it panics. *)
Class ArityKernels := {
  arity_unary : (Z -> Z) -> PArray -> PArray;
  arity_binary : (Z -> Z -> option Z) -> PArray -> PArray -> DFResult PArray;
  to_array_of_size : option Z -> nat -> PArray;
}.

Class ArityLaws `{ArityKernels} := {
  arity_unary_spec : forall f a, arity_unary f a = (fun x => (f x.1, x.2)) <$> a;
  arity_binary_spec : forall f a b, length a = length b ->
    arity_binary f a b
    = match mapM (fun x => f x.1.1 x.2.1) (zip a b) with
      | Some values => Ok (zip values (zip_with (fun x y => x.2 && y.2) a b))
      | None => Panic
      end;
  arity_binary_lengths : forall f a b, length a <> length b -> arity_binary f a b = Err ArrowError;
  to_array_of_size_spec : forall v n, to_array_of_size v n = replicate n (append_option v);
}.

(** Kernels on floating-point values of a width, over their bits: [ceil() as i64], [floor() as i64],
    DataFusion's [round], and Arrow's checked division with its test for zero *)
Class FloatKernels := {
  float_ceil : DataType -> Z -> Z;
  float_floor : DataType -> Z -> Z;
  float_round : DataType -> Z -> Z -> Z;
  float_div_checked : DataType -> Z -> Z -> option Z;
  float_is_zero : DataType -> Z -> bool;
}.

(** Arrow's validation of a decimal against a precision *)
Class DecimalKernels := validate_decimal_precision : Z -> Z -> bool.
Class DecimalLaws `{DecimalKernels} := validate_decimal_precision_spec : forall v p, 1 <= p <= 38 ->
  validate_decimal_precision v p = (- (10 ^ p - 1) <=? v) && (v <=? 10 ^ p - 1).

(** Arrow's [neg_wrapping] and DataFusion's [ScalarValue::arithmetic_negate] *)
Class NegKernels := {
  neg_wrapping : DataType -> PArray -> DFResult PArray;
  arithmetic_negate : DataType -> option Z -> DFResult (option Z);
}.
Class NegLaws `{NegKernels} :=
  neg_wrapping_int : forall t a, neg_wrapping (IntegerType t) a = Ok ((fun x => (swrap (int_width t) (- x.1), x.2)) <$> a).

(** A traversal whose elements all succeed *)
Lemma mapM_Ok {E A B} (f : A -> Result E B) (g : A -> B) l : (forall x, x ∈ l -> f x = Ok (g x)) -> mapM f l = Ok (g <$> l).
Proof.
  induction l as [|x l IH]; intros Hf; [done|]. cbn. rewrite (Hf x) by left. cbn. rewrite IH; [done|]. intros y Hy. apply Hf. by right.
Qed.

Lemma mapM_Ok_inv {E A B} (f : A -> Result E B) l l' : mapM f l = Ok l' -> Forall2 (fun x y => f x = Ok y) l l'.
Proof.
  revert l'. induction l as [|x l IH]; intros l'; cbn; [intros [= <-]; constructor|]. destruct (f x) as [y| |] eqn:E1; cbn; [|done..].
  destruct (mapM f l) as [ys| |]; cbn; [|done..]. intros [= <-]. constructor; [done|by apply IH].
Qed.

(** The same with a relation between elements and results *)
Lemma mapM_related {E A B} (f : A -> Result E B) (R : A -> B -> Prop) l :
  Forall (fun x => exists y, f x = Ok y /\ R x y) l -> exists l', mapM f l = Ok l' /\ Forall2 R l l'.
Proof.
  induction 1 as [|x l (y & Hy & HR) _ (l' & Hl & HF)]; [by exists []|]. exists (y :: l'). cbn. rewrite Hy. cbn. rewrite Hl. cbn. by auto.
Qed.
