(* ===== verification/CastTypes.v ===== *)
(** Which casts are supported (src/native/spark-expr/src/conversion_funcs/cast.rs): the types, the options, [cast_supported] with its
    tables, and the table of the casts left to DataFusion. *)

From S2P Require Import Prelude Casts Exprs.
From stdpp Require Import list strings.
Open Scope Z_scope.

(** * Types *)

Inductive TimeUnit := Seconds | Milliseconds | Microseconds | Nanoseconds.

(** A field of a struct; [f_attrs] stands for its metadata. *)
Record Field (T : Type) := MkField { f_name : text; f_type : T; f_nullable : bool; f_attrs : Z }.
Arguments MkField {T} f_name f_type f_nullable f_attrs.
Arguments f_name {T} f.
Arguments f_type {T} f.
Arguments f_nullable {T} f.
Arguments f_attrs {T} f.

(** The types of Arrow the code tells apart *)
Inductive ArrowType :=
  | TyNull
  | TyBoolean
  | TyInt (t : IntType)
  | TyUInt (t : IntType)
  | TyFloat32
  | TyFloat64
  | TyDecimal128 (precision scale : Z)
  | TyDecimal256 (precision scale : Z)
  | TyUtf8
  | TyLargeUtf8
  | TyUtf8View
  | TyBinary
  | TyLargeBinary
  | TyDate32
  | TyDate64
  | TyTimestamp (unit : TimeUnit) (tz : option text)
  | TyStruct (fields : list (Field ArrowType))
  | TyList (item : Field ArrowType)
  | TyDictionary (key value : ArrowType)
  | TyOther (id : Z).

#[export] Instance EvalMode_eq_dec : EqDecision EvalMode.
Proof. solve_decision. Defined.
#[export] Instance TimeUnit_eq_dec : EqDecision TimeUnit.
Proof. solve_decision. Defined.

(** [==] of types *)
Fixpoint ty_eqb (a b : ArrowType) : bool :=
  let field_eqb (f g : Field ArrowType) : bool :=
    match f, g with
    | MkField n t u m, MkField n' t' u' m' => bool_decide (n = n') && ty_eqb t t' && Bool.eqb u u' && (m =? m')
    end in
  match a, b with
  | TyNull, TyNull | TyBoolean, TyBoolean | TyFloat32, TyFloat32 | TyFloat64, TyFloat64 => true
  | TyInt t, TyInt t' | TyUInt t, TyUInt t' => bool_decide (t = t')
  | TyDecimal128 p s, TyDecimal128 p' s' | TyDecimal256 p s, TyDecimal256 p' s' => (p =? p') && (s =? s')
  | TyUtf8, TyUtf8 | TyLargeUtf8, TyLargeUtf8 | TyUtf8View, TyUtf8View => true
  | TyBinary, TyBinary | TyLargeBinary, TyLargeBinary | TyDate32, TyDate32 | TyDate64, TyDate64 => true
  | TyTimestamp u z, TyTimestamp u' z' => bool_decide (u = u') && bool_decide (z = z')
  | TyStruct fs, TyStruct gs =>
      (fix all (fs gs : list (Field ArrowType)) : bool :=
         match fs, gs with
         | [], [] => true
         | f :: fs, g :: gs => field_eqb f g && all fs gs
         | _, _ => false
         end) fs gs
  | TyList f, TyList g => field_eqb f g
  | TyDictionary k v, TyDictionary k' v' => ty_eqb k k' && ty_eqb v v'
  | TyOther i, TyOther j => i =? j
  | _, _ => false
  end.

(** * Options *)

Inductive BinaryOutputStyle := StyleUtf8 | StyleBasic | StyleBase64 | StyleHex | StyleHexDiscrete.

Record SparkCastOptions := MkCastOptions {
  eval_mode : EvalMode;
  timezone : text;
  allow_incompat : bool;
  allow_cast_unsigned_ints : bool;
  is_adapting_schema : bool;
  null_string : text;
  binary_output_style : option BinaryOutputStyle;
}.

Definition SparkCastOptions_new (eval_mode : EvalMode) (timezone : text) (allow_incompat : bool) : SparkCastOptions :=
  MkCastOptions eval_mode timezone allow_incompat false false (codes "null") None.
Definition new_without_timezone (eval_mode : EvalMode) (allow_incompat : bool) : SparkCastOptions :=
  MkCastOptions eval_mode [] allow_incompat false false (codes "null") None.

(** * Supported casts *)

Definition can_cast_from_string (to_type : ArrowType) (options : SparkCastOptions) : bool :=
  match to_type with
  | TyBoolean | TyInt _ | TyBinary => true
  | TyFloat32 | TyFloat64 => allow_incompat options
  | TyDecimal128 _ _ => allow_incompat options
  | TyDate32 | TyDate64 => allow_incompat options
  | TyTimestamp _ tz => if is_ansi (eval_mode options) then false else allow_incompat options
  | _ => false
  end.

Fixpoint can_cast_to_string (from_type : ArrowType) (options : SparkCastOptions) : bool :=
  match from_type with
  | TyBoolean | TyInt _ | TyDate32 | TyDate64 | TyTimestamp _ _ => true
  | TyFloat32 | TyFloat64 => true
  | TyDecimal128 _ _ => true
  | TyBinary => true
  | TyStruct fields => forallb (fun f => match f with MkField _ t _ _ => can_cast_to_string t options end) fields
  | _ => false
  end.

Definition can_cast_from_timestamp_ntz (to_type : ArrowType) (options : SparkCastOptions) : bool :=
  match to_type with TyTimestamp _ _ | TyDate32 | TyDate64 | TyUtf8 => allow_incompat options | _ => false end.

Definition can_cast_from_timestamp (to_type : ArrowType) (options : SparkCastOptions) : bool :=
  match to_type with
  | TyBoolean | TyInt Int8 | TyInt Int16 => false
  | TyInt Int64 => true
  | TyDate32 | TyDate64 | TyUtf8 | TyDecimal128 _ _ => true
  | _ => false
  end.

Definition can_cast_from_boolean (to_type : ArrowType) (options : SparkCastOptions) : bool :=
  match to_type with TyInt _ | TyFloat32 | TyFloat64 => true | _ => false end.

Definition can_cast_from_byte (to_type : ArrowType) (options : SparkCastOptions) : bool :=
  match to_type with TyBoolean | TyInt _ | TyFloat32 | TyFloat64 | TyDecimal128 _ _ => true | _ => false end.
Definition can_cast_from_short (to_type : ArrowType) (options : SparkCastOptions) : bool :=
  match to_type with TyBoolean | TyInt _ | TyFloat32 | TyFloat64 | TyDecimal128 _ _ => true | _ => false end.

Definition can_cast_from_int (to_type : ArrowType) (options : SparkCastOptions) : bool :=
  match to_type with
  | TyBoolean | TyInt _ | TyFloat32 | TyFloat64 | TyUtf8 => true
  | TyDecimal128 _ _ => allow_incompat options
  | _ => false
  end.
Definition can_cast_from_long (to_type : ArrowType) (options : SparkCastOptions) : bool :=
  match to_type with
  | TyBoolean | TyInt _ | TyFloat32 | TyFloat64 => true
  | TyDecimal128 _ _ => allow_incompat options
  | _ => false
  end.

Definition can_cast_from_float (to_type : ArrowType) (options : SparkCastOptions) : bool :=
  match to_type with TyBoolean | TyInt _ | TyFloat64 | TyDecimal128 _ _ => true | _ => false end.
Definition can_cast_from_double (to_type : ArrowType) (options : SparkCastOptions) : bool :=
  match to_type with TyBoolean | TyInt _ | TyFloat32 | TyDecimal128 _ _ => true | _ => false end.

Definition can_cast_from_decimal (p1 s1 : Z) (to_type : ArrowType) (options : SparkCastOptions) : bool :=
  match to_type with
  | TyInt _ | TyFloat32 | TyFloat64 => true
  | TyDecimal128 p2 _ => if p2 <? p1 then allow_incompat options else true
  | _ => false
  end.

(** The value type of a dictionary *)
Definition undict (t : ArrowType) : ArrowType := match t with TyDictionary _ dt => dt | _ => t end.

Fixpoint cast_supported (from_type to_type : ArrowType) (options : SparkCastOptions) : bool :=
  let from_type := undict from_type in
  let to_type := undict to_type in
  if ty_eqb from_type to_type then true
  else
    match from_type, to_type with
    | TyBoolean, _ => can_cast_from_boolean to_type options
    | TyUInt _, TyInt _ => allow_cast_unsigned_ints options
    | TyInt Int8, _ => can_cast_from_byte to_type options
    | TyInt Int16, _ => can_cast_from_short to_type options
    | TyInt Int32, _ => can_cast_from_int to_type options
    | TyInt Int64, _ => can_cast_from_long to_type options
    | TyFloat32, _ => can_cast_from_float to_type options
    | TyFloat64, _ => can_cast_from_double to_type options
    | TyDecimal128 p s, _ => can_cast_from_decimal p s to_type options
    | TyTimestamp _ None, _ => can_cast_from_timestamp_ntz to_type options
    | TyTimestamp _ (Some _), _ => can_cast_from_timestamp to_type options
    | TyUtf8, _ | TyLargeUtf8, _ => can_cast_from_string to_type options
    | _, TyUtf8 | _, TyLargeUtf8 => can_cast_to_string from_type options
    | TyStruct from_fields, TyStruct to_fields =>
        (fix all (fs gs : list (Field ArrowType)) : bool :=
           match fs, gs with
           | MkField _ f _ _ :: fs, MkField _ g _ _ :: gs => cast_supported f g options && all fs gs
           | _, _ => true
           end) from_fields to_fields
    | _, _ => false
    end.

(** The casts that DataFusion does the way Spark does *)
Definition is_datafusion_spark_compatible (from_type to_type : ArrowType) (allow_incompat : bool) : bool :=
  if ty_eqb from_type to_type then true
  else
    match from_type with
    | TyNull => match to_type with TyList _ => true | _ => false end
    | TyBoolean => match to_type with TyInt _ | TyFloat32 | TyFloat64 | TyUtf8 => true | _ => false end
    | TyInt _ => match to_type with TyBoolean | TyInt _ | TyFloat32 | TyFloat64 | TyDecimal128 _ _ | TyUtf8 => true | _ => false end
    | TyFloat32 | TyFloat64 => match to_type with TyBoolean | TyInt _ | TyFloat32 | TyFloat64 => true | _ => false end
    | TyDecimal128 _ _ | TyDecimal256 _ _ =>
        match to_type with TyInt _ | TyFloat32 | TyFloat64 | TyDecimal128 _ _ | TyDecimal256 _ _ | TyUtf8 => true | _ => false end
    | TyUtf8 =>
        if allow_incompat then match to_type with TyBinary | TyFloat32 | TyFloat64 | TyDecimal128 _ _ => true | _ => false end
        else match to_type with TyBinary => true | _ => false end
    | TyDate32 => match to_type with TyUtf8 => true | _ => false end
    | TyTimestamp _ _ => match to_type with TyInt Int64 | TyDate32 | TyUtf8 | TyTimestamp _ _ => true | _ => false end
    | TyBinary => match to_type with TyUtf8 => true | _ => false end
    | _ => false
    end.
