(* ===== verification/CastFloats.v ===== *)
(** Casts of floating-point numbers (src/native/spark-expr/src/conversion_funcs/cast.rs): to integers, to strings and to decimals.

    A float is its bits, decoded as IEEE 754 lays them out; conversions to integers and the multiplication are exact.  The shortest
    decimal digits of a float, [powi] and the check of a decimal type are operations of classes. *)

From S2P Require Import Prelude Casts Exprs.
From stdpp Require Import list strings.
Open Scope Z_scope.

(** * IEEE 754 *)

Inductive FloatWidth := F32 | F64.
Definition mant_bits (t : FloatWidth) : Z := match t with F32 => 23 | F64 => 52 end.
Definition exp_bits (t : FloatWidth) : Z := match t with F32 => 8 | F64 => 11 end.
Definition float_width (t : FloatWidth) : Z := mant_bits t + exp_bits t + 1.
Definition exp_max (t : FloatWidth) : Z := 2 ^ exp_bits t - 1.
Definition bias (t : FloatWidth) : Z := 2 ^ (exp_bits t - 1) - 1 + mant_bits t.

(** [FFin neg m e] is [m * 2 ^ e], negated if [neg]. *)
Inductive FloatVal := FNaN | FInf (neg : bool) | FFin (neg : bool) (m e : Z).

Definition sign_bit (t : FloatWidth) (bits : Z) : bool := 2 ^ (float_width t - 1) <=? bits.
(** [abs] *)
Definition abs_bits (t : FloatWidth) (bits : Z) : Z := bits mod 2 ^ (float_width t - 1).

Definition decode (t : FloatWidth) (bits : Z) : FloatVal :=
  let neg := sign_bit t bits in
  let e := abs_bits t bits / 2 ^ mant_bits t in
  let m := bits mod 2 ^ mant_bits t in
  if e =? exp_max t then if m =? 0 then FInf neg else FNaN
  else if e =? 0 then FFin neg m (1 - bias t)
  else FFin neg (m + 2 ^ mant_bits t) (e - bias t).

Definition is_nan (t : FloatWidth) (bits : Z) : bool := match decode t bits with FNaN => true | _ => false end.

(** The integer part of a finite number *)
Definition trunc_fin (neg : bool) (m e : Z) : Z :=
  let a := if 0 <=? e then m * 2 ^ e else m / 2 ^ (- e) in if neg then - a else a.
(** [fract() == 0.0] *)
Definition integral (m e : Z) : bool := (0 <=? e) || (m mod 2 ^ (- e) =? 0).

(** [value as iN]: towards zero, saturating, 0 for NaN *)
Definition as_int (w : Z) (v : FloatVal) : Z :=
  match v with
  | FNaN => 0
  | FInf neg => if neg then - 2 ^ (w - 1) else 2 ^ (w - 1) - 1
  | FFin neg m e => Z.max (- 2 ^ (w - 1)) (Z.min (2 ^ (w - 1) - 1) (trunc_fin neg m e))
  end.

(** [to_i128] of num *)
Definition to_i128 (v : FloatVal) : option Z := match v with FFin neg m e => checked 128 (trunc_fin neg m e) | _ => None end.

(** [round]: half away from zero *)
Definition round_half_away (v : FloatVal) : FloatVal :=
  match v with
  | FFin neg m e => if 0 <=? e then v else FFin neg ((2 * m + 2 ^ (- e)) / (2 * 2 ^ (- e))) 0
  | _ => v
  end.

(** [m * 2 ^ e] rounded to the nearest [f64], ties to even *)
Definition round_f64 (neg : bool) (m e : Z) : FloatVal :=
  let k := Z.max (Z.log2 m - 52) (-1074 - e) in
  if k <=? 0 then (if (m =? 0) || (Z.log2 m + e <=? 1023) then FFin neg m e else FInf neg)
  else
    let q := m / 2 ^ k in
    let r := m mod 2 ^ k in
    let up := (2 ^ k <? 2 * r) || ((2 * r =? 2 ^ k) && Z.odd q) in
    let q := if up then q + 1 else q in
    if (q =? 0) || (Z.log2 q + (e + k) <=? 1023) then FFin neg q (e + k) else FInf neg.

Definition fmul (a b : FloatVal) : FloatVal :=
  match a, b with
  | FNaN, _ | _, FNaN => FNaN
  | FInf s, FInf s' => FInf (xorb s s')
  | FInf s, FFin s' m _ | FFin s' m _, FInf s => if m =? 0 then FNaN else FInf (xorb s s')
  | FFin s m e, FFin s' m' e' => round_f64 (xorb s s') (m * m') (e + e')
  end.

(** [Display], [{:e}] and [{:E}] of a float, [Display] of the [f64] of a value, and [10_f64.powi] *)
Class FloatText := {
  display : FloatWidth -> Z -> text;
  format_e : FloatWidth -> Z -> text;
  format_upper_e : FloatWidth -> Z -> text;
  display_value : FloatVal -> text;
  powi10 : Z -> FloatVal;
}.

(** [with_precision_and_scale] of a decimal array accepts the type. *)
Class DecimalTypes := decimal_type_ok : Z -> Z -> bool.

Section Floats.
Context `{FloatText}.

(** * To integers *)

Definition float_name (t : FloatWidth) : text := match t with F32 => codes "FLOAT" | F64 => codes "DOUBLE" end.
(** The value in the message of an overflow: [format!("{:e}", value)], with a D for doubles, in upper case *)
Definition float_error (t : FloatWidth) (bits : Z) : text :=
  (fun c => if c =? 101 then 69 else c) <$> (format_e t bits ++ match t with F32 => [] | F64 => codes "D" end).

(** [cast_float_to_int16_down!], by way of [i32] *)
Definition cast_float_to_int16_down (t : FloatWidth) (to_type : IntType) (eval_mode : EvalMode) (bits : Z) : SparkResult (option Z) :=
  let w := int_width to_type in
  let overflow := Err (cast_overflow (float_error t bits) (float_name t) (int_name to_type)) in
  let i32_value := as_int 32 (decode t bits) in
  match eval_mode with
  | Ansi =>
      if is_nan t bits || (as_int 32 (decode t (abs_bits t bits)) =? 2 ^ 31 - 1) then overflow
      else match checked w i32_value with Some v => Ok (Some v) | None => overflow end
  | _ => Ok (Some (swrap w i32_value))
  end.

(** [cast_float_to_int32_up!] *)
Definition cast_float_to_int32_up (t : FloatWidth) (to_type : IntType) (eval_mode : EvalMode) (bits : Z) : SparkResult (option Z) :=
  let w := int_width to_type in
  match eval_mode with
  | Ansi =>
      if is_nan t bits || (as_int w (decode t (abs_bits t bits)) =? 2 ^ (w - 1) - 1) then
        Err (cast_overflow (float_error t bits) (float_name t) (int_name to_type))
      else Ok (Some (as_int w (decode t bits)))
  | _ => Ok (Some (as_int w (decode t bits)))
  end.

(** The float arms of [spark_cast_nonintegral_numeric_to_integral] *)
Definition float_to_int (t : FloatWidth) (to_type : IntType) : EvalMode -> Z -> SparkResult (option Z) :=
  match to_type with
  | Int8 | Int16 => cast_float_to_int16_down t to_type
  | Int32 | Int64 => cast_float_to_int32_up t to_type
  end.
Definition cast_float_to_integral (t : FloatWidth) (array : list (option Z)) (eval_mode : EvalMode) (to_type : IntType) :=
  cast_elements (float_to_int t to_type eval_mode) array.

(** * To strings *)

(** The bits of 0.001 and of 10000000.0 *)
Definition LOWER_SCIENTIFIC_BOUND (t : FloatWidth) : Z := match t with F32 => 0x3A83126F | F64 => 0x3F50624DD2F1A9FC end.
Definition UPPER_SCIENTIFIC_BOUND (t : FloatWidth) : Z := match t with F32 => 0x4B189680 | F64 => 0x416312D000000000 end.

(** [formatted.split("E")]: what is before the first and between the first and the second E *)
Fixpoint split_e (s : text) : list text :=
  match s with
  | [] => [[]]
  | c :: s => if c =? 69 then [] :: split_e s else match split_e s with w :: ws => (c :: w) :: ws | [] => [[c]] end
  end.

(** Positive floats are ordered as their bits; every comparison with NaN is false. *)
Definition cast_float_to_string (t : FloatWidth) (bits : Z) : SparkResult (option text) :=
  let a := abs_bits t bits in
  let below bound := negb (is_nan t bits) && (a <? bound) in
  let from bound := negb (is_nan t bits) && (bound <=? a) in
  match decode t bits with
  | FInf false => Ok (Some (codes "Infinity"))
  | FInf true => Ok (Some (codes "-Infinity"))
  | v =>
      if (below (UPPER_SCIENTIFIC_BOUND t) && from (LOWER_SCIENTIFIC_BOUND t)) || (a =? 0) then
        let trailing_zero := match v with FFin _ m e => if integral m e then codes ".0" else [] | _ => [] end in
        Ok (Some (display t bits ++ trailing_zero))
      else if from (UPPER_SCIENTIFIC_BOUND t) || below (LOWER_SCIENTIFIC_BOUND t) then
        let formatted := format_upper_e t bits in
        if existsb (Z.eqb 46) formatted then Ok (Some formatted)
        else
          match split_e formatted with
          | coefficient :: exponent :: _ => Ok (Some (coefficient ++ codes ".0E" ++ exponent))
          | _ => Panic
          end
      else Ok (Some (display t bits))
  end.

(** * To decimals *)

Context `{DecimalKernels} `{DecimalTypes}.

Definition float_to_decimal (t : FloatWidth) (precision scale : Z) (eval_mode : EvalMode) (bits : Z) : SparkResult (option Z) :=
  let out_of_range :=
    if is_ansi eval_mode then Err (NumericValueOutOfRange (display_value (decode t bits)) precision scale) else Ok None in
  match to_i128 (round_half_away (fmul (decode t bits) (powi10 scale))) with
  | Some v => if validate_decimal_precision v precision then Ok (Some v) else out_of_range
  | None => out_of_range
  end.

Definition cast_floating_point_to_decimal128 (t : FloatWidth) (array : list (option Z)) (precision scale : Z) (eval_mode : EvalMode)
    : SparkResult (list (option Z)) :=
  r ← cast_elements (float_to_decimal t precision scale eval_mode) array;
  if decimal_type_ok precision scale then Ok r else Err SparkArrow.
End Floats.
