(* ===== verification/CastFloatProps.v ===== *)
(** Correctness of the casts of floats (CastFloats.v): integers are the float without its fraction, strings have the form Java gives
    them. *)

From S2P Require Import Prelude Casts CastProps Exprs CastFloats.
From stdpp Require Import list strings.
Open Scope Z_scope.
Ltac Zify.zify_post_hook ::= idtac.

(** * To integers *)

(** [z] is the integer part of [m * 2 ^ e], with the sign. *)
Definition truncates (neg : bool) (m e z : Z) : Prop :=
  (if neg then z <= 0 else 0 <= z) /\ Z.abs z * 2 ^ Z.max 0 (- e) <= m * 2 ^ Z.max 0 e < (Z.abs z + 1) * 2 ^ Z.max 0 (- e).

Lemma trunc_fin_spec neg m e : 0 <= m -> truncates neg m e (trunc_fin neg m e).
Proof.
  intros Hm. unfold truncates, trunc_fin. destruct (Z.leb_spec 0 e) as [He|He].
  - assert (0 <= m * 2 ^ e) by (apply Z.mul_nonneg_nonneg; [done|]; apply Z.pow_nonneg; lia).
    replace (Z.max 0 (- e)) with 0 by lia. replace (Z.max 0 e) with e by lia. change (2 ^ 0) with 1. destruct neg; lia.
  - assert (0 < 2 ^ (- e)) by (apply Z.pow_pos_nonneg; lia). pose proof (Z.div_pos m (2 ^ (- e)) Hm ltac:(done)).
    replace (Z.max 0 (- e)) with (- e) by lia. replace (Z.max 0 e) with 0 by lia. change (2 ^ 0) with 1.
    pose proof (Z.div_mod m (2 ^ (- e)) ltac:(lia)). pose proof (Z.mod_pos_bound m (2 ^ (- e)) ltac:(done)).
    replace (Z.abs (if neg then _ else _)) with (m / 2 ^ (- e)) by (destruct neg; lia). split; [destruct neg; lia|nia].
Qed.

Lemma as_int_range w v : 0 < w -> in_s w (as_int w v).
Proof.
  intros Hw. assert (0 < 2 ^ (w - 1)) by (apply Z.pow_pos_nonneg; lia). unfold in_s. destruct v as [|[]|neg m e]; cbn; lia.
Qed.

Lemma decode_mant t bits neg m e : decode t bits = FFin neg m e -> 0 <= m.
Proof.
  unfold decode. pose proof (Z.mod_pos_bound bits (2 ^ mant_bits t)). assert (0 < 2 ^ mant_bits t) by (destruct t; done).
  repeat case_match; intros; simplify_eq; lia.
Qed.

Definition float_abs (v : FloatVal) : FloatVal := match v with FNaN => FNaN | FInf _ => FInf false | FFin _ m e => FFin false m e end.

Lemma decode_abs t bits : decode t (abs_bits t bits) = float_abs (decode t bits).
Proof.
  unfold decode, sign_bit. set (W := 2 ^ (float_width t - 1)). assert (HW : 0 < W) by (unfold W; destruct t; done).
  assert (Ha : abs_bits t (abs_bits t bits) = abs_bits t bits) by (unfold abs_bits; by rewrite Z.mod_mod by (fold W; lia)).
  assert (Hm : abs_bits t bits mod 2 ^ mant_bits t = bits mod 2 ^ mant_bits t).
  { unfold abs_bits. replace (2 ^ (float_width t - 1)) with (2 ^ mant_bits t * 2 ^ exp_bits t) by (destruct t; done).
    rewrite Z.rem_mul_r by (destruct t; done). rewrite Z.mul_comm, Z.mod_add, Z.mod_mod by (destruct t; done). done. }
  rewrite Ha, Hm. assert (Hs : (W <=? abs_bits t bits) = false).
  { apply Z.leb_gt. unfold abs_bits. fold W. by apply Z.mod_pos_bound. }
  rewrite Hs. by repeat case_match.
Qed.

(** The width of the type a cast goes through *)
Definition via_width (to_type : IntType) : Z := match to_type with Int64 => 64 | _ => 32 end.
Definition clamp (w z : Z) : Z := Z.max (- 2 ^ (w - 1)) (Z.min (2 ^ (w - 1) - 1) z).

Section Floats.
Context `{FloatText}.

Definition float_overflow (t : FloatWidth) (to_type : IntType) (bits : Z) : SparkResult (option Z) :=
  Err (cast_overflow (float_error t bits) (float_name t) (int_name to_type)).

(** Both macros, as one *)
Lemma float_to_int_unfold t to_type mode bits : float_to_int t to_type mode bits =
  if is_ansi mode then
    if is_nan t bits || (as_int (via_width to_type) (decode t (abs_bits t bits)) =? 2 ^ (via_width to_type - 1) - 1) then float_overflow t to_type bits
    else match checked (int_width to_type) (as_int (via_width to_type) (decode t bits)) with Some v => Ok (Some v) | None => float_overflow t to_type bits end
  else Ok (Some (swrap (int_width to_type) (as_int (via_width to_type) (decode t bits)))).
Proof.
  assert (Hin : forall w, 0 < w -> in_s w (as_int w (decode t bits))) by (intros; by apply as_int_range).
  destruct to_type; cbn [float_to_int via_width int_width];
    unfold cast_float_to_int16_down, cast_float_to_int32_up, float_overflow; cbn [int_width]; destruct mode; cbn [is_ansi]; try done;
    rewrite ?swrap_small by (done || by apply Hin); try done; unfold checked; by rewrite bool_decide_eq_true_2 by (by apply Hin).
Qed.

Lemma float_to_int_typed t to_type mode bits r : float_to_int t to_type mode bits = Ok r -> typed (int_width to_type) r.
Proof.
  assert (0 < int_width to_type) by (by destruct to_type). rewrite float_to_int_unfold. unfold float_overflow, checked.
  repeat case_match; intros; simplify_eq; cbn; [by case_bool_decide; simplify_eq|by apply swrap_range].
Qed.

Lemma as_int_via neg m e to_type : as_int (via_width to_type) (FFin neg m e) = clamp (via_width to_type) (trunc_fin neg m e).
Proof. done. Qed.

Lemma clamp_abs_max w neg m e : 0 <= m -> 0 < w ->
  (clamp w (trunc_fin false m e) =? 2 ^ (w - 1) - 1) = negb (Z.abs (trunc_fin neg m e) <? 2 ^ (w - 1) - 1).
Proof.
  intros Hm Hw. assert (0 < 2 ^ (w - 1)) by (apply Z.pow_pos_nonneg; lia). assert (Ha : Z.abs (trunc_fin neg m e) = trunc_fin false m e).
  { destruct (trunc_fin_spec false m e Hm) as [Hp _]. unfold trunc_fin in *. destruct neg, (0 <=? e); lia. }
  rewrite Ha. destruct (trunc_fin_spec false m e Hm) as [Hp _]. unfold clamp. apply eq_true_iff_eq. rewrite Z.eqb_eq, negb_true_iff, Z.ltb_ge. lia.
Qed.

(** The cast of a finite float, of an infinity and of NaN *)
Lemma float_to_int_spec t to_type mode bits :
  match decode t bits with
  | FFin neg m e => exists z, truncates neg m e z /\
      float_to_int t to_type mode bits
      = if is_ansi mode then
          if (Z.abs z <? 2 ^ (via_width to_type - 1) - 1) && bool_decide (in_s (int_width to_type) z) then Ok (Some z) else float_overflow t to_type bits
        else Ok (Some (swrap (int_width to_type) (clamp (via_width to_type) z)))
  | FInf neg =>
      float_to_int t to_type mode bits
      = if is_ansi mode then float_overflow t to_type bits
        else Ok (Some (swrap (int_width to_type) (if neg then - 2 ^ (via_width to_type - 1) else 2 ^ (via_width to_type - 1) - 1)))
  | FNaN => float_to_int t to_type mode bits = if is_ansi mode then float_overflow t to_type bits else Ok (Some 0)
  end.
Proof.
  rewrite float_to_int_unfold, decode_abs. unfold is_nan. destruct (decode t bits) as [|neg|neg m e] eqn:E; cbn [float_abs orb].
  - destruct (is_ansi mode); [done|]. cbn. by destruct to_type.
  - destruct (is_ansi mode); [|done]. cbn [as_int]. by rewrite Z.eqb_refl.
  - apply decode_mant in E as Hm. exists (trunc_fin neg m e). split; [by apply trunc_fin_spec|]. destruct (is_ansi mode); [|done].
    rewrite !as_int_via, (clamp_abs_max _ neg) by (done || by destruct to_type). destruct (Z.ltb_spec (Z.abs (trunc_fin neg m e)) (2 ^ (via_width to_type - 1) - 1)) as [Hl|]; [|done].
    cbn [negb andb]. unfold checked. replace (clamp _ _) with (trunc_fin neg m e) by (unfold clamp; lia). by case_bool_decide.
Qed.
End Floats.

(** * To strings *)

Definition digits (s : text) : Prop := Forall (fun c => is_ascii_digit c = true) s.
Definition sign_text (neg : bool) : text := if neg then [45] else [].

(** What the standard library promises of the shortest decimal of a finite float: digits with a point and more digits if the value is
    not an integer; for the scientific form one digit, a point and digits if needed, and an exponent. *)
Class FloatTextLaws `{FloatText} := {
  display_finite : forall t bits neg m e, decode t bits = FFin neg m e -> exists ds fs,
    digits ds /\ ds <> [] /\ digits fs /\ fs <> [] /\ display t bits = sign_text neg ++ ds ++ (if integral m e then [] else 46 :: fs);
  display_nan : forall t bits, decode t bits = FNaN -> display t bits = codes "NaN";
  format_upper_e_finite : forall t bits neg m e, decode t bits = FFin neg m e -> exists d fs negx xs,
    digits (d :: fs) /\ digits xs /\ xs <> [] /\
    format_upper_e t bits = sign_text neg ++ d :: (if bool_decide (fs = []) then [] else 46 :: fs) ++ 69 :: sign_text negx ++ xs;
}.

Section Texts.
Context `{FloatTextLaws}.

Lemma digits_no c s : is_ascii_digit c = false -> digits s -> existsb (Z.eqb c) s = false.
Proof.
  intros Hc. induction 1 as [|d s Hd _ IH]; [done|]. cbn. rewrite IH, orb_false_r. apply Z.eqb_neq. intros ->. congruence.
Qed.

Lemma sign_no c neg : c <> 45 -> existsb (Z.eqb c) (sign_text neg) = false.
Proof. intros Hc. destruct neg; [|done]. cbn. rewrite orb_false_r. by apply Z.eqb_neq. Qed.

Lemma split_e_app w s : existsb (Z.eqb 69) w = false -> exists x xs, split_e s = x :: xs /\ split_e (w ++ s) = (w ++ x) :: xs.
Proof.
  intros Hw. assert (Hs : exists x xs, split_e s = x :: xs).
  { destruct s as [|c s]; [by eauto|]. cbn. case_match; [by eauto|]. case_match; by eauto. }
  destruct Hs as (x & xs & Hs). exists x, xs. split; [done|]. induction w as [|c w IH]; [done|]. apply orb_false_elim in Hw as [Hc Hw].
  cbn [split_e app]. by rewrite Z.eqb_sym, Hc, IH.
Qed.

Lemma scientific_split neg d negx xs : digits [d] -> digits xs ->
  split_e (sign_text neg ++ d :: 69 :: sign_text negx ++ xs) = [sign_text neg ++ [d]; sign_text negx ++ xs].
Proof.
  intros Hd Hxs. change (d :: 69 :: ?s) with ([d] ++ 69 :: s). rewrite app_assoc.
  destruct (split_e_app (sign_text neg ++ [d]) (69 :: sign_text negx ++ xs)) as (x & ws & E & ->).
  { rewrite existsb_app, sign_no, digits_no by done. done. }
  cbn in E. simplify_eq. rewrite app_nil_r. f_equal. rewrite <- (app_nil_r xs) at 1. rewrite app_assoc.
  destruct (split_e_app (sign_text negx ++ xs) []) as (x & ws & E & ->).
  { rewrite existsb_app, sign_no, digits_no by done. done. }
  cbn in E. simplify_eq. by rewrite app_nil_r.
Qed.

(** Without an exponent from 0.001 to below 10000000 and for zeros *)
Definition plain_range (t : FloatWidth) (bits : Z) : bool :=
  ((LOWER_SCIENTIFIC_BOUND t <=? abs_bits t bits) && (abs_bits t bits <? UPPER_SCIENTIFIC_BOUND t)) || (abs_bits t bits =? 0).

(** A sign, digits, a point, digits, and an exponent or not *)
Definition java_text (plain : bool) (neg : bool) (s : text) : Prop :=
  exists ds fs negx xs, digits ds /\ ds <> [] /\ digits fs /\ fs <> [] /\ digits xs /\ xs <> [] /\
    (plain = false -> length ds = 1%nat) /\ s = sign_text neg ++ ds ++ 46 :: fs ++ (if plain then [] else 69 :: sign_text negx ++ xs).

Lemma plain_text neg m e t bits : decode t bits = FFin neg m e ->
  java_text true neg (display t bits ++ (if integral m e then codes ".0" else [])).
Proof.
  intros E. destruct (display_finite t bits neg m e E) as (ds & fs & Hds & Hn & Hfs & Hfn & ->).
  destruct (integral m e).
  - exists ds, [48], false, [48]. split_and!; try done; [by repeat constructor..|]. by rewrite app_nil_r, <- app_assoc.
  - exists ds, fs, false, [48]. split_and!; try done; [by repeat constructor|]. by rewrite !app_nil_r.
Qed.

Lemma cast_float_to_string_spec t bits :
  match decode t bits with
  | FNaN => cast_float_to_string t bits = Ok (Some (codes "NaN"))
  | FInf neg => cast_float_to_string t bits = Ok (Some (sign_text neg ++ codes "Infinity"))
  | FFin neg m e => exists s, cast_float_to_string t bits = Ok (Some s) /\ java_text (plain_range t bits) neg s
  end.
Proof.
  unfold cast_float_to_string, is_nan. destruct (decode t bits) as [|[]|neg m e] eqn:E; try done.
  - cbn [negb andb orb]. destruct (Z.eqb_spec (abs_bits t bits) 0) as [E0|]; [|by rewrite display_nan].
    exfalso. assert (D : decode t bits = FNaN) by done. unfold decode in D. rewrite E0 in D. destruct t; cbn in D; repeat case_match; done.
  - cbn [negb andb]. unfold plain_range. rewrite (andb_comm (_ <? _)).
    destruct ((LOWER_SCIENTIFIC_BOUND t <=? abs_bits t bits) && (abs_bits t bits <? UPPER_SCIENTIFIC_BOUND t) || (abs_bits t bits =? 0)) eqn:Ep.
    + eexists. split; [done|]. by apply plain_text.
    + assert (Eo : (UPPER_SCIENTIFIC_BOUND t <=? abs_bits t bits) || (abs_bits t bits <? LOWER_SCIENTIFIC_BOUND t) = true) by lia. rewrite Eo.
      destruct (format_upper_e_finite t bits neg m e E) as (d & fs & negx & xs & Hd & Hxs & Hxn & ->). pose proof Hd as [Hd1 Hfs]%Forall_cons.
      assert (digits [d]) by (by repeat constructor). case_bool_decide as Hf.
      * rewrite app_nil_l. rewrite existsb_app, sign_no by done. cbn [existsb orb]. assert (Hdot : (46 =? d) = false) by (unfold is_ascii_digit in Hd1; lia).
        rewrite Hdot, existsb_app, sign_no, digits_no by done. cbn [orb]. change (46 =? 69) with false. cbn [orb]. rewrite scientific_split by done.
        eexists. split; [done|]. exists [d], [48], negx, xs. split_and!; try done; [by repeat constructor|]. by rewrite <- app_assoc.
      * assert (Hp : existsb (Z.eqb 46) (sign_text neg ++ d :: (46 :: fs) ++ 69 :: sign_text negx ++ xs) = true).
        { rewrite existsb_app. cbn [existsb app]. change (46 =? 46) with true. by rewrite !orb_true_r. }
        rewrite Hp. eexists. split; [done|]. exists [d], fs, negx, xs. split_and!; try done.
Qed.

(** C34: The casts of floats to integers, in legacy and in ANSI mode (in the mode Try the dispatch leaves them to DataFusion), and to strings.
    Let z be the integer part of a finite float.  In legacy mode the result is z clamped to 32 bits, or to 64 for a BIGINT, and then wrapped to
    the type; NaN is 0, and an infinity is a limit of the 32 or 64 bits, wrapped in the same way.  In ANSI mode the result is z if it is in
    the range of the type and its absolute value is below 2^31 - 1, or 2^63 - 1 for a BIGINT, and an overflow error otherwise: so the largest
    INT and BIGINT and the two smallest are errors, while TINYINT and SMALLINT have their whole range; NaN and infinities are errors.
    As a string NaN and infinities have their names, and other floats the form of Java: a sign, digits, a point and digits, with no
    exponent for zeros and for absolute values from 0.001 to below 10000000, and otherwise one digit before the point and an exponent. *)
Theorem float_casts_correct t bits :
  (forall to_type mode,
     match decode t bits with
     | FFin neg m e => exists z, truncates neg m e z /\
         float_to_int t to_type mode bits
         = if is_ansi mode then
             if (Z.abs z <? 2 ^ (via_width to_type - 1) - 1) && bool_decide (in_s (int_width to_type) z) then Ok (Some z) else float_overflow t to_type bits
           else Ok (Some (swrap (int_width to_type) (clamp (via_width to_type) z)))
     | FInf neg =>
         float_to_int t to_type mode bits
         = if is_ansi mode then float_overflow t to_type bits
           else Ok (Some (swrap (int_width to_type) (if neg then - 2 ^ (via_width to_type - 1) else 2 ^ (via_width to_type - 1) - 1)))
     | FNaN => float_to_int t to_type mode bits = if is_ansi mode then float_overflow t to_type bits else Ok (Some 0)
     end) /\
  match decode t bits with
  | FNaN => cast_float_to_string t bits = Ok (Some (codes "NaN"))
  | FInf neg => cast_float_to_string t bits = Ok (Some (sign_text neg ++ codes "Infinity"))
  | FFin neg m e => exists s, cast_float_to_string t bits = Ok (Some s) /\ java_text (plain_range t bits) neg s
  end.
Proof. split; [intros; apply float_to_int_spec|apply cast_float_to_string_spec]. Qed.
End Texts.

(** * An instance *)

(** Floats printed by their integer part, enough of a printer for the laws *)
Module PlainFloats.
Definition some_digits_of (v : FloatVal) : text :=
  match v with
  | FNaN => codes "NaN"
  | FInf neg => sign_text neg ++ codes "inf"
  | FFin neg m e => sign_text neg ++ codes "7" ++ (if integral m e then [] else codes ".5")
  end.
#[export] Instance plain_text_ops : FloatText := {|
  display t bits := some_digits_of (decode t bits);
  format_e t bits := some_digits_of (decode t bits) ++ codes "e0";
  format_upper_e t bits := match decode t bits with FFin neg m e => sign_text neg ++ codes "7E9" | v => some_digits_of v end;
  display_value v := some_digits_of v;
  powi10 scale := FFin false (10 ^ Z.max 0 scale) 0;
|}.
#[export] Instance plain_text_laws : FloatTextLaws.
Proof.
  split; cbn.
  - intros t bits neg m e ->. exists [55], [53]. split_and!; try done; by repeat constructor.
  - by intros t bits ->.
  - intros t bits neg m e ->. exists 55, [], false, [57]. split_and!; try done; by repeat constructor.
Qed.
End PlainFloats.
Import PlainFloats.

(** 1e10 to a short, 2147483647.0 in ANSI mode, and their texts *)
Lemma float_casts_correct_witness :
  (exists z, truncates false (0x12A05F20000000) (-19) z /\ float_to_int F64 Int16 Legacy 0x4202A05F20000000 = Ok (Some (swrap 16 (clamp 32 z)))) /\
  exists s, cast_float_to_string F64 0x4202A05F20000000 = Ok (Some s) /\ java_text false false s.
Proof.
  pose proof (float_casts_correct F64 0x4202A05F20000000) as [Hi Hs]. split; [exact (Hi Int16 Legacy)|exact Hs].
Defined.

(** The test for an overflow in ANSI mode rejects the largest integer of the type, which the type has. *)
Example largest_int_rejected : float_to_int F64 Int32 Ansi 0x41DFFFFFFFC00000 = float_overflow F64 Int32 0x41DFFFFFFFC00000 /\
  float_to_int F64 Int32 Legacy 0x41DFFFFFFFC00000 = Ok (Some (2 ^ 31 - 1)).
Proof. by vm_compute. Qed.
