(* ===== verification/Temporal.v ===== *)
(** Truncation of dates and timestamps (src/native/spark-expr/src/kernels/temporal.rs, datetime_funcs/date_trunc.rs,
    timestamp_trunc.rs, extract_date_part.rs) and the preparation of timestamp columns for a time zone (utils.rs).

    The dates and times of chrono, and the time zones of Arrow and chrono, are operations of type classes.  A column is
    its slots; the message of an internal error is left out. *)

From S2P Require Import Prelude Casts Exprs Calendar.
From stdpp Require Import list strings.
Open Scope Z_scope.

(** * chrono *)

(** [Datelike] and [Timelike], with the subtraction of a [Duration] of seconds, which panics ([None]) out of range *)
Class DateTimeOps (T : Type) := {
  month : T -> Z;
  nanosecond : T -> Z;
  weekday : T -> Z;
  with_nanosecond : T -> Z -> option T;
  with_second : T -> Z -> option T;
  with_minute : T -> Z -> option T;
  with_hour : T -> Z -> option T;
  with_day0 : T -> Z -> option T;
  with_month0 : T -> Z -> option T;
  with_month : T -> Z -> option T;
  sub_seconds : T -> Z -> option T;
}.

(** [as_datetime] of Arrow for the three types the code uses, the time zones, [as_datetime_with_timezone] for
    microseconds, [from_local_datetime], which is [Some] for a single result, the offset of a zone in seconds at a UTC time, and
    the addition of an offset, which panics out of range; [timestamp] and [zoned_timestamp] are in nanoseconds. *)
Class Chrono := {
  NaiveDateTime : Type;
  #[global] naive_ops :: DateTimeOps NaiveDateTime;
  date_to_datetime : Z -> option NaiveDateTime;
  millis_to_datetime : Z -> option NaiveDateTime;
  micros_to_datetime : Z -> option NaiveDateTime;
  num_days_from_ce : NaiveDateTime -> Z;
  timestamp : NaiveDateTime -> Z;
  Tz : Type;
  tz_parse : text -> option Tz;
  DateTime : Tz -> Type;
  #[global] zoned_ops :: forall tz, DateTimeOps (DateTime tz);
  as_datetime_with_timezone : forall tz, Z -> option (DateTime tz);
  zoned_timestamp : forall tz, DateTime tz -> Z;
  from_local_datetime : forall tz, NaiveDateTime -> option (DateTime tz);
  offset_from_utc_datetime : Tz -> NaiveDateTime -> Z;
  add_offset : NaiveDateTime -> Z -> option NaiveDateTime;
}.

(** * Truncation of one date or time *)

(** In this part [None] is a [None] of chrono or a panic: the callers unwrap the result. *)
Section Trunc.
Context {T : Type} `{!DateTimeOps T}.

Definition trunc_date_to_microsec (dt : T) : option T := with_nanosecond dt (1000 * (nanosecond dt / 1000)).
Definition trunc_date_to_ms (dt : T) : option T := with_nanosecond dt (1000000 * (nanosecond dt / 1000000)).
Definition trunc_date_to_second (dt : T) : option T := with_nanosecond dt 0.
Definition trunc_date_to_minute (dt : T) : option T := d ← with_nanosecond dt 0; with_second d 0.
Definition trunc_date_to_hour (dt : T) : option T := d ← with_nanosecond dt 0; d ← with_second d 0; with_minute d 0.
Definition trunc_date_to_day (dt : T) : option T :=
  d ← with_nanosecond dt 0; d ← with_second d 0; d ← with_minute d 0; with_hour d 0.
Definition trunc_date_to_week (dt : T) : option T :=
  d ← sub_seconds dt (60 * 60 * 24 * weekday dt);
  d ← with_nanosecond d 0; d ← with_second d 0; d ← with_minute d 0; with_hour d 0.
Definition trunc_date_to_month (dt : T) : option T :=
  d ← with_nanosecond dt 0; d ← with_second d 0; d ← with_minute d 0; d ← with_hour d 0; with_day0 d 0.
Definition quarter_month (dt : T) : Z := 1 + 3 * ((month dt - 1) / 3).
Definition trunc_date_to_quarter (dt : T) : option T :=
  d ← with_nanosecond dt 0; d ← with_second d 0; d ← with_minute d 0; d ← with_hour d 0; d ← with_day0 d 0; with_month d (quarter_month d).
Definition trunc_date_to_year (dt : T) : option T :=
  d ← with_nanosecond dt 0; d ← with_second d 0; d ← with_minute d 0; d ← with_hour d 0; d ← with_day0 d 0; with_month0 d 0.

(** The function each arm of a [match] on the format calls *)
Definition trunc_to (u : TruncUnit) : T -> option T :=
  match u with
  | Year => trunc_date_to_year | Quarter => trunc_date_to_quarter | Month => trunc_date_to_month | Week => trunc_date_to_week
  | Day => trunc_date_to_day | Hour => trunc_date_to_hour | Minute => trunc_date_to_minute | Second => trunc_date_to_second
  | Millisecond => trunc_date_to_ms | Microsecond => trunc_date_to_microsec
  end.
End Trunc.

(** * Formats *)

(** [str::to_uppercase], for comparison with words of ASCII letters: besides the letters themselves only these characters have an
    upper case of ASCII letters, and the others are left as they are. *)
Definition to_uppercase (s : text) : text :=
  s ≫= fun c =>
    if (97 <=? c) && (c <=? 122) then [c - 32]
    else if c =? 0xdf then codes "SS" else if c =? 0x131 then codes "I" else if c =? 0x17f then codes "S"
    else if c =? 0xfb00 then codes "FF" else if c =? 0xfb01 then codes "FI" else if c =? 0xfb02 then codes "FL"
    else if c =? 0xfb03 then codes "FFI" else if c =? 0xfb04 then codes "FFL" else if (c =? 0xfb05) || (c =? 0xfb06) then codes "ST"
    else [c].

Definition one_of (words : list string) (s : text) : bool := existsb (fun w => bool_decide (codes w = s)) words.

Definition date_format (format : text) : option TruncUnit :=
  let s := to_uppercase format in
  if one_of ["YEAR"; "YYYY"; "YY"]%string s then Some Year
  else if one_of ["QUARTER"]%string s then Some Quarter
  else if one_of ["MONTH"; "MON"; "MM"]%string s then Some Month
  else if one_of ["WEEK"]%string s then Some Week
  else None.

Definition timestamp_format (format : text) : option TruncUnit :=
  let s := to_uppercase format in
  match date_format format with
  | Some u => Some u
  | None =>
      if one_of ["DAY"; "DD"]%string s then Some Day
      else if one_of ["HOUR"]%string s then Some Hour
      else if one_of ["MINUTE"]%string s then Some Minute
      else if one_of ["SECOND"]%string s then Some Second
      else if one_of ["MILLISECOND"]%string s then Some Millisecond
      else if one_of ["MICROSECOND"]%string s then Some Microsecond
      else None
  end.

(** A column of formats: the raw value and the validity of each slot, or dictionary keys into values *)
Inductive FormatColumn :=
  | Utf8Formats (a : list (text * bool))
  | DictFormats (keys : list (Z * bool)) (values : list (text * bool))
  | OtherDictFormats
  | OtherFormats.

(** [value(i)] for all [i]: it does not look at the nulls, and under a null a dictionary key may be out of bounds. *)
Definition format_values (formats : FormatColumn) : option (list text) :=
  match formats with
  | Utf8Formats a => Some a.*1
  | DictFormats keys values => Some ((fun k => default [] (values.*1 !! Z.to_nat k.1)) <$> keys)
  | OtherDictFormats | OtherFormats => None
  end.

(** * Columns *)

(** Columns as far as the code tells them apart; a time zone is its name, a dictionary has [i32] keys. *)
Inductive TemporalColumn :=
  | Date32 (a : PArray)
  | TimestampMicros (tz : option text) (a : PArray)
  | TimestampMillis (tz : option text) (a : PArray)
  | TimestampOther (tz : option text) (a : PArray)
  | TemporalDict (keys : list (option Z)) (values : TemporalColumn)
  | OtherTemporal.

(** The slots of a dictionary: null if the key or the value is *)
Definition dict_slots (keys : list (option Z)) (values : PArray) : list (option Z) :=
  (fun key : option Z => k ← key; x ← values !! Z.to_nat k; slot_value x) <$> keys.

Section Columns.
Context `{Chrono}.

Definition DAYS_TO_UNIX_EPOCH : Z := 719163.

Definition as_days_from_unix_epoch (dt : option NaiveDateTime) : SparkResult Z :=
  dt ← unwrap dt; Ok (swrap 32 (num_days_from_ce dt - DAYS_TO_UNIX_EPOCH)).

(** The UTC time in microseconds *)
Definition as_micros_from_unix_epoch_utc {tz} (dt : option (DateTime tz)) : SparkResult Z :=
  dt ← unwrap dt; Ok (zoned_timestamp tz dt / 1000).

(** * Dates *)

(** [as_datetime_with_op_single], which also is the body of the loop of [as_datetime_with_op] *)
Definition as_datetime_with_op_single (value : option Z) (op : NaiveDateTime -> SparkResult Z) : SparkResult (Z * bool) :=
  match value with
  | Some value => match date_to_datetime value with Some dt => v ← op dt; Ok (v, true) | None => Ok (0, false) end
  | None => Ok (0, false)
  end.
Definition as_datetime_with_op (a : PArray) (op : NaiveDateTime -> SparkResult Z) : SparkResult PArray :=
  mapM (fun x => as_datetime_with_op_single (slot_value x) op) a.

Definition date_op (u : TruncUnit) (dt : NaiveDateTime) : SparkResult Z := as_days_from_unix_epoch (trunc_to u dt).

Definition date_trunc (array : TemporalColumn) (format : text) : SparkResult TemporalColumn :=
  match array with
  | Date32 a =>
      match date_format format with Some u => a ← as_datetime_with_op a (date_op u); Ok (Date32 a) | None => Err SparkInternal end
  | _ => Err SparkInternal
  end.

Fixpoint date_trunc_dyn (array : TemporalColumn) (format : text) : SparkResult TemporalColumn :=
  match array with
  | TemporalDict keys values => truncated_values ← date_trunc_dyn values format; Ok (TemporalDict keys truncated_values)
  | _ => date_trunc array format
  end.

(** The loop of [date_trunc_array_fmt_helper!]: the format is looked at before the value. *)
Fixpoint date_trunc_array_fmt_helper (array : list (option Z)) (formats : list text) : SparkResult PArray :=
  match array, formats with
  | [], _ => Ok []
  | _ :: _, [] => Panic
  | v :: array, format :: formats =>
      x ← (match date_format format with Some u => as_datetime_with_op_single v (date_op u) | None => Err SparkInternal end);
      rest ← date_trunc_array_fmt_helper array formats;
      Ok (x :: rest)
  end.

Definition date_trunc_array_fmt_dyn (array : TemporalColumn) (formats : FormatColumn) : SparkResult TemporalColumn :=
  match array, format_values formats with
  | TemporalDict keys (Date32 a), Some fs => r ← date_trunc_array_fmt_helper (dict_slots keys a) fs; Ok (Date32 r)
  | Date32 a, Some fs => r ← date_trunc_array_fmt_helper (slot_value <$> a) fs; Ok (Date32 r)
  | _, _ => Err SparkInternal
  end.

(** * Timestamps *)

Definition as_timestamp_tz_with_op_single (value : option Z) (tz : Tz) (op : DateTime tz -> SparkResult Z) : SparkResult (Z * bool) :=
  match value with
  | Some value => match as_datetime_with_timezone tz value with Some time => v ← op time; Ok (v, true) | None => Err SparkInternal end
  | None => Ok (0, false)
  end.

Definition parse_tz (tz : text) : SparkResult Tz := match tz_parse tz with Some tz => Ok tz | None => Err SparkArrow end.

Definition as_timestamp_tz_with_op (a : PArray) (tz : text) (op : forall tz, DateTime tz -> SparkResult Z) : SparkResult PArray :=
  tz ← parse_tz tz;
  mapM (fun x => as_timestamp_tz_with_op_single (slot_value x) tz (op tz)) a.

Definition timestamp_op (u : TruncUnit) (tz : Tz) (dt : DateTime tz) : SparkResult Z := as_micros_from_unix_epoch_utc (trunc_to u dt).

(** The result has no time zone. *)
Definition timestamp_trunc (array : TemporalColumn) (format : text) : SparkResult TemporalColumn :=
  match array with
  | TimestampMicros (Some tz) a =>
      match timestamp_format format with
      | Some u => a ← as_timestamp_tz_with_op a tz (timestamp_op u); Ok (TimestampMicros None a)
      | None => Err SparkInternal
      end
  | _ => Err SparkInternal
  end.

Fixpoint timestamp_trunc_dyn (array : TemporalColumn) (format : text) : SparkResult TemporalColumn :=
  match array with
  | TemporalDict keys values => truncated_values ← timestamp_trunc_dyn values format; Ok (TemporalDict keys truncated_values)
  | _ => timestamp_trunc array format
  end.

Fixpoint timestamp_trunc_loop (tz : Tz) (array : list (option Z)) (formats : list text) : SparkResult PArray :=
  match array, formats with
  | [], _ => Ok []
  | _ :: _, [] => Panic
  | v :: array, format :: formats =>
      x ← (match timestamp_format format with Some u => as_timestamp_tz_with_op_single v tz (timestamp_op u tz) | None => Err SparkInternal end);
      rest ← timestamp_trunc_loop tz array formats;
      Ok (x :: rest)
  end.

(** [timestamp_trunc_array_fmt_helper!]: the lengths are asserted to be equal. *)
Definition timestamp_trunc_array_fmt_helper (array : list (option Z)) (formats : list text) (data_tz : option text) : SparkResult TemporalColumn :=
  if (length array =? length formats)%nat then
    match data_tz with
    | Some tz => tz ← parse_tz tz; r ← timestamp_trunc_loop tz array formats; Ok (TimestampMicros None r)
    | None => Err SparkInternal
    end
  else Panic.

(** Dictionaries are downcast with [unwrap]. *)
Definition timestamp_trunc_array_fmt_dyn (array : TemporalColumn) (formats : FormatColumn) : SparkResult TemporalColumn :=
  match array, formats with
  | _, OtherFormats => Err SparkInternal
  | TemporalDict keys (TimestampMicros tz a), _ =>
      fs ← unwrap (format_values formats); timestamp_trunc_array_fmt_helper (dict_slots keys a) fs tz
  | TemporalDict _ _, _ => Panic
  | TimestampMicros tz a, _ => fs ← unwrap (format_values formats); timestamp_trunc_array_fmt_helper (slot_value <$> a) fs tz
  | _, _ => Err SparkInternal
  end.

(** * Time zones of columns (utils.rs) *)

Inductive ToType := ToUtf8 | ToDate32 | ToTimestampTz | ToOtherType.

Definition text_type (to_type : option ToType) : bool := match to_type with Some (ToUtf8 | ToDate32) => true | _ => false end.

(** [try_unary]: the closure is applied to valid slots, in order. *)
Definition try_unary (f : Z -> DFResult Z) (a : PArray) : DFResult PArray :=
  mapM (fun x => match slot_value x with Some v => v ← f v; Ok (v, true) | None => Ok (0, false) end) a.

Definition parse_comet_tz (tz : text) : DFResult Tz := match tz_parse tz with Some tz => Ok tz | None => Err ArrowError end.

(** A value in the local time of [tz], of [unit] nanoseconds: not a datetime is an error, a local time that does not exist or is
    ambiguous is a panic. *)
Definition local_to_utc (to_datetime : Z -> option NaiveDateTime) (unit : Z) (tz : Tz) (value : Z) : DFResult Z :=
  match to_datetime value with
  | Some local_datetime => datetime ← unwrap (from_local_datetime tz local_datetime); Ok (zoned_timestamp tz datetime / unit)
  | None => Err ArrowError
  end.

Definition timestamp_ntz_to_timestamp (array : TemporalColumn) (tz : text) (to_timezone : option text) : DFResult TemporalColumn :=
  match tz with
  | [] => Panic
  | _ =>
      match array with
      | TimestampMicros None a => tz ← parse_comet_tz tz; a ← try_unary (local_to_utc micros_to_datetime 1000 tz) a; Ok (TimestampMicros to_timezone a)
      | TimestampMillis None a => tz ← parse_comet_tz tz; a ← try_unary (local_to_utc millis_to_datetime 1000000 tz) a; Ok (TimestampMillis to_timezone a)
      | _ => Ok array
      end
  end.

Definition utc_to_local (tz : Tz) (value : Z) : DFResult Z :=
  match micros_to_datetime value with
  | Some datetime => local ← unwrap (add_offset datetime (offset_from_utc_datetime tz datetime)); Ok (timestamp local / 1000)
  | None => Err ArrowError
  end.

(** Every timestamp column is downcast to microseconds, which panics for the other units. *)
Definition pre_timestamp_cast (array : TemporalColumn) (timezone : text) : DFResult TemporalColumn :=
  match timezone with
  | [] => Panic
  | _ =>
      match array with
      | TimestampMicros _ a => tz ← parse_comet_tz timezone; a ← try_unary (utc_to_local tz) a; Ok (TimestampMicros None a)
      | TimestampMillis _ _ | TimestampOther _ _ => Panic
      | _ => Ok array
      end
  end.

Fixpoint array_with_timezone (array : TemporalColumn) (timezone : text) (to_type : option ToType) : DFResult TemporalColumn :=
  match array with
  | TimestampMicros None _ | TimestampMillis None _ | TimestampOther None _ =>
      match timezone, to_type with
      | [], _ => Panic
      | _, Some (ToUtf8 | ToDate32) => Ok array
      | _, Some ToTimestampTz => timestamp_ntz_to_timestamp array timezone (Some timezone)
      | _, _ => Panic
      end
  | TimestampMicros (Some _) a =>
      match timezone with
      | [] => Panic
      | _ => let array := TimestampMicros (Some timezone) a in if text_type to_type then pre_timestamp_cast array timezone else Ok array
      end
  | TimestampMillis (Some _) a =>
      match timezone with
      | [] => Panic
      | _ => let array := TimestampMillis (Some timezone) a in if text_type to_type then pre_timestamp_cast array timezone else Ok array
      end
  | TemporalDict keys values =>
      match values with
      | TimestampMicros _ _ => values ← array_with_timezone values timezone to_type; Ok (TemporalDict keys values)
      | TimestampMillis _ _ | TimestampOther _ _ => Panic
      | _ => Ok array
      end
  | _ => Ok array
  end.

(** * The expressions *)

Inductive FormatArg := ScalarFormat (format : option text) | ColumnFormat (formats : FormatColumn).

Definition external {A} (r : SparkResult A) : DFResult A := match r with Ok a => Ok a | Err e => Err (External e) | Panic => Panic end.

(** [SparkDateTrunc::invoke_with_args]; [None] is a scalar date. *)
Definition date_trunc_invoke (date : option TemporalColumn) (format : FormatArg) : DFResult TemporalColumn :=
  match date, format with
  | Some date, ScalarFormat (Some format) => external (date_trunc_dyn date format)
  | Some date, ColumnFormat formats => external (date_trunc_array_fmt_dyn date formats)
  | _, _ => Err Execution
  end.

(** [TimestampTruncExpr::evaluate] *)
Definition timestamp_trunc_evaluate (timezone : text) (timestamp : option TemporalColumn) (format : FormatArg) : DFResult TemporalColumn :=
  match timestamp, format with
  | Some ts, ScalarFormat (Some format) =>
      ts ← array_with_timezone ts timezone (Some ToTimestampTz); external (timestamp_trunc_dyn ts format)
  | Some ts, ColumnFormat formats =>
      ts ← array_with_timezone ts timezone (Some ToTimestampTz); external (timestamp_trunc_array_fmt_dyn ts formats)
  | _, _ => Err Execution
  end.

(** [invoke_with_args] of SparkHour, SparkMinute and SparkSecond; [date_part] is the kernel of Arrow for the part. *)
Definition extract_date_part_invoke {A} (date_part : TemporalColumn -> DFResult A) (timezone : text) (args : list (option TemporalColumn)) : DFResult A :=
  match args with
  | [Some array] => array ← array_with_timezone array timezone (Some ToTimestampTz); date_part array
  | [None] => Err Execution
  | _ => Err Internal
  end.
End Columns.
