(* ===== verification/TemporalProps.v ===== *)
(** Correctness of the truncation of dates and timestamps (Temporal.v): the result is the latest start of the unit, in the local
    time of the zone as long as its offset does not change in between; and what happens when it does. *)

From S2P Require Import Prelude Casts Exprs Calendar Temporal.
From stdpp Require Import list strings.
Open Scope Z_scope.

(** * What chrono promises *)

(** A type of datetimes is a range of instants in nanoseconds, shown on a clock that is [offset] ahead.  Setting a field resolves the
    new reading of the clock: the result is [None] if it is no valid reading or belongs to no or to several instants. *)
Section Laws.
Context {T : Type} `{!DateTimeOps T} (instant : T -> Z) (offset : Z -> Z) (lo hi : Z).

Definition shown (t : T) : Civil := civil_of (instant t + offset (instant t)).
Definition resolves (c : Civil) (t : T) : Prop := shown t = c /\ forall t', shown t' = c -> t' = t.

Definition set_nano (v : Z) (c : Civil) : Civil := MkCivil (c_year c) (c_month c) (c_day c) (c_hour c) (c_minute c) (c_second c) v.
Definition set_second (v : Z) (c : Civil) : Civil := MkCivil (c_year c) (c_month c) (c_day c) (c_hour c) (c_minute c) v (c_nano c).
Definition set_minute (v : Z) (c : Civil) : Civil := MkCivil (c_year c) (c_month c) (c_day c) (c_hour c) v (c_second c) (c_nano c).
Definition set_hour (v : Z) (c : Civil) : Civil := MkCivil (c_year c) (c_month c) (c_day c) v (c_minute c) (c_second c) (c_nano c).
Definition set_day (v : Z) (c : Civil) : Civil := MkCivil (c_year c) (c_month c) v (c_hour c) (c_minute c) (c_second c) (c_nano c).
Definition set_month (v : Z) (c : Civil) : Civil := MkCivil (c_year c) v (c_day c) (c_hour c) (c_minute c) (c_second c) (c_nano c).

Class DateTimeLaws := {
  instant_inj : forall t t', instant t = instant t' -> t = t';
  instant_range : forall i, (exists t, instant t = i) <-> lo <= i <= hi;
  month_spec : forall t, month t = c_month (shown t);
  nanosecond_spec : forall t, nanosecond t = c_nano (shown t);
  weekday_spec : forall t, weekday t = weekday_of (shown t);
  with_nanosecond_spec : forall t v t', 0 <= v < NANOS -> with_nanosecond t v = Some t' <-> resolves (set_nano v (shown t)) t';
  with_second_spec : forall t v t', with_second t v = Some t' <-> resolves (set_second v (shown t)) t';
  with_minute_spec : forall t v t', with_minute t v = Some t' <-> resolves (set_minute v (shown t)) t';
  with_hour_spec : forall t v t', with_hour t v = Some t' <-> resolves (set_hour v (shown t)) t';
  with_day0_spec : forall t v t', with_day0 t v = Some t' <-> resolves (set_day (v + 1) (shown t)) t';
  with_month0_spec : forall t v t', with_month0 t v = Some t' <-> resolves (set_month (v + 1) (shown t)) t';
  with_month_spec : forall t v t', with_month t v = Some t' <-> resolves (set_month v (shown t)) t';
  sub_seconds_spec : forall t s t', sub_seconds t s = Some t' <-> instant t' = instant t - s * NANOS;
}.
End Laws.
Arguments DateTimeLaws T {_} instant offset lo hi.
Arguments instant_inj {T _ instant offset lo hi _}.
Arguments instant_range {T _ instant offset lo hi _}.
Arguments month_spec {T _ instant offset lo hi _}.
Arguments nanosecond_spec {T _ instant offset lo hi _}.
Arguments weekday_spec {T _ instant offset lo hi _}.
Arguments with_nanosecond_spec {T _ instant offset lo hi _}.
Arguments with_second_spec {T _ instant offset lo hi _}.
Arguments with_minute_spec {T _ instant offset lo hi _}.
Arguments with_hour_spec {T _ instant offset lo hi _}.
Arguments with_day0_spec {T _ instant offset lo hi _}.
Arguments with_month0_spec {T _ instant offset lo hi _}.
Arguments with_month_spec {T _ instant offset lo hi _}.
Arguments sub_seconds_spec {T _ instant offset lo hi _}.

(** The offset is [o] at the instants between two readings of the clock, and no other instant shows a reading between them. *)
Definition settled (offset : Z -> Z) (o m n : Z) : Prop :=
  (forall i, m - o <= i <= n - o -> offset i = o) /\ (forall i, m <= i + offset i <= n -> offset i = o).

Lemma settled_fixed o m n : settled (fun _ => o) o m n.
Proof. done. Qed.

(** * Truncation of one datetime *)

(** A start of a unit is one of every finer unit. *)
Definition finer (u' u : TruncUnit) : Prop := forall c, civil_ok c -> unit_start u c -> unit_start u' c.

Lemma trunc_local_le u n : trunc_local u n <= n.
Proof. by destruct (trunc_local_latest u n) as (_ & ? & _). Qed.

Lemma trunc_local_finer u' u k n : finer u' u -> trunc_local u n <= k -> trunc_local u n <= trunc_local u' k.
Proof.
  intros Hf Hk. destruct (trunc_local_latest u n) as (Hs & _ & _), (trunc_local_latest u' k) as (_ & _ & Hmax).
  apply Hmax; [|done]. apply Hf; [apply civil_of_ok|done].
Qed.

Lemma civil_of_trunc u k : civil_of (trunc_local u k) = trunc_civil u (civil_of k).
Proof. apply civil_of_local, trunc_civil_ok, civil_of_ok. Qed.

Lemma midnight_fields c : civil_ok c -> midnight c -> c_hour c = 0 /\ c_minute c = 0 /\ c_second c = 0 /\ c_nano c = 0.
Proof. unfold civil_ok, midnight, time_nanos, NANOS. lia. Qed.

Lemma finer_subday u' u : u' ∈ [Second; Minute; Hour; Day] -> u ∈ [Year; Quarter; Month; Week; Day] -> finer u' u.
Proof.
  intros Hu' Hu c Hc Hs. assert (Hm : midnight c).
  { apply elem_of_cons in Hu as [->|Hu]; [by destruct Hs as (? & ? & ?)|]. repeat (apply elem_of_cons in Hu as [->|Hu]; [by cbn in Hs; tauto|]).
    by apply elem_of_nil in Hu. }
  pose proof (midnight_fields c Hc Hm). repeat (apply elem_of_cons in Hu' as [->|Hu']; [by cbn; tauto|]). by apply elem_of_nil in Hu'.
Qed.

Lemma trunc_local_day k : trunc_local Day k = k - k mod DAY_NANOS.
Proof. unfold trunc_local. rewrite (trunc_civil_width Day DAY_NANOS) by (done || apply civil_of_ok). by rewrite local_civil_of. Qed.

(** The start of the week is the start of the day as many days before as the day is after Monday. *)
Lemma trunc_local_week n : 0 <= weekday_of (civil_of n) /\
  trunc_local Day (n - weekday_of (civil_of n) * DAY_NANOS) = trunc_local Week n.
Proof.
  pose proof (civil_of_ok n) as Hc. pose proof (local_civil_of n) as Hl. pose proof (time_nanos_bounds _ Hc) as Ht.
  rewrite trunc_local_day. unfold trunc_local. destruct (civil_of n) as [y mo d h mi s ns] eqn:E. cbn [trunc_civil]. rewrite local_civil_of.
  unfold local_nanos in Hl. cbn [c_year c_month c_day] in Hl.
  set (w := weekday_of _). assert (0 <= w) by (apply Z.mod_pos_bound; lia). split; [done|].
  set (tod := time_nanos _) in *. set (dn := day_number y mo d) in *. replace (n - w * DAY_NANOS) with (tod + (dn - EPOCH - w) * DAY_NANOS) by lia.
  rewrite Z.mod_add, Z.mod_small by (done || lia). lia.
Qed.

Section Truncation.
Context {T : Type} `{!DateTimeOps T} {instant : T -> Z} {offset : Z -> Z} {lo hi : Z} `{!DateTimeLaws T instant offset lo hi}.
Context (m n o : Z) (Hset : settled offset o m n) (Hlo : lo <= m - o) (Hhi : n - o <= hi).

(** [t] shows the reading [k] of the clock, between [m] and [n]. *)
Definition at_reading (k : Z) (t : T) : Prop := m <= k <= n /\ instant t = k - o.

Lemma at_reading_shown k t : at_reading k t -> shown instant offset t = civil_of k.
Proof. intros [Hk Ht]. unfold shown. destruct Hset as [H1 _]. rewrite Ht, H1 by lia. f_equal. lia. Qed.

Lemma at_reading_exists k : m <= k <= n -> exists t, at_reading k t.
Proof. intros Hk. assert (Hr : lo <= k - o <= hi) by lia. apply instant_range in Hr as [t Ht]. by exists t. Qed.

Lemma at_reading_resolves k t : at_reading k t -> resolves instant offset (civil_of k) t.
Proof.
  intros Ht. split; [by apply at_reading_shown|]. intros t' Hs. apply instant_inj. destruct Ht as [Hk ->]. destruct Hset as [_ H2].
  unfold shown in Hs. apply (f_equal local_nanos) in Hs. rewrite !local_civil_of in Hs. rewrite (H2 (instant t')) in Hs by lia. lia.
Qed.

(** Setting a field, which takes the reading [k] to the start of the unit [u] *)
Lemma set_field (w : T -> Z -> option T) (set : Civil -> Civil) v u k t :
  (forall t', w t v = Some t' <-> resolves instant offset (set (shown instant offset t)) t') -> at_reading k t ->
  set (civil_of k) = trunc_civil u (civil_of k) -> m <= trunc_local u k ->
  exists t' : T, w t v = Some t' /\ at_reading (trunc_local u k) t'.
Proof.
  intros Hw Ht Hset' Hm. pose proof (trunc_local_le u k). destruct (at_reading_exists (trunc_local u k)) as [t' Ht']; [destruct Ht; lia|].
  exists t'. split; [|done]. apply Hw. rewrite (at_reading_shown k t Ht), Hset', <- civil_of_trunc. by apply at_reading_resolves.
Qed.

(** The same from the start of a finer unit, for fields that depend on the datetime *)
Lemma set_coarser (w : T -> Z -> option T) (set : Civil -> Civil) v u' u k t :
  (forall t', w t v = Some t' <-> resolves instant offset (set (shown instant offset t)) t') -> at_reading (trunc_local u' k) t ->
  (forall c, civil_ok c -> trunc_civil u (trunc_civil u' c) = trunc_civil u c) ->
  set (trunc_civil u' (civil_of k)) = trunc_civil u (civil_of k) -> m <= trunc_local u k ->
  exists t' : T, w t v = Some t' /\ at_reading (trunc_local u k) t'.
Proof.
  intros Hw Ht Hc Hs Hm. assert (Hu : trunc_local u (trunc_local u' k) = trunc_local u k).
  { unfold trunc_local at 1. rewrite civil_of_trunc, Hc by apply civil_of_ok. unfold trunc_local. reflexivity. }
  rewrite <- Hu in Hm |- *. eapply set_field; [exact Hw|done| |done]. rewrite civil_of_trunc, Hs, Hc by apply civil_of_ok. done.
Qed.

Ltac trunc_eq := try intros []; try intros _; cbn; reflexivity.

Lemma to_second k t : at_reading k t -> m <= trunc_local Second k -> exists t', with_nanosecond t 0 = Some t' /\ at_reading (trunc_local Second k) t'.
Proof. intros. eapply (set_field with_nanosecond (set_nano 0)); [|done| |done]; [intros; by apply with_nanosecond_spec|by destruct (civil_of k)]. Qed.

(** The first steps of all truncations of a day or longer *)
Lemma to_day k t : at_reading k t -> m <= trunc_local Day k ->
  exists t', trunc_date_to_day t = Some t' /\ at_reading (trunc_local Day k) t'.
Proof.
  intros Ht Hm. unfold trunc_date_to_day.
  assert (Hf : forall u, finer u Day -> m <= trunc_local u k).
  { intros u Hu. pose proof (trunc_local_finer u Day k k Hu (trunc_local_le Day k)). lia. }
  destruct (to_second k t Ht) as (t1 & -> & Ht1); [apply Hf, finer_subday; set_solver|]. cbn.
  destruct (set_coarser with_second (set_second 0) 0 Second Minute k t1) as (t2 & -> & Ht2); [intros; by apply with_second_spec|done|trunc_eq|by destruct (civil_of k)|apply Hf, finer_subday; set_solver|]. cbn.
  destruct (set_coarser with_minute (set_minute 0) 0 Minute Hour k t2) as (t3 & -> & Ht3); [intros; by apply with_minute_spec|done|trunc_eq|by destruct (civil_of k)|apply Hf, finer_subday; set_solver|]. cbn.
  apply (set_coarser with_hour (set_hour 0) 0 Hour Day k t3); [intros; by apply with_hour_spec|done|trunc_eq|by destruct (civil_of k)|done].
Qed.

(** Truncations of a day or longer start with [trunc_date_to_day]. *)
Lemma trunc_date_via_day (t : T) (f : T -> option T) :
  (d ← with_nanosecond t 0; d ← with_second d 0; d ← with_minute d 0; d ← with_hour d 0; f d) = (d ← trunc_date_to_day t; f d).
Proof.
  unfold trunc_date_to_day. destruct (with_nanosecond t 0) as [t1|]; [|done]. cbn. destruct (with_second t1 0) as [t2|]; [|done]. cbn.
  by destruct (with_minute t2 0).
Qed.

Lemma finer_month u : u ∈ [Year; Quarter; Month] -> finer Month u.
Proof.
  intros Hu c _ Hs. repeat (apply elem_of_cons in Hu as [->|Hu]; [by cbn in *; tauto|]). by apply elem_of_nil in Hu.
Qed.

Lemma to_month t : at_reading n t -> m <= trunc_local Month n ->
  exists t', trunc_date_to_month t = Some t' /\ at_reading (trunc_local Month n) t'.
Proof.
  intros Ht Hm. unfold trunc_date_to_month. rewrite trunc_date_via_day.
  assert (Hday : finer Day Month) by (apply finer_subday; set_solver).
  destruct (to_day n t Ht) as (t1 & -> & Ht1).
  { pose proof (trunc_local_finer Day Month n n Hday (trunc_local_le Month n)). lia. }
  cbn. apply (set_coarser with_day0 (set_day (0 + 1)) 0 Day Month n t1); [intros; by apply with_day0_spec|done|trunc_eq|by destruct (civil_of n)|done].
Qed.

Lemma to_quarter t : at_reading n t -> m <= trunc_local Quarter n ->
  exists t', trunc_date_to_quarter t = Some t' /\ at_reading (trunc_local Quarter n) t'.
Proof.
  intros Ht Hm. assert (E : trunc_date_to_quarter t = (d ← trunc_date_to_month t; with_month d (quarter_month d))).
  { unfold trunc_date_to_quarter, trunc_date_to_month. rewrite !trunc_date_via_day. by destruct (trunc_date_to_day t). }
  rewrite E. assert (Hf : finer Month Quarter) by (apply finer_month; set_solver).
  destruct (to_month t Ht) as (t1 & -> & Ht1).
  { pose proof (trunc_local_finer Month Quarter n n Hf (trunc_local_le Quarter n)). lia. }
  cbn. apply (set_coarser with_month (set_month (quarter_month t1)) (quarter_month t1) Month Quarter n t1);
    [intros; by apply with_month_spec|done|trunc_eq| |done].
  unfold quarter_month. rewrite (month_spec t1), (at_reading_shown _ _ Ht1), civil_of_trunc. by destruct (civil_of n).
Qed.

Lemma to_year t : at_reading n t -> m <= trunc_local Year n ->
  exists t', trunc_date_to_year t = Some t' /\ at_reading (trunc_local Year n) t'.
Proof.
  intros Ht Hm. assert (E : trunc_date_to_year t = (d ← trunc_date_to_month t; with_month0 d 0)).
  { unfold trunc_date_to_year, trunc_date_to_month. rewrite !trunc_date_via_day. by destruct (trunc_date_to_day t). }
  rewrite E. assert (Hf : finer Month Year) by (apply finer_month; set_solver).
  destruct (to_month t Ht) as (t1 & -> & Ht1).
  { pose proof (trunc_local_finer Month Year n n Hf (trunc_local_le Year n)). lia. }
  cbn. apply (set_coarser with_month0 (set_month (0 + 1)) 0 Month Year n t1); [intros; by apply with_month0_spec|done|trunc_eq|by destruct (civil_of n)|done].
Qed.

Lemma to_week t : at_reading n t -> m <= trunc_local Week n ->
  exists t', trunc_date_to_week t = Some t' /\ at_reading (trunc_local Week n) t'.
Proof.
  intros Ht Hm. destruct (trunc_local_week n) as [Hw E]. rewrite <- E in Hm |- *. unfold trunc_date_to_week.
  rewrite (weekday_spec t), (at_reading_shown _ _ Ht). set (w := weekday_of (civil_of n)) in *.
  pose proof (trunc_local_le Day (n - w * DAY_NANOS)).
  destruct (at_reading_exists (n - w * DAY_NANOS)) as [t1 Ht1]; [unfold DAY_NANOS, NANOS in *; lia|].
  assert (Hs : sub_seconds t (60 * 60 * 24 * w) = Some t1).
  { apply sub_seconds_spec. destruct Ht as [_ ->], Ht1 as [_ ->]. unfold DAY_NANOS. lia. }
  rewrite Hs. cbn. by apply to_day.
Qed.

(** Units of less than a day *)
Lemma to_part u t : at_reading n t -> unit_width u <> None -> u <> Day -> m <= trunc_local u n ->
  exists t', trunc_to u t = Some t' /\ at_reading (trunc_local u n) t'.
Proof.
  intros Ht Hu Hd Hm.
  assert (Hf : forall u', finer u' u -> m <= trunc_local u' n).
  { intros u' Hu'. pose proof (trunc_local_finer u' u n n Hu' (trunc_local_le u n)). lia. }
  pose proof (civil_of_ok n) as (_ & _ & _ & _ & Hn).
  assert (Hn0 : nanosecond t = c_nano (civil_of n)) by by rewrite nanosecond_spec, (at_reading_shown _ _ Ht).
  destruct u; try done; cbn -[trunc_local].
  - unfold trunc_date_to_hour. destruct (to_second n t Ht) as (t1 & -> & Ht1); [by apply Hf; intros ?; cbn; tauto|]. cbn -[trunc_local].
    destruct (set_coarser with_second (set_second 0) 0 Second Minute n t1) as (t2 & -> & Ht2);
      [intros; by apply with_second_spec|done|trunc_eq|by destruct (civil_of n)|by apply Hf; intros ?; cbn; tauto|]. cbn -[trunc_local].
    apply (set_coarser with_minute (set_minute 0) 0 Minute Hour n t2); [intros; by apply with_minute_spec|done|trunc_eq|by destruct (civil_of n)|done].
  - unfold trunc_date_to_minute. destruct (to_second n t Ht) as (t1 & -> & Ht1); [by apply Hf; intros ?; cbn; tauto|]. cbn -[trunc_local].
    apply (set_coarser with_second (set_second 0) 0 Second Minute n t1); [intros; by apply with_second_spec|done|trunc_eq|by destruct (civil_of n)|done].
  - by apply to_second.
  - unfold trunc_date_to_ms. rewrite Hn0. eapply (set_field with_nanosecond (set_nano _)); [|done| |done];
      [intros; apply with_nanosecond_spec; unfold NANOS in *; lia|by destruct (civil_of n)].
  - unfold trunc_date_to_microsec. rewrite Hn0. eapply (set_field with_nanosecond (set_nano _)); [|done| |done];
      [intros; apply with_nanosecond_spec; unfold NANOS in *; lia|by destruct (civil_of n)].
Qed.

(** Truncation to any unit gives the start of the unit on the clock. *)
Lemma trunc_to_spec u t : at_reading n t -> m = trunc_local u n -> exists t', trunc_to u t = Some t' /\ at_reading m t'.
Proof.
  intros Ht Hm. cut (exists t', trunc_to u t = Some t' /\ at_reading (trunc_local u n) t'); [by rewrite <- Hm|].
  destruct u; [apply to_year|apply to_quarter|apply to_month|apply to_week|apply to_day|apply to_part..]; done || lia.
Qed.
End Truncation.

(** * Columns *)

(** The datetimes of chrono and Arrow: one range of instants, in UTC without a zone; the offset of a zone is in whole seconds. *)
Class ChronoLaws `{Chrono} := {
  min_nanos : Z;
  max_nanos : Z;
  min_nanos_bound : - 2 ^ 31 * DAY_NANOS <= min_nanos;
  #[global] naive_laws :: DateTimeLaws NaiveDateTime timestamp (fun _ => 0) min_nanos max_nanos;
  date_to_datetime_spec : forall v t, date_to_datetime v = Some t <-> timestamp t = v * DAY_NANOS;
  millis_to_datetime_spec : forall v t, millis_to_datetime v = Some t <-> timestamp t = v * 10 ^ 6;
  micros_to_datetime_spec : forall v t, micros_to_datetime v = Some t <-> timestamp t = v * 10 ^ 3;
  num_days_from_ce_spec : forall t, num_days_from_ce t = timestamp t / DAY_NANOS + EPOCH;
  tz_offset : Tz -> Z -> Z;
  tz_offset_seconds : forall tz i, tz_offset tz i mod NANOS = 0;
  #[global] zoned_laws :: forall tz, DateTimeLaws (DateTime tz) (zoned_timestamp tz) (tz_offset tz) min_nanos max_nanos;
  as_datetime_with_timezone_spec : forall tz v t, as_datetime_with_timezone tz v = Some t <-> zoned_timestamp tz t = v * 10 ^ 3;
  from_local_datetime_spec : forall tz l t,
    from_local_datetime tz l = Some t <-> resolves (zoned_timestamp tz) (tz_offset tz) (shown timestamp (fun _ => 0) l) t;
  offset_from_utc_datetime_spec : forall tz t, offset_from_utc_datetime tz t * NANOS = tz_offset tz (timestamp t);
  add_offset_spec : forall t s t', add_offset t s = Some t' <-> timestamp t' = timestamp t + s * NANOS;
}.

Section Columns.
Context `{ChronoLaws}.

Definition representable (i : Z) : bool := (min_nanos <=? i) && (i <=? max_nanos).

(** A date is truncated to the latest start of the unit; nulls and dates chrono does not have become null. *)
Definition date_truncated (u : TruncUnit) (x y : Z * bool) : Prop :=
  if x.2 && representable (x.1 * DAY_NANOS) then y.2 = true /\ latest_start u (x.1 * DAY_NANOS) (y.1 * DAY_NANOS) else y = (0, false).

(** The start of the unit is a date chrono has, too. *)
Definition date_safe (u : TruncUnit) (x : Z * bool) : Prop :=
  in_s 32 x.1 /\ (x.2 && representable (x.1 * DAY_NANOS) = true -> min_nanos <= trunc_local u (x.1 * DAY_NANOS)).

Lemma date_format_units format u : date_format format = Some u -> u ∈ [Year; Quarter; Month; Week; Day].
Proof. unfold date_format. intros E. repeat case_match; simplify_eq; set_solver. Qed.

Lemma trunc_local_multiple u' u w n : finer u' u -> unit_width u' = Some w -> trunc_local u n mod w = 0.
Proof.
  intros Hf Hw. destruct (trunc_local_latest u n) as [Hs _]. apply Hf in Hs; [|apply civil_of_ok].
  rewrite (unit_start_width u' w) in Hs by (done || apply civil_of_ok). by rewrite local_civil_of in Hs.
Qed.

Lemma date_op_spec u x : u ∈ [Year; Quarter; Month; Week; Day] -> date_safe u x ->
  exists y, as_datetime_with_op_single (slot_value x) (date_op u) = Ok y /\ date_truncated u x y.
Proof.
  intros Hu [Hin Hsafe]. unfold as_datetime_with_op_single, slot_value, date_truncated in *. destruct x as [v []]; cbn in *; [|by eauto].
  destruct (representable (v * DAY_NANOS)) eqn:Hr.
  - specialize (Hsafe eq_refl). apply andb_true_iff in Hr as [Hlo%Z.leb_le Hhi%Z.leb_le].
    destruct (proj2 (instant_range (instant := timestamp) (v * DAY_NANOS)) (conj Hlo Hhi)) as [t Ht].
    rewrite (proj2 (date_to_datetime_spec v t) Ht). set (m := trunc_local u (v * DAY_NANOS)) in *.
    destruct (trunc_to_spec (instant := timestamp) m (v * DAY_NANOS) 0) with (u := u) (t := t) as (t' & Ht' & [_ Hi]); [done|lia..| |done|].
    { pose proof (trunc_local_le u (v * DAY_NANOS)). split; [lia|]. lia. }
    unfold date_op, as_days_from_unix_epoch. rewrite Ht'. cbn. rewrite num_days_from_ce_spec, Hi, Z.sub_0_r.
    assert (Hf : finer Day u) by (apply finer_subday; [by repeat constructor|done]).
    pose proof (trunc_local_multiple Day u DAY_NANOS (v * DAY_NANOS) Hf eq_refl) as Hmod. fold m in Hmod.
    assert (Hm : m = m / DAY_NANOS * DAY_NANOS) by (rewrite Z.mul_comm; by apply Z.div_exact).
    assert (Hd : swrap 32 (m / DAY_NANOS + EPOCH - DAYS_TO_UNIX_EPOCH) = m / DAY_NANOS).
    { replace (m / DAY_NANOS + EPOCH - DAYS_TO_UNIX_EPOCH) with (m / DAY_NANOS) by (unfold EPOCH, DAYS_TO_UNIX_EPOCH; lia).
      pose proof (trunc_local_le u (v * DAY_NANOS)) as Hle. fold m in Hle. pose proof min_nanos_bound.
      apply swrap_small; [lia|]. unfold in_s, DAY_NANOS, NANOS in *. lia. }
    rewrite Hd. eexists. split; [done|]. split; [done|]. cbn [fst]. rewrite <- Hm. apply trunc_local_latest.
  - destruct (date_to_datetime v) as [t|] eqn:E; [|by eauto]. apply date_to_datetime_spec in E.
    destruct (proj1 (instant_range (instant := timestamp) (v * DAY_NANOS)) (ex_intro _ t E)) as [Hlo Hhi].
    unfold representable in Hr. rewrite (proj2 (Z.leb_le _ _) Hlo), (proj2 (Z.leb_le _ _) Hhi) in Hr. done.
Qed.

Lemma date_trunc_loop us fs a : mapM date_format fs = Some us -> Forall2 date_safe us a ->
  exists a', date_trunc_array_fmt_helper (slot_value <$> a) fs = Ok a' /\ Forall2 (fun ux y => date_truncated ux.1 ux.2 y) (zip us a) a'.
Proof.
  intros Hfs HF. revert fs Hfs. induction HF as [|u x us a Hx HF IH]; intros fs Hfs; [by exists []|].
  destruct fs as [|f fs]; [done|]. cbn in Hfs. destruct (date_format f) as [u'|] eqn:Hf; [|done]. cbn in Hfs.
  destruct (mapM date_format fs) as [us'|] eqn:Hus; [|done]. injection Hfs as -> ->.
  destruct (date_op_spec u x (date_format_units _ _ Hf) Hx) as (y & Hy & HR), (IH fs Hus) as (a' & Ha & HR').
  exists (y :: a'). cbn. rewrite Hf, Hy. cbn. rewrite Ha. cbn. split; [done|]. by constructor.
Qed.

(** * Timestamps *)

(** The start of the unit on the clock of the zone, where it shows the same offset *)
Definition timestamp_truncated (tz : Tz) (u : TruncUnit) (x y : Z * bool) : Prop :=
  if x.2 then
    let o := tz_offset tz (x.1 * 10 ^ 3) in
    y.2 = true /\ tz_offset tz (y.1 * 10 ^ 3) = o /\ latest_start u (x.1 * 10 ^ 3 + o) (y.1 * 10 ^ 3 + o)
  else y = (0, false).

(** The offset of the zone does not change between the start of the unit and the timestamp, both of which chrono has, and the local times between
    them occur only once. *)
Definition timestamp_safe (tz : Tz) (u : TruncUnit) (x : Z * bool) : Prop :=
  x.2 = true ->
  let i := x.1 * 10 ^ 3 in let o := tz_offset tz i in
  min_nanos <= trunc_local u (i + o) - o /\ i <= max_nanos /\ settled (tz_offset tz) o (trunc_local u (i + o)) (i + o).

Lemma finer_microsecond u : finer Microsecond u.
Proof.
  intros c Hc Hs. cut (c_nano c mod 10 ^ 3 = 0); [done|]. destruct (unit_width u) as [w|] eqn:Hw.
  - destruct u; try done; cbn in Hs; try (pose proof (midnight_fields c Hc Hs) as (_ & _ & _ & ->); done).
    1-2: by replace (c_nano c) with 0 by (symmetry; tauto).
    1: by rewrite Hs.
    apply Z.mod_divide in Hs as [q ->]; [|lia]. replace (q * 10 ^ 6) with (q * 1000 * 10 ^ 3) by lia. by apply Z.mod_mul.
  - assert (Hm : midnight c) by (destruct u; try done; cbn in Hs; tauto). pose proof (midnight_fields c Hc Hm) as (_ & _ & _ & ->). done.
Qed.

Lemma timestamp_op_spec tz u x : timestamp_safe tz u x ->
  exists y, as_timestamp_tz_with_op_single (slot_value x) tz (timestamp_op u tz) = Ok y /\ timestamp_truncated tz u x y.
Proof.
  unfold timestamp_safe, timestamp_truncated, as_timestamp_tz_with_op_single, slot_value. destruct x as [v []]; cbn [fst snd]; [|by eauto].
  intros Hs. destruct (Hs eq_refl) as (Hlo & Hhi & Hset). clear Hs. set (i := v * 10 ^ 3) in *. set (o := tz_offset tz i) in *. set (m := trunc_local u (i + o)) in *.
  pose proof (trunc_local_le u (i + o)) as Hle. fold m in Hle.
  assert (Hr : min_nanos <= i <= max_nanos) by lia. apply (instant_range (instant := zoned_timestamp tz)) in Hr as [t Ht].
  rewrite (proj2 (as_datetime_with_timezone_spec tz v t) Ht). assert (Hhi' : i + o - o <= max_nanos) by lia.
  destruct (trunc_to_spec (instant := zoned_timestamp tz) m (i + o) o Hset Hlo Hhi' u t) as (t' & Ht' & [_ Hi]); [split; lia|done|].
  unfold timestamp_op, as_micros_from_unix_epoch_utc. rewrite Ht'. cbn. rewrite Hi.
  pose proof (trunc_local_multiple Microsecond u (10 ^ 3) (i + o) (finer_microsecond u) eq_refl) as Hm. fold m in Hm.
  pose proof (tz_offset_seconds tz i) as Ho. fold o in Ho.
  assert (Hy : (m - o) / 1000 * 10 ^ 3 = m - o) by (unfold NANOS in Ho; lia).
  eexists. split; [done|]. cbn [fst snd]. rewrite Hy. split_and!; [done| |].
  - destruct Hset as [H1 _]. apply H1. lia.
  - replace (m - o + o) with m by lia. apply trunc_local_latest.
Qed.

Lemma timestamp_trunc_loop_spec tz us fs a : mapM timestamp_format fs = Some us -> Forall2 (timestamp_safe tz) us a ->
  exists a', timestamp_trunc_loop tz (slot_value <$> a) fs = Ok a' /\ Forall2 (fun ux y => timestamp_truncated tz ux.1 ux.2 y) (zip us a) a'.
Proof.
  intros Hfs HF. revert fs Hfs. induction HF as [|u x us a Hx HF IH]; intros fs Hfs; [by exists []|].
  destruct fs as [|f fs]; [done|]. cbn in Hfs. destruct (timestamp_format f) as [u'|] eqn:Hf; [|done]. cbn in Hfs.
  destruct (mapM timestamp_format fs) as [us'|] eqn:Hus; [|done]. injection Hfs as -> ->.
  destruct (timestamp_op_spec tz u x Hx) as (y & Hy & HR), (IH fs Hus) as (a' & Ha & HR').
  exists (y :: a'). cbn. rewrite Hf, Hy. cbn. rewrite Ha. cbn. split; [done|]. by constructor.
Qed.

(** Truncation of a column of dates to a year, quarter, month or week, by one format or by a format per row: the result
    is in each row the latest day not after the date on which such a unit starts in the Gregorian calendar, null for a null and for a
    date chrono does not have. *)
Lemma date_trunc_spec a :
  (forall format u, date_format format = Some u -> Forall (date_safe u) a ->
    exists a', date_trunc_invoke (Some (Date32 a)) (ScalarFormat (Some format)) = Ok (Date32 a') /\ Forall2 (date_truncated u) a a') /\
  (forall formats fs us, format_values formats = Some fs -> mapM date_format fs = Some us -> Forall2 date_safe us a ->
    exists a', date_trunc_invoke (Some (Date32 a)) (ColumnFormat formats) = Ok (Date32 a') /\
      Forall2 (fun ux y => date_truncated ux.1 ux.2 y) (zip us a) a').
Proof.
  split.
  - intros format u Hu Ha. unfold date_trunc_invoke, date_trunc_dyn, date_trunc. rewrite Hu.
    destruct (mapM_related (fun x => as_datetime_with_op_single (slot_value x) (date_op u)) (date_truncated u) a) as (a' & E & HF).
    { eapply Forall_impl; [exact Ha|]. intros x. apply date_op_spec. by eapply date_format_units. }
    unfold as_datetime_with_op. rewrite E. cbn. by eauto.
  - intros formats fs us Hfs Hus Ha. destruct (date_trunc_loop us fs a Hus Ha) as (a' & E & HF).
    unfold date_trunc_invoke, date_trunc_array_fmt_dyn. rewrite Hfs, E. cbn. by eauto.
Qed.

(** Truncation of a column of timestamps in the session's time zone, by one format or by a format per row: as long as the
    offset of the zone does not change between the start of the unit and the timestamp, the result is the instant of the
    latest start of the unit on the clock of the zone, for every unit from years to microseconds; nulls stay null. *)
Lemma timestamp_trunc_spec timezone tz z a :
  timezone <> [] -> tz_parse timezone = Some tz ->
  (forall format u, timestamp_format format = Some u -> Forall (timestamp_safe tz u) a ->
    exists a', timestamp_trunc_evaluate timezone (Some (TimestampMicros (Some z) a)) (ScalarFormat (Some format)) = Ok (TimestampMicros None a') /\
      Forall2 (timestamp_truncated tz u) a a') /\
  (forall formats fs us, format_values formats = Some fs -> mapM timestamp_format fs = Some us -> Forall2 (timestamp_safe tz) us a ->
    exists a', timestamp_trunc_evaluate timezone (Some (TimestampMicros (Some z) a)) (ColumnFormat formats) = Ok (TimestampMicros None a') /\
      Forall2 (fun ux y => timestamp_truncated tz ux.1 ux.2 y) (zip us a) a').
Proof.
  intros Hne Htz. assert (E0 : array_with_timezone (TimestampMicros (Some z) a) timezone (Some ToTimestampTz) = Ok (TimestampMicros (Some timezone) a)).
  { by destruct timezone. }
  unfold timestamp_trunc_evaluate. rewrite E0. split.
  - intros format u Hu Ha. cbn [mbind result_bind timestamp_trunc_dyn]. unfold timestamp_trunc, as_timestamp_tz_with_op, parse_tz. rewrite Hu, Htz. cbn.
    destruct (mapM_related (fun x => as_timestamp_tz_with_op_single (slot_value x) tz (timestamp_op u tz)) (timestamp_truncated tz u) a) as (a' & E & HF).
    { eapply Forall_impl; [exact Ha|]. intros x. apply timestamp_op_spec. }
    rewrite E. cbn. by eauto.
  - intros formats fs us Hfs Hus Ha. destruct (timestamp_trunc_loop_spec tz us fs a Hus Ha) as (a' & E & HF). cbn [mbind result_bind].
    assert (E1 : timestamp_trunc_array_fmt_dyn (TimestampMicros (Some timezone) a) formats = Ok (TimestampMicros None a')); [|rewrite E1; by eauto].
    assert (Hlen : length a = length fs) by (rewrite <- (Forall2_length _ _ _ Ha); symmetry; by eapply length_mapM).
    unfold timestamp_trunc_array_fmt_dyn, timestamp_trunc_array_fmt_helper, parse_tz. destruct formats; try done; rewrite Hfs; cbn [mbind result_bind unwrap];
      rewrite length_fmap, Hlen, Nat.eqb_refl, Htz; cbn; by rewrite E.
Qed.

(** C28: Truncation of dates and of timestamps, by one format or by a format per row.  A date becomes the latest day not after it on which a year,
    quarter, month or week starts in the Gregorian calendar, if chrono has that day; null stays null, and a date chrono does not have becomes
    null.  A timestamp becomes the instant of the latest start of the unit, from years to microseconds, on the clock of the session's time zone,
    provided that chrono has that instant, that the offset of the zone is the same at all instants from there to the timestamp, and that no other
    instant shows a local time in between (in an hour that the clock shows twice the code panics). *)
Theorem truncation_correct a :
  ((forall format u, date_format format = Some u -> Forall (date_safe u) a ->
      exists a', date_trunc_invoke (Some (Date32 a)) (ScalarFormat (Some format)) = Ok (Date32 a') /\ Forall2 (date_truncated u) a a') /\
   (forall formats fs us, format_values formats = Some fs -> mapM date_format fs = Some us -> Forall2 date_safe us a ->
      exists a', date_trunc_invoke (Some (Date32 a)) (ColumnFormat formats) = Ok (Date32 a') /\
        Forall2 (fun ux y => date_truncated ux.1 ux.2 y) (zip us a) a')) /\
  (forall timezone tz z, timezone <> [] -> tz_parse timezone = Some tz ->
    (forall format u, timestamp_format format = Some u -> Forall (timestamp_safe tz u) a ->
      exists a', timestamp_trunc_evaluate timezone (Some (TimestampMicros (Some z) a)) (ScalarFormat (Some format)) = Ok (TimestampMicros None a') /\
        Forall2 (timestamp_truncated tz u) a a') /\
    (forall formats fs us, format_values formats = Some fs -> mapM timestamp_format fs = Some us -> Forall2 (timestamp_safe tz) us a ->
      exists a', timestamp_trunc_evaluate timezone (Some (TimestampMicros (Some z) a)) (ColumnFormat formats) = Ok (TimestampMicros None a') /\
        Forall2 (fun ux y => timestamp_truncated tz ux.1 ux.2 y) (zip us a) a')).
Proof. split; [apply date_trunc_spec|intros timezone tz z; apply timestamp_trunc_spec]. Qed.
End Columns.
