(* ===== verification/TimestampParser.v ===== *)
(** Casts of strings to timestamps (src/native/spark-expr/src/conversion_funcs/cast.rs): the formats, the parser and the loop
    over a column.

    The regular expressions are concatenations of characters and bounded runs of digits; the digits of the regex crate are those of
    Unicode, given by an operation of a class.  The time zones of chrono are those of Temporal.v, with the two constructors the parser
    uses. *)

From S2P Require Import Prelude Casts Exprs Calendar Temporal.
From stdpp Require Import list strings.
Open Scope Z_scope.

(** * Regular expressions *)

(** [\d] *)
Class RegexDigits := unicode_digit : Z -> bool.

Inductive Atom := Lit (c : Z) | Digits (lo hi : nat).

Section Regex.
Context `{RegexDigits}.

(** [^p$] *)
Fixpoint is_match (p : list Atom) (s : text) : bool :=
  match p with
  | [] => (length s =? 0)%nat
  | Lit c :: p => match s with c' :: s => (c =? c') && is_match p s | [] => false end
  | Digits lo hi :: p =>
      existsb (fun k => (k <=? length s)%nat && forallb unicode_digit (take k s) && is_match p (drop k s)) (seq lo (hi - lo + 1))
  end.
End Regex.

Definition dash : Atom := Lit 45.
Definition tee : Atom := Lit 84.
Definition colon : Atom := Lit 58.
Definition dot : Atom := Lit 46.

Definition YEAR : list Atom := [Digits 4 5].
Definition MONTH : list Atom := YEAR ++ [dash; Digits 2 2].
Definition DAY : list Atom := MONTH ++ [dash; Digits 2 2].
Definition HOUR : list Atom := DAY ++ [tee; Digits 1 2].
Definition MINUTE : list Atom := DAY ++ [tee; Digits 2 2; colon; Digits 2 2].
Definition SECOND : list Atom := MINUTE ++ [colon; Digits 2 2].
Definition MICROSECOND : list Atom := SECOND ++ [dot; Digits 1 6].
Definition TIME_ONLY : list Atom := [tee; Digits 1 2].

(** * Splitting and integers *)

(** [str::split] with a set of characters *)
Fixpoint split_on (seps : list Z) (s : text) : list text :=
  match s with
  | [] => [[]]
  | c :: s =>
      if existsb (Z.eqb c) seps then [] :: split_on seps s
      else match split_on seps s with w :: ws => (c :: w) :: ws | [] => [[c]] end
  end.

(** [parse::<u32>] and [parse::<i32>], with an optional sign and a check at every step *)
Definition parse_digits (lo hi sign : Z) (s : text) : option Z :=
  foldl (fun r c =>
    r ← r;
    if is_ascii_digit c then let x := r * 10 + sign * (c - 48) in if (lo <=? x) && (x <=? hi) then Some x else None else None)
    (Some 0) s.
Definition parse_u32 (s : text) : option Z :=
  match s with
  | [] | [43] => None
  | 43 :: s | s => parse_digits 0 (2 ^ 32 - 1) 1 s
  end.
Definition parse_i32 (s : text) : option Z :=
  match s with
  | [] | [43] | [45] => None
  | 45 :: s => parse_digits (- 2 ^ 31) (2 ^ 31 - 1) (-1) s
  | 43 :: s | s => parse_digits (- 2 ^ 31) (2 ^ 31 - 1) 1 s
  end.

(** * Timestamps *)

Record TimeStampInfo := MkInfo { year : Z; ts_month : Z; ts_day : Z; hour : Z; minute : Z; second : Z; microsecond : Z }.

Definition TimeStampInfo_default : TimeStampInfo := MkInfo 1 1 1 0 0 0 0.

Definition with_year (v : Z) (i : TimeStampInfo) : TimeStampInfo :=
  MkInfo v (ts_month i) (ts_day i) (hour i) (minute i) (second i) (microsecond i).
Definition info_with_month (v : Z) (i : TimeStampInfo) : TimeStampInfo :=
  MkInfo (year i) v (ts_day i) (hour i) (minute i) (second i) (microsecond i).
Definition with_day (v : Z) (i : TimeStampInfo) : TimeStampInfo :=
  MkInfo (year i) (ts_month i) v (hour i) (minute i) (second i) (microsecond i).
Definition info_with_hour (v : Z) (i : TimeStampInfo) : TimeStampInfo :=
  MkInfo (year i) (ts_month i) (ts_day i) v (minute i) (second i) (microsecond i).
Definition info_with_minute (v : Z) (i : TimeStampInfo) : TimeStampInfo :=
  MkInfo (year i) (ts_month i) (ts_day i) (hour i) v (second i) (microsecond i).
Definition info_with_second (v : Z) (i : TimeStampInfo) : TimeStampInfo :=
  MkInfo (year i) (ts_month i) (ts_day i) (hour i) (minute i) v (microsecond i).
Definition with_microsecond (v : Z) (i : TimeStampInfo) : TimeStampInfo :=
  MkInfo (year i) (ts_month i) (ts_day i) (hour i) (minute i) (second i) v.

(** [with_ymd_and_hms(..).single()] and [from_utc_datetime] of [TimeZone] *)
Class ZoneParse `{Chrono} := {
  with_ymd_and_hms : forall tz : Tz, Z -> Z -> Z -> Z -> Z -> Z -> option (DateTime tz);
  from_utc_datetime : forall tz : Tz, NaiveDateTime -> DateTime tz;
}.

Section Parser.
(** [utc_now] is [Utc::now().naive_utc()].  [with_timezone] with the zone a datetime has is the identity. *)
Context `{ZoneParse} `{RegexDigits} (utc_now : NaiveDateTime) (tz : Tz).

Definition parse_timestamp_to_micros (timestamp_info : TimeStampInfo) : SparkResult (option Z) :=
  let i := timestamp_info in
  match with_ymd_and_hms tz (year i) (ts_month i) (ts_day i) (hour i) (minute i) (second i) with
  | Some dt =>
      match with_nanosecond dt (wrap 32 (microsecond i * 1000)) with
      | Some dt => Ok (Some (zoned_timestamp tz dt / 1000))
      | None => Err SparkInternal
      end
  | None => Err SparkInternal
  end.

Definition field_or (d : Z) (values : list text) (i : nat) : Z :=
  match values !! i with Some v => default d (parse_u32 v) | None => d end.

Definition get_timestamp_values (value : text) (timestamp_type : string) : SparkResult (option Z) :=
  let values := split_on [84; 45; 58; 46] value in
  match values with
  | [] => Panic
  | v :: _ =>
      let y := default 0 (parse_i32 v) in
      let mo := field_or 1 values 1 in
      let d := field_or 1 values 2 in
      let h := field_or 0 values 3 in
      let mi := field_or 0 values 4 in
      let s := field_or 0 values 5 in
      let us := field_or 0 values 6 in
      let at_year := with_year y TimeStampInfo_default in
      let at_month := info_with_month mo at_year in
      let at_day := with_day d at_month in
      let at_hour := info_with_hour h at_day in
      let at_minute := info_with_minute mi at_hour in
      let at_second := info_with_second s at_minute in
      let timestamp_info :=
        match timestamp_type with
        | "year" => Some at_year
        | "month" => Some at_month
        | "day" => Some at_day
        | "hour" => Some at_hour
        | "minute" => Some at_minute
        | "second" => Some at_second
        | "microsecond" => Some (with_microsecond us at_second)
        | _ => None
        end%string in
      match timestamp_info with
      | Some timestamp_info => parse_timestamp_to_micros timestamp_info
      | None => Err (CastInvalidValue value (codes "STRING") (codes "TIMESTAMP"))
      end
  end.

(** [parse_str_to_year_timestamp] to [parse_str_to_microsecond_timestamp] *)
Definition parse_str_to (timestamp_type : string) (value : text) : SparkResult (option Z) := get_timestamp_values value timestamp_type.

Definition parse_str_to_time_only_timestamp (value : text) : SparkResult (option Z) :=
  match split_on [84] value !! 1%nat with
  | None => Panic
  | Some v =>
      let time_values := (fun v => default 0 (parse_u32 v)) <$> split_on [58] v in
      let datetime := from_utc_datetime tz utc_now in
      let timestamp :=
        dt ← with_hour datetime (default 0 (head time_values));
        dt ← with_minute dt (default 0 (time_values !! 1%nat));
        dt ← with_second dt (default 0 (time_values !! 2%nat));
        dt ← with_nanosecond dt (wrap 32 (default 0 (time_values !! 3%nat) * 1000));
        Some (zoned_timestamp tz dt / 1000) in
      Ok (Some (default 0 timestamp))
  end.

Definition patterns : list (list Atom * (text -> SparkResult (option Z))) :=
  [ (YEAR, parse_str_to "year");
    (MONTH, parse_str_to "month");
    (DAY, parse_str_to "day");
    (HOUR, parse_str_to "hour");
    (MINUTE, parse_str_to "minute");
    (SECOND, parse_str_to "second");
    (MICROSECOND, parse_str_to "microsecond");
    (TIME_ONLY, parse_str_to_time_only_timestamp) ].

(** The loop over the patterns, which ends at the first that matches *)
Fixpoint try_patterns (ps : list (list Atom * (text -> SparkResult (option Z)))) (value : text) : SparkResult (option Z) :=
  match ps with
  | [] => Ok None
  | (pattern, parse_func) :: ps => if is_match pattern value then parse_func value else try_patterns ps value
  end.

Definition timestamp_parser (value : text) (eval_mode : EvalMode) : SparkResult (option Z) :=
  let value := trim value in
  match value with
  | [] => Ok None
  | _ =>
      timestamp ← try_patterns patterns value;
      match timestamp with
      | Some ts => Ok (Some ts)
      | None => if is_ansi eval_mode then Err (CastInvalidValue value (codes "STRING") (codes "TIMESTAMP")) else Ok None
      end
  end.

End Parser.

(** [cast_utf8_to_timestamp!] from row [i] on; the clock is read for a row that needs it, and an error of the parser becomes a null. *)
Fixpoint cast_utf8_to_timestamp `{ZoneParse} `{RegexDigits} (utc_now : nat -> NaiveDateTime) (tz : Tz) (eval_mode : EvalMode) (i : nat)
    (array : list (option text)) : SparkResult (list (option Z)) :=
  match array with
  | [] => Ok []
  | v :: array =>
      x ← match v with
          | None => Ok None
          | Some s => match timestamp_parser (utc_now i) tz (trim s) eval_mode with Ok (Some v) => Ok (Some v) | Panic => Panic | _ => Ok None end
          end;
      rest ← cast_utf8_to_timestamp utc_now tz eval_mode (S i) array;
      Ok (x :: rest)
  end.

(** The zone is parsed once; an unknown one panics. *)
Definition cast_string_to_timestamp `{ZoneParse} `{RegexDigits} (utc_now : nat -> NaiveDateTime) (array : list (option text)) (eval_mode : EvalMode)
    (timezone_str : text) : SparkResult (list (option Z)) :=
  match tz_parse timezone_str with
  | Some tz => cast_utf8_to_timestamp utc_now tz eval_mode 0 array
  | None => Panic
  end.
