(* ===== verification/TimestampProps.v ===== *)
(** Correctness of the casts of strings to timestamps (TimestampParser.v): the strings that are read are those of a grammar of
    timestamps, and a string of the grammar is read as the instant whose local time it is, if there is exactly one. *)

From S2P Require Import Prelude Casts CastProps Exprs Calendar Temporal TemporalProps TimestampParser.
From stdpp Require Import list strings.
Open Scope Z_scope.
Ltac Zify.zify_post_hook ::= idtac.

(** * Patterns and fields *)

Class RegexLaws `{RegexDigits} := unicode_digit_ascii : forall c, c < 128 -> unicode_digit c = is_ascii_digit c.

Section Fields.
Context `{RegexLaws}.

(** A run of digits between two widths *)
Definition field_ok (w : nat * nat) (f : text) : Prop := (w.1 <= length f <= w.2)%nat /\ Forall (fun c => unicode_digit c = true) f.

(** Fields, all but the first after a separator *)
Definition tail_text (seps : list Z) (fs : list text) : text := concat (zip_with cons seps fs).

Definition tail_pattern (l : list (Z * (nat * nat))) : list Atom := l ≫= fun x => [Lit x.1; Digits x.2.1 x.2.2].

Lemma forallb_Forall {A} (f : A -> bool) l : forallb f l = true <-> Forall (fun x => f x = true) l.
Proof. by rewrite List.forallb_forall, List.Forall_forall. Qed.

Lemma digits_match lo hi p s : (lo <= hi)%nat ->
  is_match (Digits lo hi :: p) s = true <-> exists f s', field_ok (lo, hi) f /\ s = f ++ s' /\ is_match p s' = true.
Proof.
  intros Hle. cbn [is_match]. rewrite existsb_exists. split.
  - intros (k & Hk & Hm). apply in_seq in Hk. rewrite !andb_true_iff, Nat.leb_le, forallb_Forall in Hm. destruct Hm as ((Hlen & Hd) & Hm).
    exists (take k s), (drop k s). rewrite take_drop. split_and!; [|done..]. split; [rewrite length_take; cbn; lia|done].
  - intros (f & s' & [Hw Hd] & -> & Hm). exists (length f). cbn in Hw. split; [apply in_seq; lia|].
    rewrite take_app_length, drop_app_length, length_app, Hm, andb_true_r, andb_true_iff, Nat.leb_le, forallb_Forall. split; [lia|done].
Qed.

Lemma lit_match c p s : is_match (Lit c :: p) s = true <-> exists s', s = c :: s' /\ is_match p s' = true.
Proof.
  cbn. destruct s as [|c' s]; [by split; [|intros (? & ? & _)]|]. rewrite andb_true_iff, Z.eqb_eq. split; [intros [<- ?]; by eauto|].
  by intros (? & [= -> ->] & ?).
Qed.

Lemma tail_match l s : Forall (fun x : Z * (nat * nat) => x.2.1 <= x.2.2)%nat l ->
  is_match (tail_pattern l) s = true <-> exists fs, Forall2 (fun x f => field_ok x.2 f) l fs /\ s = tail_text l.*1 fs.
Proof.
  intros Hl. revert s. induction Hl as [|[c [lo hi]] l Hle _ IH]; intros s.
  - cbn. destruct s; cbn; split; try done; [by exists []|]. intros (fs & Hf & E). by inversion Hf; subst.
  - change (tail_pattern ((c, (lo, hi)) :: l)) with (Lit c :: Digits lo hi :: tail_pattern l).
    rewrite lit_match. setoid_rewrite digits_match; [|done]. split.
    + intros (s' & -> & f & s2 & Hf & -> & Hm). apply IH in Hm as (fs & Hfs & ->). exists (f :: fs). split; [by constructor|done].
    + intros (fs & Hf & ->). inversion Hf as [|? f ? fs' Hf1 Hfs]; subst. exists (f ++ tail_text l.*1 fs'). split; [done|].
      exists f, (tail_text l.*1 fs'). split_and!; [done|done|]. apply IH. by exists fs'.
Qed.

(** * The grammar *)

(** Dates and times of one to seven fields; an hour without minutes may have one digit. *)
Definition seps : list Z := [45; 45; 84; 58; 58; 46].
Definition widths (n : nat) : list (nat * nat) :=
  take n [(4, 5); (2, 2); (2, 2); (if (n =? 4)%nat then (1, 2) else (2, 2)); (2, 2); (2, 2); (1, 6)]%nat.
Definition stamp (fs : list text) : text := match fs with [] => [] | f :: fs => f ++ tail_text seps fs end.
Definition stamp_ok (fs : list text) : Prop := (1 <= length fs <= 7)%nat /\ Forall2 field_ok (widths (length fs)) fs.

Definition stamp_pattern (n : nat) : list Atom :=
  match widths n with
  | [] => []
  | w :: ws => Digits w.1 w.2 :: tail_pattern (zip seps ws)
  end.

Lemma tail_text_seps (l : list Z) fs : (length fs <= length l)%nat -> tail_text (take (length fs) l) fs = tail_text l fs.
Proof.
  revert fs. induction l as [|c l IH]; intros [|f fs]; cbn; intros Hl; try done. unfold tail_text in *. cbn. rewrite IH by lia. done.
Qed.

Lemma stamp_match n s : (1 <= n <= 7)%nat -> is_match (stamp_pattern n) s = true <-> exists fs, length fs = n /\ stamp_ok fs /\ s = stamp fs.
Proof.
  intros Hn.
  assert (exists w ws, widths n = w :: ws /\ (w.1 <= w.2)%nat /\ Forall (fun x : Z * (nat * nat) => x.2.1 <= x.2.2)%nat (zip seps ws)
    /\ length ws = (n - 1)%nat /\ (zip seps ws).*1 = take (n - 1) seps /\ (zip seps ws).*2 = ws) as (w & ws & E & Hw & Hws & Hlen & Hs & H2).
  { do 8 (destruct n as [|n]; [lia || (eexists _, _; split_and!; [done|cbn; lia|repeat constructor; cbn; lia|done|done|done])|]). lia. }
  unfold stamp_pattern. rewrite E, digits_match by done. setoid_rewrite tail_match; [|done]. split.
  - intros (f & s' & Hf & -> & fs & Hfs & ->). exists (f :: fs).
    assert (Hl : length fs = (n - 1)%nat). { apply Forall2_length in Hfs. rewrite <- Hlen, <- Hfs. rewrite <- H2 at 2. by rewrite length_fmap. }
    assert (length (f :: fs) = n) as Hl' by (cbn; lia). split_and!; [done| |].
    + split; [lia|]. rewrite Hl', E. constructor; [by destruct w|]. rewrite <- H2. by apply Forall2_fmap_l.
    + unfold stamp. f_equal. rewrite Hs, <- Hl. apply tail_text_seps. rewrite Hl. cbn. lia.
  - intros (fs & <- & [_ Hfs] & ->). rewrite E in Hfs. inversion Hfs as [|? f ? fs' Hf Hfs']; subst fs; simplify_eq. exists f, (tail_text seps fs').
    assert (Hl : length fs' = (length (f :: fs') - 1)%nat) by (cbn; lia). split_and!; [by destruct w|done|]. exists fs'. split.
    + apply Forall2_fmap_l with (P := field_ok) (f := snd). by rewrite H2.
    + rewrite Hs, <- Hl. symmetry. apply tail_text_seps. cbn in Hn |- *. lia.
Qed.

(** * Splitting a stamp *)

Definition no_sep (sp : list Z) (f : text) : Prop := Forall (fun c => existsb (Z.eqb c) sp = false) f.

Lemma split_field sp f s : no_sep sp f -> exists w ws, split_on sp s = w :: ws /\ split_on sp (f ++ s) = (f ++ w) :: ws.
Proof.
  assert (Hs : exists w ws, split_on sp s = w :: ws).
  { destruct s as [|c s]; [by eexists _, _|]. cbn. case_match; [by eexists _, _|]. case_match; by eexists _, _. }
  destruct Hs as (w & ws & Hs). induction 1 as [|c f Hc _ (w' & ws' & Hs' & IH)]; [by eauto|]. exists w, ws. split; [done|].
  cbn. rewrite Hc, IH. congruence.
Qed.

Lemma split_tail sp l f fs : Forall (fun c => existsb (Z.eqb c) sp = true) l -> (length fs <= length l)%nat ->
  Forall (no_sep sp) (f :: fs) -> split_on sp (f ++ tail_text l fs) = f :: fs.
Proof.
  intros Hl. revert f fs. induction Hl as [|c l Hc _ IH]; intros f [|f' fs] Hlen [Hf Hfs]%Forall_cons; try (cbn in Hlen; lia);
    match goal with |- split_on sp (f ++ ?s) = _ => destruct (split_field sp f s Hf) as (w & ws & Hs & ->) end.
  - cbn in Hs. simplify_eq. by rewrite app_nil_r.
  - cbn in Hs. simplify_eq. by rewrite app_nil_r.
  - change (tail_text (c :: l) (f' :: fs)) with (c :: f' ++ tail_text l fs) in Hs. cbn [split_on] in Hs. rewrite Hc, IH in Hs by (done || cbn in Hlen; lia).
    simplify_eq. by rewrite app_nil_r.
Qed.

Lemma digit_no_sep w f : field_ok w f -> no_sep [84; 45; 58; 46] f.
Proof.
  intros [_ Hd]. eapply Forall_impl; [exact Hd|]. intros c Hc. apply not_true_iff_false. intros Hs. apply existsb_exists in Hs as (c' & Hin & E).
  apply Z.eqb_eq in E as <-. assert (c < 128) as Ha by (cbn in Hin; lia). cbn beta in Hc. rewrite unicode_digit_ascii in Hc by done.
  clear Ha. repeat (destruct Hin as [<-|Hin]; [done|]). done.
Qed.

Lemma split_stamp fs : stamp_ok fs -> split_on [84; 45; 58; 46] (stamp fs) = fs.
Proof.
  intros [Hl Hf]. assert (Hn : Forall (no_sep [84; 45; 58; 46]) fs).
  { clear Hl. induction Hf; constructor; eauto using digit_no_sep. }
  destruct fs as [|f fs]; [cbn in Hl; lia|]. apply split_tail; [by repeat constructor|cbn in *; lia|done].
Qed.

(** * Numbers *)

Definition decimal (f : text) : Z := foldl (fun r c => r * 10 + (c - 48)) 0 f.
(** The number a field is read as: digits other than those of ASCII are valid and count as if the field was not there. *)
Definition number (d : Z) (f : text) : Z := if forallb is_ascii_digit f then decimal f else d.

Lemma foldl_none {A B} (g : A -> B -> option A) (l : list B) : foldl (fun r c => r ← r; g r c) None l = None.
Proof. by induction l. Qed.

Lemma parse_digits_value lo hi f r : lo <= 0 -> 0 <= r -> (r + 1) * 10 ^ Z.of_nat (length f) <= hi ->
  foldl (fun r c => r ← r; if is_ascii_digit c then let x := r * 10 + 1 * (c - 48) in if (lo <=? x) && (x <=? hi) then Some x else None else None) (Some r) f
  = if forallb is_ascii_digit f then Some (foldl (fun r c => r * 10 + (c - 48)) r f) else None.
Proof.
  intros Hlo. revert r. induction f as [|c f IH]; intros r Hr Hb; [done|]. cbn [foldl forallb]. cbn [mbind option_bind].
  destruct (is_ascii_digit c) eqn:Hc; [|apply foldl_none]. cbn [andb]. unfold is_ascii_digit in Hc.
  assert (48 <= c <= 57) by lia. rewrite <- (Z.mul_1_l (c - 48)) at 4. cbn [length] in Hb. rewrite Nat2Z.inj_succ, Z.pow_succ_r in Hb by lia.
  assert (0 < 10 ^ Z.of_nat (length f)) by (apply Z.pow_pos_nonneg; lia).
  rewrite (proj2 (Z.leb_le lo _)), (proj2 (Z.leb_le _ hi)) by nia. cbn [andb]. rewrite IH by nia. by rewrite !Z.mul_1_l.
Qed.

Lemma parse_unsigned c f : c <> 43 -> parse_u32 (c :: f) = parse_digits 0 (2 ^ 32 - 1) 1 (c :: f).
Proof. intros Hc. destruct c as [|p|p]; try done. do 6 (destruct p as [p|p|]; try done). Qed.
Lemma parse_signed c f : c <> 43 -> c <> 45 -> parse_i32 (c :: f) = parse_digits (- 2 ^ 31) (2 ^ 31 - 1) 1 (c :: f).
Proof. intros Hc Hc'. destruct c as [|p|p]; try done. do 6 (destruct p as [p|p|]; try done). Qed.

Lemma digit_ge c : unicode_digit c = true -> 48 <= c.
Proof.
  intros Hd. destruct (decide (c < 128)) as [Ha|]; [|lia]. rewrite unicode_digit_ascii in Hd by done. unfold is_ascii_digit in Hd. lia.
Qed.

Lemma parse_field w f : field_ok w f -> (1 <= w.1)%nat -> (w.2 <= 6)%nat ->
  (forall d, default d (parse_u32 f) = number d f) /\ (forall d, default d (parse_i32 f) = number d f).
Proof.
  intros [Hl Hd] H1 H6. destruct f as [|c f]; [cbn in Hl; lia|]. apply Forall_cons in Hd as [Hc _]. apply digit_ge in Hc.
  rewrite parse_unsigned, parse_signed by lia. unfold parse_digits, number, decimal.
  assert (Hp : 10 ^ Z.of_nat (length (c :: f)) <= 10 ^ 6) by (apply Z.pow_le_mono_r; lia).
  rewrite !parse_digits_value by lia. by destruct (forallb _ _).
Qed.

(** The fields of a stamp; absent ones have their default. *)
Definition stamp_number (d : Z) (fs : list text) (i : nat) : Z := match fs !! i with Some f => number d f | None => d end.
Definition stamp_info (fs : list text) : TimeStampInfo :=
  MkInfo (stamp_number 0 fs 0) (stamp_number 1 fs 1) (stamp_number 1 fs 2) (stamp_number 0 fs 3) (stamp_number 0 fs 4) (stamp_number 0 fs 5)
    (stamp_number 0 fs 6).

Lemma stamp_field fs i f : stamp_ok fs -> fs !! i = Some f -> exists w, field_ok w f /\ (1 <= w.1)%nat /\ (w.2 <= 6)%nat.
Proof.
  intros [Hl Hf] Hi. destruct (Forall2_lookup_r _ _ _ _ _ Hf Hi) as (w & Hw & Hok). exists w. split; [done|].
  assert (Forall (fun w : nat * nat => 1 <= w.1 /\ w.2 <= 6)%nat (widths (length fs))) as Hall.
  { apply Forall_take. do 7 (apply Forall_cons; split; [try case_match; cbn; lia|]). by apply Forall_nil. }
  by eapply Forall_lookup_1 in Hall.
Qed.

Lemma field_or_stamp d fs i : stamp_ok fs -> field_or d fs i = stamp_number d fs i.
Proof.
  intros Hfs. unfold field_or, stamp_number. destruct (fs !! i) as [f|] eqn:E; [|done].
  destruct (stamp_field fs i f Hfs E) as (w & Hok & H1 & H6). by apply (parse_field w).
Qed.

Definition stamp_name (n : nat) : string :=
  default ""%string (["year"; "month"; "day"; "hour"; "minute"; "second"; "microsecond"]%string !! (n - 1)%nat).

Lemma get_timestamp_values_stamp `{ZoneParse} tz fs : stamp_ok fs ->
  get_timestamp_values tz (stamp fs) (stamp_name (length fs)) = parse_timestamp_to_micros tz (stamp_info fs).
Proof.
  intros Hfs. unfold get_timestamp_values. rewrite split_stamp by done. destruct fs as [|f fs]; [destruct Hfs as [Hl _]; cbn in Hl; lia|].
  rewrite !field_or_stamp by done. destruct (stamp_field (f :: fs) 0 f Hfs eq_refl) as (w & Hok & Hw & Hw').
  rewrite (proj2 (parse_field w f Hok Hw Hw')). destruct Hfs as [Hl _]. cbn [length] in Hl.
  do 7 (destruct fs as [|? fs]; [done|]). cbn in Hl. lia.
Qed.

(** A stamp matches its own pattern only. *)
Lemma stamp_match_other fs n : stamp_ok fs -> (1 <= n <= 7)%nat -> is_match (stamp_pattern n) (stamp fs) = (length fs =? n)%nat.
Proof.
  intros Hfs Hn. apply eq_true_iff_eq. rewrite stamp_match, Nat.eqb_eq by done. split; [|by eauto].
  intros (fs' & <- & Hfs' & E). apply (f_equal (split_on [84; 45; 58; 46])) in E. rewrite !split_stamp in E by done. by subst.
Qed.

(** * The choice of a pattern *)

Lemma time_only_match s : is_match TIME_ONLY s = true <-> exists h, field_ok (1, 2)%nat h /\ s = 84 :: h.
Proof.
  unfold TIME_ONLY, tee. rewrite lit_match. setoid_rewrite digits_match; [|lia]. split.
  - intros (s' & -> & f & s2 & Hf & -> & Hm). destruct s2; [|done]. exists f. by rewrite app_nil_r.
  - intros (h & Hh & ->). exists h. split; [done|]. exists h, []. by rewrite app_nil_r.
Qed.

Section Choice.
Context `{ZoneParse} (utc_now : NaiveDateTime) (tz : Tz).

(** The time of today a time without a date is read as *)
Definition today_at (h : Z) : option (DateTime tz) :=
  dt ← with_hour (from_utc_datetime tz utc_now) h; dt ← with_minute dt 0; dt ← with_second dt 0; with_nanosecond dt 0.

Lemma time_only_value h : field_ok (1, 2)%nat h ->
  parse_str_to_time_only_timestamp utc_now tz (84 :: h) = Ok (Some (default 0 ((fun dt => zoned_timestamp tz dt / 1000) <$> today_at (number 0 h)))).
Proof.
  intros Hh. unfold parse_str_to_time_only_timestamp.
  assert (Hs : forall c, c < 48 \/ 57 < c < 128 -> no_sep [c] h).
  { intros c Hc. destruct Hh as [_ Hd]. eapply Forall_impl; [exact Hd|]. cbn. intros c' Hc'. rewrite orb_false_r. apply Z.eqb_neq. intros ->.
    rewrite unicode_digit_ascii in Hc' by lia. unfold is_ascii_digit in Hc'. lia. }
  change (split_on [84] (84 :: h)) with ([] :: split_on [84] h).
  destruct (split_field [84] h []) as (w & ws & [= <- <-] & E); [apply Hs; lia|]. rewrite !app_nil_r in E. rewrite E.
  cbn [lookup list_lookup]. destruct (split_field [58] h []) as (w & ws & [= <- <-] & E'); [apply Hs; lia|]. rewrite !app_nil_r in E'. rewrite E'.
  cbn [fmap list_fmap head default lookup list_lookup]. rewrite (proj1 (parse_field (1, 2)%nat h Hh (le_n 1) ltac:(cbn; lia))).
  unfold today_at, id. change (u32 (0 * 1000)) with 0. destruct (with_hour _ _) as [dt|]; [|done]. cbn.
  destruct (with_minute _ _) as [dt1|]; [|done]. cbn. destruct (with_second _ _) as [dt2|]; [|done]. cbn. by destruct (with_nanosecond _ _).
Qed.

Lemma try_patterns_cases s :
  (exists fs, stamp_ok fs /\ s = stamp fs /\ try_patterns (patterns utc_now tz) s = parse_timestamp_to_micros tz (stamp_info fs)) \/
  (exists h, field_ok (1, 2)%nat h /\ s = 84 :: h /\ try_patterns (patterns utc_now tz) s = parse_str_to_time_only_timestamp utc_now tz s) \/
  ((forall fs, stamp_ok fs -> s <> stamp fs) /\ (forall h, field_ok (1, 2)%nat h -> s <> 84 :: h) /\ try_patterns (patterns utc_now tz) s = Ok None).
Proof.
  cbn [try_patterns patterns]. change YEAR with (stamp_pattern 1). change MONTH with (stamp_pattern 2). change DAY with (stamp_pattern 3).
  change HOUR with (stamp_pattern 4). change MINUTE with (stamp_pattern 5). change SECOND with (stamp_pattern 6).
  change MICROSECOND with (stamp_pattern 7).
  destruct (existsb (fun n => is_match (stamp_pattern n) s) (seq 1 7)) eqn:E.
  - left. apply existsb_exists in E as (n & Hn%in_seq & E). apply stamp_match in E as (fs & <- & Hfs & ->); [|lia]. exists fs.
    split_and!; [done..|]. rewrite !stamp_match_other by (done || lia). rewrite <- get_timestamp_values_stamp by done.
    do 8 (destruct fs as [|? fs]; [done || (cbn in Hn; lia)|]). cbn in Hn. lia.
  - right. assert (Hno : forall fs, stamp_ok fs -> s <> stamp fs).
    { intros fs Hfs ->. apply not_true_iff_false in E. destruct E. apply existsb_exists. exists (length fs). destruct (proj1 Hfs). split; [apply in_seq; lia|].
      apply stamp_match; [lia|]. by eauto. }
    cbn [existsb seq] in E. repeat (apply orb_false_elim in E as [E' E]; rewrite E'; clear E').
    destruct (is_match TIME_ONLY s) eqn:Et; [left|right].
    + apply time_only_match in Et as (h & Hh & ->). by eauto.
    + split_and!; [done| |done]. intros h Hh ->. apply not_true_iff_false in Et. destruct Et. apply time_only_match. by eauto.
Qed.
End Choice.
End Fields.

(** * Instants *)

(** Chrono resolves the local time given to [with_ymd_and_hms]; offsets change at whole seconds, and the range of instants
    is one of whole seconds and fits a 64-bit number of microseconds. *)
Class ZoneParseLaws `{ChronoLaws} `{!ZoneParse} := {
  with_ymd_and_hms_spec : forall tz y mo d h mi s t,
    with_ymd_and_hms tz y mo d h mi s = Some t <-> resolves (zoned_timestamp tz) (tz_offset tz) (MkCivil y mo d h mi s 0) t;
  from_utc_datetime_spec : forall tz n, zoned_timestamp tz (from_utc_datetime tz n) = timestamp n;
  tz_offset_steps : forall tz i, tz_offset tz (i - i mod NANOS) = tz_offset tz i;
  min_nanos_second : min_nanos mod NANOS = 0;
  max_nanos_second : (max_nanos + 1) mod NANOS = 0;
  nanos_micros : - 2 ^ 63 * 1000 <= min_nanos /\ max_nanos < 2 ^ 63 * 1000;
}.

Section Instants.
Context `{ZoneParseLaws} (tz : Tz).

Abbreviation resolves_to := (resolves (zoned_timestamp tz) (tz_offset tz)).

Lemma local_nanos_mod c : civil_ok c -> local_nanos c mod NANOS = c_nano c.
Proof.
  intros Hc. unfold local_nanos, time_nanos, civil_ok, DAY_NANOS, NANOS in *. destruct Hc as (_ & ? & ? & ? & ?).
  match goal with |- ?e mod ?n = ?r => replace e with (r + (86400 * (day_number (c_year c) (c_month c) (c_day c) - EPOCH) + c_hour c * 3600 + c_minute c * 60 + c_second c) * n) by lia end.
  rewrite Z.mod_add, Z.mod_small by lia. done.
Qed.

Lemma shown_local c t : civil_ok c ->
  shown (zoned_timestamp tz) (tz_offset tz) t = c <-> zoned_timestamp tz t + tz_offset tz (zoned_timestamp tz t) = local_nanos c.
Proof. intros Hc. unfold shown. split; [intros <-; by rewrite local_civil_of|]. intros ->. by apply civil_of_local. Qed.

Lemma local_nanos_set_nano v c : local_nanos (set_nano v c) = local_nanos c - c_nano c + v.
Proof. unfold local_nanos, time_nanos. cbn. lia. Qed.

Lemma set_nano_ok v c : 0 <= v < NANOS -> civil_ok c -> civil_ok (set_nano v c).
Proof. unfold civil_ok. cbn. tauto. Qed.

Lemma tz_offset_within i r : i mod NANOS = 0 -> 0 <= r < NANOS -> tz_offset tz (i + r) = tz_offset tz i.
Proof.
  intros Hi Hr. rewrite <- (tz_offset_steps tz (i + r)). f_equal.
  rewrite Z.add_mod, Hi, Z.add_0_l, Z.mod_mod, Z.mod_small by (done || unfold NANOS in *; lia). lia.
Qed.

Lemma floor_ge n a i : 0 < n -> a mod n = 0 -> a <= i -> a <= i - i mod n.
Proof.
  intros Hn Ha Hi. pose proof (Z.div_mod a n ltac:(lia)). pose proof (Z.div_mod i n ltac:(lia)). pose proof (Z.div_le_mono a i n Hn Hi). nia.
Qed.

Lemma block_le n b j r : 0 < n -> (b + 1) mod n = 0 -> j mod n = 0 -> j <= b -> r < n -> j + r <= b.
Proof.
  intros Hn Hb Hj Hle Hr. pose proof (Z.div_mod (b + 1) n ltac:(lia)). pose proof (Z.div_mod j n ltac:(lia)).
  assert (j / n < (b + 1) / n) by nia. nia.
Qed.

(** If a local time belongs to one instant, so does the second it is in. *)
Lemma resolves_second c t : resolves_to c t -> exists t0, resolves_to (set_nano 0 c) t0.
Proof.
  intros [Hc Hu]. assert (Hok : civil_ok c) by (rewrite <- Hc; apply civil_of_ok). pose proof (local_nanos_mod c Hok) as Hmod.
  assert (Hns : 0 <= c_nano c < NANOS) by apply Hok. assert (Hok0 : civil_ok (set_nano 0 c)) by (apply set_nano_ok; [done|done]).
  pose proof Hc as Hl. apply shown_local in Hl; [|done].
  pose proof (tz_offset_seconds tz) as Hsec. pose proof min_nanos_second as Hmin. pose proof max_nanos_second as Hmax.
  set (i := zoned_timestamp tz t) in *. assert (Hi : min_nanos <= i <= max_nanos) by (apply (instant_range (T := DateTime tz)); by exists t).
  assert (Him : i mod NANOS = c_nano c).
  { rewrite <- Hmod, <- Hl, Z.add_mod, (Hsec i), Z.add_0_r, Z.mod_mod by done. done. }
  assert (Hoff : tz_offset tz (i - c_nano c) = tz_offset tz i) by (rewrite <- Him; apply tz_offset_steps).
  assert (Hr : min_nanos <= i - c_nano c <= max_nanos).
  { pose proof (floor_ge NANOS min_nanos i eq_refl Hmin (proj1 Hi)) as Hf. rewrite Him in Hf. clear - Hf Hi Hns. lia. }
  apply (instant_range (T := DateTime tz)) in Hr as [t0 Ht0]. exists t0. split.
  - apply shown_local; [done|]. rewrite Ht0, Hoff, local_nanos_set_nano. clear - Hl. lia.
  - intros t2 Hs2. apply shown_local in Hs2; [|done]. rewrite local_nanos_set_nano in Hs2. set (i2 := zoned_timestamp tz t2) in *.
    assert (Hi2 : min_nanos <= i2 <= max_nanos) by (apply (instant_range (T := DateTime tz)); by exists t2).
    assert (Hi2m : i2 mod NANOS = 0).
    { replace i2 with (local_nanos c - c_nano c - tz_offset tz i2) by (clear - Hs2; lia).
      by rewrite Zminus_mod, (Hsec i2), (Zminus_mod (local_nanos c)), Hmod, (Z.mod_small (c_nano c)), Z.sub_diag by done. }
    pose proof (tz_offset_within i2 (c_nano c) Hi2m Hns) as Ho2.
    assert (Hr3 : min_nanos <= i2 + c_nano c <= max_nanos) by (pose proof (block_le NANOS max_nanos i2 (c_nano c) eq_refl Hmax Hi2m (proj2 Hi2) (proj2 Hns)) as Hb; clear - Hb Hi2 Hns; lia).
    apply (instant_range (T := DateTime tz)) in Hr3 as [t3 Ht3].
    assert (t3 = t) as -> by (apply Hu, shown_local; [done|]; rewrite Ht3, Ho2; clear - Hs2; lia). apply instant_inj. fold i2. rewrite Ht0. clear - Ht3. lia.
Qed.

(** The local time of a stamp *)
Definition info_civil (i : TimeStampInfo) : Civil :=
  MkCivil (year i) (ts_month i) (ts_day i) (hour i) (minute i) (second i) (microsecond i * 1000).

Lemma parse_timestamp_to_micros_spec i : 0 <= microsecond i < 10 ^ 6 ->
  (exists t, resolves_to (info_civil i) t /\ parse_timestamp_to_micros tz i = Ok (Some (zoned_timestamp tz t / 1000))) \/
  ((forall t, ~ resolves_to (info_civil i) t) /\ parse_timestamp_to_micros tz i = Err SparkInternal).
Proof.
  intros Hus. unfold parse_timestamp_to_micros. rewrite wrap_small by (unfold in_u; lia). set (c0 := MkCivil (year i) (ts_month i) (ts_day i) (hour i) (minute i) (second i) 0).
  destruct (with_ymd_and_hms _ _ _ _ _ _ _) as [dt|] eqn:E.
  - apply with_ymd_and_hms_spec in E as [Hs _]. fold c0 in Hs.
    assert (Hw : forall t, with_nanosecond dt (microsecond i * 1000) = Some t <-> resolves_to (info_civil i) t).
    { intros t. rewrite (with_nanosecond_spec (T := DateTime tz)) by (unfold NANOS; lia). by rewrite Hs. }
    destruct (with_nanosecond _ _) as [t|]; [left; exists t; split; [by apply Hw|done]|right]. split; [|done]. by intros t Ht%Hw.
  - right. split; [|done]. intros t Ht. destruct (resolves_second _ _ Ht) as [t0 Ht0]. apply with_ymd_and_hms_spec in Ht0. cbn in Ht0. congruence.
Qed.

(** The readings [today_at] sets the clock to one after the other *)
Definition today (utc_now : NaiveDateTime) (h : Z) : list Civil :=
  let c := civil_of (timestamp utc_now + tz_offset tz (timestamp utc_now)) in
  let c1 := set_hour h c in let c2 := set_minute 0 c1 in let c3 := set_second 0 c2 in [c1; c2; c3; set_nano 0 c3].

Lemma today_at_spec utc_now h :
  (exists t, today_at utc_now tz h = Some t /\ Forall (fun c => exists t, resolves_to c t) (today utc_now h)
     /\ (forall c, last (today utc_now h) = Some c -> resolves_to c t)) \/
  (today_at utc_now tz h = None /\ Exists (fun c => forall t, ~ resolves_to c t) (today utc_now h)).
Proof.
  unfold today, today_at. set (c := civil_of _).
  assert (Hc : shown (zoned_timestamp tz) (tz_offset tz) (from_utc_datetime tz utc_now) = c) by (unfold shown; by rewrite from_utc_datetime_spec).
  assert (Hstep : forall (w : DateTime tz -> Z -> option (DateTime tz)) v t c', (forall t', w t v = Some t' <-> resolves_to c' t') ->
    (exists t', w t v = Some t' /\ resolves_to c' t') \/ (w t v = None /\ forall t', ~ resolves_to c' t')).
  { intros w v t c' Hw. destruct (w t v) as [t'|] eqn:E; [left; exists t'; split; [done|]; by apply Hw|right]. split; [done|]. by intros t' Ht%Hw. }
  destruct (Hstep with_hour h (from_utc_datetime tz utc_now) (set_hour h c)) as [(t1 & -> & Hr1)|[-> Hr1]];
    [intros t'; rewrite (with_hour_spec (T := DateTime tz)); by rewrite Hc| |right; split; [done|by left]]. cbn [mbind option_bind].
  destruct (Hstep with_minute 0 t1 (set_minute 0 (set_hour h c))) as [(t2 & -> & Hr2)|[-> Hr2]];
    [intros t'; rewrite (with_minute_spec (T := DateTime tz)); by rewrite (proj1 Hr1)| |right; split; [done|by right; left]]. cbn [mbind option_bind].
  destruct (Hstep with_second 0 t2 (set_second 0 (set_minute 0 (set_hour h c)))) as [(t3 & -> & Hr3)|[-> Hr3]];
    [intros t'; rewrite (with_second_spec (T := DateTime tz)); by rewrite (proj1 Hr2)| |right; split; [done|by right; right; left]]. cbn [mbind option_bind].
  destruct (Hstep with_nanosecond 0 t3 (set_nano 0 (set_second 0 (set_minute 0 (set_hour h c))))) as [(t4 & -> & Hr4)|[-> Hr4]];
    [intros t'; rewrite (with_nanosecond_spec (T := DateTime tz)) by done; by rewrite (proj1 Hr3)| |right; split; [done|by right; right; right; left]].
  left. exists t4. split; [done|]. split; [by repeat (constructor; [by eauto|])|]. intros c' [= <-]. done.
Qed.

Context `{RegexLaws}.

(** What a string without spaces around it is read as: the only instant at which the clocks of the zone show the stamp, at a whole hour
    of today, the epoch if today has no such hour, or nothing. *)
Inductive reads (utc_now : NaiveDateTime) (s : text) : option Z -> Prop :=
  | reads_stamp fs t : stamp_ok fs -> s = stamp fs -> resolves_to (info_civil (stamp_info fs)) t -> reads utc_now s (Some (zoned_timestamp tz t / 1000))
  | reads_no_time fs : stamp_ok fs -> s = stamp fs -> (forall t, ~ resolves_to (info_civil (stamp_info fs)) t) -> reads utc_now s None
  | reads_today h c t : field_ok (1, 2)%nat h -> s = 84 :: h -> Forall (fun c => exists t, resolves_to c t) (today utc_now (number 0 h)) ->
      last (today utc_now (number 0 h)) = Some c -> resolves_to c t -> reads utc_now s (Some (zoned_timestamp tz t / 1000))
  | reads_epoch h : field_ok (1, 2)%nat h -> s = 84 :: h -> Exists (fun c => forall t, ~ resolves_to c t) (today utc_now (number 0 h)) -> reads utc_now s (Some 0)
  | reads_other : (forall fs, stamp_ok fs -> s <> stamp fs) -> (forall h, field_ok (1, 2)%nat h -> s <> 84 :: h) -> reads utc_now s None.

Lemma decimal_bound f : forallb is_ascii_digit f = true -> 0 <= decimal f < 10 ^ Z.of_nat (length f).
Proof.
  unfold decimal. induction f as [|c f IH] using rev_ind; [done|]. rewrite forallb_app, andb_true_iff. intros [Hf Hc]. cbn in Hc.
  rewrite foldl_app, length_app, Nat2Z.inj_add, Z.pow_add_r by lia. cbn [foldl length]. specialize (IH Hf). unfold is_ascii_digit in Hc.
  change (10 ^ Z.of_nat 1) with 10. lia.
Qed.

Lemma stamp_micros fs : stamp_ok fs -> 0 <= microsecond (stamp_info fs) < 10 ^ 6.
Proof.
  intros Hfs. cbn [microsecond stamp_info]. unfold stamp_number. destruct (fs !! 6%nat) as [f|] eqn:E; [|lia].
  destruct (stamp_field fs 6 f Hfs E) as (w & [Hl _] & _ & Hw). unfold number. destruct (forallb _ _) eqn:Ef; [|lia].
  pose proof (decimal_bound f Ef). assert (10 ^ Z.of_nat (length f) <= 10 ^ 6) by (apply Z.pow_le_mono_r; lia). lia.
Qed.

(** The result of the parser: a value, or an error that tells whether the string was a stamp *)
Lemma timestamp_parser_spec utc_now s mode : exists v, reads utc_now (trim s) v /\
  match v with
  | Some v => timestamp_parser utc_now tz s mode = Ok (Some v)
  | None => timestamp_parser utc_now tz s mode = Ok None \/ exists e, timestamp_parser utc_now tz s mode = Err e
  end.
Proof.
  unfold timestamp_parser. cbv zeta. destruct (trim s) as [|c l] eqn:E.
  - exists None. split; [|by left]. apply reads_other; [|done]. intros [|f fs] Hfs Ef; [destruct Hfs as [Hl _]; cbn in Hl; lia|].
    destruct (stamp_field (f :: fs) 0 f Hfs eq_refl) as (w & [Hlf _] & Hw & _). destruct f; [cbn in Hlf; lia|done].
  - destruct (try_patterns_cases utc_now tz (c :: l)) as [(fs & Hfs & Es & ->)|[(h & Hh & Es & ->)|(Hn & Hn' & ->)]].
    + destruct (parse_timestamp_to_micros_spec (stamp_info fs) (stamp_micros fs Hfs)) as [(t & Ht & ->)|[Ht ->]].
      * exists (Some (zoned_timestamp tz t / 1000)). split; [by eapply reads_stamp|done].
      * exists None. split; [by eapply reads_no_time|]. right. by eexists.
    + clear E. rewrite Es, time_only_value by done. destruct (today_at_spec utc_now (number 0 h)) as [(t & -> & Hall & Ht)|[-> Hex]].
      * exists (Some (zoned_timestamp tz t / 1000)). split; [|done]. by eapply reads_today; [done|done|done|done|apply Ht].
      * exists (Some 0). split; [|done]. by eapply reads_epoch.
    + exists None. split; [by apply reads_other|]. cbn. destruct (is_ansi mode); [right; by eexists|by left].
Qed.

(** * Columns *)

Lemma micros_in_range t : in_s 64 (zoned_timestamp tz t / 1000).
Proof.
  assert (Hi : min_nanos <= zoned_timestamp tz t <= max_nanos) by (apply (instant_range (T := DateTime tz)); by exists t).
  pose proof nanos_micros as [Hmin Hmax]. split; [apply Z.div_le_lower_bound; lia|]. change (2 ^ (64 - 1)) with (2 ^ 63). apply Z.div_lt_upper_bound; lia.
Qed.

Lemma reads_in_range utc_now s v : reads utc_now s (Some v) -> in_s 64 v.
Proof. inversion 1; [apply micros_in_range|apply micros_in_range|unfold in_s; lia]. Qed.

Lemma trim_start_suffix s : exists w, s = w ++ trim_start s.
Proof.
  induction s as [|c s [w IH]]; [by exists []|]. cbn. destruct (is_whitespace c); [exists (c :: w); cbn; by f_equal|by exists []].
Qed.

Lemma trim_start_idem s : trim_start (trim_start s) = trim_start s.
Proof. induction s as [|c s IH]; [done|]. cbn. destruct (is_whitespace c) eqn:E; [done|]. cbn. by rewrite E. Qed.

Lemma trim_idem s : trim (trim s) = trim s.
Proof.
  assert (E : trim_start (trim s) = trim s).
  { unfold trim. destruct (trim_start_suffix (reverse (trim_start s))) as [w Hw]. apply (f_equal reverse) in Hw.
    rewrite reverse_involutive, reverse_app in Hw. set (v := reverse (trim_start (reverse (trim_start s)))) in *.
    pose proof (trim_start_idem s) as Hi. rewrite Hw in Hi. destruct v as [|c v]; [done|]. cbn in Hi |- *.
    destruct (is_whitespace c) eqn:Ec; [|done]. exfalso. destruct (trim_start_suffix (v ++ reverse w)) as [w' Hw'].
    rewrite Hi in Hw'. apply (f_equal length) in Hw'. rewrite length_app in Hw'. rewrite length_app in Hw'. cbn in Hw'. rewrite length_app in Hw'. lia. }
  unfold trim at 1. rewrite E. unfold trim. by rewrite reverse_involutive, trim_start_idem.
Qed.

Lemma cast_utf8_to_timestamp_spec utc_now mode array i : exists out, cast_utf8_to_timestamp utc_now tz mode i array = Ok out /\
  length out = length array /\
  forall k s, array !! k = Some s -> exists v, out !! k = Some v /\ match s with None => v = None | Some s => reads (utc_now (i + k)%nat) (trim s) v end.
Proof.
  revert i. induction array as [|x array IH]; intros i; [by exists []|]. destruct (IH (S i)) as (out & Ho & Hl & Hout). cbn [cast_utf8_to_timestamp].
  assert (exists v, (match x with
    | None => Ok None
    | Some s => match timestamp_parser (utc_now i) tz (trim s) mode with Ok (Some v) => Ok (Some v) | Panic => Panic | _ => Ok None end
    end : SparkResult (option Z)) = Ok v /\ match x with None => v = None | Some s => reads (utc_now i) (trim s) v end) as (v & -> & Hv).
  { destruct x as [s|]; [|by eauto]. destruct (timestamp_parser_spec (utc_now i) (trim s) mode) as (v & Hv & Hp). rewrite trim_idem in Hv.
    exists v. split; [|done]. destruct v; [by rewrite Hp|]. by destruct Hp as [->|[e ->]]. }
  exists (v :: out). cbn. rewrite Ho. split_and!; [done|cbn; by f_equal|]. intros [|k] s Hs.
  - cbn in Hs. simplify_eq. rewrite Nat.add_0_r. by exists v.
  - rewrite Nat.add_succ_r. by apply Hout.
Qed.

(** A stamp in the digits of ASCII whose fraction, if it has one, has six digits; and the date and time it stands for *)
Definition ordinary (fs : list text) : Prop :=
  stamp_ok fs /\ Forall (fun f => forallb is_ascii_digit f = true) fs /\ forall f, fs !! 6%nat = Some f -> length f = 6%nat.
Definition written (fs : list text) : Civil :=
  let field d i := match fs !! i with Some f => decimal f | None => d end in
  MkCivil (field 0 0%nat) (field 1 1%nat) (field 1 2%nat) (field 0 3%nat) (field 0 4%nat) (field 0 5%nat)
    (match fs !! 6%nat with Some f => decimal f * 10 ^ (9 - Z.of_nat (length f)) | None => 0 end).

(** The only instant at which the clocks of the zone show a date and time, in microseconds, or nothing if there is no such instant or more than one *)
Definition instant_of (c : Civil) (v : option Z) : Prop :=
  match v with Some v => exists t, resolves_to c t /\ v = zoned_timestamp tz t / 1000 | None => forall t, ~ resolves_to c t end.

Lemma written_info fs : ordinary fs -> info_civil (stamp_info fs) = written fs.
Proof.
  intros (_ & Hd & H6). assert (Hn : forall d i, stamp_number d fs i = match fs !! i with Some f => decimal f | None => d end).
  { intros d i. unfold stamp_number, number. destruct (fs !! i) as [f|] eqn:E; [|done]. eapply Forall_lookup_1 in E; [|done]. by rewrite E. }
  unfold info_civil, written. cbn [year ts_month ts_day hour minute second microsecond stamp_info]. rewrite !Hn. f_equal.
  destruct (fs !! 6%nat) as [f|] eqn:E; [|done]. by rewrite (H6 f).
Qed.

Lemma stamp_inj fs fs' : stamp_ok fs -> stamp_ok fs' -> stamp fs = stamp fs' -> fs = fs'.
Proof. intros Hfs Hfs' E. apply (f_equal (split_on [84; 45; 58; 46])) in E. by rewrite !split_stamp in E. Qed.

Lemma reads_ordinary utc_now fs v : ordinary fs -> reads utc_now (stamp fs) v -> instant_of (written fs) v.
Proof.
  intros Ho Hr. rewrite <- written_info by done. destruct Ho as [Hfs _].
  assert (Hh : forall h, stamp fs <> 84 :: h).
  { intros h E. apply (f_equal (split_on [84; 45; 58; 46])) in E. rewrite split_stamp in E by done. change (split_on _ (84 :: h)) with ([] :: split_on [84; 45; 58; 46] h) in E.
    subst fs. destruct (stamp_field _ 0 [] Hfs eq_refl) as (w & [Hl _] & Hw & _). cbn in Hl. lia. }
  inversion Hr as [fs' t Hok E Ht|fs' Hok E Ht|h c t ? E|h ? E|Hn ?]; subst; try (by destruct (Hh h)).
  - apply stamp_inj in E as <-; [|done..]. by exists t.
  - apply stamp_inj in E as <-; [|done..]. done.
  - by destruct (Hn fs Hfs).
Qed.

(** C19: A cast of a column of strings to timestamps gives a value or null for every row, without an error in any evaluation mode; an unknown zone
    panics.  A string that is, between spaces, a year, a month, a date or a date and time down to the hour, minute, second or microsecond, in ASCII digits and with no or six
    digits after the point, becomes the only instant at which the clocks of the session's time zone show it, and null if there is none
    or more than one.  In general the value is what [reads] says: a shorter fraction counts as a number of microseconds, a field in digits of
    another script as its default (0, or 1 for month and day), T and an hour as that hour of the current day, or as the epoch if one of the local times on the way
    there (the hour with the minutes and seconds of now, which are then cleared one by one) is not shown exactly once, and any other string is null. *)
Theorem timestamp_cast_correct utc_now mode name array :
  (tz_parse name = Some tz -> exists out, cast_string_to_timestamp utc_now array mode name = Ok out /\ length out = length array /\
     (forall i s, array !! i = Some s -> exists v, out !! i = Some v /\ match s with None => v = None | Some s => reads (utc_now i) (trim s) v end) /\
     (forall i s fs, array !! i = Some (Some s) -> trim s = stamp fs -> ordinary fs -> exists v, out !! i = Some v /\ instant_of (written fs) v)) /\
  (tz_parse name = None -> cast_string_to_timestamp utc_now array mode name = Panic).
Proof.
  unfold cast_string_to_timestamp. split; intros ->; [|done]. destruct (cast_utf8_to_timestamp_spec utc_now mode array 0) as (out & E & Hl & Hout).
  exists out. split_and!; [done|done|done|]. intros i s fs Hi Hs Ho. destruct (Hout i _ Hi) as (v & Hv & Hr). exists v. split; [done|].
  rewrite Hs in Hr. by eapply reads_ordinary.
Qed.
End Instants.
