(* ===== verification/CastArrays.v ===== *)
(** The dispatch of casts (src/native/spark-expr/src/conversion_funcs/cast.rs): [spark_cast] and [cast_array] over arrays with
    dictionaries and structs, the casts of binary values and structs to strings, and the steps before and after a cast.

    Arrow's arrays are trees of columns; the kernels of Arrow, the base64 and hex crates and scalars are operations of a class. *)

From S2P Require Import Prelude UnsafeRow Casts Exprs Temporal TimestampParser CastTypes CastFloats.
From stdpp Require Import list strings.
Open Scope Z_scope.

(** * Arrays *)

(** Strings and binary values are bytes, floats their bits. *)
Inductive Value := VBool (b : bool) | VInt (z : Z) | VFloat (bits : Z) | VBytes (l : list Z) | VOther (id : Z).

(** [validity] tells which rows of a struct array are not null. *)
Inductive CArray :=
  | Leaf (t : ArrowType) (slots : list (option Value))
  | DictArr (key : ArrowType) (keys : list (option Z)) (values : CArray)
  | StructArr (fields : list (Field ArrowType)) (columns : list CArray) (validity : list bool).

Fixpoint data_type (a : CArray) : ArrowType :=
  match a with
  | Leaf t _ => t
  | DictArr key _ values => TyDictionary key (data_type values)
  | StructArr fields _ _ => TyStruct fields
  end.

Definition len (a : CArray) : nat :=
  match a with Leaf _ slots => length slots | DictArr _ keys _ => length keys | StructArr _ _ validity => length validity end.

(** [is_valid] for every row *)
Definition validity_of (a : CArray) : list bool :=
  match a with
  | Leaf _ slots => (fun x => match x with Some _ => true | None => false end) <$> slots
  | DictArr _ keys _ => (fun x => match x with Some _ => true | None => false end) <$> keys
  | StructArr _ _ validity => validity
  end.

(** Arrow's cast kernel with [safe] on or off (the format options are the same in every call: [TIMESTAMP_FORMAT]) and the test of its table; [take]; the constructors of struct and dictionary arrays, which
    panic ([None]) on columns that do not fit; scalars; base64 without padding and the two hex digits of a byte. *)
Class CastKernels := {
  cast_with_options : bool -> CArray -> ArrowType -> DFResult CArray;
  can_cast_types : ArrowType -> ArrowType -> bool;
  take_array : CArray -> list (option Z) -> DFResult CArray;
  struct_array_new : list (Field ArrowType) -> list CArray -> list bool -> option CArray;
  dict_array_new : list (option Z) -> CArray -> option CArray;
  ScalarValue : Type;
  scalar_to_array : ScalarValue -> DFResult CArray;
  scalar_from_array : CArray -> DFResult ScalarValue;
  base64_no_pad : list Z -> text;
  hex_upper : Z -> text;
}.

(** [downcast_ref().unwrap()] *)
Definition downcast {A} (get : Value -> option A) (slots : list (option Value)) : option (list (option A)) :=
  mapM (fun x => match x with Some v => Some <$> get v | None => Some None end) slots.
Definition as_int_value (v : Value) : option Z := match v with VInt z => Some z | _ => None end.
Definition as_float_value (v : Value) : option Z := match v with VFloat b => Some b | _ => None end.
Definition as_bytes (v : Value) : option (list Z) := match v with VBytes l => Some l | _ => None end.

(** The characters of a string, whose bytes are UTF-8 *)
Fixpoint utf8_chars (l : list Z) : text :=
  match l with
  | b :: l =>
      if b <? 128 then b :: utf8_chars l
      else
        match l with
        | c1 :: l =>
            if b <? 224 then ((b - 192) * 64 + (c1 - 128)) :: utf8_chars l
            else
              match l with
              | c2 :: l =>
                  if b <? 240 then ((b - 224) * 4096 + (c1 - 128) * 64 + (c2 - 128)) :: utf8_chars l
                  else
                    match l with
                    | c3 :: l => ((b - 240) * 262144 + (c1 - 128) * 4096 + (c2 - 128) * 64 + (c3 - 128)) :: utf8_chars l
                    | [] => []
                    end
              | [] => []
              end
        | [] => []
        end
  | [] => []
  end.
Definition as_chars (v : Value) : option text := l ← as_bytes v; utf8_chars <$> from_utf8 l.

(** A cast of the values of a column *)
Definition leaf_cast {A B} (get : Value -> option A) (put : B -> Value) (f : list (option A) -> SparkResult (list (option B))) (to_type : ArrowType)
    (slots : list (option Value)) : DFResult CArray :=
  a ← unwrap (downcast get slots); r ← external (f a); Ok (Leaf to_type (option_map put <$> (r : list (option B)))).

(** * Binary values to strings *)

Section Binary.
Context `{CastKernels}.

Fixpoint join (sep : text) (ws : list text) : text :=
  match ws with [] => [] | [w] => w | w :: ws => w ++ sep ++ join sep ws end.

(** [None] is a panic: bytes that are not UTF-8. *)
Definition spark_binary_formatter (value : list Z) (binary_output_style : BinaryOutputStyle) : option (list Z) :=
  match binary_output_style with
  | StyleUtf8 => from_utf8 value
  | StyleBasic => Some (codes "[" ++ join (codes ", ") ((fun v => to_string (swrap 8 v)) <$> value) ++ codes "]")
  | StyleBase64 => Some (base64_no_pad value)
  | StyleHex => Some (mjoin (hex_upper <$> value))
  | StyleHexDiscrete => Some (codes "[" ++ join (codes " ") (hex_upper <$> value) ++ codes "]")
  end.

(** The bytes are kept, also where they are not UTF-8. *)
Definition cast_binary_formatter (value : list Z) : list Z := value.

Definition cast_binary_to_string (options : SparkCastOptions) (input : list (option (list Z))) : SparkResult (list (option (list Z))) :=
  cast_elements (fun value =>
    match binary_output_style options with
    | Some s => match spark_binary_formatter value s with Some r => Ok (Some r) | None => Panic end
    | None => Ok (Some (cast_binary_formatter value))
    end) input.
End Binary.

(** * Before and after a cast *)

Definition MICROS_PER_SECOND : Z := 1000000.

(** [unary_dyn] for [Int64Type] *)
Fixpoint unary_dyn (op : Z -> Z) (a : CArray) : option CArray :=
  match a with
  | DictArr key keys values => values ← unary_dyn op values; Some (DictArr key keys values)
  | Leaf (TyInt Int64) slots => a ← downcast as_int_value slots; Some (Leaf (TyInt Int64) (option_map (VInt ∘ op) <$> a))
  | _ => None
  end.

(** [rfind('.')] and [trim_end_matches('0')] *)
Fixpoint trim_zeroes_rev (s : list Z) : list Z := match s with c :: s' => if c =? 48 then trim_zeroes_rev s' else s | [] => [] end.
Definition trim_end (s : list Z) : list Z := if existsb (Z.eqb 46) s then reverse (trim_zeroes_rev (reverse s)) else s.

Definition remove_trailing_zeroes (a : CArray) : option CArray :=
  match a with
  | Leaf TyUtf8 slots => a ← downcast as_bytes slots; Some (Leaf TyUtf8 (option_map (VBytes ∘ trim_end) <$> a))
  | _ => None
  end.

(** [div_floor] is the division of [Z]. *)
Definition spark_cast_postprocess (array : CArray) (from_type to_type : ArrowType) : DFResult CArray :=
  match from_type, to_type with
  | TyTimestamp _ _, TyInt Int64 | TyDictionary _ (TyTimestamp _ _), TyInt Int64 => unwrap (unary_dyn (fun v => v / MICROS_PER_SECOND) array)
  | TyTimestamp _ _, TyUtf8 | TyDictionary _ (TyTimestamp _ _), TyUtf8 => unwrap (remove_trailing_zeroes array)
  | _, _ => Ok array
  end.

Definition is_int32 (t : ArrowType) : bool := match t with TyInt Int32 => true | _ => false end.

(** The columns of Temporal.v *)
Definition slots_of (a : PArray) : list (option Value) := (fun x => VInt <$> slot_value x) <$> a.
Definition to_ptype (t : ArrowType) : ToType :=
  match t with TyUtf8 => ToUtf8 | TyDate32 => ToDate32 | TyTimestamp _ (Some _) => ToTimestampTz | _ => ToOtherType end.
Definition timestamp_column (u : TimeUnit) (tz : option text) (slots : list (option Z)) : TemporalColumn :=
  let a := append_option <$> slots in
  match u with Microseconds => TimestampMicros tz a | Milliseconds => TimestampMillis tz a | _ => TimestampOther tz a end.
Definition of_column (u : TimeUnit) (c : TemporalColumn) : option CArray :=
  match c with
  | TimestampMicros tz a => Some (Leaf (TyTimestamp Microseconds tz) (slots_of a))
  | TimestampMillis tz a => Some (Leaf (TyTimestamp Milliseconds tz) (slots_of a))
  | TimestampOther tz a => Some (Leaf (TyTimestamp u tz) (slots_of a))
  | _ => None
  end.

(** [array_with_timezone] of Temporal.v on arrays *)
Definition with_timezone `{Chrono} (array : CArray) (tz : text) (to_type : ArrowType) : DFResult CArray :=
  match array with
  | Leaf (TyTimestamp u z) slots =>
      a ← unwrap (downcast as_int_value slots);
      c ← array_with_timezone (timestamp_column u z a) tz (Some (to_ptype to_type));
      unwrap (of_column u c)
  | DictArr key keys (Leaf (TyTimestamp u z) slots) =>
      if is_int32 key then
        a ← unwrap (downcast as_int_value slots);
        c ← array_with_timezone (TemporalDict keys (timestamp_column u z a)) tz (Some (to_ptype to_type));
        match c with
        | TemporalDict keys c => values ← unwrap (of_column u c); Ok (DictArr key keys values)
        | _ => Panic
        end
      else Panic
  | _ => Ok array
  end.

(** [dict_from_values::<Int32Type>] *)
Definition dict_keys (a : CArray) : DFResult (list (option Z)) :=
  mapM (fun x : nat * bool => if x.2 then if Z.of_nat x.1 <? 2 ^ 31 then Ok (Some (Z.of_nat x.1)) else Err Internal else Ok None)
    (zip (seq 0 (len a)) (validity_of a)).
Definition dict_from_values (values_array : CArray) : DFResult CArray :=
  key_array ← dict_keys values_array; Ok (DictArr (TyInt Int32) key_array values_array).

(** * The dispatch *)

Section Dispatch.
(** [utc_now] is the clock at each row of a cast to timestamps, [from_ymd_opt] the calendar of the date parser. *)
Context `{ZoneParse} `{RegexDigits} `{CastKernels} `{FloatText} `{DecimalKernels} `{DecimalTypes}.
Context (utc_now : nat -> NaiveDateTime) (from_ymd_opt : Z -> Z -> Z -> option Z) (cast_options : SparkCastOptions).

Definition is_try (m : EvalMode) : bool := match m with Try => true | _ => false end.

(** The last two arms: DataFusion's cast, or the error of a cast that is not supported *)
Definition cast_fallback (array : CArray) (to_type : ArrowType) : DFResult CArray :=
  if is_adapting_schema cast_options || is_datafusion_spark_compatible (data_type array) to_type (allow_incompat cast_options)
  then cast_with_options (negb (is_ansi (eval_mode cast_options))) array to_type
  else Err (External SparkInternal).

Definition narrows (from_type to_type : IntType) : bool := int_width to_type <? int_width from_type.

Definition float_type (t : ArrowType) : option FloatWidth := match t with TyFloat32 => Some F32 | TyFloat64 => Some F64 | _ => None end.

Definition cast_from_float (w : FloatWidth) (array : CArray) (slots : list (option Value)) (to_type : ArrowType) : DFResult CArray :=
  let mode := eval_mode cast_options in
  match to_type with
  | TyUtf8 | TyLargeUtf8 => leaf_cast as_float_value VBytes (cast_elements (cast_float_to_string w)) to_type slots
  | TyDecimal128 precision scale =>
      leaf_cast as_float_value VInt (fun a => cast_floating_point_to_decimal128 w a precision scale mode) to_type slots
  | TyInt t =>
      if is_try mode then cast_fallback array to_type
      else leaf_cast as_float_value VInt (fun a => cast_float_to_integral w a mode t) to_type slots
  | _ => cast_fallback array to_type
  end.

(** The arms of the [match] of [cast_array] for arrays that are not structs *)
Definition cast_column (array : CArray) (to_type : ArrowType) : DFResult CArray :=
  let mode := eval_mode cast_options in
  match array with
  | Leaf TyUtf8 slots =>
      match to_type with
      | TyBoolean => leaf_cast as_chars VBool (fun a => spark_cast_utf8_to_boolean a mode) to_type slots
      | TyTimestamp _ _ =>
          leaf_cast as_chars VInt (fun a => cast_string_to_timestamp utc_now a mode (timezone cast_options)) (TyTimestamp Microseconds (Some (codes "UTC"))) slots
      | TyDate32 => leaf_cast as_bytes VInt (fun a => cast_string_to_date from_ymd_opt a mode) to_type slots
      | TyInt t => leaf_cast as_chars VInt (fun a => cast_string_to_int t a mode) to_type slots
      | _ => cast_fallback array to_type
      end
  | Leaf TyLargeUtf8 slots =>
      match to_type with
      | TyBoolean => leaf_cast as_chars VBool (fun a => spark_cast_utf8_to_boolean a mode) to_type slots
      | TyInt t => leaf_cast as_chars VInt (fun a => cast_string_to_int t a mode) to_type slots
      | _ => cast_fallback array to_type
      end
  | Leaf (TyInt f) slots =>
      match to_type with
      | TyInt t =>
          if narrows f t && negb (is_try mode) then leaf_cast as_int_value VInt (fun a => spark_cast_int_to_int a mode f t) to_type slots
          else cast_fallback array to_type
      | _ => cast_fallback array to_type
      end
  | Leaf TyFloat32 slots => cast_from_float F32 array slots to_type
  | Leaf TyFloat64 slots => cast_from_float F64 array slots to_type
  | Leaf (TyDecimal128 precision scale) slots =>
      match to_type with
      | TyInt t =>
          if is_try mode then cast_fallback array to_type
          else leaf_cast as_int_value VInt (fun a => cast_decimal_to_integral a mode precision scale t) to_type slots
      | _ => cast_fallback array to_type
      end
  | Leaf TyUtf8View _ => match to_type with TyUtf8 => cast_with_options true array to_type | _ => cast_fallback array to_type end
  | Leaf (TyList _) _ =>
      match to_type with
      | TyList _ => if can_cast_types (data_type array) to_type then cast_with_options true array to_type else cast_fallback array to_type
      | _ => cast_fallback array to_type
      end
  | Leaf (TyUInt _) _ =>
      match to_type with
      | TyInt _ => if allow_cast_unsigned_ints cast_options then cast_with_options true array to_type else cast_fallback array to_type
      | _ => cast_fallback array to_type
      end
  | Leaf TyBinary slots =>
      match to_type with
      | TyUtf8 => leaf_cast as_bytes VBytes (cast_binary_to_string cast_options) to_type slots
      | _ => cast_fallback array to_type
      end
  | _ => cast_fallback array to_type
  end.

(** The rows of [casts_struct_to_string] *)
Definition struct_row (fields : list (list (option (list Z)))) (row_index : nat) : option (list Z) :=
  values ← mapM (fun field => field !! row_index) fields;
  Some (codes "{" ++ join (codes ", ") ((fun v : option (list Z) => default (null_string cast_options) v) <$> values) ++ codes "}").
Definition struct_rows (string_arrays : list CArray) (validity : list bool) : option CArray :=
  fields ← mapM (fun a => match a with Leaf TyUtf8 slots => downcast as_bytes slots | _ => None end) string_arrays;
  rows ← mapM (fun x : nat * bool => if x.2 then Some <$> struct_row fields x.1 else Some None) (zip (seq 0 (length validity)) validity);
  Some (Leaf TyUtf8 (option_map VBytes <$> rows)).

(** A computation that may run out of fuel *)
Definition Run (A : Type) : Type := option (DFResult A).
#[global] Instance run_ret : MRet Run := fun A a => Some (Ok a).
#[global] Instance run_bind : MBind Run := fun A B f r =>
  match r with Some (Ok a) => f a | Some (Err e) => Some (Err e) | Some Panic => Some Panic | None => None end.
Definition run {A} (r : DFResult A) : Run A := Some r.
(** [unwrap] of a result *)
Definition unwrapped {A} (r : Run A) : Run A := match r with Some (Err _) => Some Panic | _ => r end.

Definition string_like (t : ArrowType) : bool := match t with TyUtf8 | TyLargeUtf8 | TyBinary | TyLargeBinary => true | _ => false end.

(** The casts of structs; [cast] is the cast of a column. *)
Definition casts_struct_to_string (cast : CArray -> ArrowType -> Run CArray) (columns : list CArray) (validity : list bool) : Run CArray :=
  string_arrays ← mapM (fun arr => cast arr TyUtf8) columns; run (unwrap (struct_rows string_arrays validity)).
Definition cast_struct_to_struct (cast : CArray -> ArrowType -> Run CArray) (columns : list CArray) (validity : list bool) (to_fields : list (Field ArrowType))
    : Run CArray :=
  cast_fields ← mapM (fun x : CArray * Field ArrowType => unwrapped (cast x.1 (f_type x.2))) (zip columns to_fields);
  run (unwrap (struct_array_new to_fields cast_fields validity)).

(** [cast_array], by recursion on fuel: for columns that are not strings a cast to a dictionary type calls itself without end. *)
Fixpoint cast_array (fuel : nat) (array : CArray) (to_type : ArrowType) : Run CArray :=
  match fuel with
  | O => None
  | S fuel =>
      array ← run (with_timezone array (timezone cast_options) to_type);
      let from_type := data_type array in
      match array, to_type with
      | DictArr key keys values, _ =>
          if is_int32 key && string_like (data_type values) then
            casted_result ←
              match to_type with
              | TyDictionary _ to_value_type => v ← cast_array fuel values to_value_type; run (unwrap (dict_array_new keys v))
              | _ => v ← cast_array fuel values to_type; _ ← run (unwrap (dict_array_new keys v)); run (take_array v keys)
              end;
            run (spark_cast_postprocess casted_result from_type to_type)
          else
            match to_type with
            | TyDictionary _ _ =>
                dict_array ← run (dict_from_values array);
                casted_result ← cast_array fuel dict_array to_type;
                run (spark_cast_postprocess casted_result from_type to_type)
            | _ => casted ← run (cast_fallback array to_type); run (spark_cast_postprocess casted from_type to_type)
            end
      | _, TyDictionary _ _ =>
          dict_array ← run (dict_from_values array);
          casted_result ← cast_array fuel dict_array to_type;
          run (spark_cast_postprocess casted_result from_type to_type)
      | StructArr fields columns validity, TyUtf8 =>
          casted ← casts_struct_to_string (cast_array fuel) columns validity;
          run (spark_cast_postprocess casted from_type to_type)
      | StructArr fields columns validity, TyStruct to_fields =>
          casted ← cast_struct_to_struct (cast_array fuel) columns validity to_fields;
          run (spark_cast_postprocess casted from_type to_type)
      | _, _ => casted ← run (cast_column array to_type); run (spark_cast_postprocess casted from_type to_type)
      end
  end.

(** [spark_cast] on columns and scalars, and [Cast::evaluate] *)
Inductive ColumnarArg := ArrayArg (a : CArray) | ScalarArg (s : ScalarValue).
Definition spark_cast (fuel : nat) (arg : ColumnarArg) (data_type : ArrowType) : Run ColumnarArg :=
  match arg with
  | ArrayArg array => r ← cast_array fuel array data_type; run (Ok (ArrayArg r))
  | ScalarArg scalar =>
      array ← run (scalar_to_array scalar);
      r ← cast_array fuel array data_type;
      scalar ← run (scalar_from_array r);
      run (Ok (ScalarArg scalar))
  end.
Definition cast_evaluate (fuel : nat) (child : DFResult ColumnarArg) (data_type : ArrowType) : Run ColumnarArg :=
  arg ← run child; spark_cast fuel arg data_type.
End Dispatch.
