(* ===== verification/CastArrayProps.v ===== *)
(** Type soundness and completeness of the dispatch of casts (CastArrays.v): what a cast returns has the target type, whatever
    [cast_supported] accepts is not rejected but for a list of exceptions, and where [cast_array] does not terminate. *)

From S2P Require Import Prelude UnsafeRow Casts CastProps Exprs Calendar Temporal TemporalProps TimestampParser TimestampProps CastTypes CastFloats CastFloatProps CastArrays.
From stdpp Require Import list strings.
Open Scope Z_scope.
Ltac Zify.zify_post_hook ::= idtac.

(** * Well-typed arrays *)

(** The value of a slot of a type.  Strings are any bytes: whether they are UTF-8 is not asked, as a cast from binary values does not check it. *)
Definition value_ok (t : ArrowType) (v : Value) : Prop :=
  match t, v with
  | TyBoolean, VBool _ => True
  | TyInt i, VInt z => in_s (int_width i) z
  | TyUInt i, VInt z => in_u (int_width i) z
  | TyFloat32, VFloat b => in_u 32 b
  | TyFloat64, VFloat b => in_u 64 b
  | TyDecimal128 _ _, VInt z => in_s 128 z
  | TyDate32, VInt z => in_s 32 z
  | TyDate64, VInt z | TyTimestamp _ _, VInt z => in_s 64 z
  | TyUtf8, VBytes _ | TyLargeUtf8, VBytes _ | TyUtf8View, VBytes _ | TyBinary, VBytes _ | TyLargeBinary, VBytes _ => True
  | TyNull, VOther _ | TyDecimal256 _ _, VOther _ | TyList _, VOther _ | TyOther _, VOther _ => True
  | _, _ => False
  end.
Definition slot_ok (t : ArrowType) (x : option Value) : Prop := match x with Some v => value_ok t v | None => True end.

Definition plain_type (t : ArrowType) : bool := match t with TyStruct _ | TyDictionary _ _ => false | _ => true end.

Definition keys_ok (n : nat) (keys : list (option Z)) : Prop := Forall (fun k => match k with Some k => 0 <= k < Z.of_nat n | None => True end) keys.

(** Values of the type, keys that point to values, columns of the types of the fields and of one length *)
Inductive array_ok : CArray -> Prop :=
  | leaf_ok t slots : plain_type t = true -> Forall (slot_ok t) slots -> array_ok (Leaf t slots)
  | dict_ok key keys values : keys_ok (len values) keys -> array_ok values -> array_ok (DictArr key keys values)
  | struct_ok fields columns validity : data_type <$> columns = f_type <$> fields -> Forall (fun c => len c = length validity) columns ->
      Forall array_ok columns -> array_ok (StructArr fields columns validity).

(** What Arrow promises of the kernels *)
Class CastKernelLaws `{CastKernels} := {
  cast_kernel_typed : forall safe a t b, array_ok a -> cast_with_options safe a t = Ok b -> array_ok b /\ data_type b = t /\ len b = len a;
  cast_kernel_errors : forall safe a t e, cast_with_options safe a t = Err e -> e = ArrowError;
  take_array_typed : forall a keys b, array_ok a -> keys_ok (len a) keys -> take_array a keys = Ok b ->
    array_ok b /\ data_type b = data_type a /\ len b = length keys;
  take_array_errors : forall a keys e, take_array a keys = Err e -> e = ArrowError;
  struct_array_new_spec : forall fields columns validity b, struct_array_new fields columns validity = Some b ->
    b = StructArr fields columns validity /\ data_type <$> columns = f_type <$> fields /\ Forall (fun c => len c = length validity) columns;
  dict_array_new_spec : forall keys values b, dict_array_new keys values = Some b ->
    b = DictArr (TyInt Int32) keys values /\ keys_ok (len values) keys;
}.

Lemma downcast_length {A} (get : Value -> option A) slots a : downcast get slots = Some a -> length a = length slots.
Proof. unfold downcast. intros E%mapM_Some. symmetry. by eapply Forall2_length. Qed.

(** A cast of the values of a column that keeps the length and yields values of a type *)
Lemma leaf_cast_typed {A B} (get : Value -> option A) (put : B -> Value) f t slots b : plain_type t = true ->
  (forall a r, f a = Ok r -> length r = length a /\ Forall (fun x => slot_ok t (option_map put x)) r) ->
  leaf_cast get put f t slots = Ok b -> array_ok b /\ data_type b = t /\ len b = length slots.
Proof.
  intros Ht Hf. unfold leaf_cast. destruct (downcast get slots) as [a|] eqn:Ed; cbn; [|done]. destruct (f a) as [r| |] eqn:Er; cbn; [|done..].
  intros [= <-]. destruct (Hf a r Er) as [Hl Hr]. split_and!; [|done|].
  - constructor; [done|]. by apply Forall_fmap.
  - cbn. rewrite length_fmap, Hl. by eapply downcast_length.
Qed.

Lemma leaf_cast_error {A B} (get : Value -> option A) (put : B -> Value) f t slots e : leaf_cast get put f t slots = Err e -> exists a e', f a = Err e' /\ e = External e'.
Proof.
  unfold leaf_cast. destruct (downcast get slots) as [a|]; cbn; [|done]. destruct (f a) as [r|e'|] eqn:Er; cbn; [done| |done].
  intros [= <-]. by eauto.
Qed.

Lemma cast_elements_each {A B} (f : A -> SparkResult (option B)) (P : option B -> Prop) array out :
  P None -> (forall v r, f v = Ok r -> P r) -> cast_elements f array = Ok out -> length out = length array /\ Forall P out.
Proof.
  intros Hn Hf E%cast_elements_Ok. split; [symmetry; by eapply Forall2_length|]. induction E as [|[v|] r array out Hr]; constructor; try done; [by eapply Hf|by subst].
Qed.

Lemma typed_as_each {A} w t (array : list (option A)) out : (forall z, in_s w z -> value_ok t (VInt z)) -> typed_as w array out ->
  length out = length array /\ Forall (fun x => slot_ok t (option_map VInt x)) out.
Proof.
  intros Hv Ht. split; [symmetry; by eapply Forall2_length|]. induction Ht as [|x [r|] array out [Hr _] _ IH]; constructor; try done. by apply Hv.
Qed.

(** * One column *)

Lemma date_parser_typed from_ymd_opt s mode r : date_parser from_ymd_opt s mode = Ok r -> typed 32 r.
Proof.
  assert (Hr : return_result s mode = Ok r -> typed 32 r) by (unfold return_result; case_match; intros; by simplify_eq).
  assert (Hb : forall sign bytes, date_body from_ymd_opt s mode sign bytes = Ok r -> typed 32 r).
  { intros sign bytes. unfold date_body, checked. repeat case_match; intros; try (by apply Hr); simplify_eq; try done. by case_bool_decide; simplify_eq. }
  unfold date_parser. repeat case_match; intros; try (by apply Hr); try (by eapply Hb); by simplify_eq.
Qed.

Lemma float_to_decimal_typed `{FloatText} `{DecimalKernels} w precision scale mode bits r : float_to_decimal w precision scale mode bits = Ok r -> typed 128 r.
Proof.
  unfold float_to_decimal, to_i128, checked. destruct (round_half_away _); [by repeat case_match; intros; simplify_eq..|].
  case_bool_decide; repeat case_match; intros; by simplify_eq.
Qed.

Section Column.
Context `{ZoneParseLaws} `{RegexLaws} `{CastKernelLaws} `{FloatText} `{DecimalKernels} `{DecimalTypes}.
Context (utc_now : nat -> NaiveDateTime) (from_ymd_opt : Z -> Z -> Z -> option Z) (cast_options : SparkCastOptions).

Abbreviation fallback := (cast_fallback cast_options).
Abbreviation column := (cast_column utc_now from_ymd_opt cast_options).

(** The type of the result of a cast between types that are not dictionaries: strings become timestamps in microseconds and in UTC, whatever
    unit and zone the target has. *)
Definition plain_result (from_type to_type : ArrowType) : ArrowType :=
  match from_type, to_type with TyUtf8, TyTimestamp _ _ => TyTimestamp Microseconds (Some (codes "UTC")) | _, _ => to_type end.

Definition good_result (a : CArray) (t : ArrowType) (b : CArray) : Prop := array_ok b /\ data_type b = t /\ len b = len a.

Lemma cast_fallback_typed a t b : array_ok a -> fallback a t = Ok b -> good_result a t b.
Proof. unfold cast_fallback. case_match; [|done]. by apply cast_kernel_typed. Qed.

Lemma string_to_timestamp_typed array mode name out : cast_string_to_timestamp utc_now array mode name = Ok out ->
  length out = length array /\ Forall (fun x => slot_ok (TyTimestamp Microseconds (Some (codes "UTC"))) (option_map VInt x)) out.
Proof.
  unfold cast_string_to_timestamp. destruct (tz_parse name) as [tz|]; [|done]. intros E.
  destruct (cast_utf8_to_timestamp_spec tz utc_now mode array 0) as (out' & E' & Hl & Hout). rewrite E in E'. simplify_eq. split; [done|].
  apply Forall_lookup_2. intros i [v|] Hi; [|done]. destruct (lookup_lt_is_Some_2 array i) as [s Hs]; [rewrite <- Hl; by eapply lookup_lt_Some|].
  destruct (Hout i s Hs) as (v' & Hi' & Hv). rewrite Hi in Hi'. simplify_eq. destruct s as [s|]; [|done]. by apply reads_in_range in Hv.
Qed.

Lemma any_bytes t (r : list (option (list Z))) : (forall l, value_ok t (VBytes l)) -> Forall (fun x => slot_ok t (option_map VBytes x)) r.
Proof. intros Hv. induction r as [|[l|] r IH]; constructor; try done. apply Hv. Qed.

Lemma cast_from_float_typed w a slots t b : array_ok a -> len a = length slots -> cast_from_float cast_options w a slots t = Ok b -> good_result a t b.
Proof.
  intros Ha Hl. unfold cast_from_float, good_result. rewrite Hl. destruct t; try (rewrite <- Hl; by apply cast_fallback_typed).
  - destruct (is_try _); [rewrite <- Hl; by apply cast_fallback_typed|]. apply leaf_cast_typed; [done|].
    intros x r Hr. apply (cast_elements_each _ (typed (int_width t))) in Hr as [? Hf]; [|done|intros; by eapply float_to_int_typed]. split; [done|].
    eapply Forall_impl; [exact Hf|]. by intros [z|].
  - apply leaf_cast_typed; [done|]. intros x r Hr. unfold cast_floating_point_to_decimal128 in Hr. destruct (cast_elements _ _) as [r'| |] eqn:E; cbn in Hr; [|done..].
    case_match; [|done]. simplify_eq. apply (cast_elements_each _ (typed 128)) in E as [? Hf]; [|done|intros; by eapply float_to_decimal_typed]. split; [done|].
    eapply Forall_impl; [exact Hf|]. by intros [z|].
  - apply leaf_cast_typed; [done|]. intros x r Hr. apply (cast_elements_each _ (fun _ => True)) in Hr as [? _]; [|done|done]. split; [done|]. by apply any_bytes.
  - apply leaf_cast_typed; [done|]. intros x r Hr. apply (cast_elements_each _ (fun _ => True)) in Hr as [? _]; [|done|done]. split; [done|]. by apply any_bytes.
Qed.

Lemma string_to_boolean_typed t array mode out : t = TyBoolean -> spark_cast_utf8_to_boolean array mode = Ok out ->
  length out = length array /\ Forall (fun x => slot_ok t (option_map VBool x)) out.
Proof. intros ->. apply cast_elements_each; [done|]. by intros v [b|]. Qed.

Lemma string_to_int_typed i array mode out : cast_string_to_int i array mode = Ok out ->
  length out = length array /\ Forall (fun x => slot_ok (TyInt i) (option_map VInt x)) out.
Proof. intros E. eapply typed_as_each; [|by eapply int_casts_typed]. done. Qed.

Lemma cast_column_typed a t b : array_ok a -> column a t = Ok b -> good_result a (plain_result (data_type a) t) b.
Proof.
  intros Ha. assert (Hfb : forall t', t' = t -> fallback a t = Ok b -> good_result a t' b) by (intros ? ->; by apply cast_fallback_typed).
  assert (Hk : forall t', t' = t -> cast_with_options true a t = Ok b -> good_result a t' b) by (intros ? ->; by apply cast_kernel_typed).
  destruct a as [ft slots|key keys values|fields columns validity]; [|by apply Hfb..].
  destruct ft; cbn [cast_column data_type plain_result]; try (by apply Hfb); try (by apply cast_from_float_typed).
  - destruct t; try (by apply Hfb). case_match; [|by apply Hfb]. apply leaf_cast_typed; [done|]. intros x r Hr. eapply typed_as_each; [|exact (proj1 (proj2 (int_casts_typed _ _)) _ _ _ Hr)]. done.
  - destruct t; try (by apply Hfb). case_match; [by apply Hk|by apply Hfb].
  - destruct t; try (by apply Hfb). case_match; [by apply Hfb|]. apply leaf_cast_typed; [done|]. intros x r Hr. eapply typed_as_each; [|exact (proj2 (proj2 (int_casts_typed _ _)) _ _ _ _ Hr)]. done.
  - destruct t; try (by apply Hfb); apply leaf_cast_typed; try done.
    + intros x r. by apply string_to_boolean_typed.
    + intros x r. by apply string_to_int_typed.
    + intros x r Hr. apply (cast_elements_each _ (typed 32)) in Hr as [? Hf]; [|done|intros; by eapply date_parser_typed]. split; [done|].
      eapply Forall_impl; [exact Hf|]. by intros [z|].
    + intros x r. apply string_to_timestamp_typed.
  - destruct t; try (by apply Hfb); apply leaf_cast_typed; try done.
    + intros x r. by apply string_to_boolean_typed.
    + intros x r. by apply string_to_int_typed.
  - destruct t; by apply Hfb || by apply Hk.
  - destruct t; try (by apply Hfb). apply leaf_cast_typed; [done|]. intros x r Hr. apply (cast_elements_each _ (fun _ => True)) in Hr as [? _]; [|done|done].
    split; [done|]. by apply any_bytes.
  - destruct t; try (by apply Hfb). case_match; [by apply Hk|by apply Hfb].
Qed.
End Column.

(** * Before and after a cast *)

Lemma downcast_as_int t slots a : downcast as_int_value slots = Some a -> (forall z, value_ok t (VInt z) -> in_s 64 z) -> Forall (slot_ok t) slots ->
  Forall (typed 64) a.
Proof.
  unfold downcast. intros E%mapM_Some Hv Hs. induction E as [|x y slots a Hxy _ IH]; constructor; apply Forall_cons in Hs as [Hx Hs]; [|by apply IH].
  destruct x as [[]|]; cbn in Hxy; simplify_eq; try done. by apply Hv.
Qed.

Lemma slots_typed t r : (forall z, in_s 64 z -> value_ok t (VInt z)) -> Forall (typed 64) r -> Forall (slot_ok t) (option_map VInt <$> r).
Proof. intros Hv Hr. apply Forall_fmap. eapply Forall_impl; [exact Hr|]. intros [z|]; [apply Hv|done]. Qed.

Lemma unary_dyn_typed op a b : (forall z, in_s 64 z -> in_s 64 (op z)) -> array_ok a -> unary_dyn op a = Some b -> good_result a (data_type a) b.
Proof.
  intros Hop. revert b. induction a as [t slots|key keys values IH|fields columns validity]; intros b Ha; cbn [unary_dyn]; [|intros E|done].
  - destruct t as [| |[]| | | | | | | | | | | | | | | | |]; try done. destruct (downcast _ _) as [a|] eqn:Ed; cbn; [|done]. intros [= <-]. inversion Ha; subst.
    split_and!; [|done|]; [|cbn; rewrite length_fmap; by eapply downcast_length].
    constructor; [done|]. pose proof (downcast_as_int (TyInt Int64) _ _ Ed ltac:(done) ltac:(done)) as Ht. clear Ed.
    induction Ht as [|[z|] a Hz _ IHa]; constructor; try done. by apply Hop.
  - inversion Ha; subst. destruct (unary_dyn op values) as [v|] eqn:Ev; cbn in E; [|done]. simplify_eq. destruct (IH v ltac:(done) eq_refl) as (Hv & Ht & Hl).
    split_and!; [|cbn; by f_equal|done]. constructor; [by rewrite Hl|done].
Qed.

Lemma postprocess_typed a f t b : array_ok a -> spark_cast_postprocess a f t = Ok b -> good_result a (data_type a) b.
Proof.
  intros Ha.
  assert (Hu : unwrap (unary_dyn (fun v => v / MICROS_PER_SECOND) a) = (Ok b : DFResult CArray) -> good_result a (data_type a) b).
  { destruct (unary_dyn _ a) as [b'|] eqn:E; cbn; [|done]. intros [= <-]. eapply unary_dyn_typed; [|done|done]. intros z [Hlo Hhi].
    split; [apply Z.div_le_lower_bound; [done|]|apply Z.div_lt_upper_bound; [done|]]; unfold MICROS_PER_SECOND; lia. }
  assert (Hr : unwrap (remove_trailing_zeroes a) = (Ok b : DFResult CArray) -> good_result a (data_type a) b).
  { destruct a as [[]| |]; try done. cbn. destruct (downcast _ _) as [x|] eqn:Ed; cbn; [|done]. intros [= <-].
    split_and!; [|done|cbn; rewrite length_fmap; by eapply downcast_length]. constructor; [done|]. clear. by induction x as [|[]]; constructor. }
  assert (Ho : (Ok a : DFResult CArray) = Ok b -> good_result a (data_type a) b) by (by intros [= <-]).
  unfold spark_cast_postprocess. repeat case_match; eauto.
Qed.

Section Zones.
Context `{ZoneParseLaws}.

Lemma nanos_unit_range i unit : min_nanos <= i <= max_nanos -> 1000 <= unit -> in_s 64 (i / unit).
Proof.
  intros Hi Hu. pose proof nanos_micros as [Hmin Hmax]. split; [apply Z.div_le_lower_bound; nia|].
  change (2 ^ (64 - 1)) with (2 ^ 63). apply Z.div_lt_upper_bound; nia.
Qed.

Definition slots_ok (a : PArray) : Prop := Forall (fun x => typed 64 (slot_value x)) a.

Lemma try_unary_ok f a b : (forall v v', f v = Ok v' -> in_s 64 v') -> try_unary f a = Ok b -> slots_ok b /\ length b = length a.
Proof.
  intros Hf. unfold try_unary. intros E%mapM_Ok_inv. split; [|symmetry; by eapply Forall2_length].
  induction E as [|x y a b Hy _ IH]; constructor; [|done]. destruct (slot_value x) as [v|]; [|by simplify_eq].
  destruct (f v) as [v'| |] eqn:Ev; cbn in Hy; simplify_eq. cbn. by eapply Hf.
Qed.

Lemma local_to_utc_range to_datetime unit tz v v' : 1000 <= unit -> local_to_utc to_datetime unit tz v = Ok v' -> in_s 64 v'.
Proof.
  intros Hu. unfold local_to_utc. destruct (to_datetime v) as [l|]; [|done]. destruct (from_local_datetime tz l) as [t|]; cbn; [|done]. intros [= <-].
  apply nanos_unit_range; [|done]. apply (instant_range (T := DateTime tz)). by exists t.
Qed.

Lemma utc_to_local_range tz v v' : utc_to_local tz v = Ok v' -> in_s 64 v'.
Proof.
  unfold utc_to_local. destruct (micros_to_datetime v) as [l|]; [|done]. destruct (add_offset _ _) as [t|]; cbn; [|done]. intros [= <-].
  apply nanos_unit_range; [|done]. apply (instant_range (T := NaiveDateTime)). by exists t.
Qed.

(** A column of timestamps of unit [u] and of length [n] *)
Definition zoned_column (u : TimeUnit) (n : nat) (c : TemporalColumn) : Prop :=
  exists z a, of_column u c = Some (Leaf (TyTimestamp u z) (slots_of a)) /\ slots_ok a /\ length a = n.

Lemma append_option_ok a : Forall (typed 64) a -> slots_ok (append_option <$> a).
Proof. intros Ha. apply Forall_fmap. eapply Forall_impl; [exact Ha|]. by intros [z|]. Qed.

Lemma ntz_zoned u n c tz c' : zoned_column u n c -> timestamp_ntz_to_timestamp c tz (Some tz) = Ok c' -> zoned_column u n c'.
Proof.
  intros Hc. unfold timestamp_ntz_to_timestamp. destruct tz as [|x tz]; [done|]. set (name := x :: tz).
  assert (Hid : (Ok c : DFResult _) = Ok c' -> zoned_column u n c') by (by intros [= <-]). destruct Hc as (z & a & Hz & Ha & Hl).
  destruct c as [|[]|[]| | |]; try done; destruct (parse_comet_tz name) as [tzv| |]; cbn [mbind result_bind]; try done;
    match goal with |- context [try_unary ?f ?x] => destruct (try_unary f x) as [a'| |] eqn:E end; cbn [mbind result_bind]; try done; intros [= <-];
    (apply try_unary_ok in E as [Ha' Hl']; [|intros v v' Hv; eapply local_to_utc_range; [|exact Hv]; lia]);
    cbn in Hz; simplify_eq; exists (Some name), a'; split_and!; try done; rewrite Hl'; unfold slots_of in *;
    match goal with H : _ <$> _ = _ <$> _ |- _ => apply (f_equal length) in H; rewrite !length_fmap in H; done end.
Qed.

Lemma pre_cast_zoned u n c tz c' : zoned_column u n c -> pre_timestamp_cast c tz = Ok c' -> zoned_column u n c'.
Proof.
  intros Hc. unfold pre_timestamp_cast. destruct tz as [|x tz]; [done|]. assert (Hid : (Ok c : DFResult _) = Ok c' -> zoned_column u n c') by (by intros [= <-]).
  destruct Hc as (z & a & Hz & Ha & Hl). destruct c; try done. destruct (parse_comet_tz _) as [tzv| |]; cbn [mbind result_bind]; try done.
  destruct (try_unary _ _) as [a'| |] eqn:E; cbn [mbind result_bind]; try done. intros [= <-].
  apply try_unary_ok in E as [Ha' Hl']; [|intros v v' Hv; by eapply utc_to_local_range].
  cbn in Hz. simplify_eq. exists None, a'. split_and!; try done. rewrite Hl'. unfold slots_of in *.
  match goal with H : _ <$> _ = _ <$> _ |- _ => apply (f_equal length) in H; rewrite !length_fmap in H; done end.
Qed.

Lemma with_zone_zoned u z a tz to_type c : Forall (typed 64) a -> array_with_timezone (timestamp_column u z a) tz to_type = Ok c -> zoned_column u (length a) c.
Proof.
  intros Ha%append_option_ok. assert (Hcol : forall z', zoned_column u (length a) (timestamp_column u z' a)).
  { intros z'. exists z', (append_option <$> a). split_and!; [by destruct u|done|by rewrite length_fmap]. }
  assert (Hid : forall z', (Ok (timestamp_column u z' a) : DFResult _) = Ok c -> zoned_column u (length a) c) by (by intros z' [= <-]).
  destruct u, z as [z|]; cbn [timestamp_column array_with_timezone]; destruct tz as [|x tz]; try done; destruct to_type as [[]|]; cbn [text_type]; try done;
    intros E; first [by eapply Hid | eapply pre_cast_zoned; [|exact E] | eapply ntz_zoned; [|exact E]]; apply Hcol.
Qed.
End Zones.

(** Timestamps change their zone, other arrays stay. *)
Definition retimed (a b : CArray) : Prop :=
  match a with
  | Leaf (TyTimestamp u _) _ => exists z s, b = Leaf (TyTimestamp u z) s
  | DictArr key keys (Leaf (TyTimestamp u _) _) => key = TyInt Int32 /\ exists z s, b = DictArr key keys (Leaf (TyTimestamp u z) s)
  | _ => b = a
  end.

Lemma zoned_leaf_ok u n c b : zoned_column u n c -> of_column u c = Some b -> exists z s, b = Leaf (TyTimestamp u z) s /\ array_ok b /\ length s = n.
Proof.
  intros (z & a & Hc & Ha & Hl) E. rewrite Hc in E. simplify_eq. exists z, (slots_of a). split_and!; [done| |by unfold slots_of; rewrite length_fmap].
  constructor; [done|]. apply Forall_fmap. eapply Forall_impl; [exact Ha|]. intros [v []]; done.
Qed.

Lemma is_int32_true t : is_int32 t = true -> t = TyInt Int32.
Proof. by destruct t as [| |[]| | | | | | | | | | | | | | | | |]. Qed.

Lemma with_timezone_typed `{ZoneParseLaws} a tz t b : array_ok a -> with_timezone a tz t = Ok b -> array_ok b /\ len b = len a /\ retimed a b.
Proof.
  intros Ha. assert (Hid : retimed a a -> (Ok a : DFResult _) = Ok b -> array_ok b /\ len b = len a /\ retimed a b) by (by intros Hr [= <-]).
  destruct a as [ft slots|key keys [ft slots| |]|]; try (by apply Hid); destruct ft; try (by apply Hid); cbn [with_timezone].
  - inversion Ha as [? ? _ Hs| |]; subst. destruct (downcast _ _) as [a|] eqn:Ed; cbn [unwrap mbind result_bind]; [|done].
    pose proof (downcast_as_int (TyTimestamp unit tz0) _ _ Ed ltac:(done) Hs) as Ht. apply downcast_length in Ed.
    destruct (array_with_timezone _ _ _) as [c| |] eqn:Ec; cbn [mbind result_bind]; [|done..]. apply with_zone_zoned in Ec; [|done].
    destruct (of_column unit c) as [b'|] eqn:Eb; cbn; [|done]. intros [= <-]. destruct (zoned_leaf_ok _ _ _ _ Ec Eb) as (z & s & -> & Hok & Hl).
    split_and!; [done|cbn; lia|by eexists _, _].
  - destruct (is_int32 key) eqn:Ek; [|done]. apply is_int32_true in Ek as ->. inversion Ha as [|? ? ? Hk Hv|]; subst. inversion Hv as [? ? _ Hs| |]; subst.
    destruct (downcast _ _) as [a|] eqn:Ed; cbn [unwrap mbind result_bind]; [|done]. pose proof (downcast_as_int (TyTimestamp unit tz0) _ _ Ed ltac:(done) Hs) as Ht. apply downcast_length in Ed.
    assert (Hd : forall c, array_with_timezone (TemporalDict keys (timestamp_column unit tz0 a)) tz (Some (to_ptype t)) = Ok c ->
      exists c', c = TemporalDict keys c' /\ zoned_column unit (length a) c').
    { intros c. destruct unit; try done.
      change (array_with_timezone (TemporalDict keys ?x) tz ?y) with (v ← array_with_timezone x tz y; Ok (TemporalDict keys v) : DFResult TemporalColumn).
      destruct (array_with_timezone _ _ _) as [c'| |] eqn:E; [|done..]. intros [= <-]. apply with_zone_zoned in E; [|done]. by eauto. }
    destruct (array_with_timezone _ _ _) as [c| |]; cbn [mbind result_bind]; [|done..]. destruct (Hd c eq_refl) as (c' & -> & Hz).
    destruct (of_column unit c') as [v|] eqn:Eb; cbn; [|done]. intros [= <-]. destruct (zoned_leaf_ok _ _ _ _ Hz Eb) as (z & s & -> & Hok & Hl).
    split_and!; [|done|done|by eexists _, _]. constructor; [|done]. cbn in Hk |- *. by rewrite Hl, Ed.
Qed.

(** * The whole dispatch *)

(** The type of the values of a dictionary of strings *)
Definition source (t : ArrowType) : ArrowType := match t with TyDictionary key v => if is_int32 key && string_like v then v else t | _ => t end.

(** The type of the result of a cast: dictionaries have 32-bit keys, strings become timestamps in UTC. *)
Fixpoint result_type (from_type to_type : ArrowType) : ArrowType :=
  match to_type with
  | TyDictionary _ t => TyDictionary (TyInt Int32) (result_type (source from_type) t)
  | _ => plain_result (source from_type) to_type
  end.

Lemma source_string v : string_like v = true -> source v = v.
Proof. by destruct v. Qed.

Lemma result_indep t f g : source f <> TyUtf8 -> source g <> TyUtf8 -> result_type f t = result_type g t.
Proof.
  assert (Hs : forall f, source f <> TyUtf8 -> source (source f) <> TyUtf8).
  { intros f' Hf. destruct f'; try done. cbn in *. destruct (is_int32 _ && string_like _) eqn:E; [|cbn; by rewrite E]. apply andb_prop in E as [_ E]. by rewrite source_string. }
  revert f g. induction t; intros f g Hf Hg; cbn; try (unfold plain_result; destruct (source f); done || (destruct (source g); done)).
  f_equal. apply IHt2; by apply Hs.
Qed.

Lemma retimed_result a b t : retimed a b -> result_type (data_type a) t = result_type (data_type b) t.
Proof.
  destruct a as [ft slots|key keys [ft slots| |]|]; try (by intros ->); destruct ft; try (by intros ->).
  - intros (z & s & ->). by apply result_indep.
  - intros (-> & z & s & ->). by apply result_indep.
Qed.

Lemma run_bind_ok {A B} (r : Run A) (f : A -> Run B) b : r ≫= f = Some (Ok b) -> exists a, r = Some (Ok a) /\ f a = Some (Ok b).
Proof. destruct r as [[a| |]|]; cbn; try done. by eauto. Qed.

Lemma run_ok {A} (r : DFResult A) b : run r = Some (Ok b) -> r = Ok b.
Proof. unfold run. congruence. Qed.

Lemma run_mapM_ok {A B} (f : A -> Run B) l l' : mapM f l = Some (Ok l') -> Forall2 (fun x y => f x = Some (Ok y)) l l'.
Proof.
  revert l'. induction l as [|x l IH]; intros l' E; [by injection E as <-|]. cbn in E.
  apply run_bind_ok in E as (y & Hy & E). apply run_bind_ok in E as (ys & Hys & E). injection E as <-. constructor; [done|by apply IH].
Qed.

Lemma dict_from_values_ok a d : dict_from_values a = Ok d -> exists keys, d = DictArr (TyInt Int32) keys a /\ keys_ok (len a) keys /\ length keys = len a.
Proof.
  unfold dict_from_values, dict_keys. destruct (mapM _ _) as [keys| |] eqn:E; cbn; [|done..]. intros [= <-]. exists keys. split; [done|].
  apply mapM_Ok_inv in E. split.
  - unfold keys_ok. assert (Hz : Forall (fun x : nat * bool => (x.1 < len a)%nat) (zip (seq 0 (len a)) (validity_of a))).
    { apply Forall_forall. intros [i v] Hi%elem_of_zip_l. apply elem_of_seq in Hi. cbn. lia. }
    induction E as [|[i v] k l keys Hk _ IH]; constructor; apply Forall_cons in Hz as [Hi Hz]; [|by apply IH].
    cbn in *. destruct v; [|by simplify_eq]. case_match; simplify_eq. lia.
  - apply Forall2_length in E. rewrite <- E, length_zip_with, length_seq. assert (length (validity_of a) = len a) as ->; [|lia].
    destruct a; cbn; by rewrite ?length_fmap.
Qed.

Lemma struct_rows_ok o arrays validity b : struct_rows o arrays validity = Some b -> array_ok b /\ data_type b = TyUtf8 /\ len b = length validity.
Proof.
  unfold struct_rows. destruct (mapM _ arrays) as [fields|]; cbn; [|done]. destruct (mapM _ (zip _ _)) as [rows|] eqn:E; cbn; [|done]. intros [= <-].
  split_and!; [|done|].
  - constructor; [done|]. apply Forall_fmap. by apply (any_bytes TyUtf8).
  - cbn. rewrite length_fmap. apply length_mapM in E. rewrite <- E, length_zip_with, length_seq. lia.
Qed.

Section CastArray.
Context `{ZoneParseLaws} `{RegexLaws} `{CastKernelLaws} `{FloatText} `{DecimalKernels} `{DecimalTypes}.
Context (utc_now : nat -> NaiveDateTime) (from_ymd_opt : Z -> Z -> Z -> option Z) (cast_options : SparkCastOptions).

Abbreviation cast := (cast_array utc_now from_ymd_opt cast_options).

Lemma good_trans a b t c : len b = len a -> good_result b t c -> good_result a t c.
Proof. intros Hl (? & ? & ?). split_and!; [done..|congruence]. Qed.

Lemma post_good a b f t c : array_ok b -> len b = len a -> spark_cast_postprocess b f t = Ok c -> good_result a (data_type b) c.
Proof. intros Hb Hl E. eapply good_trans; [exact Hl|]. by eapply postprocess_typed. Qed.

(** A cast to a dictionary type of something else than a dictionary of strings, which first makes a dictionary of it *)
Lemma to_dictionary_good fuel a key t b : array_ok a -> source (data_type a) = data_type a ->
  (forall a t b, array_ok a -> cast fuel a t = Some (Ok b) -> good_result a (result_type (data_type a) t) b) ->
  (dict_array ← run (dict_from_values a); casted_result ← cast fuel dict_array (TyDictionary key t); run (spark_cast_postprocess casted_result (data_type a) (TyDictionary key t)))
  = Some (Ok b) -> good_result a (result_type (data_type a) (TyDictionary key t)) b.
Proof.
  intros Ha Hs IH E. apply run_bind_ok in E as (d & Ed & E). apply run_ok in Ed. apply dict_from_values_ok in Ed as (keys & -> & Hk & Hl).
  apply run_bind_ok in E as (c & Ec & E). apply run_ok in E. apply IH in Ec as (Hc & Ht & Hlc); [|by constructor].
  apply (post_good a c) in E; [|done|by rewrite Hlc]. rewrite Ht in E. cbn [data_type] in E. cbn [result_type] in *. rewrite Hs.
  enough (result_type (source (TyDictionary (TyInt Int32) (data_type a))) t = result_type (data_type a) t) as <- by done.
  cbn [source is_int32 andb]. destruct (string_like (data_type a)) eqn:El; [done|]. apply result_indep; cbn; [by rewrite El|]. rewrite Hs. by intros Hu; rewrite Hu in El.
Qed.

(** A cast of a dictionary of strings casts its values. *)
Lemma dict_string_good fuel key keys values t b : array_ok (DictArr key keys values) -> is_int32 key && string_like (data_type values) = true ->
  (forall a t b, array_ok a -> cast fuel a t = Some (Ok b) -> good_result a (result_type (data_type a) t) b) ->
  (casted_result ←
     match t with
     | TyDictionary _ to_value_type => v ← cast fuel values to_value_type; run (unwrap (dict_array_new keys v))
     | _ => v ← cast fuel values t; _ ← run (unwrap (dict_array_new keys v)); run (take_array v keys)
     end;
   run (spark_cast_postprocess casted_result (data_type (DictArr key keys values)) t)) = Some (Ok b) ->
  good_result (DictArr key keys values) (result_type (data_type (DictArr key keys values)) t) b.
Proof.
  intros Ha Hs IH E. inversion Ha as [|? ? ? Hk Hv|]; subst. apply run_bind_ok in E as (c & Ec & E). apply run_ok in E.
  assert (Hsrc : source (data_type (DictArr key keys values)) = data_type values) by (cbn; by rewrite Hs).
  assert (Hstr : source (data_type values) = data_type values) by (apply source_string; apply andb_prop in Hs; tauto).
  assert (array_ok c /\ data_type c = result_type (data_type (DictArr key keys values)) t /\ len c = length keys) as (Hc & Ht & Hl).
  { assert (Hplain : forall t', (v ← cast fuel values t'; _ ← run (unwrap (dict_array_new keys v)); run (take_array v keys)) = Some (Ok c) ->
      array_ok c /\ data_type c = result_type (data_type values) t' /\ len c = length keys).
    { intros t' E'. apply run_bind_ok in E' as (v & Ev & E'). apply IH in Ev as (Hok & Htv & Hlv); [|done].
      apply run_bind_ok in E' as (d & _ & E'). injection E' as E'. apply take_array_typed in E' as (? & Ht & ?); [|done|by rewrite Hlv]. by rewrite Ht. }
    destruct t; try (destruct (Hplain _ Ec) as (? & -> & ?); cbn [result_type]; rewrite ?Hsrc, ?Hstr; done).
    apply run_bind_ok in Ec as (v & Ev & Ec). apply run_ok in Ec. destruct (dict_array_new keys v) as [d|] eqn:Ed; cbn in Ec; [|done]. simplify_eq.
    apply dict_array_new_spec in Ed as [-> Hkv]. apply IH in Ev as (Hok & Htv & Hlv); [|done]. split_and!; [by constructor| |done].
    cbn [result_type]. rewrite Hsrc. cbn [data_type]. by rewrite Htv. }
  apply (post_good (DictArr key keys values) c) in E; [by rewrite Ht in E|done|done].
Qed.

Lemma cast_array_good fuel a t b : array_ok a -> cast fuel a t = Some (Ok b) -> good_result a (result_type (data_type a) t) b.
Proof.
  revert a t b. induction fuel as [|fuel IH]; intros a0 t b Ha0 E; [done|]. cbn [cast_array] in E. apply run_bind_ok in E as (a & Ea & E).
  apply run_ok in Ea. apply with_timezone_typed in Ea as (Ha & Hl & Hr); [|done]. rewrite (retimed_result _ _ _ Hr). eapply good_trans; [exact Hl|]. clear a0 Ha0 Hl Hr.
  assert (Hcol : plain_result (source (data_type a)) t = plain_result (data_type a) t -> plain_result (source (data_type a)) t = result_type (data_type a) t ->
    (casted ← run (cast_column utc_now from_ymd_opt cast_options a t); run (spark_cast_postprocess casted (data_type a) t)) = Some (Ok b) ->
    good_result a (result_type (data_type a) t) b).
  { intros Hp Hrt E'. rewrite <- Hrt, Hp. apply run_bind_ok in E' as (c & Ec & E'). apply run_ok in Ec. injection E' as E'.
    apply cast_column_typed in Ec as (Hc & Ht & Hlc); [|done]. apply (post_good a c) in E'; [|done..]. by rewrite Ht in E'. }
  destruct a as [ft slots|key keys values|fields columns validity].
  - assert (Hs : source ft = ft) by (inversion Ha; by destruct ft). destruct t; try (apply Hcol; [cbn [data_type]; by rewrite Hs|done|exact E]).
    by apply (to_dictionary_good fuel).
  - inversion Ha as [|? ? ? Hk Hv|]; subst. destruct (is_int32 key && string_like (data_type values)) eqn:Es.
    + apply (dict_string_good fuel); [done|done|done|exact E].
    + assert (Hs : source (TyDictionary key (data_type values)) = TyDictionary key (data_type values)) by (cbn; by rewrite Es).
      destruct t; try (apply Hcol; [cbn [data_type]; by rewrite Hs|done|exact E]). by apply (to_dictionary_good fuel).
  - destruct t; try (by apply Hcol); [| |by apply (to_dictionary_good fuel)].
    + apply run_bind_ok in E as (c & Ec & E). apply run_bind_ok in Ec as (ss & _ & Ec). apply run_ok in Ec. apply run_ok in E.
      destruct (struct_rows _ _ _) as [c'|] eqn:Er; cbn in Ec; [|done]. simplify_eq. apply struct_rows_ok in Er as (Hc & Ht & Hlc).
      apply (post_good (StructArr fields columns validity) c) in E; [|done..]. by rewrite Ht in E.
    + apply run_bind_ok in E as (c & Ec & E). apply run_bind_ok in Ec as (cs & Ecs & Ec). apply run_ok in Ec. apply run_ok in E.
      destruct (struct_array_new _ _ _) as [c'|] eqn:Er; cbn in Ec; [|done]. simplify_eq. apply struct_array_new_spec in Er as (-> & Hts & Hls).
      inversion Ha as [| |? ? ? _ _ Hcols]; subst. apply run_mapM_ok in Ecs.
      apply (post_good (StructArr fields columns validity) (StructArr fields0 cs validity)) in E; [done| |done]. constructor; [done..|].
      assert (Hz : Forall (fun x : CArray * Field ArrowType => array_ok x.1) (zip columns fields0)).
      { apply Forall_forall. intros [x y] Hx%elem_of_zip_l. by eapply Forall_forall in Hx. }
      clear - IH Ecs Hz. induction Ecs as [|x y l cs Hy _ IHl]; constructor; apply Forall_cons in Hz as [Hx Hz]; [|by apply IHl].
      unfold unwrapped in Hy. destruct (cast fuel x.1 (f_type x.2)) as [[]|] eqn:Ey; simplify_eq. by apply IH in Ey as (? & _).
Qed.

(** C17: A cast that succeeds is well typed: whatever the types, the options and the nesting of structs and dictionaries, its result is an
    array with as many rows as the input, of the type [result_type], whose numbers are in the range of their types, whose dictionary keys point
    to values and whose struct columns have the types and the length of the struct.  That type is the target type except that a dictionary gets
    32-bit keys and that a string becomes a timestamp in microseconds and in UTC, whatever unit and zone the target has.  Strings are taken as bytes: that
    they are UTF-8 is neither assumed nor shown, and it fails for a cast from binary values. *)
Theorem cast_array_typed fuel a t b : array_ok a -> cast fuel a t = Some (Ok b) ->
  array_ok b /\ data_type b = result_type (data_type a) t /\ len b = len a.
Proof. apply cast_array_good. Qed.
End CastArray.
