(* ===== verification/CastSupport.v ===== *)
(** Which casts [cast_array] can do (CastArrays.v) against what [cast_supported] says (CastTypes.v), and the casts it never returns from. *)

From S2P Require Import Prelude UnsafeRow Casts CastProps Exprs Calendar Temporal TemporalProps TimestampParser TimestampProps CastTypes CastFloats CastFloatProps CastArrays CastArrayProps.
From stdpp Require Import list strings.
Open Scope Z_scope.
Ltac Zify.zify_post_hook ::= idtac.

(** * Types *)

Section TypeInduction.
Context (P : ArrowType -> Prop).
Context (Hleaf : forall t, plain_type t = true -> (forall item, t <> TyList item) -> P t) (Hlist : forall f, P (f_type f) -> P (TyList f))
  (Hstruct : forall fields, Forall (fun f => P (f_type f)) fields -> P (TyStruct fields)) (Hdict : forall k v, P k -> P v -> P (TyDictionary k v)).

Fixpoint arrow_type_ind (t : ArrowType) : P t.
Proof.
  destruct t; try (by apply Hleaf).
  - apply Hstruct. induction fields as [|[n t u m] fields IH]; constructor; [apply arrow_type_ind|exact IH].
  - apply Hlist. destruct item as [n t u m]. apply arrow_type_ind.
  - apply Hdict; apply arrow_type_ind.
Defined.
End TypeInduction.

Lemma ty_eqb_refl t : ty_eqb t t = true.
Proof.
  induction t as [t Hp Hl|[n t u m] IH|fields IH|k v IHk IHv] using arrow_type_ind; cbn.
  - destruct t; try done; cbn; rewrite ?Z.eqb_refl, ?bool_decide_eq_true_2 by done; try done. by destruct (Hl item).
  - rewrite bool_decide_eq_true_2, Bool.eqb_reflx, Z.eqb_refl by done. cbn in IH. by rewrite IH.
  - induction IH as [|[n t u m] fields Hf _ IHf]; [done|]. rewrite bool_decide_eq_true_2, Bool.eqb_reflx, Z.eqb_refl by done. cbn in Hf. by rewrite Hf.
  - by rewrite IHk, IHv.
Qed.

Lemma ty_eqb_true a b : ty_eqb a b = true -> a = b.
Proof.
  revert b. induction a as [t Hp Hl|[n t u m] IH|fields IH|k v IHk IHv] using arrow_type_ind; intros b.
  - destruct t; try done; destruct b; try done; cbn; rewrite ?andb_true_iff, ?Z.eqb_eq, ?bool_decide_eq_true; try by (intros; destruct_and?; subst).
    by destruct (Hl item).
  - destruct b as [| | | | | | | | | | | | | | | | |[n' t' u' m']| |]; try done. cbn. rewrite !andb_true_iff, Z.eqb_eq, bool_decide_eq_true. intros [[[-> Ht] Hu%Bool.eqb_prop] ->].
    apply IH in Ht. cbn in Ht. by subst.
  - destruct b as [| | | | | | | | | | | | | | | |gs| | |]; try done. cbn. intros E. f_equal. revert gs E.
    induction IH as [|[n t u m] fields Hf _ IHf]; intros [|[n' t' u' m'] gs]; try done. rewrite !andb_true_iff, Z.eqb_eq, bool_decide_eq_true.
    intros [[[[-> Ht] Hu%Bool.eqb_prop] ->] E]. apply Hf in Ht. cbn in Ht. subst. f_equal. by apply IHf.
  - destruct b; try done. cbn. rewrite andb_true_iff. intros [->%IHk ->%IHv]. done.
Qed.

(** * What [cast_supported] accepts and [cast_array] does not *)

(** Dictionaries of anything but strings are not unpacked, and nothing but strings is made a dictionary. *)
Definition dict_gap (from_type to_type : ArrowType) : bool :=
  match from_type with TyDictionary k v => negb (is_int32 k && string_like v) | _ => false end
  || match to_type with TyDictionary _ _ => negb (string_like (undict from_type)) | _ => false end.

Fixpoint cast_gap (from_type to_type : ArrowType) : bool :=
  dict_gap from_type to_type ||
  match undict from_type, undict to_type with
  | TyTimestamp _ _, TyDate64 | TyTimestamp _ (Some _), TyDecimal128 _ _ => true
  | TyUtf8, TyDate64 | TyDate64, TyUtf8 => true
  | TyLargeUtf8, TyBinary | TyLargeUtf8, TyFloat32 | TyLargeUtf8, TyFloat64 | TyLargeUtf8, TyDecimal128 _ _
  | TyLargeUtf8, TyDate32 | TyLargeUtf8, TyDate64 | TyLargeUtf8, TyTimestamp _ _ => true
  | TyDate32, TyLargeUtf8 | TyDate64, TyLargeUtf8 | TyBinary, TyLargeUtf8 | TyStruct _, TyLargeUtf8 => true
  | TyStruct fields, TyUtf8 => existsb (fun f => match f with MkField _ t _ _ => cast_gap t TyUtf8 end) fields
  | TyStruct fields, TyStruct to_fields =>
      (fix any (fs gs : list (Field ArrowType)) : bool :=
         match fs, gs with
         | MkField _ f _ _ :: fs, MkField _ g _ _ :: gs => cast_gap f g || any fs gs
         | _, _ => false
         end) fields to_fields
  | _, _ => false
  end.

Section Support.
Context (options : SparkCastOptions).

(** The arms of [cast_column] that are not DataFusion's *)
Definition own_cast (from_type to_type : ArrowType) : bool :=
  match from_type, to_type with
  | TyUtf8, TyBoolean | TyUtf8, TyInt _ | TyUtf8, TyDate32 | TyUtf8, TyTimestamp _ _ => true
  | TyLargeUtf8, TyBoolean | TyLargeUtf8, TyInt _ => true
  | TyFloat32, TyUtf8 | TyFloat32, TyLargeUtf8 | TyFloat32, TyDecimal128 _ _ => true
  | TyFloat64, TyUtf8 | TyFloat64, TyLargeUtf8 | TyFloat64, TyDecimal128 _ _ => true
  | TyUtf8View, TyUtf8 | TyBinary, TyUtf8 => true
  | TyUInt _, TyInt _ => allow_cast_unsigned_ints options
  | _, _ => false
  end.
Definition plain_castable (from_type to_type : ArrowType) : bool :=
  own_cast from_type to_type || is_datafusion_spark_compatible from_type to_type (allow_incompat options).

(** What [cast_array] can do *)
Fixpoint castable (from_type to_type : ArrowType) : bool :=
  match from_type with
  | TyDictionary k v => is_int32 k && string_like v && plain_castable v (undict to_type)
  | TyStruct fields =>
      match to_type with
      | TyUtf8 => forallb (fun f => match f with MkField _ t _ _ => castable t TyUtf8 end) fields
      | TyStruct to_fields =>
          (fix all (fs gs : list (Field ArrowType)) : bool :=
             match fs, gs with
             | MkField _ f _ _ :: fs, MkField _ g _ _ :: gs => castable f g && all fs gs
             | _, _ => true
             end) fields to_fields
      | _ => false
      end
  | _ => match to_type with TyDictionary _ t => string_like from_type && plain_castable from_type t | _ => plain_castable from_type to_type end
  end.

Lemma compatible_refl t i : is_datafusion_spark_compatible t t i = true.
Proof. unfold is_datafusion_spark_compatible. by rewrite ty_eqb_refl. Qed.

(** Types without fields *)
Lemma supported_plain f t : plain_type f = true -> match t with TyDictionary _ _ => false | _ => true end = true ->
  cast_supported f t options = true -> cast_gap f t = false -> plain_castable f t = true.
Proof.
  intros Hp Ht Hs Hg. unfold plain_castable, is_datafusion_spark_compatible.
  destruct f; try done; destruct t; try done; cbn in Hs, Hg |- *; repeat case_match; try done; rewrite ?orb_true_r; try done.
  by rewrite Hs.
Qed.

Lemma string_like_plain v : string_like v = true -> plain_type v = true.
Proof. by destruct v. Qed.

Lemma supported_string v t : string_like v = true -> cast_supported v t options = true -> cast_gap v (undict t) = false -> plain_castable v (undict t) = true.
Proof.
  intros Hv Hs Hg. destruct t; try (apply supported_plain; [by apply string_like_plain|done|done|done]).
  cbn [undict] in *. destruct t2; try (apply supported_plain; [by apply string_like_plain|done|by destruct v|done]). by destruct v.
Qed.

Lemma to_string_castable t : can_cast_to_string t options = true -> cast_gap t TyUtf8 = false -> castable t TyUtf8 = true.
Proof.
  induction t as [t Hp Hl|f IH|fields IH|k v IHk IHv] using arrow_type_ind; cbn; try done.
  - destruct t; try done; cbn; intros; try done; by destruct_and?.
  - intros Hs Hg. induction IH as [|[n t u m] fields Hf _ IHf]; [done|]. cbn in *. apply andb_prop in Hs as [Hs Hs'].
    apply orb_false_elim in Hg as [Hg Hg']. by rewrite Hf, IHf.
Qed.

Lemma supported_self t : cast_supported t t options = true.
Proof. destruct t; cbn -[ty_eqb]; by rewrite ty_eqb_refl. Qed.

(** The fields of two structs *)
Lemma supported_fields fs gs : Forall (fun f => forall t, cast_supported (f_type f) t options = true -> cast_gap (f_type f) t = false -> castable (f_type f) t = true) fs ->
  cast_supported (TyStruct fs) (TyStruct gs) options = true -> cast_gap (TyStruct fs) (TyStruct gs) = false -> castable (TyStruct fs) (TyStruct gs) = true.
Proof.
  intros IH Hs Hg. cbn -[ty_eqb] in Hs. cbn in Hg |- *.
  destruct (ty_eqb (TyStruct fs) (TyStruct gs)) eqn:E.
  - apply ty_eqb_true in E. simplify_eq. induction IH as [|[n t u m] fs Hf _ IHf]; [done|]. apply orb_false_elim in Hg as [Hg Hg'].
    cbn in Hf. rewrite Hf, IHf; [done|done|apply supported_self|done].
  - clear E. revert gs Hs Hg. induction IH as [|[n t u m] fs Hf _ IHf]; intros [|[n' t' u' m'] gs] Hs Hg; try done.
    apply andb_prop in Hs as [Hs Hs']. apply orb_false_elim in Hg as [Hg Hg']. cbn in Hf. by rewrite Hf, IHf.
Qed.

Lemma supported_castable f t : cast_supported f t options = true -> cast_gap f t = false -> castable f t = true.
Proof.
  revert t. induction f as [f Hp Hl|f IH|fields IH|k v IHk IHv] using arrow_type_ind; intros t Hs Hg.
  - assert (Hc : castable f t = match t with TyDictionary _ v => string_like f && plain_castable f v | _ => plain_castable f t end) by (by destruct f). rewrite Hc.
    destruct t; try (by apply supported_plain). assert (Hf : string_like f = true) by (destruct f; cbn in Hg; repeat case_match; done).
    rewrite Hf. apply (supported_string f (TyDictionary t1 t2)); [done|done|]. cbn [undict]. by destruct f, t2.
  - destruct t; try (by apply supported_plain). done.
  - destruct t; try (by destruct fields); [by apply to_string_castable|by apply supported_fields].
  - assert (Hv : is_int32 k && string_like v = true).
    { cbn in Hg. unfold dict_gap in Hg. apply orb_false_elim in Hg as [[Hg _]%orb_false_elim _]. by apply negb_false_iff in Hg. }
    cbn [castable]. rewrite Hv. apply andb_prop in Hv as [_ Hv]. apply supported_string; [done|by destruct v|]. clear IHk IHv.
    apply orb_false_elim in Hg as [_ Hg]. destruct v; try done; destruct t; try done; cbn [undict] in *; by destruct t2.
Qed.
End Support.

(** * Errors *)

Lemma mapM_Err {E A B} (f : A -> Result E B) l e : mapM f l = Err e -> exists x, f x = Err e.
Proof.
  induction l as [|x l IH]; cbn; [done|]. destruct (f x) as [y|e'|] eqn:Ex; cbn; [|intros [= ->]; by eauto|done].
  destruct (mapM f l) as [ys|e'|]; cbn; [done| |done]. intros [= ->]. by apply IH.
Qed.

Lemma cast_elements_Err {A B} (f : A -> SparkResult (option B)) array e : cast_elements f array = Err e -> exists v, f v = Err e.
Proof. intros ([v|] & Hv)%mapM_Err; [by eauto|done]. Qed.

Definition unsupported : DataFusionError := External SparkInternal.

(** The casts of single values do not end in the error of an unsupported cast. *)
Lemma string_to_int_error i s mode e : cast_string_to i s mode = Err e -> e <> SparkInternal.
Proof.
  assert (Hn : forall A name str e', none_or_err (A := A) mode name str = Err e' -> e' <> SparkInternal) by (unfold none_or_err; intros; case_match; by simplify_eq).
  assert (Hd : forall w str name m e', do_cast_string_to_int w str mode name m = Err e' -> e' <> SparkInternal).
  { intros w str name m e'. unfold do_cast_string_to_int. repeat case_match; intros; try (eapply Hn; eassumption); by simplify_eq. }
  assert (Hr : forall str name lo hi e', cast_string_to_int_with_range_check str mode name lo hi = Err e' -> e' <> SparkInternal).
  { intros str name lo hi e'. unfold cast_string_to_int_with_range_check. destruct (do_cast_string_to_int _ _ _ _ _) as [[v|]|e0|] eqn:E; cbn; try done.
    - repeat case_match; intros; by simplify_eq.
    - intros [= <-]. by eapply Hd. }
  destruct i; cbn; unfold cast_string_to_i8, cast_string_to_i16; try (by apply Hd).
  - destruct (cast_string_to_int_with_range_check _ _ _ _ _) eqn:E; cbn; try done. intros [= <-]. by eapply Hr.
  - destruct (cast_string_to_int_with_range_check _ _ _ _ _) eqn:E; cbn; try done. intros [= <-]. by eapply Hr.
Qed.

Lemma string_to_boolean_error s mode e : cast_string_to_boolean s mode = Err e -> e <> SparkInternal.
Proof. unfold cast_string_to_boolean. repeat case_match; intros; by simplify_eq. Qed.

Lemma date_parser_error from_ymd_opt s mode e : date_parser from_ymd_opt s mode = Err e -> e <> SparkInternal.
Proof.
  assert (Hr : return_result s mode = Err e -> e <> SparkInternal) by (unfold return_result; case_match; intros; by simplify_eq).
  assert (Hb : forall sign bytes, date_body from_ymd_opt s mode sign bytes = Err e -> e <> SparkInternal).
  { intros sign bytes. unfold date_body. repeat case_match; intros; try (by apply Hr); by simplify_eq. }
  unfold date_parser. repeat case_match; intros; try (by apply Hr); try (eapply Hb; eassumption); by simplify_eq.
Qed.

Lemma int_to_int_error mode f t array e : spark_cast_int_to_int array mode f t = Err e -> e <> SparkInternal.
Proof.
  assert (Hc : cast_elements (int_to_int mode f t) array = Err e -> e <> SparkInternal).
  { intros [v Hv]%cast_elements_Err. unfold int_to_int in Hv. repeat case_match; by simplify_eq. }
  unfold spark_cast_int_to_int. repeat case_match; intros; try done; by apply Hc.
Qed.

Lemma decimal_to_int_error t mode p s v e : decimal_to_int t mode p s v = Err e -> e <> SparkInternal.
Proof.
  destruct t; cbn; unfold decimal_to_int16_down, decimal_to_int32_up; destruct (split_decimal s v) as [[q d]|]; try done; destruct mode; repeat case_match; intros; by simplify_eq.
Qed.

Lemma float_to_int_error `{FloatText} w t mode b e : float_to_int w t mode b = Err e -> e <> SparkInternal.
Proof. rewrite float_to_int_unfold. unfold float_overflow. repeat case_match; intros; by simplify_eq. Qed.

Lemma float_to_string_error `{FloatText} w b e : cast_float_to_string w b = Err e -> e <> SparkInternal.
Proof. unfold cast_float_to_string. repeat case_match; intros; by simplify_eq. Qed.

Lemma float_to_decimal_error `{FloatText} `{DecimalKernels} `{DecimalTypes} w array p s mode e : cast_floating_point_to_decimal128 w array p s mode = Err e -> e <> SparkInternal.
Proof.
  unfold cast_floating_point_to_decimal128. destruct (cast_elements _ _) as [r|e'|] eqn:E; cbn; [case_match; intros; by simplify_eq| |done].
  intros [= <-]. apply cast_elements_Err in E as [v Hv]. unfold float_to_decimal in Hv. repeat case_match; by simplify_eq.
Qed.

Lemma try_unary_error f a e : (forall v e', f v = Err e' -> e' = ArrowError) -> try_unary f a = Err e -> e = ArrowError.
Proof.
  intros Hf. unfold try_unary. intros [x Hx]%mapM_Err. destruct (slot_value x) as [v|]; [|done]. destruct (f v) as [|e'|] eqn:E; cbn in Hx; simplify_eq. by eapply Hf.
Qed.

Lemma array_with_timezone_error `{Chrono} c tz t e : array_with_timezone c tz t = Err e -> e = ArrowError.
Proof.
  assert (Hp : forall name e', parse_comet_tz name = Err e' -> e' = ArrowError) by (unfold parse_comet_tz; intros; case_match; by simplify_eq).
  assert (Hl : forall td u z v e', local_to_utc td u z v = Err e' -> e' = ArrowError).
  { unfold local_to_utc. intros td u z v e'. destruct (td v); [|by intros [= <-]]. destruct (from_local_datetime _ _); done. }
  assert (Hu : forall z v e', utc_to_local z v = Err e' -> e' = ArrowError).
  { unfold utc_to_local. intros z v e'. destruct (micros_to_datetime v); [|by intros [= <-]]. destruct (add_offset _ _); done. }
  assert (Hn : forall c e', timestamp_ntz_to_timestamp c tz (Some tz) = Err e' -> e' = ArrowError).
  { intros c' e'. unfold timestamp_ntz_to_timestamp. destruct tz as [|x s]; [done|]. destruct c' as [|[]|[]| | |]; try done;
      destruct (parse_comet_tz _) eqn:E; cbn [mbind result_bind]; try done; try (intros [= <-]; by eapply Hp);
      destruct (try_unary _ _) eqn:Et; cbn [mbind result_bind]; try done; intros [= <-]; (eapply try_unary_error; [|exact Et]); intros; by eapply Hl. }
  assert (Hc : forall c e', pre_timestamp_cast c tz = Err e' -> e' = ArrowError).
  { intros c' e'. unfold pre_timestamp_cast. destruct tz as [|x s]; [done|]. destruct c'; try done.
    destruct (parse_comet_tz _) eqn:E; cbn [mbind result_bind]; try done; [|intros [= <-]; by eapply Hp].
    destruct (try_unary _ _) eqn:Et; cbn [mbind result_bind]; try done. intros [= <-]. eapply try_unary_error; [|exact Et]. intros; by eapply Hu. }
  assert (Hleaf : forall c', (forall keys v, c' <> TemporalDict keys v) -> array_with_timezone c' tz t = Err e -> e = ArrowError).
  { intros c' Hd. destruct c' as [|[]|[]|[]| |]; try done; try (by destruct (Hd keys c')); cbn; destruct tz as [|x s]; try done; try (destruct t as [[]|]; try done);
      cbn [text_type]; try (apply Hn); try (apply Hc); try done. }
  destruct c as [| | | |keys v|]; try (by apply Hleaf). destruct v; try done.
  change (array_with_timezone (TemporalDict keys ?x) tz t) with (v ← array_with_timezone x tz t; Ok (TemporalDict keys v) : DFResult TemporalColumn).
  destruct (array_with_timezone _ _ _) as [c'|e'|] eqn:E; cbn [mbind result_bind]; [done| |done]. intros [= ->]. by apply Hleaf in E.
Qed.

Lemma with_timezone_error `{Chrono} a tz t e : with_timezone a tz t = Err e -> e = ArrowError.
Proof.
  destruct a as [ft slots|key keys [ft slots| |]|]; try done; destruct ft; try done; cbn [with_timezone].
  - destruct (downcast _ _); cbn [unwrap mbind result_bind]; [|done]. destruct (array_with_timezone _ _ _) eqn:E; cbn [mbind result_bind]; [|intros [= <-]; by apply array_with_timezone_error in E|done].
    by destruct (of_column _ _).
  - destruct (is_int32 key); [|done]. destruct (downcast _ _); cbn [unwrap mbind result_bind]; [|done].
    destruct (array_with_timezone _ _ _) as [c| |] eqn:E; cbn [mbind result_bind]; [|intros [= <-]; by apply array_with_timezone_error in E|done].
    destruct c; try done. by destruct (of_column _ _).
Qed.

(** * Casts that can be done *)

(** A computation that ends, and not in the error of an unsupported cast *)
Definition fine {A} (r : Run A) : Prop := exists x, r = Some x /\ x <> Err unsupported.

Lemma fine_bind {A B} (r : Run A) (f : A -> Run B) : fine r -> (forall a, r = Some (Ok a) -> fine (f a)) -> fine (r ≫= f).
Proof. intros (x & -> & Hx) Hf. destruct x as [a|e|]; cbn; [by apply Hf| |by eexists]. exists (Err e). split; [done|]. intros [= ->]. done. Qed.

Lemma run_ok_bind {A B} (a : A) (f : A -> Run B) : run (Ok a) ≫= f = f a.
Proof. done. Qed.

Lemma fine_run {A} (r : DFResult A) : r <> Err unsupported -> fine (run r).
Proof. intros Hr. by exists r. Qed.

Lemma fine_unwrap {A} (o : option A) : fine (run (unwrap o)).
Proof. apply fine_run. by destruct o. Qed.

Lemma fine_mapM {A B} (f : A -> Run B) l : Forall (fun x => fine (f x)) l -> fine (mapM f l).
Proof.
  induction 1 as [|x l Hx _ IH]; [by exists (Ok [])|]. cbn. apply fine_bind; [done|]. intros y _. apply fine_bind; [done|]. intros ys _. by exists (Ok (y :: ys)).
Qed.

Lemma fine_unwrapped {A} (r : Run A) : fine r -> fine (unwrapped r).
Proof. intros (x & -> & Hx). destruct x; by eexists. Qed.

Lemma fine_post a f t : fine (run (spark_cast_postprocess a f t)).
Proof. unfold spark_cast_postprocess. repeat case_match; (apply fine_unwrap || by apply fine_run). Qed.

Lemma fine_dict a : fine (run (dict_from_values a)).
Proof.
  apply fine_run. unfold dict_from_values. destruct (dict_keys a) as [k|e|] eqn:E; cbn; [done| |done]. apply mapM_Err in E as [x Hx].
  repeat case_match; by simplify_eq.
Qed.

Section CastFine.
Context `{ZoneParseLaws} `{RegexLaws} `{CastKernelLaws} `{FloatText} `{DecimalKernels} `{DecimalTypes}.
Context (utc_now : nat -> NaiveDateTime) (from_ymd_opt : Z -> Z -> Z -> option Z) (cast_options : SparkCastOptions).

Abbreviation cast := (cast_array utc_now from_ymd_opt cast_options).

Lemma kernel_fine safe a t : cast_with_options safe a t <> Err unsupported.
Proof. intros E. by apply cast_kernel_errors in E. Qed.

Lemma fallback_fine a t : is_datafusion_spark_compatible (data_type a) t (allow_incompat cast_options) = true -> cast_fallback cast_options a t <> Err unsupported.
Proof. intros Hc. unfold cast_fallback. rewrite Hc, orb_true_r. apply kernel_fine. Qed.

Lemma leaf_fine {A B} (get : Value -> option A) (put : B -> Value) f t slots : (forall a e, f a = Err e -> e <> SparkInternal) -> leaf_cast get put f t slots <> Err unsupported.
Proof. intros Hf (a & e & He & E)%leaf_cast_error. unfold unsupported in E. simplify_eq. by eapply Hf. Qed.

Lemma elements_fine {A B} (get : Value -> option A) (put : B -> Value) f t slots : (forall v e, f v = Err e -> e <> SparkInternal) -> leaf_cast get put (cast_elements f) t slots <> Err unsupported.
Proof. intros Hf. apply leaf_fine. intros a e [v Hv]%cast_elements_Err. by eapply Hf. Qed.

Lemma timestamp_error array mode name e : cast_string_to_timestamp utc_now array mode name = Err e -> e <> SparkInternal.
Proof.
  unfold cast_string_to_timestamp. destruct (tz_parse name) as [tz|]; [|done]. destruct (cast_utf8_to_timestamp_spec tz utc_now mode array 0) as (out & -> & _). done.
Qed.

Lemma float_column_fine w a slots t : (match t with TyUtf8 | TyLargeUtf8 | TyDecimal128 _ _ => true | _ => false end = true \/ is_datafusion_spark_compatible (data_type a) t (allow_incompat cast_options) = true) ->
  cast_from_float cast_options w a slots t <> Err unsupported.
Proof.
  intros Hc. assert (Hfb : match t with TyUtf8 | TyLargeUtf8 | TyDecimal128 _ _ => true | _ => false end = false -> cast_fallback cast_options a t <> Err unsupported).
  { intros Ht. destruct Hc as [Hc|Hc]; [congruence|]. by apply fallback_fine. }
  destruct t; cbn [cast_from_float]; try (by apply Hfb).
  - case_match; [by apply Hfb|]. apply elements_fine. intros v e. apply float_to_int_error.
  - apply leaf_fine. intros x e. apply float_to_decimal_error.
  - apply elements_fine. intros v e. apply float_to_string_error.
  - apply elements_fine. intros v e. apply float_to_string_error.
Qed.

Lemma column_fine ft slots t : plain_castable cast_options ft t = true -> cast_column utc_now from_ymd_opt cast_options (Leaf ft slots) t <> Err unsupported.
Proof.
  intros Hc. unfold plain_castable in Hc. apply orb_prop in Hc as [Hc|Hc].
  - destruct ft; try done; cbn [cast_column].
    + destruct t; try done. cbn in Hc. rewrite Hc. apply kernel_fine.
    + apply float_column_fine. left. by destruct t.
    + apply float_column_fine. left. by destruct t.
    + destruct t; try done; [apply elements_fine; intros v e; apply string_to_boolean_error|apply elements_fine; intros v e; apply string_to_int_error| |].
      * apply elements_fine. intros v e. apply date_parser_error.
      * apply leaf_fine. intros a e. apply timestamp_error.
    + destruct t; try done; apply elements_fine; intros v e; [apply string_to_boolean_error|apply string_to_int_error].
    + destruct t; try done. apply kernel_fine.
    + destruct t; try done. apply elements_fine. intros v e. repeat case_match; done.
  - pose proof (fallback_fine (Leaf ft slots) t Hc) as Hf. destruct ft; cbn [cast_column]; try done.
    + destruct t; try done. case_match; [|done]. apply leaf_fine. intros a e. apply int_to_int_error.
    + by destruct t.
    + apply float_column_fine. by right.
    + apply float_column_fine. by right.
    + destruct t; try done. case_match; [done|]. apply elements_fine. intros v e. apply decimal_to_int_error.
    + destruct t; try done; cbn in Hc; by destruct (allow_incompat cast_options).
    + by destruct t.
    + by destruct t.
    + destruct t; try done. apply elements_fine. intros v e. repeat case_match; done.
    + destruct t; try done. case_match; [apply kernel_fine|done].
Qed.

(** The nesting of an array *)
Fixpoint depth (a : CArray) : nat :=
  match a with
  | Leaf _ _ => 0
  | DictArr _ _ values => S (depth values)
  | StructArr _ columns _ => S (foldr (fun c n => Nat.max (depth c) n) 0%nat columns)
  end.

Lemma retimed_castable u z z' t : plain_castable cast_options (TyTimestamp u z) t = true -> plain_castable cast_options (TyTimestamp u z') t = true.
Proof. unfold plain_castable, is_datafusion_spark_compatible. cbn [own_cast orb]. destruct t; cbn; repeat case_match; done. Qed.

(** Columns without structs and dictionaries *)
Lemma plain_fine fuel ft slots t : plain_castable cast_options ft t = true -> match t with TyDictionary _ _ => false | _ => true end = true ->
  plain_type ft = true -> Forall (slot_ok ft) slots -> fine (cast (S fuel) (Leaf ft slots) t).
Proof.
  intros Hc Ht Hp Hs. cbn [cast_array]. apply fine_bind; [apply fine_run; by intros E%with_timezone_error|]. intros a E%run_ok.
  assert (exists ft' slots', a = Leaf ft' slots' /\ plain_castable cast_options ft' t = true) as (ft' & slots' & -> & Hc').
  { apply with_timezone_typed in E as (_ & _ & Hr); [|by constructor]. destruct ft; cbn in Hr; try (subst a; by eauto).
    destruct Hr as (z & s & ->). eexists _, s. split; [done|]. by eapply retimed_castable. }
  destruct t; try done; (apply fine_bind; [apply fine_run; by apply column_fine|intros; apply fine_post]).
Qed.

Lemma string_castable v t : string_like v = true -> plain_castable cast_options v t = true -> match t with TyDictionary _ _ => false | _ => true end = true.
Proof. destruct v, t; try done. cbn. by destruct (allow_incompat cast_options). Qed.

(** Dictionaries of strings *)
Lemma string_dict_fine fuel key keys ft slots t : is_int32 key = true -> string_like ft = true -> Forall (slot_ok ft) slots ->
  plain_castable cast_options ft (undict t) = true -> fine (cast (S (S fuel)) (DictArr key keys (Leaf ft slots)) t).
Proof.
  intros Hk Hf Hs Hc. remember (S fuel) as fuel' eqn:Ef. cbn [cast_array].
  assert (E : with_timezone (DictArr key keys (Leaf ft slots)) (timezone cast_options) t = Ok (DictArr key keys (Leaf ft slots))) by (by destruct ft). rewrite E, run_ok_bind.
  cbn [data_type]. rewrite Hk, Hf. cbn [andb].
  pose proof (string_castable _ _ Hf Hc) as Hd. assert (Hv : fine (cast fuel' (Leaf ft slots) (undict t))).
  { subst fuel'. apply plain_fine; [done|done|by destruct ft|done]. }
  apply fine_bind; [|intros; apply fine_post]. destruct t; cbn [undict] in Hv; (apply fine_bind; [exact Hv|]); intros v _; try apply fine_unwrap;
    (apply fine_bind; [apply fine_unwrap|]); intros d _; apply fine_run; by intros Et%take_array_errors.
Qed.

(** The columns of a struct are less nested and have castable types. *)
Lemma struct_columns_less fuel fields columns validity : (depth (StructArr fields columns validity) + 3 <= S fuel)%nat -> array_ok (StructArr fields columns validity) ->
  forall c, c ∈ columns -> (depth c + 3 <= fuel)%nat /\ array_ok c.
Proof.
  intros Hfuel Ha c Hin. inversion Ha as [| |? ? ? _ _ Hcols]; subst. split; [|by eapply Forall_forall in Hin]. cbn [depth] in Hfuel.
  clear - Hfuel Hin. induction columns as [|c' columns IHc]; [by apply elem_of_nil in Hin|]. cbn in Hfuel.
  apply elem_of_cons in Hin as [->|Hin]; [lia|]. apply IHc; [lia|done].
Qed.

Lemma struct_columns_to_string fields columns : data_type <$> columns = f_type <$> fields -> castable cast_options (TyStruct fields) TyUtf8 = true ->
  forall c, c ∈ columns -> castable cast_options (data_type c) TyUtf8 = true.
Proof.
  intros Hts Hc c Hin. cbn [castable] in Hc. apply list_elem_of_lookup in Hin as [i Hi].
  assert (Hf : f_type <$> fields !! i = Some (data_type c)) by (by rewrite <- list_lookup_fmap, <- Hts, list_lookup_fmap, Hi).
  destruct (fields !! i) as [[n t u m]|] eqn:Ef; [|done]. cbn in Hf. injection Hf as Hf. rewrite List.forallb_forall in Hc.
  apply list_elem_of_lookup_2, list_elem_of_In, Hc in Ef. by rewrite Hf in Ef.
Qed.

Lemma struct_columns_to_struct fields columns gs : data_type <$> columns = f_type <$> fields -> castable cast_options (TyStruct fields) (TyStruct gs) = true ->
  Forall (fun x : CArray * Field ArrowType => castable cast_options (data_type x.1) (f_type x.2) = true) (zip columns gs).
Proof.
  cbn [castable]. revert fields gs. induction columns as [|c columns IHc]; intros [|[n f u m] fs] [|[n' g u' m'] gs] Hts Hc; try done; [by constructor..|].
  cbn in Hts. injection Hts as Ht Hts. apply andb_prop in Hc as [Hc Hc']. constructor; [cbn; by rewrite Ht|by apply (IHc fs)].
Qed.

Lemma cast_fine fuel a t : (depth a + 3 <= fuel)%nat -> array_ok a -> castable cast_options (data_type a) t = true -> fine (cast fuel a t).
Proof.
  revert a t. induction fuel as [|fuel IH]; intros a t Hfuel Ha Hc; [lia|]. destruct a as [ft slots|key keys values|fields columns validity].
  - inversion Ha as [? ? Hp Hs| |]; subst. cbn [data_type] in Hc. cbn [depth] in Hfuel.
    assert (Hc' : castable cast_options ft t = match t with TyDictionary _ v => string_like ft && plain_castable cast_options ft v | _ => plain_castable cast_options ft t end) by (by destruct ft).
    rewrite Hc' in Hc. destruct t; try (by apply plain_fine). apply andb_prop in Hc as [Hf Hc].
    destruct fuel as [|[|fuel]]; [lia|lia|]. remember (S (S fuel)) as fuel' eqn:Ef. cbn [cast_array].
    assert (E : with_timezone (Leaf ft slots) (timezone cast_options) (TyDictionary t1 t2) = Ok (Leaf ft slots)) by (by destruct ft). rewrite E, run_ok_bind.
    apply fine_bind; [apply fine_dict|]. intros d (keys & -> & Hk & Hl)%run_ok%dict_from_values_ok. apply fine_bind; [|intros; apply fine_post]. subst fuel'. by apply string_dict_fine.
  - inversion Ha as [|? ? ? Hk Hv|]; subst. cbn [data_type castable] in Hc. apply andb_prop in Hc as [[Hi Hs]%andb_prop Hc].
    destruct values as [ft slots| |]; [|done|done]. inversion Hv; subst. cbn [depth] in Hfuel. destruct fuel as [|fuel]; [lia|]. by apply string_dict_fine.
  - pose proof (struct_columns_less _ _ _ _ Hfuel Ha) as Hcol. inversion Ha as [| |? ? ? Hts _ _]; subst. cbn [data_type] in Hc.
    destruct t; try done; cbn [cast_array with_timezone]; rewrite run_ok_bind;
      (apply fine_bind; [|intros; apply fine_post]); (apply fine_bind; [|intros; apply fine_unwrap]); apply fine_mapM, Forall_forall.
    + intros c Hin. destruct (Hcol c Hin). apply IH; [done|done|]. by eapply struct_columns_to_string.
    + intros [c g] Hin. pose proof (struct_columns_to_struct _ _ _ Hts Hc) as Hz. eapply Forall_forall in Hz; [|done]. cbn in Hz.
      apply fine_unwrapped. destruct (Hcol c); [by eapply elem_of_zip_l|]. by apply IH.
Qed.

(** The cast ends, and neither it nor the cast of a column of a struct at any depth ends in the error of an unsupported cast. *)
Fixpoint unrejected (fuel : nat) (a : CArray) (t : ArrowType) : Prop :=
  match fuel with
  | O => False
  | S n =>
      (exists r, cast fuel a t = Some r /\ r <> Err (External SparkInternal)) /\
      match a, t with
      | StructArr _ columns _, TyUtf8 => Forall (fun c => unrejected n c TyUtf8) columns
      | StructArr _ columns _, TyStruct to_fields => Forall (fun x : CArray * Field ArrowType => unrejected n x.1 (f_type x.2)) (zip columns to_fields)
      | _, _ => True
      end
  end.

Lemma castable_unrejected fuel a t : (depth a + 3 <= fuel)%nat -> array_ok a -> castable cast_options (data_type a) t = true -> unrejected fuel a t.
Proof.
  revert a t. induction fuel as [|fuel IH]; intros a t Hfuel Ha Hc; [lia|]. split; [by apply cast_fine|].
  destruct a as [| |fields columns validity]; try done. pose proof (struct_columns_less _ _ _ _ Hfuel Ha) as Hcol.
  inversion Ha as [| |? ? ? Hts _ _]; subst. cbn [data_type] in Hc. destruct t; try done; apply Forall_forall.
  - intros c Hin. destruct (Hcol c Hin). apply IH; [done|done|]. by eapply struct_columns_to_string.
  - intros [c g] Hin. pose proof (struct_columns_to_struct _ _ _ Hts Hc) as Hz. eapply Forall_forall in Hz; [|done]. cbn in Hz.
    destruct (Hcol c); [by eapply elem_of_zip_l|]. by apply IH.
Qed.

(** C18: Every cast that [cast_supported] accepts is one that [cast_array] can do, apart from the list [cast_gap]: with fuel for the nesting of the
    array the cast ends, and neither it nor the cast of any column of a struct, at any depth, which would otherwise show as a panic, ends in
    the error of an unsupported cast.  (It may end in another error or in a panic, such as for a value that overflows.)  If the cast succeeds the
    result has as many rows as the input and the type [result_type]: the target type, but with 32-bit keys for a dictionary, and with
    microseconds in UTC for a timestamp made from a string. *)
Theorem cast_supported_sound fuel a t : array_ok a -> cast_supported (data_type a) t cast_options = true -> cast_gap (data_type a) t = false ->
  (depth a + 3 <= fuel)%nat ->
  unrejected fuel a t /\
  forall b, cast fuel a t = Some (Ok b) -> array_ok b /\ data_type b = result_type (data_type a) t /\ len b = len a.
Proof.
  intros Ha Hs Hg Hf. split; [apply castable_unrejected; [done|done|by apply supported_castable]|]. intros b Hb. by eapply cast_array_good.
Qed.
End CastFine.

(** * Casts without end *)

Definition is_timestamp (t : ArrowType) : bool := match t with TyTimestamp _ _ => true | _ => false end.

(** Structs, columns of other values than strings, binary values and timestamps, and dictionaries of other values than timestamps and, with 32-bit keys,
    than strings and binary values *)
Definition endless (a : CArray) : bool :=
  match a with
  | Leaf t _ => negb (string_like t) && negb (is_timestamp t)
  | DictArr key _ values => negb (is_int32 key && string_like (data_type values)) && negb (match values with Leaf t _ => is_timestamp t | _ => false end)
  | StructArr _ _ _ => true
  end.

Lemma dict_from_values_some a : Z.of_nat (len a) <= 2 ^ 31 -> exists keys, dict_from_values a = Ok (DictArr (TyInt Int32) keys a) /\ length keys = len a.
Proof.
  intros Hl. assert (exists keys, dict_keys a = Ok keys) as [keys E].
  { unfold dict_keys. eexists. apply mapM_Ok with (g := fun x : nat * bool => if x.2 then Some (Z.of_nat x.1) else None). intros [i []] Hi%elem_of_zip_l; [|done].
    apply elem_of_seq in Hi. cbn. by rewrite (proj2 (Z.ltb_lt _ _)) by lia. }
  assert (Ed : dict_from_values a = Ok (DictArr (TyInt Int32) keys a)) by (unfold dict_from_values; by rewrite E).
  exists keys. split; [done|]. apply dict_from_values_ok in Ed as (keys' & [= <-] & _ & ?). done.
Qed.

(** C40: A cast to a dictionary type of up to 2^31 rows never returns, although [cast_supported] may accept it, if the array is a struct, a column that
    holds neither strings nor binary values nor timestamps, or a dictionary other than of timestamps, of any key, and other than of strings or binary
    values with 32-bit keys: [cast_array] makes a dictionary of the array and calls itself with it, which makes a dictionary of that
    dictionary, until the stack overflows.  No amount of fuel is enough, and lack of fuel is the only way to have no result. *)
Theorem cast_to_dictionary_diverges `{ZoneParse} `{RegexDigits} `{CastKernels} `{FloatText} `{DecimalKernels} `{DecimalTypes} utc_now from_ymd_opt options fuel a key t :
  endless a = true -> Z.of_nat (len a) <= 2 ^ 31 -> cast_array utc_now from_ymd_opt options fuel a (TyDictionary key t) = None.
Proof.
  revert a. induction fuel as [|fuel IH]; intros a He Hl; [done|]. cbn [cast_array].
  assert (Ez : with_timezone a (timezone options) (TyDictionary key t) = Ok a).
  { destruct a as [ft s|k ks [ft s| |]|]; try done; cbn in He; destruct ft; try done; rewrite andb_false_r in He; done. }
  rewrite Ez, run_ok_bind. destruct (dict_from_values_some a Hl) as (keys & Ed & Hk).
  assert (Hr : cast_array utc_now from_ymd_opt options fuel (DictArr (TyInt Int32) keys a) (TyDictionary key t) = None).
  { apply IH; [|cbn; by rewrite Hk]. cbn. destruct a as [ft s|k ks v|]; try done. }
  destruct a as [ft s|k ks v|]; [| |by rewrite Ed, run_ok_bind, Hr].
  - by rewrite Ed, run_ok_bind, Hr.
  - cbn in He. apply andb_prop in He as [He _]. apply negb_true_iff in He. cbn [data_type]. rewrite He. by rewrite Ed, run_ok_bind, Hr.
Qed.
