(* ===== verification/ChronoModel.v ===== *)
(** A model of the datetimes of chrono with zones that change their offset once, which satisfies the laws of TemporalProps.v, and
    what the truncations of Temporal.v do in it: examples around a change of the offset. *)

From S2P Require Import Prelude Casts Exprs Calendar Temporal TemporalProps TimestampParser TimestampProps.
From stdpp Require Import list strings.
Open Scope Z_scope.

Module PlainChrono.

(** The years -262143 to 262142 *)
Definition first_nanos : Z := Eval vm_compute in (day_number (-262143) 1 1 - EPOCH) * DAY_NANOS.
Definition last_nanos : Z := Eval vm_compute in (day_number 262143 1 1 - EPOCH) * DAY_NANOS - 1.
Definition Instant : Type := dsig (fun i : Z => first_nanos <= i <= last_nanos).
Definition nanos (t : Instant) : Z := proj1_sig t.
Definition of_nanos (i : Z) : option Instant :=
  match decide (first_nanos <= i <= last_nanos) with left H => Some (dexist i H) | right _ => None end.

(** Offsets in seconds before and from an instant, which is also in seconds *)
Record Zone := MkZone { before : Z; after : Z; switch : Z }.
Definition zone_offset (z : Zone) (i : Z) : Z := (if i <? switch z * NANOS then before z else after z) * NANOS.
Definition utc : Zone := MkZone 0 0 0.

#[export] Instance civil_ok_dec c : Decision (civil_ok c).
Proof. unfold civil_ok, date_ok. apply _. Defined.

Section InZone.
Context (z : Zone).

Definition shows (k i : Z) : bool := bool_decide (first_nanos <= i <= last_nanos) && (i + zone_offset z i =? k).
Definition resolve (c : Civil) : option Instant :=
  let k := local_nanos c in
  let i := k - before z * NANOS in let j := k - after z * NANOS in
  if bool_decide (civil_ok c) then
    match shows k i, shows k j with
    | true, false => of_nanos i
    | false, true => of_nanos j
    | true, true => if i =? j then of_nanos i else None
    | false, false => None
    end
  else None.

Definition reading (t : Instant) : Civil := shown nanos (zone_offset z) t.

Definition zone_ops : DateTimeOps Instant := {|
  month t := c_month (reading t);
  nanosecond t := c_nano (reading t);
  weekday t := weekday_of (reading t);
  with_nanosecond t v := resolve (set_nano v (reading t));
  with_second t v := resolve (set_second v (reading t));
  with_minute t v := resolve (set_minute v (reading t));
  with_hour t v := resolve (set_hour v (reading t));
  with_day0 t v := resolve (set_day (v + 1) (reading t));
  with_month0 t v := resolve (set_month (v + 1) (reading t));
  with_month t v := resolve (set_month v (reading t));
  sub_seconds t s := of_nanos (nanos t - s * NANOS);
|}.

Lemma nanos_inj t t' : nanos t = nanos t' -> t = t'.
Proof. intros E. by apply dsig_eq. Qed.

Lemma of_nanos_spec i t : of_nanos i = Some t <-> nanos t = i.
Proof.
  unfold of_nanos. case_decide as Hi.
  - split; [by intros [= <-]|]. intros E. f_equal. by apply nanos_inj.
  - split; [done|]. intros <-. destruct Hi. apply (proj2_dsig t).
Qed.

Lemma shows_spec k i : shows k i = true <-> exists t, nanos t = i /\ i + zone_offset z i = k.
Proof.
  unfold shows. rewrite andb_true_iff, bool_decide_eq_true, Z.eqb_eq. split.
  - intros [Hi ?]. by exists (dexist i Hi).
  - intros (t & <- & ?). split; [apply (proj2_dsig t)|done].
Qed.

Lemma reading_local c t : civil_ok c -> reading t = c <-> nanos t + zone_offset z (nanos t) = local_nanos c.
Proof.
  intros Hc. unfold reading, shown. split.
  - intros <-. by rewrite local_civil_of.
  - intros ->. by apply civil_of_local.
Qed.

(** An instant that shows [k] is one of two. *)
Lemma shows_candidates k t : nanos t + zone_offset z (nanos t) = k -> nanos t = k - before z * NANOS \/ nanos t = k - after z * NANOS.
Proof. unfold zone_offset. case_match; lia. Qed.

Lemma shows_instant k t : shows k (nanos t) = true <-> nanos t + zone_offset z (nanos t) = k.
Proof. rewrite shows_spec. split; [by intros (t' & _ & ?)|by eauto]. Qed.

Lemma resolve_some c t : civil_ok c -> resolve c = Some t -> reading t = c /\ forall t', reading t' = c -> t' = t.
Proof.
  intros Hc. unfold resolve. rewrite bool_decide_eq_true_2 by done. set (k := local_nanos c). intros E.
  assert (Ht : shows k (nanos t) = true /\ forall t', shows k (nanos t') = true -> nanos t' = nanos t).
  { destruct (shows k (k - before z * NANOS)) eqn:Hi, (shows k (k - after z * NANOS)) eqn:Hj; [destruct (Z.eqb_spec (k - before z * NANOS) (k - after z * NANOS))| | |];
      try discriminate; apply of_nanos_spec in E; rewrite <- E in *; (split; [done|]); intros t' Ht'; pose proof Ht' as Hs; rewrite shows_instant in Hs;
      destruct (shows_candidates k t' Hs) as [Hc'|Hc']; rewrite Hc' in *; congruence. }
  destruct Ht as [Ht Hu]. rewrite shows_instant in Ht. split; [by apply reading_local|].
  intros t' Ht'. apply reading_local in Ht'; [|done]. apply nanos_inj, Hu. by rewrite shows_instant.
Qed.

Lemma resolve_complete c t : civil_ok c -> reading t = c -> (forall t', reading t' = c -> t' = t) -> resolve c = Some t.
Proof.
  intros Hc Ht Hu. apply reading_local in Ht; [|done]. unfold resolve. rewrite bool_decide_eq_true_2 by done. set (k := local_nanos c) in *.
  assert (Hs : forall i, shows k i = true -> i = nanos t).
  { intros i (t' & <- & Hk)%shows_spec. f_equal. apply Hu. by apply reading_local. }
  pose proof (proj2 (shows_instant k t) Ht) as Hst.
  destruct (shows_candidates k t Ht) as [Hi|Hj]; rewrite ?Hi, ?Hj in Hst.
  - rewrite Hst. destruct (shows k (k - after z * NANOS)) eqn:Hj; [|by apply of_nanos_spec].
    apply Hs in Hj. rewrite (proj2 (Z.eqb_eq _ _)) by lia. by apply of_nanos_spec.
  - rewrite Hst. destruct (shows k (k - before z * NANOS)) eqn:Hi; [|by apply of_nanos_spec].
    apply Hs in Hi. rewrite (proj2 (Z.eqb_eq _ _)) by lia. by apply of_nanos_spec.
Qed.

Lemma resolve_spec c t : resolve c = Some t <-> resolves nanos (zone_offset z) c t.
Proof.
  destruct (decide (civil_ok c)) as [Hc|Hc].
  - split; [by apply resolve_some|]. intros [? ?]. by apply resolve_complete.
  - split; [unfold resolve; by rewrite bool_decide_eq_false_2|]. intros [<- _]. destruct Hc. apply civil_of_ok.
Qed.

Lemma zone_laws (off : Z -> Z) : (forall i, off i = zone_offset z i) ->
  @DateTimeLaws Instant zone_ops nanos off first_nanos last_nanos.
Proof.
  intros Hoff. assert (Hs : forall t, shown nanos off t = reading t) by (intros t; unfold reading, shown; by rewrite Hoff).
  assert (Hr : forall c t, resolves nanos off c t <-> resolves nanos (zone_offset z) c t).
  { intros c t. unfold resolves. setoid_rewrite Hs. done. }
  split; cbn; intros; rewrite ?Hs, ?Hr, ?resolve_spec, ?of_nanos_spec; try done; [by apply nanos_inj|].
  split; [intros [t <-]; apply (proj2_dsig t)|]. intros Hi. by exists (dexist i Hi).
Qed.
End InZone.

(** Three zones by name: Cairo changed from +2 to +3 on Friday 2024-04-26 at midnight, Los Angeles from -7 to -8 on 2024-11-03 at 2:00. *)
Definition cairo : Zone := MkZone 7200 10800 1714082400.
Definition los_angeles : Zone := MkZone (-25200) (-28800) 1730624400.
Definition zone_of (name : text) : option Zone :=
  if bool_decide (name = codes "UTC") then Some utc
  else if bool_decide (name = codes "Africa/Cairo") then Some cairo
  else if bool_decide (name = codes "America/Los_Angeles") then Some los_angeles
  else None.

#[export] Instance plain_chrono : Chrono := {|
  NaiveDateTime := Instant;
  naive_ops := zone_ops utc;
  date_to_datetime v := of_nanos (v * DAY_NANOS);
  millis_to_datetime v := of_nanos (v * 10 ^ 6);
  micros_to_datetime v := of_nanos (v * 10 ^ 3);
  num_days_from_ce t := nanos t / DAY_NANOS + EPOCH;
  timestamp := nanos;
  Tz := Zone;
  tz_parse := zone_of;
  DateTime _ := Instant;
  zoned_ops := zone_ops;
  as_datetime_with_timezone _ v := of_nanos (v * 10 ^ 3);
  zoned_timestamp _ := nanos;
  from_local_datetime z l := resolve z (shown nanos (fun _ => 0) l);
  offset_from_utc_datetime z t := zone_offset z (nanos t) / NANOS;
  add_offset t s := of_nanos (nanos t + s * NANOS);
|}.

Lemma zone_offset_seconds z i : zone_offset z i mod NANOS = 0.
Proof. apply Z.mod_mul. done. Qed.

#[export] Instance plain_chrono_laws : ChronoLaws.
Proof.
  refine (@Build_ChronoLaws plain_chrono first_nanos last_nanos _ _ _ _ _ _ zone_offset _ _ _ _ _ _); cbn; intros.
  - by vm_compute.
  - apply zone_laws. intros i. unfold zone_offset. by case_match.
  - apply of_nanos_spec.
  - apply of_nanos_spec.
  - apply of_nanos_spec.
  - done.
  - apply zone_offset_seconds.
  - by apply zone_laws.
  - apply of_nanos_spec.
  - apply resolve_spec.
  - rewrite Z.mul_comm. symmetry. apply Z.div_exact; [done|]. apply zone_offset_seconds.
  - apply of_nanos_spec.
Defined.

#[export] Instance plain_parse : ZoneParse := {|
  with_ymd_and_hms z y mo d h mi s := resolve z (MkCivil y mo d h mi s 0);
  from_utc_datetime z t := t;
|}.

Lemma zone_offset_steps z i : zone_offset z (i - i mod NANOS) = zone_offset z i.
Proof.
  unfold zone_offset. pose proof (Z.mod_pos_bound i NANOS eq_refl) as Hm.
  destruct (Z.ltb_spec (i - i mod NANOS) (switch z * NANOS)) as [Hl|Hl], (Z.ltb_spec i (switch z * NANOS)) as [Hl'|Hl']; try done; exfalso.
  - pose proof (floor_ge NANOS (switch z * NANOS) i eq_refl (Z.mod_mul (switch z) NANOS ltac:(done)) Hl'). lia.
  - lia.
Qed.

#[export] Instance plain_parse_laws : ZoneParseLaws.
Proof. split; cbn; intros; [apply resolve_spec|done|apply zone_offset_steps|by vm_compute..]. Qed.

(** The digits of ASCII and the Arabic ones *)
#[export] Instance some_digits : RegexDigits := fun c => is_ascii_digit c || ((1632 <=? c) && (c <=? 1641)).
#[export] Instance some_digits_laws : RegexLaws.
Proof. intros c Hc. unfold unicode_digit, some_digits. rewrite (proj2 (Z.leb_gt 1632 c)) by lia. apply orb_false_r. Qed.
End PlainChrono.
Import PlainChrono.

(** 2024-05-17, a null and the last day of 1969 *)
Definition some_dates : PArray := [(19860, true); (5, false); (-1, true)].

(** 2024-05-17T10:20:30Z in Cairo and a null *)
Definition some_timestamps : PArray := [(1715941230 * 10 ^ 6, true); (7, false)].

Lemma truncation_correct_witness :
  (exists a', date_trunc_invoke (Some (Date32 some_dates)) (ScalarFormat (Some (codes "quarter"))) = Ok (Date32 a') /\
    Forall2 (date_truncated Quarter) some_dates a') /\
  (exists a',
    timestamp_trunc_evaluate (codes "Africa/Cairo") (Some (TimestampMicros (Some (codes "UTC")) some_timestamps)) (ScalarFormat (Some (codes "week")))
    = Ok (TimestampMicros None a') /\ Forall2 (timestamp_truncated cairo Week) some_timestamps a').
Proof.
  split.
  - refine (proj1 (proj1 (truncation_correct some_dates)) (codes "quarter") Quarter _ _); [by vm_compute|]. unfold some_dates, date_safe.
    repeat constructor; cbn; try (unfold in_s; lia); intros _; by vm_compute.
  - refine (proj1 (proj2 (truncation_correct some_timestamps) (codes "Africa/Cairo") cairo (codes "UTC") _ _) (codes "week") Week _ _); [done|by vm_compute..|].
    constructor; [|constructor; [done|constructor]]. intros _. cbn [fst].
    assert (Ho : tz_offset cairo (1715941230 * 10 ^ 6 * 10 ^ 3) = 10800 * NANOS) by by vm_compute. rewrite Ho.
    assert (Hm : trunc_local Week (1715941230 * 10 ^ 6 * 10 ^ 3 + 10800 * NANOS) = 1715558400 * NANOS) by by vm_compute. rewrite Hm.
    split_and!; [by vm_compute..|]. split; intros i; cbn [tz_offset plain_chrono_laws]; unfold zone_offset;
      destruct (Z.ltb_spec i (switch cairo * NANOS)); cbn [before after switch cairo] in *; unfold NANOS in *; lia.
Defined.

(** The start of the week is searched in elapsed time: Saturday 2024-04-27 00:30 in Cairo, the day after the clocks went
    forward, is truncated to a Sunday. *)
Example week_after_change :
  timestamp_trunc_evaluate (codes "Africa/Cairo") (Some (TimestampMicros (Some (codes "UTC")) [(1714167000 * 10 ^ 6, true)])) (ScalarFormat (Some (codes "WEEK")))
  = Ok (TimestampMicros None [(1713650400 * 10 ^ 6, true)]) /\
  weekday_of (civil_of (1713650400 * 10 ^ 9 + zone_offset cairo (1713650400 * 10 ^ 9))) = 6.
Proof. split; by vm_compute. Qed.

(** In the hour that the clocks repeat every reading is ambiguous, and truncation to any unit from microseconds to years panics. *)
Example ambiguous_hour_panics u : u <> Week ->
  trunc_to (T := DateTime los_angeles) u <$> as_datetime_with_timezone los_angeles (1730626200 * 10 ^ 6 + 1) = Some None.
Proof. intros Hu. destruct u; try done; by vm_compute. Qed.

(** The format is read without a look at the null buffer: a null format is the error of an unknown one. *)
Example null_format_rejected :
  date_trunc_invoke (Some (Date32 some_dates)) (ColumnFormat (Utf8Formats [([], false); (codes "YEAR", true); (codes "YEAR", true)])) = Err (External SparkInternal).
Proof. by vm_compute. Qed.

(** A column of milliseconds is taken for microseconds when it is prepared for a cast to text or date. *)
Example millis_to_text_panics : array_with_timezone (TimestampMillis (Some (codes "UTC")) []) (codes "UTC") (Some ToUtf8) = Panic.
Proof. done. Qed.

(** A local time that the clocks skip, or repeat, has no instant or two. *)
Example local_time_panics :
  array_with_timezone (TimestampMicros None [(1714091400 * 10 ^ 6, true)]) (codes "Africa/Cairo") (Some ToTimestampTz) = Panic /\
  array_with_timezone (TimestampMicros None [(1730597400 * 10 ^ 6, true)]) (codes "America/Los_Angeles") (Some ToTimestampTz) = Panic.
Proof. split; by vm_compute. Qed.

(** 2024-05-17T10:20:30Z *)
Definition some_now : Instant.
Proof. refine (dexist (1715941230 * NANOS) _). split; by vm_compute. Defined.

Lemma timestamp_cast_correct_witness :
  let array := [Some (codes " 2024-05-17T13:20:30.000007"); Some (codes "May"); None] in
  exists out, cast_string_to_timestamp (fun _ => some_now) array Ansi (codes "Africa/Cairo") = Ok out /\
    (forall i s, array !! i = Some s -> exists v, out !! i = Some v /\ match s with None => v = None | Some s => reads cairo some_now (trim s) v end) /\
    exists v, out !! 0%nat = Some v /\ instant_of cairo (MkCivil 2024 5 17 13 20 30 7000) v.
Proof.
  intros array. destruct (proj1 (timestamp_cast_correct (H := plain_chrono) cairo (fun _ => some_now) Ansi (codes "Africa/Cairo") array) ltac:(by vm_compute)) as (out & E & _ & Hr & Ho).
  exists out. split; [exact E|]. split; [exact Hr|].
  apply (Ho 0%nat _ [codes "2024"; codes "05"; codes "17"; codes "13"; codes "20"; codes "30"; codes "000007"] eq_refl); [by vm_compute|].
  split; [split; [cbn; lia|]; repeat (constructor; [split; [cbn; lia|repeat constructor]|]); constructor|]. split; [repeat constructor|]. by intros f [= <-].
Defined.

Example timestamp_texts :
  cast_string_to_timestamp (fun _ => some_now) (Some <$> [codes " 2024-05-17T13:20:30.000007"; codes "2024"; codes "2024-05-17T1"; codes "2024-5"; codes "T7"; codes "2024-04-26T00:30"]) Ansi (codes "Africa/Cairo")
  = Ok [Some 1715941230000007; Some 1704060000000000; Some 1715896800000000; None; Some 1715918400000000; None].
Proof. by vm_compute. Qed.

(** The digits of a fraction are taken for a number of microseconds: half a second is read as five microseconds. *)
Example fraction_as_micros :
  cast_string_to_timestamp (fun _ => some_now) [Some (codes "1970-01-01T00:00:00.5")] Legacy (codes "UTC") = Ok [Some 5].
Proof. by vm_compute. Qed.

(** Digits that the pattern accepts and the integer parser does not become the defaults: the year 2024 in Arabic digits is year 0. *)
Example other_digits_default :
  cast_string_to_timestamp (fun _ => some_now) [Some [1634; 1632; 1634; 1636]; Some (codes "0000")] Legacy (codes "UTC")
  = Ok [Some (-62167219200000000); Some (-62167219200000000)].
Proof. by vm_compute. Qed.

(** An hour that does not exist is the epoch, where a date that does not exist is null. *)
Example hour_of_day_default :
  cast_string_to_timestamp (fun _ => some_now) [Some (codes "T77"); Some (codes "2024-02-30")] Legacy (codes "UTC") = Ok [Some 0; None].
Proof. by vm_compute. Qed.
