(* ===== verification/CastModel.v ===== *)
(** Kernels that satisfy the laws of CastArrayProps.v, and the casts of CastArrays.v at work with them: nested arrays, and the casts that
    [cast_supported] accepts and [cast_array] rejects. *)

From S2P Require Import Prelude UnsafeRow Casts CastProps DateProps Exprs Calendar Temporal TemporalProps TimestampParser TimestampProps ChronoModel CastTypes CastFloats CastFloatProps CastArrays CastArrayProps CastSupport.
From stdpp Require Import list strings.
Open Scope Z_scope.
Ltac Zify.zify_post_hook ::= idtac.
Import PlainChrono PlainFloats.

Module PlainKernels.

(** Integers as text, timestamps as numbers, and nulls for the other casts *)
Definition plain_cast (a : CArray) (t : ArrowType) : DFResult CArray :=
  match a, t with
  | Leaf (TyInt _) slots, TyUtf8 =>
      Ok (Leaf TyUtf8 ((fun x => match x with Some (VInt z) => Some (VBytes (to_string z)) | _ => None end) <$> slots))
  | Leaf (TyTimestamp _ _) slots, TyInt Int64 => Ok (Leaf (TyInt Int64) slots)
  | _, _ => if plain_type t then Ok (Leaf t (replicate (len a) None)) else Err ArrowError
  end.

Definition key_ok (n : nat) (k : option Z) : bool := match k with Some k => (0 <=? k) && (k <? Z.of_nat n) | None => true end.

Definition fits (columns : list CArray) (fields : list (Field ArrowType)) (n : nat) : bool :=
  (length columns =? length fields)%nat && forallb (fun x : CArray * Field ArrowType => ty_eqb (data_type x.1) (f_type x.2) && (len x.1 =? n)%nat) (zip columns fields).

#[export] Instance plain_kernels : CastKernels := {|
  cast_with_options _ a t := plain_cast a t;
  can_cast_types _ _ := false;
  take_array a keys :=
    match a with
    | Leaf t slots => Ok (Leaf t ((fun k : option Z => k ← k; x ← slots !! Z.to_nat k; x) <$> keys))
    | _ => Err ArrowError
    end;
  struct_array_new fields columns validity := if fits columns fields (length validity) then Some (StructArr fields columns validity) else None;
  dict_array_new keys values := if forallb (key_ok (len values)) keys then Some (DictArr (TyInt Int32) keys values) else None;
  ScalarValue := CArray;
  scalar_to_array s := Ok s;
  scalar_from_array a := Ok a;
  base64_no_pad _ := [];
  hex_upper b := [48 + b / 16; 48 + b mod 16];
|}.

Lemma fits_spec columns fields n : fits columns fields n = true -> data_type <$> columns = f_type <$> fields /\ Forall (fun c => len c = n) columns.
Proof.
  unfold fits. rewrite andb_true_iff, Nat.eqb_eq. intros [Hl Hf]. revert fields Hl Hf. induction columns as [|c columns IH]; intros [|f fields] Hl Hf; try done.
  cbn in Hf. rewrite !andb_true_iff in Hf. destruct Hf as [[Ht%ty_eqb_true Hn%Nat.eqb_eq] Hf]. destruct (IH fields) as [? ?]; [cbn in Hl; lia|done|].
  cbn. split; [by f_equal|by constructor].
Qed.

Lemma keys_ok_spec n keys : forallb (key_ok n) keys = true -> keys_ok n keys.
Proof. induction keys as [|[k|] keys IH]; cbn; rewrite ?andb_true_iff; intros; constructor; try (by apply IH; tauto); try done. lia. Qed.

Lemma nulls_ok t n : plain_type t = true -> array_ok (Leaf t (replicate n None)).
Proof. intros Ht. constructor; [done|]. by apply Forall_replicate. Qed.

Lemma plain_cast_typed a t b : array_ok a -> plain_cast a t = Ok b -> array_ok b /\ data_type b = t /\ len b = len a.
Proof.
  intros Ha. assert (Hn : (if plain_type t then Ok (Leaf t (replicate (len a) None)) else Err ArrowError : DFResult CArray) = Ok b -> array_ok b /\ data_type b = t /\ len b = len a).
  { destruct (plain_type t) eqn:Et; [|done]. intros [= <-]. split_and!; [by apply nulls_ok|done|cbn; by rewrite length_replicate]. }
  destruct a as [ft slots| |]; try (by apply Hn). destruct ft; try (by apply Hn); destruct t; try (by apply Hn); cbn [plain_cast].
  - intros [= <-]. split_and!; [|done|cbn; by rewrite length_fmap]. constructor; [done|]. apply Forall_fmap. apply Forall_true. by intros [[]|].
  - destruct t; try (by apply Hn). intros [= <-]. split_and!; [|done|done]. inversion Ha; subst. constructor; [done|]. eapply Forall_impl; [done|]. by intros [[]|].
Qed.

Lemma take_ok slots keys t : Forall (slot_ok t) slots -> Forall (slot_ok t) ((fun k : option Z => k ← k; x ← slots !! Z.to_nat k; x) <$> keys).
Proof.
  intros Hs. apply Forall_fmap. apply Forall_true. intros [k|]; [|done]. cbn. destruct (slots !! Z.to_nat k) as [x|] eqn:E; [|done]. cbn. by eapply Forall_lookup_1 in E.
Qed.

#[export] Instance plain_kernel_laws : CastKernelLaws.
Proof.
  split; cbn.
  - intros _ a t b. apply plain_cast_typed.
  - intros _ a t e. unfold plain_cast. repeat case_match; intros; by simplify_eq.
  - intros a keys b Ha _. destruct a; try done. intros [= <-]. inversion Ha; subst. split_and!; [|done|cbn; by rewrite length_fmap]. constructor; [done|]. by apply take_ok.
  - intros a keys e. destruct a; intros; by simplify_eq.
  - intros fields columns validity b. destruct (fits _ _ _) eqn:E; [|done]. intros [= <-]. apply fits_spec in E. tauto.
  - intros keys values b. destruct (forallb _ _) eqn:E; [|done]. intros [= <-]. split; [done|]. by apply keys_ok_spec.
Qed.

#[export] Instance plain_decimals : DecimalKernels := fun v p => (- (10 ^ p - 1) <=? v) && (v <=? 10 ^ p - 1).
#[export] Instance plain_decimal_types : DecimalTypes := fun p s => (1 <=? p) && (p <=? 38) && (s <=? p).
End PlainKernels.
Import PlainKernels.

Definition some_clock : nat -> @NaiveDateTime plain_chrono := fun _ => some_now.
Definition plain_cast_array (o : SparkCastOptions) (fuel : nat) : CArray -> ArrowType -> Run CArray := cast_array some_clock civil_day o fuel.
Definition some_options : SparkCastOptions := SparkCastOptions_new Legacy (codes "UTC") true.

(** A struct of strings and of a dictionary of strings, the second row null *)
Definition field (name : string) (t : ArrowType) : Field ArrowType := MkField (codes name) t true 0.
Definition some_struct : CArray :=
  StructArr [field "s" TyUtf8; field "d" (TyDictionary (TyInt Int32) TyUtf8)]
    [Leaf TyUtf8 [Some (VBytes (codes " 42")); None; Some (VBytes (codes "4e2"))];
     DictArr (TyInt Int32) [Some 1; None; Some 0] (Leaf TyUtf8 [Some (VBytes (codes "2024-05-17T10")); Some (VBytes (codes "1970"))])]
    [true; false; true].
Definition some_struct_type : ArrowType := TyStruct [field "i" (TyInt Int32); field "t" (TyTimestamp Microseconds (Some (codes "UTC")))].

Lemma some_struct_ok : array_ok some_struct.
Proof. repeat (constructor; try done; cbn; try lia). Qed.

Definition casted_struct : CArray :=
  StructArr [field "i" (TyInt Int32); field "t" (TyTimestamp Microseconds (Some (codes "UTC")))]
    [Leaf (TyInt Int32) [Some (VInt 42); None; None]; Leaf (TyTimestamp Microseconds (Some (codes "UTC"))) [Some (VInt 0); None; Some (VInt 1715940000000000)]]
    [true; false; true].

Lemma cast_array_typed_witness : plain_cast_array some_options 5 some_struct some_struct_type = Some (Ok casted_struct) /\
  array_ok casted_struct /\ data_type casted_struct = some_struct_type /\ len casted_struct = 3%nat.
Proof.
  assert (E : plain_cast_array some_options 5 some_struct some_struct_type = Some (Ok casted_struct)) by by vm_compute. split; [exact E|].
  exact (cast_array_typed some_clock civil_day some_options 5 some_struct some_struct_type casted_struct some_struct_ok E).
Defined.

Lemma cast_supported_sound_witness : unrejected some_clock civil_day some_options 5 some_struct some_struct_type /\
  forall b, plain_cast_array some_options 5 some_struct some_struct_type = Some (Ok b) -> array_ok b /\ data_type b = some_struct_type /\ len b = 3%nat.
Proof.
  refine (cast_supported_sound some_clock civil_day some_options 5 some_struct some_struct_type some_struct_ok _ _ _); [by vm_compute..|]. cbn. lia.
Defined.

Lemma cast_to_dictionary_diverges_witness :
  plain_cast_array some_options 99 (Leaf (TyInt Int32) [Some (VInt 1)]) (TyDictionary (TyInt Int32) (TyInt Int32)) = None /\
  cast_supported (TyInt Int32) (TyDictionary (TyInt Int32) (TyInt Int32)) some_options = true.
Proof. split; [|done]. apply (cast_to_dictionary_diverges some_clock civil_day some_options 99); [done|cbn; lia]. Defined.

(** Each row of the list of exceptions is accepted by [cast_supported] and rejected by [cast_array], a dictionary of timestamps included, which the step
    after a cast has a case for. *)
Definition rejected (a : CArray) (t : ArrowType) : bool :=
  cast_supported (data_type a) t some_options && cast_gap (data_type a) t
  && match plain_cast_array some_options 9 a t with Some (Err (External SparkInternal)) => true | _ => false end.
Example gaps_rejected :
  forallb (fun x : ArrowType * ArrowType => rejected (Leaf x.1 []) x.2)
    [(TyUtf8, TyDate64); (TyDate64, TyUtf8); (TyDate64, TyLargeUtf8); (TyDate32, TyLargeUtf8); (TyBinary, TyLargeUtf8); (TyLargeUtf8, TyBinary); (TyLargeUtf8, TyFloat32);
     (TyLargeUtf8, TyFloat64); (TyLargeUtf8, TyDecimal128 10 2); (TyLargeUtf8, TyDate32); (TyLargeUtf8, TyDate64); (TyLargeUtf8, TyTimestamp Microseconds None);
     (TyTimestamp Microseconds (Some (codes "UTC")), TyDate64); (TyTimestamp Microseconds (Some (codes "UTC")), TyDecimal128 20 6)]
  && rejected (DictArr (TyInt Int32) [] (Leaf (TyTimestamp Microseconds (Some (codes "UTC"))) [])) (TyInt Int64)
  && rejected (DictArr (TyInt Int32) [] (Leaf (TyInt Int64) [])) (TyInt Int64) = true.
Proof. by vm_compute. Qed.

(** In a struct the error of a field is a panic. *)
Example field_error_panics :
  plain_cast_array some_options 9 (StructArr [field "d" TyDate64] [Leaf TyDate64 []] []) (TyStruct [field "d" TyUtf8]) = Some Panic.
Proof. by vm_compute. Qed.

(** A timestamp without a zone cannot be cast to its own type. *)
Example ntz_identity_panics : cast_supported (TyTimestamp Microseconds None) (TyTimestamp Microseconds None) some_options = true /\
  plain_cast_array some_options 9 (Leaf (TyTimestamp Microseconds None) []) (TyTimestamp Microseconds None) = Some Panic.
Proof. split; by vm_compute. Qed.

(** Casts of structs and of timestamps to strings *)
Example struct_to_text :
  plain_cast_array some_options 9 (StructArr [field "a" (TyInt Int32); field "b" TyBinary]
    [Leaf (TyInt Int32) [Some (VInt (-7)); None]; Leaf TyBinary [Some (VBytes (codes "xy")); None]] [true; true]) TyUtf8
  = Some (Ok (Leaf TyUtf8 [Some (VBytes (codes "{-7, xy}")); Some (VBytes (codes "{null, null}"))])) /\
  trim_end (codes "1970-01-01 05:29:59.990") = codes "1970-01-01 05:29:59.99".
Proof. by vm_compute. Qed.

(** A cast of strings to timestamps in milliseconds has microseconds, in UTC. *)
Example string_to_millis_is_micros :
  plain_cast_array some_options 9 (Leaf TyUtf8 [Some (VBytes (codes "1970-01-01T00:00:01"))]) (TyTimestamp Milliseconds (Some (codes "UTC")))
  = Some (Ok (Leaf (TyTimestamp Microseconds (Some (codes "UTC"))) [Some (VInt 1000000)])).
Proof. by vm_compute. Qed.

(** Bytes that are not UTF-8 are kept as they are in a column of strings. *)
Example binary_to_string_unchecked :
  from_utf8 [255] = None /\ plain_cast_array some_options 9 (Leaf TyBinary [Some (VBytes [255])]) TyUtf8 = Some (Ok (Leaf TyUtf8 [Some (VBytes [255])])).
Proof. by vm_compute. Qed.
