(* ===== verification/Rounding.v ===== *)
(** Rounding half up: the quotient rounded to the nearest integer, ties away from zero. *)

From S2P Require Import Prelude.
From stdpp Require Import list.
Open Scope Z_scope.

Definition half_up (v c : Z) : Z := Z.sgn v * ((2 * Z.abs v + c) / (2 * c)).

Lemma half_up_pos v c : 0 <= v -> 0 < c -> half_up v c = if (- ((- c) / 2)) <=? v mod c then v / c + 1 else v / c.
Proof.
  intros Hv Hc. unfold half_up. assert (Z.sgn v * ((2 * Z.abs v + c) / (2 * c)) = (2 * v + c) / (2 * c)) as ->.
  { destruct (Z.eq_dec v 0) as [->|]; [|rewrite Z.sgn_pos, Z.abs_eq by lia; lia].
    cbn. symmetry. apply Z.div_small. lia. }
  pose proof (Z.div_mod v c ltac:(lia)) as Hd. pose proof (Z.mod_pos_bound v c Hc).
  pose proof (Z.div_mod (- c) 2 ltac:(lia)). pose proof (Z.mod_pos_bound (- c) 2 ltac:(lia)).
  set (q := v / c) in *. set (r := v mod c) in *. destruct (Z.leb_spec (- ((- c) / 2)) r).
  - symmetry. apply (Z.div_unique _ _ _ (2 * r - c)); lia.
  - symmetry. apply (Z.div_unique _ _ _ (2 * r + c)); lia.
Qed.

Lemma half_up_opp v c : half_up (- v) c = - half_up v c.
Proof. unfold half_up. rewrite Z.sgn_opp, Z.abs_opp. lia. Qed.

Lemma quot_half v c : 0 <= v -> 0 < c ->
  (if (- ((- c) / 2)) <=? Z.rem v c then Z.quot v c + 1 else Z.quot v c) = half_up v c.
Proof. intros Hv Hc. by rewrite half_up_pos, Z.quot_div_nonneg, Z.rem_mod_nonneg by lia. Qed.
