(* ===== verification/DecimalAgg.v ===== *)
(** Sums and averages of decimals (src/native/spark-expr/src/agg_funcs/sum_decimal.rs and
    avg_decimal.rs, with the helpers of utils.rs).

    A [BooleanBufferBuilder] is a list of bits.  DataFusion's [EmitTo::take_needed] and Arrow's
    [sum] kernel are operations of the classes [TakeNeeded] and [SumKernel]. *)

From S2P Require Import Prelude Exprs.
From stdpp Require Import list.
Open Scope Z_scope.

Inductive EmitTo := All | First (n : nat).

Class TakeNeeded := take_needed : EmitTo -> list Z -> list Z * list Z.
Class TakeNeededLaws `{TakeNeeded} := {
  take_needed_all : forall l, take_needed All l = (l, []);
  take_needed_first : forall n l, take_needed (First n) l = (take n l, drop n l);
}.

(** The sum of the valid slots, at width [w]: [None] if there are none. *)
Class SumKernel := sum_kernel : Z -> PArray -> option Z.

(** [l[i] = v] *)
Definition set_at {A} (l : list A) (i : nat) (v : A) : option (list A) :=
  if (i <? length l)%nat then Some (<[i := v]> l) else None.

(** [Vec::resize] *)
Definition vec_resize (l : list Z) (n : nat) : list Z := take n l ++ replicate (n - length l) 0.

Definition overflowing_add (a b : Z) : Z * bool := (swrap 128 (a + b), negb (bool_decide (in_s 128 (a + b)))).

(** * utils.rs *)

Definition is_valid_decimal_precision (value precision : Z) : bool :=
  (precision <=? 38) && (- (10 ^ precision - 1) <=? value) && (value <=? 10 ^ precision - 1).

(** The bits to emit and the bits that stay in the builder *)
Definition build_bool_state (state : list bool) (emit_to : EmitTo) : option (list bool * list bool) :=
  match emit_to with
  | All => Some (state, [])
  | First n => if (n <=? length state)%nat then Some (take n state, drop n state) else None
  end.

Definition ensure_bit_capacity (builder : list bool) (capacity : nat) : list bool :=
  if (length builder <? capacity)%nat then builder ++ replicate (capacity - length builder) true else builder.

(** * [SumDecimalAccumulator] *)

Record SumAcc := MkSum { sum : Z; is_empty : bool; is_not_null : bool; precision : Z }.

Definition sum_new (precision : Z) : SumAcc := MkSum 0 true true precision.

Definition sum_update_single (self : SumAcc) (v : Z) : SumAcc :=
  let '(new_sum, is_overflow) := overflowing_add (sum self) v in
  if is_overflow || negb (is_valid_decimal_precision new_sum (precision self)) then
    MkSum (sum self) (is_empty self) false (precision self)
  else MkSum new_sum (is_empty self) true (precision self).

(** The loop over the slots, over the nulls or testing for them *)
Definition valid_values (a : PArray) : list Z :=
  if (null_count a =? 0)%nat then a.*1 else (filter (fun x => x.2 = true) a).*1.

Definition sum_update_batch (self : SumAcc) (values : PArray) : SumAcc :=
  if negb (is_empty self) && negb (is_not_null self) then self
  else
    let self := MkSum (sum self) (is_empty self && (length values =? null_count values)%nat) (is_not_null self) (precision self) in
    foldl sum_update_single self (valid_values values).

Definition sum_evaluate (self : SumAcc) : option Z :=
  if is_empty self || negb (is_not_null self) || negb (is_valid_decimal_precision (sum self) (precision self)) then None
  else Some (sum self).

(** The sum, null if it overflowed, and [is_empty] *)
Definition sum_state (self : SumAcc) : option Z * bool := ((if is_not_null self then Some (sum self) else None), is_empty self).

(** The state is one slot; [+=] wraps in the release build, and the value under a null is 0. *)
Definition sum_merge_batch (self : SumAcc) (that_sum : option Z) (that_is_empty : bool) : SumAcc :=
  let this_overflow := negb (is_empty self) && negb (is_not_null self) in
  let that_overflow := negb that_is_empty && bool_decide (that_sum = None) in
  let not_null := negb this_overflow && negb that_overflow in
  MkSum (if not_null then swrap 128 (sum self + default 0 that_sum) else sum self)
    (is_empty self && that_is_empty) not_null (precision self).

(** * [SumDecimalGroupsAccumulator] *)

Record SumGroups := MkSumGroups { g_is_not_null : list bool; g_is_empty : list bool; g_sum : list Z; g_precision : Z }.

Definition groups_new (precision : Z) : SumGroups := MkSumGroups [] [] [] precision.

Definition is_overflow (self : SumGroups) (index : nat) : option bool :=
  e ← g_is_empty self !! index; n ← g_is_not_null self !! index; Some (negb e && negb n).

Definition groups_update_single (self : SumGroups) (group_index : nat) (value : Z) : option SumGroups :=
  empty ← set_at (g_is_empty self) group_index false;
  s ← g_sum self !! group_index;
  let '(new_sum, is_overflow) := overflowing_add s value in
  sums ← set_at (g_sum self) group_index new_sum;
  not_null ← (if is_overflow || negb (is_valid_decimal_precision new_sum (g_precision self))
              then set_at (g_is_not_null self) group_index false else Some (g_is_not_null self));
  Some (MkSumGroups not_null empty sums (g_precision self)).

Definition groups_resize (self : SumGroups) (total_num_groups : nat) : SumGroups :=
  MkSumGroups (ensure_bit_capacity (g_is_not_null self) total_num_groups)
    (ensure_bit_capacity (g_is_empty self) total_num_groups) (vec_resize (g_sum self) total_num_groups) (g_precision self).

(** The slots that the two loops of [update_batch] visit *)
Definition visited (group_indices : list nat) (values : PArray) : list (nat * Z) :=
  let iter := zip group_indices values in
  if (null_count values =? 0)%nat then (fun x => (x.1, x.2.1)) <$> iter
  else (fun x => (x.1, x.2.1)) <$> filter (fun x => x.2.2 = true) iter.

(** The loop over the slots of a batch *)
Fixpoint update_slots {St} (update_single : St -> nat -> Z -> option St) (self : St) (slots : list (nat * Z)) : option St :=
  match slots with
  | [] => Some self
  | (g, v) :: slots => self ← update_single self g v; update_slots update_single self slots
  end.

Definition groups_update_batch (self : SumGroups) (values : PArray) (group_indices : list nat) (total_num_groups : nat)
    : option SumGroups :=
  update_slots groups_update_single (groups_resize self total_num_groups) (visited group_indices values).

Section Emit.
Context `{TakeNeeded}.

(** The loop that marks the sums out of range *)
Fixpoint mark_invalid (precision : Z) (not_null : list bool) (i : nat) (sums : list Z) : option (list bool) :=
  match sums with
  | [] => Some not_null
  | v :: sums =>
      not_null ← (if is_valid_decimal_precision v precision then Some not_null else set_at not_null i false);
      mark_invalid precision not_null (S i) sums
  end.

(** The array of results: values and validity *)
Definition groups_evaluate (self : SumGroups) (emit_to : EmitTo) : option (PArray * SumGroups) :=
  let '(result, rest) := take_needed emit_to (g_sum self) in
  not_null ← mark_invalid (g_precision self) (g_is_not_null self) 0 result;
  '(nulls, not_null) ← build_bool_state not_null emit_to;
  '(empty, rest_empty) ← build_bool_state (g_is_empty self) emit_to;
  Some (zip result (zip_with (fun e n => negb e && n) empty nulls), MkSumGroups not_null rest_empty rest (g_precision self)).

(** The arrays of sums and of [is_empty] *)
Definition groups_state (self : SumGroups) (emit_to : EmitTo) : option (PArray * list bool * SumGroups) :=
  '(nulls, not_null) ← build_bool_state (g_is_not_null self) emit_to;
  let '(sums, rest) := take_needed emit_to (g_sum self) in
  '(empty, rest_empty) ← build_bool_state (g_is_empty self) emit_to;
  Some (zip sums nulls, empty, MkSumGroups not_null rest_empty rest (g_precision self)).
End Emit.

Definition groups_merge_single (self : SumGroups) (group_index : nat) (that_sum : Z * bool) (that_is_empty : bool) : option SumGroups :=
  this_overflow ← is_overflow self group_index;
  let that_overflow := negb that_is_empty && negb that_sum.2 in
  let is_overflow := this_overflow || that_overflow in
  not_null ← set_at (g_is_not_null self) group_index (negb is_overflow);
  e ← g_is_empty self !! group_index;
  empty ← set_at (g_is_empty self) group_index (e && that_is_empty);
  sums ← (if is_overflow then Some (g_sum self)
          else s ← g_sum self !! group_index; set_at (g_sum self) group_index (swrap 128 (s + that_sum.1)));
  Some (MkSumGroups not_null empty sums (g_precision self)).

Fixpoint groups_merge_all (self : SumGroups) (slots : list (nat * ((Z * bool) * bool))) : option SumGroups :=
  match slots with
  | [] => Some self
  | (g, (s, e)) :: slots => self ← groups_merge_single self g s e; groups_merge_all self slots
  end.

Definition groups_merge_batch (self : SumGroups) (that_sum : PArray) (that_is_empty : list bool) (group_indices : list nat)
    (total_num_groups : nat) : option SumGroups :=
  groups_merge_all (groups_resize self total_num_groups) (zip group_indices (zip that_sum that_is_empty)).

(** * Averages *)

(** The precisions and scales of the sum and of the result *)
Record AvgType := MkAvgType { sum_precision : Z; sum_scale : Z; target_precision : Z; target_scale : Z }.

(** [avg]: [sum / count], rounded half up *)
Definition avg (sum count target_min target_max scaler : Z) : option Z :=
  if bool_decide (in_s 128 (sum * scaler)) then
    let value := sum * scaler in
    let div := Z.quot value count in
    let rem := Z.rem value count in
    let half := - ((- count) / 2) in
    let half_neg := swrap 128 (- half) in
    let new_value :=
      if 0 <=? value then if half <=? rem then swrap 128 (div + 1) else div
      else if rem <=? half_neg then swrap 128 (div - 1) else div in
    if (target_min <=? new_value) && (new_value <=? target_max) then Some new_value else None
  else None.

(** [10_i128.pow(target_scale.saturating_sub(sum_scale) as u32)], of [i8]s *)
Definition avg_scaler (t : AvgType) : Z :=
  swrap 128 (10 ^ wrap 32 (Z.max (-128) (Z.min 127 (target_scale t - sum_scale t)))).

(** The result of a group *)
Definition avg_result (t : AvgType) (sum count : Z) : option Z :=
  avg sum count (- (10 ^ target_precision t - 1)) (10 ^ target_precision t - 1) (avg_scaler t).

Record AvgAcc := MkAvg { a_sum : option Z; a_count : Z; a_is_empty : bool; a_is_not_null : bool }.

Definition avg_new : AvgAcc := MkAvg None 0 true true.

Definition avg_update_single (t : AvgType) (self : AvgAcc) (v : Z) : AvgAcc :=
  let '(new_sum, is_overflow) := match a_sum self with Some s => overflowing_add s v | None => (v, false) end in
  if is_overflow || negb (is_valid_decimal_precision new_sum (sum_precision t)) then
    MkAvg (a_sum self) (a_count self) (a_is_empty self) false
  else if bool_decide (in_s 64 (a_count self + 1)) then MkAvg (Some new_sum) (a_count self + 1) (a_is_empty self) true
  else MkAvg (Some new_sum) (a_count self) (a_is_empty self) false.

Definition avg_update_batch (t : AvgType) (self : AvgAcc) (values : PArray) : AvgAcc :=
  if negb (a_is_empty self) && negb (a_is_not_null self) then self
  else
    let self := MkAvg (a_sum self) (a_count self) (a_is_empty self && (length values =? null_count values)%nat) (a_is_not_null self) in
    foldl (avg_update_single t) self (valid_values values).

Definition avg_state (self : AvgAcc) : option Z * Z := (a_sum self, a_count self).

Definition avg_merge_batch `{SumKernel} (self : AvgAcc) (sums counts : PArray) : AvgAcc :=
  let count := swrap 64 (a_count self + default 0 (sum_kernel 64 counts)) in
  match sum_kernel 128 sums with
  | Some x =>
      let '(result, overflowed) := overflowing_add (default 0 (a_sum self)) x in
      MkAvg (if overflowed then None else Some result) count (a_is_empty self) (a_is_not_null self)
  | None => MkAvg (a_sum self) count (a_is_empty self) (a_is_not_null self)
  end.

(** Dividing by a count of 0 panics. *)
Definition avg_evaluate (t : AvgType) (self : AvgAcc) : option (option Z) :=
  match a_sum self with
  | Some v => if a_count self =? 0 then None else Some (avg_result t v (a_count self))
  | None => Some None
  end.

(** * [AvgDecimalGroupsAccumulator] *)

Record AvgGroups := MkAvgGroups { ag_is_not_null : list bool; ag_counts : list Z; ag_sums : list Z }.

Definition avg_groups_new : AvgGroups := MkAvgGroups [] [] [].

Definition avg_groups_update_single (t : AvgType) (self : AvgGroups) (group_index : nat) (value : Z) : option AvgGroups :=
  s ← ag_sums self !! group_index;
  let '(new_sum, is_overflow) := overflowing_add s value in
  c ← ag_counts self !! group_index;
  counts ← set_at (ag_counts self) group_index (swrap 64 (c + 1));
  sums ← set_at (ag_sums self) group_index new_sum;
  not_null ← (if is_overflow || negb (is_valid_decimal_precision new_sum (sum_precision t))
              then set_at (ag_is_not_null self) group_index false else Some (ag_is_not_null self));
  Some (MkAvgGroups not_null counts sums).

Definition avg_groups_resize (self : AvgGroups) (total_num_groups : nat) : AvgGroups :=
  MkAvgGroups (ensure_bit_capacity (ag_is_not_null self) total_num_groups) (vec_resize (ag_counts self) total_num_groups)
    (vec_resize (ag_sums self) total_num_groups).

Definition avg_groups_update_batch (t : AvgType) (self : AvgGroups) (values : PArray) (group_indices : list nat)
    (total_num_groups : nat) : option AvgGroups :=
  update_slots (avg_groups_update_single t) (avg_groups_resize self total_num_groups) (visited group_indices values).

(** [counts[g] += c] and the wrapping addition to the sums *)
Fixpoint add_at (w : Z) (l : list Z) (slots : list (nat * Z)) : option (list Z) :=
  match slots with
  | [] => Some l
  | (g, v) :: slots => x ← l !! g; l ← set_at l g (swrap w (x + v)); add_at w l slots
  end.

Fixpoint clear_nulls (not_null : list bool) (slots : list (nat * (Z * bool))) : option (list bool) :=
  match slots with
  | [] => Some not_null
  | (g, (_, valid)) :: slots =>
      not_null ← (if valid then Some not_null else set_at not_null g false); clear_nulls not_null slots
  end.

Definition avg_groups_merge_batch (self : AvgGroups) (partial_sums partial_counts : PArray) (group_indices : list nat)
    (total_num_groups : nat) : option AvgGroups :=
  let self := avg_groups_resize self total_num_groups in
  counts ← add_at 64 (ag_counts self) (zip group_indices (partial_counts.*1));
  sums ← add_at 128 (ag_sums self) (zip group_indices (partial_sums.*1));
  not_null ← (if (null_count partial_counts =? 0)%nat then Some (ag_is_not_null self)
              else clear_nulls (ag_is_not_null self) (zip group_indices partial_counts));
  Some (MkAvgGroups not_null counts sums).

Section AvgEmit.
Context `{TakeNeeded}.

Definition avg_groups_evaluate (t : AvgType) (self : AvgGroups) (emit_to : EmitTo) : option (list (option Z) * AvgGroups) :=
  '(nulls, not_null) ← build_bool_state (ag_is_not_null self) emit_to;
  let '(counts, rest_counts) := take_needed emit_to (ag_counts self) in
  let '(sums, rest_sums) := take_needed emit_to (ag_sums self) in
  let result := zip_with (fun (not_null : bool) (sc : Z * Z) =>
    if negb not_null || (sc.2 =? 0) then None else avg_result t sc.1 sc.2) nulls (zip sums counts) in
  Some (result, MkAvgGroups not_null rest_counts rest_sums).

Definition avg_groups_state (self : AvgGroups) (emit_to : EmitTo) : option (PArray * PArray * AvgGroups) :=
  '(nulls, not_null) ← build_bool_state (ag_is_not_null self) emit_to;
  let '(counts, rest_counts) := take_needed emit_to (ag_counts self) in
  let '(sums, rest_sums) := take_needed emit_to (ag_sums self) in
  Some (zip sums nulls, zip counts nulls, MkAvgGroups not_null rest_counts rest_sums).
End AvgEmit.
