(* ===== verification/DecimalAggProps.v ===== *)
(** Sums and averages of decimals by group: after any sequence of batches each group holds
    the exact result of its values, or null once the running sum has left the precision. *)

From S2P Require Import Prelude Exprs Rounding DecimalAgg.
From stdpp Require Import list.
Open Scope Z_scope.

(** * Specification *)

Definition total (l : list Z) : Z := foldl Z.add 0 l.

(** Every running sum fits in the precision. *)
Fixpoint fits (precision acc : Z) (l : list Z) : bool :=
  match l with [] => true | v :: l => is_valid_decimal_precision (acc + v) precision && fits precision (acc + v) l end.

Lemma total_from l acc : foldl Z.add acc l = acc + total l.
Proof.
  unfold total. revert acc. induction l as [|v l IH]; intros acc; [cbn; lia|]. cbn [foldl]. rewrite (IH (acc + v)), (IH (0 + v)). lia.
Qed.

Lemma valid_in_s v precision : is_valid_decimal_precision v precision = true -> in_s 128 v.
Proof.
  unfold is_valid_decimal_precision. intros Hv. assert (10 ^ precision <= 10 ^ 38) by (apply Z.pow_le_mono_r; lia).
  unfold in_s. change (2 ^ (128 - 1)) with 170141183460469231731687303715884105728.
  change (10 ^ 38) with 100000000000000000000000000000000000000 in *. lia.
Qed.

(** The test after an addition decides whether the exact sum fits. *)
Lemma overflow_test acc v precision :
  in_s 128 acc ->
  (overflowing_add acc v).2 || negb (is_valid_decimal_precision (overflowing_add acc v).1 precision)
  = negb (is_valid_decimal_precision (acc + v) precision) /\
  (is_valid_decimal_precision (acc + v) precision = true -> (overflowing_add acc v).1 = acc + v).
Proof.
  intros Ha. unfold overflowing_add. cbn [fst snd]. case_bool_decide as Hv.
  - rewrite swrap_small by done. done.
  - destruct (is_valid_decimal_precision (acc + v) precision) eqn:E; [|done]. by apply valid_in_s in E.
Qed.

(** * Groups *)

Definition batch : Type := PArray * list nat * nat.

(** The valid values of group [g] in a list of slots *)
Definition group_values (g : nat) (slots : list (nat * Z)) : list Z := (filter (fun x => x.1 = g) slots).*2.

(** All values of group [g] *)
Definition history (g : nat) (bs : list batch) : list Z :=
  concat ((fun b : batch => group_values g (visited b.1.2 b.1.1)) <$> bs).

(** Group indices are below the number of groups, which never shrinks. *)
Fixpoint batches_ok (n : nat) (bs : list batch) : Prop :=
  match bs with
  | [] => True
  | (_, groups, m) :: bs => (n <= m)%nat /\ Forall (fun g => g < m)%nat groups /\ batches_ok m bs
  end.

Definition final_groups (n : nat) (bs : list batch) : nat := foldl (fun _ (b : batch) => b.2) n bs.

Lemma visited_groups groups values m : Forall (fun g => g < m)%nat groups -> Forall (fun x => x.1 < m)%nat (visited groups values).
Proof.
  intros Hg. assert (Forall (fun x => x.1 < m)%nat (zip groups values)) as Hz.
  { revert values. induction Hg as [|g groups Hg' _ IH]; intros [|v values]; cbn; constructor; [done|apply IH]. }
  unfold visited. destruct (_ =? 0)%nat; apply Forall_fmap; [done|].
  apply Forall_forall. intros x [_ Hx]%list_elem_of_filter. by apply (proj1 (Forall_forall _ _) Hz).
Qed.

(** The batches of an accumulator, one after the other *)
Fixpoint run {St} (update_batch : St -> PArray -> list nat -> nat -> option St) (st : St) (bs : list batch) : option St :=
  match bs with
  | [] => Some st
  | (values, groups, m) :: bs => st ← update_batch st values groups m; run update_batch st bs
  end.

Section Groups.
Context {St C : Type} (update_single : St -> nat -> Z -> option St) (resize : St -> nat -> St).
Context (wf : nat -> St -> Prop) (cell : St -> nat -> C) (step : C -> Z -> C).
Context (Hupdate : forall n st g v, wf n st -> (g < n)%nat -> exists st', update_single st g v = Some st' /\ wf n st' /\
  forall h, cell st' h = if decide (h = g) then step (cell st g) v else cell st h).
Context (Hresize : forall n m st, wf n st -> (n <= m)%nat -> wf m (resize st m) /\ forall g, cell (resize st m) g = cell st g).

Lemma update_slots_spec n st slots :
  wf n st -> Forall (fun x => x.1 < n)%nat slots ->
  exists st', update_slots update_single st slots = Some st' /\ wf n st' /\
    forall g, cell st' g = foldl step (cell st g) (group_values g slots).
Proof.
  intros Hst Hs. revert st Hst. induction Hs as [|[g v] slots Hg _ IH]; intros st Hst; [by exists st|].
  destruct (Hupdate n st g v Hst Hg) as (st1 & E1 & Hst1 & Hc1). destruct (IH st1 Hst1) as (st2 & E2 & Hst2 & Hc2).
  exists st2. cbn [update_slots]. rewrite E1. split; [exact E2|]. split; [done|]. intros h. rewrite Hc2, Hc1. unfold group_values.
  rewrite filter_cons. cbn [fst]. case_decide as Eh; [subst; by rewrite decide_True|]. by rewrite decide_False.
Qed.

Context (update_batch : St -> PArray -> list nat -> nat -> option St).
Context (Hbatch : forall st values groups m,
  update_batch st values groups m = update_slots update_single (resize st m) (visited groups values)).

Lemma run_spec n st bs :
  wf n st -> batches_ok n bs ->
  exists st', run update_batch st bs = Some st' /\ wf (final_groups n bs) st' /\ forall g, cell st' g = foldl step (cell st g) (history g bs).
Proof.
  revert n st. induction bs as [|[[values groups] m] bs IH]; intros n st Hst Hb; [by exists st|].
  destruct Hb as (Hm & Hg & Hb). destruct (Hresize n m st Hst Hm) as [Hr Hc].
  destruct (update_slots_spec m (resize st m) (visited groups values) Hr) as (st1 & E1 & Hst1 & Hc1); [by apply visited_groups|].
  destruct (IH m st1 Hst1 Hb) as (st2 & E2 & Hst2 & Hc2). exists st2. cbn [run]. rewrite Hbatch, E1.
  split; [exact E2|]. split; [done|]. intros g. rewrite Hc2, Hc1, Hc. unfold history. rewrite fmap_cons. cbn [concat]. by rewrite foldl_app.
Qed.
End Groups.

(** * Lists updated in place *)

Lemma set_at_Some {A} (l : list A) i v : (i < length l)%nat -> set_at l i v = Some (<[i := v]> l).
Proof. intros Hi. unfold set_at. by rewrite (proj2 (Nat.ltb_lt _ _) Hi). Qed.

Lemma default_insert {A} (d : A) (l : list A) i h v :
  (i < length l)%nat -> default d (<[i := v]> l !! h) = if decide (h = i) then v else default d (l !! h).
Proof. intros Hi. case_decide; [subst; by rewrite list_lookup_insert_eq|by rewrite list_lookup_insert_ne]. Qed.

Lemma ensure_bit_capacity_spec l n m :
  length l = n -> (n <= m)%nat ->
  length (ensure_bit_capacity l m) = m /\ forall g, default true (ensure_bit_capacity l m !! g) = default true (l !! g).
Proof.
  intros Hl Hm. unfold ensure_bit_capacity. destruct (Nat.ltb_spec (length l) m); [|split; [lia|done]].
  split; [rewrite length_app, length_replicate; lia|]. intros g. destruct (decide (g < length l)%nat).
  - by rewrite lookup_app_l by done.
  - rewrite lookup_app_r, (lookup_ge_None_2 l) by lia. destruct (replicate _ true !! _) eqn:E; [|done].
    by apply lookup_replicate in E as [-> _].
Qed.

Lemma vec_resize_spec l n m :
  length l = n -> (n <= m)%nat -> length (vec_resize l m) = m /\ forall g, default 0 (vec_resize l m !! g) = default 0 (l !! g).
Proof.
  intros Hl Hm. unfold vec_resize. rewrite take_ge by lia. split; [rewrite length_app, length_replicate; lia|]. intros g.
  destruct (decide (g < length l)%nat).
  - by rewrite lookup_app_l by done.
  - rewrite lookup_app_r, (lookup_ge_None_2 l) by lia. destruct (replicate _ 0 !! _) eqn:E; [|done].
    by apply lookup_replicate in E as [-> _].
Qed.

(** * Sums *)

Definition sum_wf (p : Z) (n : nat) (st : SumGroups) : Prop :=
  length (g_sum st) = n /\ length (g_is_empty st) = n /\ length (g_is_not_null st) = n /\ g_precision st = p.

(** Sum, emptiness and validity of a group; groups not seen yet are empty. *)
Definition sum_cell (st : SumGroups) (g : nat) : Z * bool * bool :=
  (default 0 (g_sum st !! g), default true (g_is_empty st !! g), default true (g_is_not_null st !! g)).

Definition sum_step (p : Z) (c : Z * bool * bool) (v : Z) : Z * bool * bool :=
  let r := overflowing_add c.1.1 v in
  (r.1, false, if r.2 || negb (is_valid_decimal_precision r.1 p) then false else c.2).

Lemma groups_update_single_spec p n st g v :
  sum_wf p n st -> (g < n)%nat -> exists st', groups_update_single st g v = Some st' /\ sum_wf p n st' /\
    forall h, sum_cell st' h = if decide (h = g) then sum_step p (sum_cell st g) v else sum_cell st h.
Proof.
  intros (Hs & He & Hn & Hp) Hg. unfold groups_update_single. rewrite (set_at_Some (g_is_empty st)) by lia. cbn [mbind option_bind].
  destruct (lookup_lt_is_Some_2 (g_sum st) g) as [s Es]; [lia|]. rewrite Es. cbn [mbind option_bind].
  destruct (overflowing_add s v) as [new_sum overflow] eqn:Eo. rewrite (set_at_Some (g_sum st)) by lia. cbn [mbind option_bind].
  assert (sum_step p (sum_cell st g) v = (new_sum, false, if overflow || negb (is_valid_decimal_precision new_sum p) then false
    else default true (g_is_not_null st !! g))) as -> by (unfold sum_step, sum_cell; cbn [fst snd]; rewrite Es; change (default 0 (Some s)) with s; by rewrite Eo).
  rewrite <- Hp. destruct (overflow || negb (is_valid_decimal_precision new_sum (g_precision st))).
  - rewrite (set_at_Some (g_is_not_null st)) by lia. eexists. split; [reflexivity|]. split; [by unfold sum_wf; cbn; rewrite !length_insert|].
    intros h. unfold sum_cell. cbn. rewrite !default_insert by lia. by case_decide.
  - eexists. split; [reflexivity|]. split; [by unfold sum_wf; cbn; rewrite !length_insert|].
    intros h. unfold sum_cell. cbn. rewrite !default_insert by lia. by case_decide; subst.
Qed.

Lemma groups_resize_spec p n m st :
  sum_wf p n st -> (n <= m)%nat -> sum_wf p m (groups_resize st m) /\ forall g, sum_cell (groups_resize st m) g = sum_cell st g.
Proof.
  intros (Hs & He & Hn & Hp) Hm. destruct (vec_resize_spec _ _ _ Hs Hm) as [Hs' Hcs].
  destruct (ensure_bit_capacity_spec _ _ _ He Hm) as [He' Hce], (ensure_bit_capacity_spec _ _ _ Hn Hm) as [Hn' Hcn].
  split; [done|]. intros g. unfold sum_cell, groups_resize. cbn. by rewrite Hcs, Hce, Hcn.
Qed.

(** Once null, always null. *)
Lemma sum_fold_null p l s e : foldl (sum_step p) (s, e, false) l = ((foldl (sum_step p) (s, e, false) l).1, false).
Proof.
  revert s e. induction l as [|v l IH]; intros s e; [done|]. cbn [foldl]. unfold sum_step at 2 4. cbn [fst snd].
  destruct (_ || _); apply IH.
Qed.

Lemma sum_fold p l acc e :
  in_s 128 acc ->
  (foldl (sum_step p) (acc, e, true) l).1.2 = (e && bool_decide (l = [])) /\
  (foldl (sum_step p) (acc, e, true) l).2 = fits p acc l /\
  (fits p acc l = true -> (foldl (sum_step p) (acc, e, true) l).1.1 = acc + total l).
Proof.
  revert acc e. induction l as [|v l IH]; intros acc e Ha; [cbn; rewrite andb_true_r; split_and!; [done|done|lia]|].
  assert (forall s n, (foldl (sum_step p) (s, false, n) l).1.2 = false) as Hempty.
  { clear. induction l as [|v l IH]; intros s n; [done|]. cbn [foldl]. unfold sum_step at 2. apply IH. }
  destruct (overflow_test acc v p Ha) as [Ht Hs]. cbn [foldl fits]. unfold sum_step at 2 4 6. cbn [fst snd]. rewrite Ht.
  rewrite bool_decide_false, andb_false_r by done. split; [by rewrite Hempty|].
  destruct (is_valid_decimal_precision (acc + v) p) eqn:Ev; cbn [negb andb].
  - rewrite (Hs eq_refl). destruct (IH (acc + v) false) as (_ & -> & Hsum); [by eapply valid_in_s|]. split; [done|].
    intros Hf. rewrite (Hsum Hf). unfold total. cbn [foldl]. rewrite (total_from l (0 + v)). unfold total. lia.
  - rewrite sum_fold_null. done.
Qed.

Lemma mark_invalid_spec p not_null i sums :
  (i + length sums <= length not_null)%nat ->
  exists not_null', mark_invalid p not_null i sums = Some not_null' /\ length not_null' = length not_null /\
    forall k, not_null' !! k = (fun b => b && match sums !! (k - i)%nat with
      | Some v => (k <? i)%nat || is_valid_decimal_precision v p | None => true end) <$> not_null !! k.
Proof.
  revert not_null i. induction sums as [|v sums IH]; intros not_null i Hl.
  { exists not_null. split_and!; [done|done|]. intros k. destruct (not_null !! k); [|done]. cbn. by rewrite andb_true_r. }
  cbn [mark_invalid]. cbn in Hl.
  assert (exists nn1, (if is_valid_decimal_precision v p then Some not_null else set_at not_null i false) = Some nn1 /\
    length nn1 = length not_null /\ forall k, nn1 !! k = (fun b => b && (negb (k =? i)%nat || is_valid_decimal_precision v p)) <$> not_null !! k)
    as (nn1 & -> & Hl1 & Hk1).
  { destruct (is_valid_decimal_precision v p).
    - exists not_null. split_and!; [done|done|]. intros k. destruct (not_null !! k); [|done]. cbn. by rewrite orb_true_r, andb_true_r.
    - rewrite set_at_Some by lia. eexists. split_and!; [done|by rewrite length_insert|]. intros k.
      destruct (Nat.eqb_spec k i) as [->|Hne].
      + rewrite list_lookup_insert_eq by lia. destruct (lookup_lt_is_Some_2 not_null i) as [b ->]; [lia|]. cbn. by rewrite andb_false_r.
      + rewrite list_lookup_insert_ne by done. destruct (not_null !! k); [|done]. cbn. by rewrite andb_true_r. }
  cbn [mbind option_bind]. destruct (IH nn1 (S i) ltac:(lia)) as (nn2 & E & Hl2 & Hk2). exists nn2. split_and!; [done|lia|].
  intros k. rewrite Hk2, Hk1. destruct (not_null !! k) as [b|]; [|done].
  cbn [fmap option_fmap option_map]. f_equal. rewrite <- andb_assoc. f_equal.
  destruct (decide (k <= i)%nat) as [Hki|Hki].
  - replace (k - S i)%nat with 0%nat by lia. replace (k - i)%nat with 0%nat by lia. rewrite (proj2 (Nat.ltb_lt k (S i))) by lia.
    replace (match sums !! 0%nat with Some _ => _ | None => true end) with true by (by destruct (sums !! 0%nat)).
    rewrite andb_true_r. cbn [lookup list_lookup]. destruct (Nat.eqb_spec k i), (Nat.ltb_spec k i); cbn; lia || done.
  - destruct (k - i)%nat as [|d] eqn:Ed; [lia|]. replace (k - S i)%nat with d by lia. rewrite (proj2 (Nat.eqb_neq k i)) by lia. cbn [negb orb andb lookup list_lookup].
    destruct (sums !! d); [|done]. by rewrite (proj2 (Nat.ltb_ge k (S i))), (proj2 (Nat.ltb_ge k i)) by lia.
Qed.

(** The result of a group from its cell *)
Definition cell_result (p : Z) (c : Z * bool * bool) : option Z :=
  if negb c.1.2 && (c.2 && is_valid_decimal_precision c.1.1 p) then Some c.1.1 else None.

Lemma groups_evaluate_spec `{TakeNeededLaws} p n st :
  sum_wf p n st -> exists arr st', groups_evaluate st All = Some (arr, st') /\
    slot_value <$> arr = (fun g => cell_result p (sum_cell st g)) <$> seq 0 n.
Proof.
  intros (Hs & He & Hn & Hp). unfold groups_evaluate. rewrite take_needed_all.
  destruct (mark_invalid_spec (g_precision st) (g_is_not_null st) 0 (g_sum st)) as (nn & -> & Hl & Hk); [lia|].
  cbn [mbind option_bind build_bool_state]. eexists _, _. split; [reflexivity|].
  apply list_eq. intros g. rewrite !list_lookup_fmap. destruct (decide (g < n)%nat) as [Hg|Hg].
  - rewrite lookup_seq_lt by done. rewrite lookup_zip_with, (lookup_zip_with _ (g_is_empty st)), Hk, Nat.sub_0_r.
    destruct (lookup_lt_is_Some_2 (g_sum st) g) as [s Es]; [lia|]. destruct (lookup_lt_is_Some_2 (g_is_empty st) g) as [e Ee]; [lia|].
    destruct (lookup_lt_is_Some_2 (g_is_not_null st) g) as [b Eb]; [lia|]. rewrite Es, Ee, Eb. cbn. unfold sum_cell.
    by rewrite Es, Ee, Eb, Hp.
  - rewrite !lookup_ge_None_2; [done|rewrite length_seq; lia|]. rewrite length_zip_with, length_zip_with. lia.
Qed.

(** The sum of a group: null when there is none or when a running sum does not fit *)
Definition sum_spec (p : Z) (l : list Z) : option Z := if bool_decide (l = []) || negb (fits p 0 l) then None else Some (total l).

Lemma fits_total p l : l <> [] -> forall acc, fits p acc l = true -> is_valid_decimal_precision (acc + total l) p = true.
Proof.
  intros Hne. induction l as [|v l IH]; intros acc Hf; [done|]. cbn in Hf. apply andb_prop in Hf as [Hv Hf].
  unfold total. cbn [foldl]. rewrite total_from. destruct l as [|v' l]; [unfold total; cbn; by rewrite Z.add_0_r|].
  rewrite Z.add_assoc. by apply IH.
Qed.

Lemma sum_cell_result p l : cell_result p (foldl (sum_step p) (0, true, true) l) = sum_spec p l.
Proof.
  destruct (sum_fold p l 0 true) as (He & Hn & Hs); [done|]. unfold cell_result, sum_spec. rewrite He, Hn. cbn [andb].
  case_bool_decide as Hl; [done|]. cbn [negb andb orb]. destruct (fits p 0 l) eqn:Ef; [|done]. rewrite (Hs eq_refl). cbn [andb].
  pose proof (fits_total p l Hl 0 Ef) as Hv. rewrite Z.add_0_l in *. by rewrite Hv.
Qed.

(** C14: The grouped decimal sum.  After any sequence of batches of values, nulls and group
    indices, the result of each group is null if the group had no valid value or if one of its
    running sums left the precision, and otherwise the exact sum; neither the 128-bit
    arithmetic nor the order of the groups in the batches can be seen. *)
Theorem sum_groups_correct `{TakeNeededLaws} p bs :
  batches_ok 0 bs ->
  exists st arr st', run groups_update_batch (groups_new p) bs = Some st /\ groups_evaluate st All = Some (arr, st') /\
    slot_value <$> arr = (fun g => sum_spec p (history g bs)) <$> seq 0 (final_groups 0 bs).
Proof.
  intros Hb. destruct (run_spec groups_update_single groups_resize (sum_wf p) sum_cell (sum_step p)
    (groups_update_single_spec p) (groups_resize_spec p) groups_update_batch (fun _ _ _ _ => eq_refl) 0 (groups_new p) bs)
    as (st & E & Hwf & Hc); [done|done|].
  destruct (groups_evaluate_spec p _ st Hwf) as (arr & st' & Ee & Hr). exists st, arr, st'. split_and!; [done|done|].
  rewrite Hr. apply list_fmap_ext. intros _ g _. rewrite Hc. apply sum_cell_result.
Qed.

Module TakeVec.
#[export] Instance take_vec : TakeNeeded := fun emit_to l =>
  match emit_to with All => (l, []) | First n => (take n l, drop n l) end.
#[export] Instance take_vec_laws : TakeNeededLaws.
Proof. by split. Qed.
End TakeVec.
Import TakeVec.

(** Three groups: one sums up, one overflows two digits on the way, one has only nulls. *)
Definition example_batches : list batch :=
  [([(60, true); (50, true); (7, false)], [0; 1; 2]%nat, 3%nat); ([(60, true); (-20, true); (-70, true)], [1; 0; 1]%nat, 3%nat)].

Lemma sum_groups_correct_witness :
  exists st arr st', run groups_update_batch (groups_new 2) example_batches = Some st /\
    groups_evaluate st All = Some (arr, st') /\ slot_value <$> arr = [Some 40; None; None].
Proof.
  destruct (sum_groups_correct 2 example_batches) as (st & arr & st' & E & Ee & Hr).
  - repeat constructor.
  - exists st, arr, st'. exact (conj E (conj Ee Hr)).
Defined.

(** * Averages *)

(** Rounding up happens only for counts from 2 on, far from the ends of the type. *)
Lemma quot_up_range v c : 0 <= v <= 2 ^ 127 -> 0 < c -> - ((- c) / 2) <= Z.rem v c -> 0 <= Z.quot v c <= 2 ^ 126.
Proof.
  intros Hv Hc Hr. rewrite Z.quot_div_nonneg, Z.rem_mod_nonneg in * by lia. pose proof (Z.mod_pos_bound v c Hc).
  pose proof (Z.div_mod (- c) 2 ltac:(lia)). pose proof (Z.mod_pos_bound (- c) 2 ltac:(lia)). assert (2 <= c) by lia.
  pose proof (Z.div_pos v c). split; [lia|]. apply Z.div_le_upper_bound; [lia|]. change (2 ^ 127) with (2 * 2 ^ 126) in *. nia.
Qed.

(** [avg] rounds half up and is null when the product or the result does not fit. *)
Lemma avg_spec sum count tmin tmax scaler :
  0 < count < 2 ^ 63 ->
  avg sum count tmin tmax scaler
  = if bool_decide (in_s 128 (sum * scaler)) then
      let q := half_up (sum * scaler) count in if (tmin <=? q) && (q <=? tmax) then Some q else None
    else None.
Proof.
  intros Hc. unfold avg. case_bool_decide as Hv; [|done]. set (v := sum * scaler) in *. cbv zeta.
  pose proof (Z.div_mod (- count) 2 ltac:(lia)). pose proof (Z.mod_pos_bound (- count) 2 ltac:(lia)).
  set (half := - (- count / 2)) in *. unfold in_s in Hv. change (128 - 1) with 127 in Hv.
  replace (if 0 <=? v then _ else _) with (half_up v count); [done|]. destruct (Z.leb_spec 0 v).
  - rewrite <- quot_half by lia. fold half. destruct (Z.leb_spec half (Z.rem v count)); [|done].
    pose proof (quot_up_range v count ltac:(lia) ltac:(lia) ltac:(done)). rewrite swrap_small; [done|lia|unfold in_s; lia].
  - rewrite <- (Z.opp_involutive v), half_up_opp, Z.quot_opp_l, Z.rem_opp_l by lia. rewrite <- quot_half by lia. fold half.
    rewrite (swrap_small 128 (- half)) by (unfold in_s; lia). destruct (Z.leb_spec half (Z.rem (- v) count)).
    + pose proof (quot_up_range (- v) count ltac:(lia) ltac:(lia) ltac:(done)). simp_tests. rewrite swrap_small; [lia|lia|unfold in_s; lia].
    + by simp_tests.
Qed.

(** * Averages of groups *)

Definition avg_wf (n : nat) (st : AvgGroups) : Prop :=
  length (ag_sums st) = n /\ length (ag_counts st) = n /\ length (ag_is_not_null st) = n.

Definition avg_cell (st : AvgGroups) (g : nat) : Z * Z * bool :=
  (default 0 (ag_sums st !! g), default 0 (ag_counts st !! g), default true (ag_is_not_null st !! g)).

Definition avg_step (p : Z) (c : Z * Z * bool) (v : Z) : Z * Z * bool :=
  let r := overflowing_add c.1.1 v in
  (r.1, swrap 64 (c.1.2 + 1), if r.2 || negb (is_valid_decimal_precision r.1 p) then false else c.2).

Lemma avg_groups_update_single_spec t n st g v :
  avg_wf n st -> (g < n)%nat -> exists st', avg_groups_update_single t st g v = Some st' /\ avg_wf n st' /\
    forall h, avg_cell st' h = if decide (h = g) then avg_step (sum_precision t) (avg_cell st g) v else avg_cell st h.
Proof.
  intros (Hs & Hc & Hn) Hg. unfold avg_groups_update_single.
  destruct (lookup_lt_is_Some_2 (ag_sums st) g) as [s Es]; [lia|]. destruct (lookup_lt_is_Some_2 (ag_counts st) g) as [c Ec]; [lia|].
  rewrite Es. cbn [mbind option_bind]. destruct (overflowing_add s v) as [new_sum overflow] eqn:Eo. rewrite Ec. cbn [mbind option_bind].
  rewrite (set_at_Some (ag_counts st)), (set_at_Some (ag_sums st)) by lia. cbn [mbind option_bind].
  assert (avg_step (sum_precision t) (avg_cell st g) v = (new_sum, swrap 64 (c + 1),
    if overflow || negb (is_valid_decimal_precision new_sum (sum_precision t)) then false else default true (ag_is_not_null st !! g))) as ->.
  { unfold avg_step, avg_cell. cbn [fst snd]. rewrite Es, Ec. change (default 0 (Some s)) with s. by rewrite Eo. }
  destruct (overflow || negb (is_valid_decimal_precision new_sum (sum_precision t))).
  - rewrite (set_at_Some (ag_is_not_null st)) by lia. eexists. split; [reflexivity|].
    split; [by unfold avg_wf; cbn; rewrite !length_insert|]. intros h. unfold avg_cell. cbn. rewrite !default_insert by lia. by case_decide.
  - eexists. split; [reflexivity|]. split; [by unfold avg_wf; cbn; rewrite !length_insert|].
    intros h. unfold avg_cell. cbn. rewrite !default_insert by lia. by case_decide; subst.
Qed.

Lemma avg_groups_resize_spec n m st :
  avg_wf n st -> (n <= m)%nat -> avg_wf m (avg_groups_resize st m) /\ forall g, avg_cell (avg_groups_resize st m) g = avg_cell st g.
Proof.
  intros (Hs & Hc & Hn) Hm. destruct (vec_resize_spec _ _ _ Hs Hm) as [Hs' Hcs], (vec_resize_spec _ _ _ Hc Hm) as [Hc' Hcc].
  destruct (ensure_bit_capacity_spec _ _ _ Hn Hm) as [Hn' Hcn]. split; [done|]. intros g. unfold avg_cell, avg_groups_resize. cbn.
  by rewrite Hcs, Hcc, Hcn.
Qed.

(** The sum and the validity evolve as in a sum. *)
Lemma avg_fold p l s c e n :
  in_s 64 c ->
  foldl (avg_step p) (s, c, n) l
  = ((foldl (sum_step p) (s, e, n) l).1.1, swrap 64 (c + Z.of_nat (length l)), (foldl (sum_step p) (s, e, n) l).2).
Proof.
  revert s c e n. induction l as [|v l IH]; intros s c e n Hc; [cbn; by rewrite Z.add_0_r, swrap_small|].
  cbn [foldl]. unfold avg_step at 2, sum_step at 2 4. cbn [fst snd]. rewrite (IH _ _ false) by (apply swrap_range; lia). f_equal. f_equal.
  apply swrap_eq; [lia|]. unfold wrap. rewrite <- Zplus_mod_idemp_l. change (swrap 64 (c + 1) mod 2 ^ 64) with (wrap 64 (swrap 64 (c + 1))).
  rewrite wrap_swrap by lia. unfold wrap. rewrite Zplus_mod_idemp_l. f_equal. cbn [length]. lia.
Qed.

(** The average of a group: null when there is none, when a running sum does not fit, or when
    the rescaled sum or the result does not *)
Definition avg_group_spec (t : AvgType) (l : list Z) : option Z :=
  if bool_decide (l = []) || negb (fits (sum_precision t) 0 l) then None
  else
    let v := total l * avg_scaler t in
    let q := half_up v (Z.of_nat (length l)) in
    let max := 10 ^ target_precision t - 1 in
    if bool_decide (in_s 128 v) && (- max <=? q) && (q <=? max) then Some q else None.

Definition avg_cell_result (t : AvgType) (c : Z * Z * bool) : option Z :=
  if negb c.2 || (c.1.2 =? 0) then None else avg_result t c.1.1 c.1.2.

Lemma avg_cell_result_spec t l :
  Z.of_nat (length l) < 2 ^ 63 -> avg_cell_result t (foldl (avg_step (sum_precision t)) (0, 0, true) l) = avg_group_spec t l.
Proof.
  intros Hl. rewrite (avg_fold _ l 0 0 true true) by done. rewrite Z.add_0_l, swrap_small by (unfold in_s; lia).
  destruct (sum_fold (sum_precision t) l 0 true) as (_ & Hn & Hs); [done|]. unfold avg_cell_result, avg_group_spec. cbn [fst snd]. rewrite Hn.
  destruct (fits (sum_precision t) 0 l); [|by rewrite orb_true_r]. rewrite (Hs eq_refl), Z.add_0_l. cbn [negb orb]. rewrite orb_false_r.
  destruct l as [|v l]; [done|]. rewrite bool_decide_false by done. rewrite (proj2 (Z.eqb_neq _ 0)) by (cbn; lia).
  unfold avg_result. rewrite avg_spec by (cbn [length] in *; lia). case_bool_decide; [|done]. done.
Qed.

Lemma avg_groups_evaluate_spec `{TakeNeededLaws} t n st :
  avg_wf n st -> exists arr st', avg_groups_evaluate t st All = Some (arr, st') /\
    arr = (fun g => avg_cell_result t (avg_cell st g)) <$> seq 0 n.
Proof.
  intros (Hs & Hc & Hn). unfold avg_groups_evaluate. cbn [mbind option_bind build_bool_state]. rewrite !take_needed_all.
  eexists _, _. split; [reflexivity|]. apply list_eq. intros g. rewrite list_lookup_fmap. destruct (decide (g < n)%nat) as [Hg|Hg].
  - rewrite lookup_seq_lt by done. rewrite lookup_zip_with, (lookup_zip_with _ (ag_sums st)).
    destruct (lookup_lt_is_Some_2 (ag_sums st) g) as [s Es]; [lia|]. destruct (lookup_lt_is_Some_2 (ag_counts st) g) as [c Ec]; [lia|].
    destruct (lookup_lt_is_Some_2 (ag_is_not_null st) g) as [b Eb]; [lia|]. rewrite Es, Ec, Eb. cbn. unfold avg_cell.
    by rewrite Es, Ec, Eb.
  - rewrite !lookup_ge_None_2; [done|rewrite length_seq; lia|]. rewrite length_zip_with, length_zip_with. lia.
Qed.

(** C22: The grouped decimal average, for groups of fewer than 2^63 values: the exact sum of the group's values divided by their number,
    rounded half up to the target scale; null if the group is empty, if a running sum leaves the precision of the sum, if the sum at the
    target scale leaves 128 bits, or if the result leaves the target precision. *)
Theorem avg_groups_correct `{TakeNeededLaws} t bs :
  batches_ok 0 bs -> (forall g, Z.of_nat (length (history g bs)) < 2 ^ 63) ->
  exists st arr st', run (avg_groups_update_batch t) avg_groups_new bs = Some st /\ avg_groups_evaluate t st All = Some (arr, st') /\
    arr = (fun g => avg_group_spec t (history g bs)) <$> seq 0 (final_groups 0 bs).
Proof.
  intros Hb Hlen. destruct (run_spec (avg_groups_update_single t) avg_groups_resize avg_wf avg_cell (avg_step (sum_precision t))
    (avg_groups_update_single_spec t) avg_groups_resize_spec (avg_groups_update_batch t) (fun _ _ _ _ => eq_refl) 0 avg_groups_new bs)
    as (st & E & Hwf & Hc); [done|done|].
  destruct (avg_groups_evaluate_spec t _ st Hwf) as (arr & st' & Ee & Hr). exists st, arr, st'. split_and!; [done|done|].
  rewrite Hr. apply list_fmap_ext. intros _ g _. rewrite Hc. by apply avg_cell_result_spec.
Qed.

Lemma avg_groups_correct_witness :
  exists st arr st', run (avg_groups_update_batch (MkAvgType 12 0 6 1)) avg_groups_new example_batches = Some st /\
    avg_groups_evaluate (MkAvgType 12 0 6 1) st All = Some (arr, st') /\ arr = [Some 200; Some 133; None].
Proof.
  destruct (avg_groups_correct (MkAvgType 12 0 6 1) example_batches) as (st & arr & st' & E & Ee & Hr).
  - repeat constructor.
  - intros [|[|[|g]]]; vm_compute; done.
  - exists st, arr, st'. exact (conj E (conj Ee Hr)).
Defined.

(** The average of two values of 9.9 * 10^33 with four more digits in its scale is null, although their sum and their average fit 38 digits. *)
Lemma avg_scaled_sum_overflows :
  avg_result (MkAvgType 38 0 38 4) (2 * (99 * 10 ^ 32)) 2 = None /\
  is_valid_decimal_precision (2 * (99 * 10 ^ 32)) 38 = true /\ is_valid_decimal_precision (99 * 10 ^ 32 * 10 ^ 4) 38 = true.
Proof. by vm_compute. Qed.

(** * The accumulators without groups *)

Lemma sum_update_single_spec st v :
  in_s 128 (sum st) ->
  sum_update_single st v
  = if is_valid_decimal_precision (sum st + v) (precision st) then MkSum (sum st + v) (is_empty st) true (precision st)
    else MkSum (sum st) (is_empty st) false (precision st).
Proof.
  intros Hi. destruct (overflow_test (sum st) v (precision st) Hi) as [Ht Hs]. unfold sum_update_single.
  destruct (overflowing_add (sum st) v) as [x o]. cbn [fst snd] in *. rewrite Ht.
  destruct (is_valid_decimal_precision (sum st + v) (precision st)); cbn [negb]; [by rewrite Hs|done].
Qed.

(** A value that leaves the precision is skipped and remembered only until the next one; a batch that ends with such a value ends the sum. *)
Definition skip_step (p : Z) (st : Z * bool) (v : Z) : Z * bool :=
  if is_valid_decimal_precision (st.1 + v) p then (st.1 + v, true) else (st.1, false).
Definition skip_steps (p : Z) (st : Z * bool) (l : list Z) : Z * bool := if st.2 then foldl (skip_step p) st l else st.
Definition ungrouped_sum (p : Z) (batches : list (list Z)) : option Z :=
  let st := foldl (skip_steps p) (0, true) batches in
  if bool_decide (concat batches = []) || negb st.2 then None else Some st.1.

(** The accumulator stands for [st] after [seen] values. *)
Record sum_rep (p : Z) (acc : SumAcc) (st : Z * bool) (seen : bool) : Prop := {
  sr_sum : sum acc = st.1;
  sr_null : is_not_null acc = st.2;
  sr_empty : is_empty acc = negb seen;
  sr_precision : precision acc = p;
  sr_range : in_s 128 st.1;
  sr_fresh : seen = false -> st.2 = true;
  sr_valid : seen = true -> st.2 = true -> is_valid_decimal_precision st.1 p = true;
}.

Lemma sum_rep_single p acc st v : sum_rep p acc st true -> sum_rep p (sum_update_single acc v) (skip_step p st v) true.
Proof.
  intros [Hs Hn He Hp Hr Hf Hv]. rewrite sum_update_single_spec, Hs, Hp by by rewrite Hs. unfold skip_step.
  destruct (is_valid_decimal_precision (st.1 + v) p) eqn:E; split; try done. by apply valid_in_s in E.
Qed.

Lemma sum_rep_values p acc st l : sum_rep p acc st true ->
  sum_rep p (foldl sum_update_single acc l) (foldl (skip_step p) st l) true.
Proof. revert acc st. induction l as [|v l IH]; intros acc st Hr; [done|]. cbn. by apply IH, sum_rep_single. Qed.

Lemma valid_values_filter (a : PArray) : valid_values a = (filter (fun x => x.2 = true) a).*1.
Proof.
  unfold valid_values. destruct (Nat.eqb_spec (null_count a) 0) as [E|]; [|done]. f_equal. unfold null_count, PArray in *. apply nil_length_inv in E.
  induction a as [|[v []] a IH]; [done| |done]. rewrite filter_cons_False in E by done. rewrite filter_cons_True by done. f_equal. by apply IH.
Qed.

Lemma length_null_count (a : PArray) : (length a =? null_count a)%nat = bool_decide (valid_values a = []).
Proof.
  rewrite valid_values_filter. assert (H : (length a = null_count a + length (filter (fun x => x.2 = true) a))%nat).
  { unfold null_count, PArray in *. induction a as [|[v []] a IH]; [done|..]; repeat first [rewrite filter_cons_True by done|rewrite filter_cons_False by done]; cbn [length]; lia. }
  case_bool_decide as Hv; [apply fmap_nil_inv in Hv; rewrite Hv in H; cbn in H; apply Nat.eqb_eq; lia|]. apply Nat.eqb_neq. intros E. apply Hv.
  rewrite (nil_length_inv (filter (fun x : Z * bool => x.2 = true) a)); [done|lia].
Qed.

Lemma fits_app p acc l k : fits p acc l = false -> fits p acc (l ++ k) = false.
Proof.
  revert acc. induction l as [|v l IH]; intros acc Hf; [done|]. cbn in *. apply andb_false_iff in Hf as [->|Hf]; [done|]. by rewrite IH, andb_false_r.
Qed.

Lemma sum_rep_batch p acc st seen b : sum_rep p acc st seen ->
  sum_rep p (sum_update_batch acc b) (skip_steps p st (valid_values b)) (seen || negb (bool_decide (valid_values b = []))).
Proof.
  intros Hr. pose proof Hr as [Hs Hn He Hp Hi Hf Hv]. unfold sum_update_batch, skip_steps. rewrite He, Hn, negb_involutive.
  destruct st as [s ok]. cbn [fst snd] in *. destruct seen; cbn [andb orb negb].
  - destruct ok; [|done]. cbn [negb]. apply sum_rep_values. by split.
  - rewrite (Hf eq_refl) in *. rewrite length_null_count. case_bool_decide as Hb; cbn [negb].
    + rewrite Hb. cbn. by split.
    + destruct (valid_values b) as [|v l]; [done|]. cbn [foldl]. apply sum_rep_values.
      rewrite (sum_update_single_spec (MkSum _ _ _ _)) by (cbn; by rewrite Hs). cbn [sum precision is_empty]. rewrite Hs, Hp. unfold skip_step. cbn [fst snd].
      destruct (is_valid_decimal_precision (s + v) p) eqn:E; split; try done. by apply valid_in_s in E.
Qed.

Lemma sum_batches_spec p bs :
  sum_evaluate (foldl sum_update_batch (sum_new p) bs) = ungrouped_sum p (valid_values <$> bs).
Proof.
  assert (H : forall acc st seen, sum_rep p acc st seen ->
    sum_rep p (foldl sum_update_batch acc bs) (foldl (skip_steps p) st (valid_values <$> bs)) (seen || negb (bool_decide (concat (valid_values <$> bs) = [])))).
  { induction bs as [|b bs IH]; intros acc st seen Hr; [cbn; by rewrite orb_false_r|]. cbn [foldl fmap list_fmap concat].
    pose proof (IH _ _ _ (sum_rep_batch p acc st seen b Hr)) as Hb. rewrite <- orb_assoc in Hb. by destruct (valid_values b). }
  destruct (H (sum_new p) (0, true) false) as [Hs Hn He Hp _ _ Hv]; [by split|]. cbn [orb] in *. unfold sum_evaluate, ungrouped_sum. rewrite He, Hn, Hs, Hp.
  rewrite negb_involutive. case_bool_decide; [done|]. cbn [negb orb] in *. destruct (foldl _ _ _).2; [|done]. by rewrite Hv.
Qed.

Lemma skip_steps_kept p l st : fits p st.1 l = true -> st.2 = true -> foldl (skip_step p) st l = (st.1 + total l, true).
Proof.
  revert st. induction l as [|v l IH]; intros [s ok] Hf Hok; cbn [fst snd] in *; [unfold total; cbn; by rewrite Z.add_0_r, Hok|].
  cbn in Hf. apply andb_prop in Hf as [Hv Hf]. cbn [foldl]. unfold skip_step at 2. cbn [fst snd]. rewrite Hv. rewrite IH by done. cbn [fst].
  unfold total at 2. cbn [foldl]. rewrite total_from. f_equal. lia.
Qed.

(** C39: The sum without groups, over any batches with any nulls.  A value with which the running sum would leave the precision is skipped; the
    sum is null only if there is no value, or if the skipped value is the last of its batch, nulls apart, after which the later batches are ignored.
    So in a batch an overflow is forgotten when the last value fits: the result is a sum without the values skipped, where the sum of
    the values as Spark and the grouped accumulator define it is null. *)
Theorem sum_overflow_forgotten p :
  (forall bs, sum_evaluate (foldl sum_update_batch (sum_new p) bs) = ungrouped_sum p (valid_values <$> bs)) /\
  (forall l w, let s := (foldl (skip_step p) (0, true) l).1 in
    fits p 0 l = false -> is_valid_decimal_precision (s + w) p = true ->
    ungrouped_sum p [l ++ [w]] = Some (s + w) /\ sum_spec p (l ++ [w]) = None) /\
  (forall l, fits p 0 l = true -> ungrouped_sum p [l] = sum_spec p l).
Proof.
  split; [apply sum_batches_spec|split].
  - intros l w s Hf Hw. split.
    + unfold ungrouped_sum. cbn [foldl concat]. rewrite app_nil_r. unfold skip_steps. cbn [snd]. rewrite foldl_app. cbn [foldl]. unfold skip_step at 1 3. fold s.
      rewrite Hw. rewrite bool_decide_false by by destruct l. done.
    + unfold sum_spec. rewrite bool_decide_false by by destruct l. by rewrite fits_app.
  - intros l Hf. unfold ungrouped_sum, sum_spec. cbn [foldl concat]. rewrite app_nil_r. unfold skip_steps. cbn [snd].
    rewrite skip_steps_kept by done. rewrite Hf. cbn [fst snd negb orb]. by rewrite Z.add_0_l.
Qed.

Lemma sum_overflow_forgotten_witness :
  sum_evaluate (foldl sum_update_batch (sum_new 2) [[(99, true); (5, true); (7, false); (-10, true)]]) = Some 89 /\ sum_spec 2 [99; 5; -10] = None /\
  sum_evaluate (foldl sum_update_batch (sum_new 2) [[(99, true); (5, true)]; [(-10, true)]]) = None.
Proof.
  destruct (sum_overflow_forgotten 2) as (He & Hf & _). rewrite (He [[(99, true); (5, true)]; [(-10, true)]]), (He [[(99, true); (5, true); (7, false); (-10, true)]]).
  destruct (Hf [99; 5] (-10) eq_refl eq_refl) as [E1 E2]. split; [exact E1|split; [exact E2|reflexivity]].
Defined.

(** Merging partial sums wraps around the 128 bits: four sums of 9 * 10^37 make a sum that is
    not null although the exact sum has 39 digits. *)
Lemma sum_merge_wraps :
  sum_evaluate (foldl (fun st s => sum_merge_batch st (Some s) false) (sum_new 38) (replicate 4 (9 * 10 ^ 37)))
  = Some (36 * 10 ^ 37 - 2 ^ 128) /\ is_valid_decimal_precision (36 * 10 ^ 37) 38 = false.
Proof. by vm_compute. Qed.

(** The average without groups does not report an overflow either. *)
Lemma avg_overflow_ignored :
  let t := MkAvgType 2 0 6 1 in
  avg_evaluate t (avg_update_batch t avg_new [(60, true); (60, true)]) = Some (Some 600) /\ avg_group_spec t [60; 60] = None.
Proof. by vm_compute. Qed.
