(* ===== verification/Arithmetic.v ===== *)
(** Decimal and integer arithmetic (src/native/spark-expr/src/math_funcs): division, rounding, ceil
    and floor, checked arithmetic, negation, overflow checks and the unscaled-value functions.

    [BigInt] is [Z].  The floating-point cases call the kernels of [FloatKernels]. *)

From S2P Require Import Prelude Casts Exprs.
From stdpp Require Import list strings.
Open Scope Z_scope.

Definition i128_max : Z := 2 ^ 127 - 1.

(** [i128::checked_pow] and [checked_pow] of the other types, of ten *)
Definition checked_pow10 (w e : Z) : option Z := if e <=? 40 then checked w (10 ^ e) else None.

(** [u32::saturating_sub] *)
Definition saturating_sub (a b : Z) : Z := Z.max 0 (a - b).

(** * utils.rs *)

Definition get_precision_scale (data_type : DataType) : option (Z * Z) :=
  match data_type with Decimal128 precision scale => Some (precision, scale) | _ => None end.

Section Kernels.
Context `{ArityKernels} `{FloatKernels} `{DecimalKernels} `{NegKernels}.

Definition make_decimal_scalar (a : option Z) (precision scale : Z) (f : Z -> Z) : DFResult ColumnarValue :=
  Ok (Scalar (Decimal128 precision scale) (f <$> a)).

Definition make_decimal_array (array : PArray) (precision scale : Z) (f : Z -> Z) : DFResult ColumnarValue :=
  Ok (Array (Decimal128 precision scale) (arity_unary f array)).

(** * div.rs *)

(** The closure over [BigInt]; a result that is no [i128] becomes the largest one. *)
Definition big_div (is_integral_div : bool) (l_mul r_mul : Z) (l r : Z) : option Z :=
  let l := l * l_mul in
  let r := r * r_mul in
  let div := if r =? 0 then 0 else Z.quot l r in
  let res := Z.quot (if is_integral_div then div else if div <? 0 then div - 5 else div + 5) 10 in
  Some (default i128_max (checked 128 res)).

(** [i128] division, which panics on division by zero and on overflow *)
Definition i128_div (l r : Z) : option Z :=
  if (r =? 0) || ((l =? - 2 ^ 127) && (r =? -1)) then None else Some (Z.quot l r).

(** The closure over [i128] *)
Definition native_div (is_integral_div : bool) (l_mul r_mul : Z) (l r : Z) : option Z :=
  let l := swrap 128 (l * l_mul) in
  let r := swrap 128 (r * r_mul) in
  div ← (if r =? 0 then Some 0 else i128_div l r);
  Some (Z.quot (if is_integral_div then div else swrap 128 (if div <? 0 then div - 5 else div + 5)) 10).

(** Both operands as arrays *)
Definition align_operands (left right : ColumnarValue) : DataType * PArray * (DataType * PArray) :=
  match left, right with
  | Array tl l, Array tr r => (tl, l, (tr, r))
  | Scalar tl l, Array tr r => (tl, to_array_of_size l (length r), (tr, r))
  | Array tl l, Scalar tr r => (tl, l, (tr, to_array_of_size r (length l)))
  | Scalar tl l, Scalar tr r => (tl, to_array_of_size l 1, (tr, to_array_of_size r 1))
  end.

Definition spark_decimal_div_internal (args : list ColumnarValue) (data_type : DataType) (is_integral_div : bool)
    : DFResult ColumnarValue :=
  left ← unwrap (args !! 0%nat);
  right ← unwrap (args !! 1%nat);
  '(p3, s3) ← unwrap (get_precision_scale data_type);
  let '(tl, l, (tr, r)) := align_operands left right in
  '(p1, s1) ← unwrap (get_precision_scale tl);
  '(p2, s2) ← unwrap (get_precision_scale tr);
  let l_exp := saturating_sub (wrap 32 (swrap 8 (s2 + s3 + 1))) (wrap 32 s1) in
  let r_exp := saturating_sub (wrap 32 s1) (wrap 32 (swrap 8 (s2 + s3 + 1))) in
  result ← (if (38 <? wrap 32 (p1 + l_exp)) || (38 <? wrap 32 (p2 + r_exp)) then
              arity_binary (big_div is_integral_div (10 ^ l_exp) (10 ^ r_exp)) l r
            else arity_binary (native_div is_integral_div (pow10 l_exp) (pow10 r_exp)) l r);
  Ok (Array (Decimal128 p3 s3) result).

Definition spark_decimal_div (args : list ColumnarValue) (data_type : DataType) : DFResult ColumnarValue :=
  spark_decimal_div_internal args data_type false.

Definition spark_decimal_integral_div (args : list ColumnarValue) (data_type : DataType) : DFResult ColumnarValue :=
  spark_decimal_div_internal args data_type true.

(** * round.rs *)

(** The macro [integer_round!] at width [w] *)
Definition integer_round (w x div half : Z) : Z :=
  let rem := Z.rem x div in
  if rem <=? - half then swrap w (x - rem - div) else if half <=? rem then swrap w (x - rem + div) else x - rem.

(** The negated point [as u32] *)
Definition neg_u32 (point : Z) : Z := wrap 32 (- point).

Definition round_integer_array (t : IntType) (array : PArray) (point : Z) : DFResult ColumnarValue :=
  Ok (Array (IntegerType t)
    (match checked_pow10 (int_width t) (neg_u32 point) with
     | Some div => arity_unary (fun x => integer_round (int_width t) x div (Z.quot div 2)) array
     | None => arity_unary (fun _ => 0) array
     end)).

Definition round_integer_scalar (t : IntType) (scalar : option Z) (point : Z) : DFResult ColumnarValue :=
  match checked_pow10 (int_width t) (neg_u32 point) with
  | Some div => Ok (Scalar (IntegerType t) ((fun x => integer_round (int_width t) x div (Z.quot div 2)) <$> scalar))
  | None => Ok (Scalar (IntegerType t) (Some 0))
  end.

(** [(x + x.signum() * half) / div], wrapping *)
Definition round_quot (half div x : Z) : Z := Z.quot (swrap 128 (x + swrap 128 (Z.sgn x * half))) div.

Definition decimal_round_f (scale point : Z) : Z -> Z :=
  if point <? 0 then
    match checked_pow10 128 (wrap 32 (neg_u32 point + wrap 32 scale)) with
    | Some div => fun x => swrap 128 (round_quot (Z.quot div 2) div x * pow10 (neg_u32 point))
    | None => fun _ => 0
    end
  else
    let div := pow10 (wrap 32 scale - Z.min (wrap 32 scale) (wrap 32 point)) in
    round_quot (Z.quot div 2) div.

Definition spark_round (args : list ColumnarValue) (data_type : DataType) : DFResult ColumnarValue :=
  value ← unwrap (args !! 0%nat);
  point ← unwrap (args !! 1%nat);
  match point with
  | Scalar (IntegerType Int64) (Some point) =>
      match value with
      | Array (IntegerType t) array => if point <? 0 then round_integer_array t array point else Err Execution
      | Array (Decimal128 _ scale) array =>
          if 0 <=? scale then
            '(precision, scale') ← unwrap (get_precision_scale data_type);
            make_decimal_array array precision scale' (decimal_round_f scale point)
          else Err Execution
      | Array (Float32 as dt) array | Array (Float64 as dt) array =>
          Ok (Array dt ((fun x => (float_round dt point x.1, x.2)) <$> array))
      | Scalar (IntegerType t) a => if point <? 0 then round_integer_scalar t a point else Err Execution
      | Scalar (Decimal128 _ scale) a =>
          if 0 <=? scale then
            '(precision, scale') ← unwrap (get_precision_scale data_type);
            make_decimal_scalar a precision scale' (decimal_round_f scale point)
          else Err Execution
      | Scalar (Float32 as dt) a | Scalar (Float64 as dt) a => Ok (Scalar dt (float_round dt point <$> a))
      | _ => Err Execution
      end
  | _ => Err Internal
  end.

(** * ceil.rs and floor.rs *)

(** [div_ceil] and [div_floor] of the divisor [10_i128.pow_wrapping(scale)] *)
Definition decimal_ceil_f (scale : Z) : Z -> Z := fun x => - ((- x) / pow10 scale).
Definition decimal_floor_f (scale : Z) : Z -> Z := fun x => x / pow10 scale.

(** [spark_ceil] and [spark_floor] have the same dispatch. *)
Definition ceil_floor (float_f : DataType -> Z -> Z) (decimal_f : Z -> Z -> Z) (args : list ColumnarValue) (data_type : DataType)
    : DFResult ColumnarValue :=
  value ← unwrap (args !! 0%nat);
  match value with
  | Array (Float32 as dt) array | Array (Float64 as dt) array => Ok (Array (IntegerType Int64) (arity_unary (float_f dt) array))
  | Array (IntegerType Int64) array => Ok (Array (IntegerType Int64) array)
  | Array (Decimal128 _ scale) array =>
      if 0 <? scale then
        '(precision, scale') ← unwrap (get_precision_scale data_type);
        make_decimal_array array precision scale' (decimal_f scale)
      else Err Internal
  | Scalar (Float32 as dt) a | Scalar (Float64 as dt) a => Ok (Scalar (IntegerType Int64) (float_f dt <$> a))
  | Scalar (IntegerType Int64) a => Ok (Scalar (IntegerType Int64) a)
  | Scalar (Decimal128 _ scale) a =>
      if 0 <? scale then
        '(precision, scale') ← unwrap (get_precision_scale data_type);
        make_decimal_scalar a precision scale' (decimal_f scale)
      else Err Internal
  | _ => Err Internal
  end.
Definition spark_ceil : list ColumnarValue -> DataType -> DFResult ColumnarValue := ceil_floor float_ceil decimal_ceil_f.
Definition spark_floor : list ColumnarValue -> DataType -> DFResult ColumnarValue := ceil_floor float_floor decimal_floor_f.

(** * checked_arithmetic.rs *)

(** [add_checked] and the like of the primitive type *)
Definition int_op (op : string) (w l r : Z) : option Z :=
  if String.eqb op "checked_add" then checked w (l + r)
  else if String.eqb op "checked_sub" then checked w (l - r)
  else if String.eqb op "checked_mul" then checked w (l * r)
  else if r =? 0 then None else checked w (Z.quot l r).

(** The slot appended for a pair of slots *)
Definition arithmetic_slot (op : string) (f : Z -> Z -> option Z) (is_zero : Z -> bool) (is_ansi_mode : bool) (l r : Z * bool)
    : DFResult (Z * bool) :=
  if negb l.2 || negb r.2 then Ok (append_option None)
  else match f l.1 r.1 with
  | Some v => Ok (append_option (Some v))
  | None =>
      if is_ansi_mode then
        if String.eqb op "checked_div" && is_zero r.1 then Err (External DivideByZero)
        else Err (External (ArithmeticOverflow (codes "integer")))
      else Ok (append_option None)
  end.

(** The loop over [0..left.len()] *)
Fixpoint arithmetic_loop (slot : Z * bool -> Z * bool -> DFResult (Z * bool)) (lefts rights : PArray) : DFResult PArray :=
  match lefts, rights with
  | [], _ => Ok []
  | _ :: _, [] => Panic
  | l :: lefts, r :: rights => x ← slot l r; xs ← arithmetic_loop slot lefts rights; Ok (x :: xs)
  end.

Definition try_arithmetic_kernel (f : Z -> Z -> option Z) (is_zero : Z -> bool) (left right : PArray) (op : string)
    (is_ansi_mode : bool) : DFResult PArray :=
  if existsb (String.eqb op) ["checked_add"; "checked_sub"; "checked_mul"; "checked_div"]%string then
    arithmetic_loop (arithmetic_slot op f is_zero is_ansi_mode) left right
  else Err Internal.

(** [as_primitive] panics on an array of another type. *)
Definition as_primitive (t data_type : DataType) (a : PArray) : DFResult PArray :=
  if bool_decide (t = data_type) then Ok a else Panic.

Definition checked_arithmetic_internal (args : list ColumnarValue) (data_type : DataType) (op : string) (eval_mode : EvalMode)
    : DFResult ColumnarValue :=
  left ← unwrap (args !! 0%nat);
  right ← unwrap (args !! 1%nat);
  is_ansi_mode ← (match eval_mode with Try => Ok false | Ansi => Ok true | Legacy => Err Internal end : DFResult bool);
  let '(tl, l, (tr, r)) := align_operands left right in
  result ← (match data_type with
            | IntegerType t =>
                l ← as_primitive data_type tl l; r ← as_primitive data_type tr r;
                try_arithmetic_kernel (int_op op (int_width t)) (fun v => v =? 0) l r op is_ansi_mode
            | Float16 | Float32 | Float64 =>
                if String.eqb op "checked_div" then
                  l ← as_primitive data_type tl l; r ← as_primitive data_type tr r;
                  try_arithmetic_kernel (float_div_checked data_type) (float_is_zero data_type) l r op is_ansi_mode
                else Err Internal
            | _ => Err Internal
            end);
  Ok (Array data_type result).

Definition checked_add (args : list ColumnarValue) (data_type : DataType) (eval_mode : EvalMode) :=
  checked_arithmetic_internal args data_type "checked_add" eval_mode.
Definition checked_sub (args : list ColumnarValue) (data_type : DataType) (eval_mode : EvalMode) :=
  checked_arithmetic_internal args data_type "checked_sub" eval_mode.
Definition checked_mul (args : list ColumnarValue) (data_type : DataType) (eval_mode : EvalMode) :=
  checked_arithmetic_internal args data_type "checked_mul" eval_mode.
Definition checked_div (args : list ColumnarValue) (data_type : DataType) (eval_mode : EvalMode) :=
  checked_arithmetic_internal args data_type "checked_div" eval_mode.

(** * internal/make_decimal.rs and internal/unscaled_value.rs *)

Definition long_to_decimal (v : option Z) (precision : Z) : option Z :=
  match v with Some v => if validate_decimal_precision v precision then Some v else None | None => None end.

Definition spark_make_decimal (args : list ColumnarValue) (data_type : DataType) : DFResult ColumnarValue :=
  '(precision, scale) ← unwrap (get_precision_scale data_type);
  value ← unwrap (args !! 0%nat);
  match value with
  | Scalar (IntegerType Int64) n => Ok (Scalar (Decimal128 precision scale) (long_to_decimal n precision))
  | Scalar _ _ => Err Internal
  | Array t a =>
      arr ← as_primitive (IntegerType Int64) t a;
      Ok (Array (Decimal128 precision scale) ((fun x => append_option (long_to_decimal (slot_value x) precision)) <$> arr))
  end.

Definition spark_unscaled_value (args : list ColumnarValue) : DFResult ColumnarValue :=
  value ← unwrap (args !! 0%nat);
  match value with
  | Scalar (Decimal128 _ _) d => Ok (Scalar (IntegerType Int64) (swrap 64 <$> d))
  | Scalar _ _ => Err Internal
  | Array (Decimal128 _ _) a => Ok (Array (IntegerType Int64) ((fun x => append_option (swrap 64 <$> slot_value x)) <$> a))
  | Array _ _ => Panic
  end.

(** * internal/checkoverflow.rs *)

Definition valid_slot (precision : Z) (x : Z * bool) : bool := negb x.2 || validate_decimal_precision x.1 precision.

(** [CheckOverflow::evaluate] on the value of the child; an array is validated or its overflowing
    slots become null. *)
Definition check_overflow_evaluate (data_type : DataType) (fail_on_error : bool) (arg : ColumnarValue) : DFResult ColumnarValue :=
  match arg with
  | Array (Decimal128 _ _) array =>
      match data_type with
      | Decimal128 precision scale =>
          casted ← (if fail_on_error then
                      if forallb (valid_slot precision) array then Ok array else Err ArrowError
                    else Ok ((fun x => if valid_slot precision x then x else append_option None) <$> array) : DFResult PArray);
          Ok (Array (Decimal128 precision scale) casted)
      | _ => Err Execution
      end
  | Scalar (Decimal128 precision scale) v =>
      if fail_on_error then Panic
      else Ok (Scalar (Decimal128 precision scale) (v ← v; if validate_decimal_precision v precision then Some v else None))
  | _ => Err Execution
  end.

(** * negative.rs *)

(** The days and milliseconds of a day-time interval, packed in an [i64] with the days on top *)
Definition day_time (days ms : Z) : Z := days * 2 ^ 32 + wrap 32 ms.
Definition to_parts (v : Z) : Z * Z := (v / 2 ^ 32, swrap 32 v).

Definition overflow_error (from_type : text) : DataFusionError := External (ArithmeticOverflow from_type).

(** The macro [check_overflow!]: it compares the raw value of every slot. *)
Definition check_overflow (array : PArray) (min_val : Z) (message : text) : DFResult unit :=
  if existsb (fun x => x.1 =? min_val) array then Err (overflow_error message) else Ok tt.

Definition int_min (t : IntType) : Z := - 2 ^ (int_width t - 1).
Definition negative_message (t : IntType) : text :=
  match t with
  | Int8 | Int16 => to_string (int_min t) ++ codes " caused"
  | Int32 => codes "integer"
  | Int64 => codes "long"
  end.
Definition negative_scalar_message (t : IntType) : text :=
  match t with Int8 | Int16 => codes " caused" | Int32 => codes "integer" | Int64 => codes "long" end.

(** [NegativeExpr::evaluate] on the value of the argument *)
Definition negative_evaluate (fail_on_error : bool) (arg : ColumnarValue) : DFResult ColumnarValue :=
  match arg with
  | Array dt array =>
      _ ← (if fail_on_error then
             match dt with
             | IntegerType t => check_overflow array (int_min t) (negative_message t)
             | IntervalYearMonth => check_overflow array (- 2 ^ 31) (codes "interval")
             | IntervalDayTime => check_overflow array (day_time (- 2 ^ 31) (- 2 ^ 31)) (codes "interval")
             | _ => Ok tt
             end
           else Ok tt : DFResult unit);
      result ← neg_wrapping dt array;
      Ok (Array dt result)
  | Scalar dt v =>
      _ ← (if fail_on_error then
             match dt with
             | IntegerType t => if bool_decide (v = Some (int_min t)) then Err (overflow_error (negative_scalar_message t)) else Ok tt
             | IntervalDayTime =>
                 let '(days, ms) := to_parts (default 0 v) in
                 if (days =? - 2 ^ 31) || (ms =? - 2 ^ 31) then Err (overflow_error (codes "interval")) else Ok tt
             | IntervalYearMonth => if bool_decide (v = Some (- 2 ^ 31)) then Err (overflow_error (codes "interval")) else Ok tt
             | _ => Ok tt
             end
           else Ok tt : DFResult unit);
      v ← arithmetic_negate dt v;
      Ok (Scalar dt v)
  end.
End Kernels.

(** [NegativeExpr::get_properties]: the order of the child *)
Inductive SortProperties := Ordered (descending nulls_first : bool) | Unordered | Singleton.
Definition negative_get_properties (children : list SortProperties) : option SortProperties := children !! 0%nat.
