(* ===== verification/ArithmeticProps.v ===== *)
(** Correctness of the decimal and integer arithmetic of Arithmetic.v: division and rounding are
    exact up to one rounding half up, checked arithmetic is exact or reports the overflow. *)

From S2P Require Import Prelude Lists Casts CastProps Exprs Rounding Arithmetic.
From stdpp Require Import list strings.
Open Scope Z_scope.

(** * Powers of ten *)

Lemma pow10_pos n : 0 <= n -> 0 < 10 ^ n.
Proof. intros. apply Z.pow_pos_nonneg; lia. Qed.

Lemma pow10_le n m : n <= m -> 10 ^ n <= 10 ^ m.
Proof. intros. apply Z.pow_le_mono_r; lia. Qed.

Lemma pow10_small n : 0 <= n <= 38 -> pow10 n = 10 ^ n.
Proof. apply pow10_spec. Qed.

Lemma checked_Some w z : in_s w z -> checked w z = Some z.
Proof. intros. unfold checked. by rewrite bool_decide_true. Qed.

Lemma checked_pow10_small n : 0 <= n <= 38 -> checked_pow10 128 n = Some (10 ^ n).
Proof.
  intros Hn. unfold checked_pow10. rewrite (proj2 (Z.leb_le n 40)) by lia. apply checked_Some.
  unfold in_s. pose proof (pow10_pos n). pose proof (pow10_le n 38). lia.
Qed.

(** * Division *)

Lemma quot_sgn n d : d <> 0 -> Z.quot n d = Z.quot (Z.sgn d * n) (Z.abs d).
Proof.
  intros. destruct (Z.lt_total d 0) as [|[|]]; [|lia|].
  - rewrite Z.sgn_neg, Z.abs_neq by lia. rewrite Z.quot_opp_r by lia. replace (-1 * n) with (- n) by lia.
    by rewrite Z.quot_opp_l, Z.opp_involutive by lia.
  - by rewrite Z.sgn_pos, Z.abs_eq, Z.mul_1_l by lia.
Qed.

Lemma half_up_nonneg n d : 0 <= n -> 0 < d -> half_up n d = (2 * n + d) / (2 * d).
Proof.
  intros. unfold half_up. destruct (Z.eq_dec n 0) as [->|]; [|rewrite Z.sgn_pos, Z.abs_eq by lia; lia].
  cbn. symmetry. apply Z.div_small. lia.
Qed.

(** One more digit, truncated, then half a unit and truncated again, is one rounding half up. *)
Lemma div_digit_pos n d : 0 <= n -> 0 < d -> Z.quot (Z.quot (10 * n) d + 5) 10 = half_up n d.
Proof.
  intros. rewrite half_up_nonneg by lia. pose proof (Z.div_pos (10 * n) d ltac:(lia) ltac:(lia)). rewrite (Z.quot_div_nonneg (10 * n)), Z.quot_div_nonneg by lia.
  replace (10 * n / d + 5) with ((10 * n + 5 * d) / d) by (rewrite Z.div_add by lia; done).
  rewrite Z.div_div by lia. replace (10 * n + 5 * d) with (5 * (2 * n + d)) by lia. replace (d * 10) with (5 * (2 * d)) by lia.
  by rewrite Z.div_mul_cancel_l by lia.
Qed.

Lemma div_digit n d : 0 < d ->
  Z.quot (let q := Z.quot (10 * n) d in if q <? 0 then q - 5 else q + 5) 10 = half_up n d.
Proof.
  intros Hd. cbv zeta. destruct (Z.le_gt_cases 0 n).
  - pose proof (Z.quot_pos (10 * n) d ltac:(lia) ltac:(lia)). rewrite (proj2 (Z.ltb_ge _ _)) by lia. by apply div_digit_pos.
  - rewrite <- (Z.opp_involutive n), half_up_opp, <- div_digit_pos by lia.
    replace (10 * - - n) with (- (10 * - n)) by lia. rewrite Z.quot_opp_l by lia.
    pose proof (Z.quot_pos (10 * - n) d ltac:(lia) ltac:(lia)). destruct (Z.ltb_spec (- Z.quot (10 * - n) d) 0).
    + replace (- Z.quot (10 * - n) d - 5) with (- (Z.quot (10 * - n) d + 5)) by lia. by rewrite Z.quot_opp_l by lia.
    + by replace (Z.quot (10 * - n) d) with 0 by lia.
Qed.

(** The exact quotient of [l] at scale [s1] and [r] at scale [s2], at scale [s3]: truncated or
    rounded half up, and 0 for a divisor of 0 *)
Definition decimal_quotient (is_integral_div : bool) (s1 s2 s3 l r : Z) : Z :=
  let n := l * 10 ^ (s2 + s3) in
  let d := r * 10 ^ s1 in
  if r =? 0 then 0 else if is_integral_div then Z.quot n d else half_up (Z.sgn d * n) (Z.abs d).

Section DivClosures.
Context (s1 s2 s3 : Z) (Hs1 : 0 <= s1) (Hs2 : 0 <= s2) (Hs3 : 0 <= s3).
Abbreviation l_exp := (saturating_sub (s2 + s3 + 1) s1).
Abbreviation r_exp := (saturating_sub s1 (s2 + s3 + 1)).

Lemma scaled_quot l r : r <> 0 ->
  Z.quot (l * 10 ^ l_exp) (r * 10 ^ r_exp) = Z.quot (10 * (l * 10 ^ (s2 + s3))) (r * 10 ^ s1).
Proof.
  intros Hr. unfold saturating_sub. set (m := Z.min s1 (s2 + s3 + 1)). pose proof (pow10_pos m ltac:(lia)).
  pose proof (pow10_pos (Z.max 0 (s1 - (s2 + s3 + 1))) ltac:(lia)).
  rewrite <- (Z.quot_mul_cancel_r _ _ (10 ^ m)) by lia. rewrite <- !Z.mul_assoc, <- !Z.pow_add_r by lia.
  replace (Z.max 0 (s2 + s3 + 1 - s1) + m) with (Z.succ (s2 + s3)) by lia.
  replace (Z.max 0 (s1 - (s2 + s3 + 1)) + m) with s1 by lia. rewrite Z.pow_succ_r by lia. f_equal. lia.
Qed.

Lemma quotient_spec (is_integral_div : bool) l r :
  let div := if r * 10 ^ r_exp =? 0 then 0 else Z.quot (l * 10 ^ l_exp) (r * 10 ^ r_exp) in
  Z.quot (if is_integral_div then div else if div <? 0 then div - 5 else div + 5) 10
  = decimal_quotient is_integral_div s1 s2 s3 l r.
Proof.
  cbv zeta. unfold decimal_quotient. pose proof (pow10_pos r_exp ltac:(unfold saturating_sub; lia)). pose proof (pow10_pos s1 Hs1).
  destruct (Z.eqb_spec r 0) as [->|Hr]; [by destruct is_integral_div|].
  rewrite (proj2 (Z.eqb_neq _ 0)) by lia. rewrite scaled_quot by done. set (n := l * 10 ^ (s2 + s3)). set (d := r * 10 ^ s1).
  assert (d <> 0) by (subst d; lia). destruct is_integral_div.
  - rewrite Z.quot_quot, (Z.mul_comm 10), Z.quot_mul_cancel_r by lia. done.
  - rewrite (quot_sgn (10 * n)) by done. replace (Z.sgn d * (10 * n)) with (10 * (Z.sgn d * n)) by lia. apply div_digit. lia.
Qed.

Lemma big_div_spec is_integral_div l r :
  big_div is_integral_div (10 ^ l_exp) (10 ^ r_exp) l r
  = Some (default i128_max (checked 128 (decimal_quotient is_integral_div s1 s2 s3 l r))).
Proof. unfold big_div. cbv zeta. do 3 f_equal. apply quotient_spec. Qed.

Lemma native_operand p e v : Z.abs v < 10 ^ p -> 0 <= p -> 0 <= e -> p + e <= 38 -> Z.abs (v * 10 ^ e) < 10 ^ 38.
Proof.
  intros. pose proof (pow10_pos e). pose proof (pow10_le (p + e) 38). rewrite Z.pow_add_r in * by lia.
  rewrite Z.abs_mul, (Z.abs_eq (10 ^ e)) by lia. nia.
Qed.

Lemma quot_abs_le n d : Z.abs (Z.quot n d) <= Z.abs n.
Proof.
  destruct (Z.eq_dec d 0) as [->|]; [by destruct n|]. rewrite <- Z.quot_abs by done. apply Z.quot_le_upper_bound; nia.
Qed.

(** Within the precisions the native closure computes the same. *)
Lemma native_div_spec is_integral_div p1 p2 l r :
  0 <= p1 -> 0 <= p2 -> Z.abs l < 10 ^ p1 -> Z.abs r < 10 ^ p2 -> p1 + l_exp <= 38 -> p2 + r_exp <= 38 ->
  native_div is_integral_div (10 ^ l_exp) (10 ^ r_exp) l r
  = Some (default i128_max (checked 128 (decimal_quotient is_integral_div s1 s2 s3 l r))).
Proof.
  intros Hp1 Hp2 Hl Hr Hle Hre.
  pose proof (native_operand p1 l_exp l Hl Hp1 ltac:(unfold saturating_sub; lia) Hle) as Bl.
  pose proof (native_operand p2 r_exp r Hr Hp2 ltac:(unfold saturating_sub; lia) Hre) as Br.
  rewrite <- quotient_spec. cbv zeta. unfold native_div. rewrite !swrap_small by (unfold in_s; lia).
  set (n := l * 10 ^ l_exp) in *. set (d := r * 10 ^ r_exp) in *. pose proof (quot_abs_le n d) as Bq.
  replace (if d =? 0 then Some 0 else i128_div n d) with (Some (if d =? 0 then 0 else Z.quot n d)).
  2:{ unfold i128_div. destruct (Z.eqb_spec d 0); [done|]. rewrite (proj2 (Z.eqb_neq n (- 2 ^ 127))) by lia. done. }
  cbn [mbind option_bind]. assert (Z.abs (if d =? 0 then 0 else Z.quot n d) < 10 ^ 38) as Bd by (destruct (d =? 0); lia).
  set (q := if d =? 0 then 0 else Z.quot n d) in *. rewrite (swrap_small 128) by (unfold in_s; clearbody q; clear - Bd; destruct (q <? 0); lia).
  rewrite checked_Some; [done|].
  pose proof (quot_abs_le (if is_integral_div then q else if q <? 0 then q - 5 else q + 5) 10) as B10.
  unfold in_s. clearbody q. clear - B10 Bd. destruct is_integral_div, (q <? 0); lia.
Qed.
End DivClosures.

(** ** The whole function *)

Lemma mapM_pure_in {A B} (f : A -> option B) (g : A -> B) l : (forall x, x ∈ l -> f x = Some (g x)) -> mapM f l = Some (g <$> l).
Proof.
  induction l as [|x l IH]; intros Hf; [done|]. cbn. rewrite (Hf x) by left. cbn. rewrite IH; [done|]. intros y Hy. apply Hf. by right.
Qed.

Lemma zip_map_zip {A B C D} (f : A -> B -> C) (g : A -> B -> D) l k :
  zip ((fun x => f x.1 x.2) <$> zip l k) (zip_with g l k) = zip_with (fun x y => (f x y, g x y)) l k.
Proof. revert k. induction l as [|x l IH]; intros [|y k]; [done..|]. cbn. by rewrite <- IH. Qed.

(** A closure that succeeds with [g] on every pair of slots computes [g] slot by slot. *)
Lemma arity_binary_total `{ArityLaws} f g (l r : PArray) :
  length l = length r -> (forall x y, x ∈ l -> y ∈ r -> f x.1 y.1 = Some (g x.1 y.1)) ->
  arity_binary f l r = Ok (zip_with (fun x y => (g x.1 y.1, x.2 && y.2)) l r).
Proof.
  intros Hlen Hf. rewrite arity_binary_spec by done. rewrite (mapM_pure_in _ (fun x => g x.1.1 x.2.1)).
  - by rewrite (zip_map_zip (fun x y => g x.1 y.1)).
  - intros [x y] Hxy. apply Hf; cbn; [by eapply elem_of_zip_l|by eapply elem_of_zip_r].
Qed.

Section Div.
Context `{ArityLaws}.

(** The closures agree slot by slot. *)
Lemma decimal_div_spec left right p1 s1 l p2 s2 r p3 s3 is_integral_div :
  align_operands left right = (Decimal128 p1 s1, l, (Decimal128 p2 s2, r)) ->
  0 <= s1 <= 38 -> 0 <= s2 <= 38 -> 0 <= s3 <= 38 -> 0 <= p1 <= 38 -> 0 <= p2 <= 38 -> length l = length r ->
  Forall (fun x => Z.abs x.1 < 10 ^ p1) l -> Forall (fun x => Z.abs x.1 < 10 ^ p2) r ->
  spark_decimal_div_internal [left; right] (Decimal128 p3 s3) is_integral_div
  = Ok (Array (Decimal128 p3 s3)
      (zip_with (fun x y => (default i128_max (checked 128 (decimal_quotient is_integral_div s1 s2 s3 x.1 y.1)), x.2 && y.2)) l r)).
Proof.
  intros Ea Hs1 Hs2 Hs3 Hp1 Hp2 Hlen Hl Hr. unfold spark_decimal_div_internal. cbn. rewrite Ea. cbn.
  rewrite (swrap_small 8), (wrap_small 32 (s2 + s3 + 1)), (wrap_small 32 s1) by (unfold in_s, in_u; lia).
  set (g := fun x y => default i128_max (checked 128 (decimal_quotient is_integral_div s1 s2 s3 x y))).
  set (le := saturating_sub (s2 + s3 + 1) s1) in *. set (re := saturating_sub s1 (s2 + s3 + 1)) in *.
  assert (0 <= le <= 77 /\ 0 <= re <= 38) as [Hle Hre] by (subst le re; unfold saturating_sub; lia).
  rewrite !wrap_small by (unfold in_u; lia). destruct ((38 <? p1 + le) || (38 <? p2 + re)) eqn:E.
  - rewrite (arity_binary_total _ g); [done|done|]. intros. apply big_div_spec; lia.
  - apply orb_false_iff in E as [E1%Z.ltb_ge E2%Z.ltb_ge]. rewrite !pow10_small, (arity_binary_total _ g); [done|done| |lia..].
    intros x y Hx Hy. rewrite Forall_forall in Hl, Hr. apply (native_div_spec s1 s2 s3 ltac:(lia) ltac:(lia) ltac:(lia) _ p1 p2); auto; lia.
Qed.
End Div.

(** An instance of the kernels, with the loops written out *)
Module PlainArity.
#[export] Instance plain_arity : ArityKernels := {|
  arity_unary f a := (fun x => (f x.1, x.2)) <$> a;
  arity_binary f a b :=
    if (length a =? length b)%nat then
      match mapM (fun x => f x.1.1 x.2.1) (zip a b) with
      | Some values => Ok (zip values (zip_with (fun x y => x.2 && y.2) a b))
      | None => Panic
      end
    else Err ArrowError;
  to_array_of_size v n := replicate n (append_option v) |}.
#[export] Instance plain_arity_laws : ArityLaws.
Proof.
  split; cbn; [done| | |done].
  - intros f a b ->. by rewrite Nat.eqb_refl.
  - intros f a b Hab. by rewrite (proj2 (Nat.eqb_neq _ _)).
Qed.
#[export] Instance no_floats : FloatKernels :=
  {| float_ceil _ x := x; float_floor _ x := x; float_round _ _ x := x; float_div_checked _ _ _ := None; float_is_zero _ _ := false |}.
End PlainArity.
Import PlainArity.

(** * Rounding *)

Lemma half_up_even v h : 0 < h -> half_up v (2 * h) = Z.sgn v * ((Z.abs v + h) / (2 * h)).
Proof.
  intros. unfold half_up. replace (2 * Z.abs v + 2 * h) with (2 * (Z.abs v + h)) by lia. by rewrite Z.div_mul_cancel_l by lia.
Qed.

Lemma half_up_1 v : half_up v 1 = v.
Proof. unfold half_up. replace (2 * Z.abs v + 1) with (1 + Z.abs v * (2 * 1)) by lia. rewrite Z.div_add by lia. cbn. lia. Qed.

Lemma half_up_0 v c : 2 * Z.abs v < c -> half_up v c = 0.
Proof. intros. unfold half_up. rewrite Z.div_small by lia. lia. Qed.

Lemma half_up_bound v c : 0 < c -> 2 * (Z.abs (half_up v c) * c) <= 2 * Z.abs v + c.
Proof.
  intros. unfold half_up. pose proof (Z.div_pos (2 * Z.abs v + c) (2 * c) ltac:(lia) ltac:(lia)).
  pose proof (Z.mul_div_le (2 * Z.abs v + c) (2 * c) ltac:(lia)). rewrite Z.abs_mul. destruct (Z.sgn_spec v) as [[? ->]|[[? ->]|[? ->]]]; cbn; lia.
Qed.

Lemma pow10_half n : 0 < n -> 10 ^ n = 2 * (5 * 10 ^ (n - 1)).
Proof. intros. replace n with (Z.succ (n - 1)) at 1 by lia. rewrite Z.pow_succ_r by lia. lia. Qed.

Lemma sgn_quot s a b : 0 <= a -> 0 < b -> s = 1 \/ s = -1 -> Z.quot (s * a) b = s * (a / b).
Proof.
  intros ?? [->| ->].
  - by rewrite !Z.mul_1_l, Z.quot_div_nonneg by lia.
  - replace (-1 * a) with (- a) by lia. rewrite Z.quot_opp_l, Z.quot_div_nonneg by lia. lia.
Qed.

(** Adding half the divisor with the sign of the value, and truncating *)
Lemma round_quot_spec n x : 0 <= n <= 38 -> Z.abs x < 10 ^ 38 -> round_quot (Z.quot (10 ^ n) 2) (10 ^ n) x = half_up x (10 ^ n).
Proof.
  intros Hn Hx. unfold round_quot. destruct (Z.eq_dec n 0) as [->|].
  - cbn. rewrite half_up_1. rewrite Z.mul_0_r, (swrap_small 128 0) by (unfold in_s; lia). rewrite Z.add_0_r.
    rewrite swrap_small by (unfold in_s; lia). by rewrite Z.quot_1_r.
  - rewrite (pow10_half n) by lia. pose proof (pow10_pos (n - 1) ltac:(lia)). pose proof (pow10_le (n - 1) 37 ltac:(lia)).
    set (h := 5 * 10 ^ (n - 1)) in *. rewrite half_up_even by lia. rewrite (Z.mul_comm 2 h), Z.quot_mul by lia.
    rewrite (swrap_small 128 (Z.sgn x * h)), swrap_small by (unfold in_s; lia).
    destruct (Z.eq_dec x 0) as [->|]; [cbn; by rewrite Z.quot_0_l by lia|].
    replace (x + Z.sgn x * h) with (Z.sgn x * (Z.abs x + h)) by (rewrite Z.mul_add_distr_l, (Z.mul_comm (Z.sgn x)), Z.abs_sgn; lia).
    apply sgn_quot; lia.
Qed.

(** A decimal rounded at [point] digits: the digits after the point are dropped with one rounding half
    up; with a negative point as many zeros are put back. *)
Definition decimal_rounded (scale point x : Z) : Z :=
  half_up x (10 ^ (scale - Z.min scale point)) * 10 ^ Z.max 0 (- point).

Lemma decimal_round_spec scale point x :
  0 <= scale <= 38 -> - 2 ^ 31 <= point < 2 ^ 31 -> Z.abs x < 10 ^ 38 -> decimal_round_f scale point x = decimal_rounded scale point x.
Proof.
  intros Hs Hp Hx. unfold decimal_round_f, decimal_rounded, neg_u32. destruct (Z.ltb_spec point 0).
  - rewrite (wrap_small 32 (- point)), (wrap_small 32 scale), wrap_small by (unfold in_u; lia).
    replace (- point + scale) with (scale - Z.min scale point) by lia. rewrite Z.max_r by lia. set (e := scale - Z.min scale point).
    destruct (Z.le_gt_cases e 38).
    + rewrite checked_pow10_small, round_quot_spec, pow10_small by lia. apply swrap_small; [lia|].
      pose proof (half_up_bound x (10 ^ e) ltac:(apply pow10_pos; lia)). pose proof (pow10_le (- point) e ltac:(lia)).
      pose proof (pow10_pos (- point) ltac:(lia)). pose proof (pow10_le e 38 ltac:(lia)). unfold in_s.
      set (q := half_up x (10 ^ e)) in *. assert (Z.abs (q * 10 ^ (- point)) <= Z.abs q * 10 ^ e) by (rewrite Z.abs_mul; nia). lia.
    + assert (checked_pow10 128 e = None) as ->.
      { unfold checked_pow10, checked. destruct (e <=? 40); [|done]. rewrite bool_decide_false; [done|].
        unfold in_s. pose proof (pow10_le 39 e ltac:(lia)). lia. }
      rewrite half_up_0; [lia|]. pose proof (pow10_le 39 e ltac:(lia)). lia.
  - rewrite !wrap_small by (unfold in_u; lia). rewrite (Z.max_l 0), Z.mul_1_r by lia. rewrite pow10_small by lia.
    apply round_quot_spec; lia.
Qed.

(** An integer rounded at a negative point, wrapped to its type *)
Definition int_rounded (t : IntType) (point x : Z) : Z := swrap (int_width t) (half_up x (10 ^ (- point)) * 10 ^ (- point)).

Lemma half_up_rem v h : 0 <= v -> 0 < h ->
  half_up v (2 * h) = if h <=? Z.rem v (2 * h) then Z.quot v (2 * h) + 1 else Z.quot v (2 * h).
Proof.
  intros. rewrite <- quot_half by lia. replace (- (- (2 * h) / 2)) with h; [done|].
  replace (- (2 * h)) with (- h * 2) by lia. rewrite Z.div_mul; lia.
Qed.

(** Truncation stays between 0 and the value. *)
Lemma truncated_between x d : 0 < d -> Z.min 0 x <= x - Z.rem x d <= Z.max 0 x.
Proof.
  intros. destruct (Z.le_gt_cases 0 x).
  - pose proof (Z.rem_bound_pos x d ltac:(lia) ltac:(lia)). pose proof (Z.rem_le x d ltac:(lia) ltac:(lia)). lia.
  - pose proof (Z.rem_opp_l x d ltac:(lia)).
    pose proof (Z.rem_bound_pos (- x) d ltac:(lia) ltac:(lia)). pose proof (Z.rem_le (- x) d ltac:(lia) ltac:(lia)). lia.
Qed.

Lemma integer_round_spec w h x : 0 < w -> 0 < h -> in_s w x -> integer_round w x (2 * h) h = swrap w (half_up x (2 * h) * (2 * h)).
Proof.
  intros Hw Hh Hx. unfold integer_round. pose proof (Z.quot_rem' x (2 * h)) as Hqr.
  assert (in_s w (x - Z.rem x (2 * h))) as Hdown by (pose proof (truncated_between x (2 * h)); unfold in_s in *; lia).
  destruct (Z.le_gt_cases 0 x) as [Hx0|Hx0].
  - rewrite half_up_rem by done. pose proof (Z.rem_bound_pos x (2 * h) ltac:(lia) ltac:(lia)). rewrite (proj2 (Z.leb_gt _ (- h))) by lia.
    destruct (h <=? Z.rem x (2 * h)); [f_equal; nia|]. rewrite <- (swrap_small w) at 1 by done. f_equal. nia.
  - replace (half_up x (2 * h)) with (- half_up (- x) (2 * h)) by (rewrite half_up_opp; lia).
    rewrite half_up_rem, Z.rem_opp_l, Z.quot_opp_l by lia.
    pose proof (Z.rem_bound_pos (- x) (2 * h) ltac:(lia) ltac:(lia)). pose proof (Z.rem_opp_l x (2 * h) ltac:(lia)).
    destruct (Z.leb_spec (Z.rem x (2 * h)) (- h)), (Z.leb_spec h (- Z.rem x (2 * h))); try lia; [f_equal; nia|].
    rewrite (proj2 (Z.leb_gt h _)) by lia. rewrite <- (swrap_small w) at 1 by done. f_equal. nia.
Qed.

(** The digits of the largest power of ten of a type *)
Definition int_digits (t : IntType) : Z := match t with Int8 => 2 | Int16 => 4 | Int32 => 9 | Int64 => 18 end.

Lemma checked_pow10_int t e : 0 <= e -> checked_pow10 (int_width t) e = if e <=? int_digits t then Some (10 ^ e) else None.
Proof.
  intros He. unfold checked_pow10, checked, in_s. pose proof (pow10_pos e He). destruct (Z.leb_spec e (int_digits t)) as [Hd|Hd].
  - pose proof (pow10_le e (int_digits t) Hd). rewrite (proj2 (Z.leb_le e 40)) by (destruct t; cbn in *; lia).
    rewrite bool_decide_true; [done|]. destruct t; cbn in *; lia.
  - destruct (e <=? 40); [|done]. pose proof (pow10_le (int_digits t + 1) e ltac:(lia)).
    rewrite bool_decide_false; [done|]. destruct t; cbn in *; lia.
Qed.

(** The values whose rounding the code computes: for [Int64] and 19 digits a power of ten is no [i64],
    and the code returns 0 also for the values that round to 10^19. *)
Definition int_roundable (t : IntType) (point x : Z) : Prop :=
  in_s (int_width t) x /\ (t = Int64 -> point = -19 -> Z.abs x < 5 * 10 ^ 18).

Lemma round_integer_spec t point x : - 2 ^ 31 <= point < 0 -> int_roundable t point x ->
  match checked_pow10 (int_width t) (neg_u32 point) with
  | Some div => integer_round (int_width t) x div (Z.quot div 2)
  | None => 0
  end = int_rounded t point x.
Proof.
  intros Hp [Hx H19]. unfold neg_u32, int_rounded. rewrite wrap_small by (unfold in_u; lia). rewrite checked_pow10_int by lia.
  destruct (Z.leb_spec (- point) (int_digits t)).
  - rewrite (pow10_half (- point)) by lia. pose proof (pow10_pos (- point - 1) ltac:(lia)). set (h := 5 * 10 ^ (- point - 1)) in *.
    replace (Z.quot (2 * h) 2) with h by (rewrite Z.mul_comm, Z.quot_mul; lia). apply integer_round_spec; [by destruct t|lia|done].
  - rewrite half_up_0; [by destruct t|]. unfold in_s in Hx. destruct (Z.eq_dec (- point) 19) as [E|].
    + rewrite E. pose proof (pow10_le 19 (- point)). destruct t; cbn in Hx, H; lia.
    + pose proof (pow10_le (int_digits t + 1) (- point) ltac:(lia)). destruct t; cbn in *; try lia.
      pose proof (pow10_le 20 (- point) ltac:(lia)). lia.
Qed.

(** What [round] makes of a value of a type, and the values it is defined on *)
Definition rounded (dt : DataType) (point x : Z) : Z :=
  match dt with IntegerType t => int_rounded t point x | Decimal128 _ scale => decimal_rounded scale point x | _ => x end.
Definition roundable_type (dt : DataType) (point : Z) : Prop :=
  match dt with IntegerType t => point < 0 | Decimal128 _ scale => 0 <= scale <= 38 | _ => False end.
Definition roundable (dt : DataType) (point x : Z) : Prop :=
  match dt with IntegerType t => int_roundable t point x | Decimal128 _ scale => Z.abs x < 10 ^ 38 | _ => False end.
(** A null scalar of an integer type is 0 where the power of ten does not fit the type. *)
Definition rounded_scalar (dt : DataType) (point : Z) (x : option Z) : option Z :=
  match x, dt with
  | Some x, _ => Some (rounded dt point x)
  | None, IntegerType t => if int_digits t <? - point then Some 0 else None
  | None, _ => None
  end.
Definition rounded_type (dt out : DataType) : DataType := match dt with IntegerType _ => dt | _ => out end.

Section Round.
Context `{ArityLaws} `{FloatKernels}.

Lemma arity_unary_in f g a : (forall x, x ∈ a -> f x.1 = g x.1) -> arity_unary f a = (fun x => (g x.1, x.2)) <$> a.
Proof. intros Hfg. rewrite arity_unary_spec. apply list_fmap_ext. intros i x Hx. rewrite Hfg; [done|]. by eapply list_elem_of_lookup_2. Qed.

(** C23: Rounding a column or a scalar of decimals at any point, or of integers at a negative point (the others are an error), is one rounding
    half up, away from zero, of the exact value, dropping the digits after the point or restoring zeros when the point is negative; for
    integers the rounded value is wrapped to the type, so the largest ones may become negative.  Null slots stay null; a null scalar stays
    null unless it is an integer and the power of ten does not fit its type, when it becomes 0.  A bigint of absolute value at least
    5 * 10^18 at point -19 is not covered: it becomes 0. *)
Theorem spark_round_correct dt point p s :
  - 2 ^ 31 <= point < 2 ^ 31 -> roundable_type dt point ->
  (forall a, Forall (fun x => roundable dt point x.1) a ->
    spark_round [Array dt a; Scalar (IntegerType Int64) (Some point)] (Decimal128 p s)
    = Ok (Array (rounded_type dt (Decimal128 p s)) ((fun x => (rounded dt point x.1, x.2)) <$> a))) /\
  (forall v, match v with Some v => roundable dt point v | None => True end ->
    spark_round [Scalar dt v; Scalar (IntegerType Int64) (Some point)] (Decimal128 p s)
    = Ok (Scalar (rounded_type dt (Decimal128 p s)) (rounded_scalar dt point v))).
Proof.
  intros Hp Hdt. split.
  - intros a Ha. unfold spark_round. cbn. rewrite Forall_forall in Ha. destruct dt; try done; cbn in Hdt.
    + rewrite (proj2 (Z.ltb_lt point 0)) by lia. unfold round_integer_array. cbn. do 2 f_equal.
      destruct (checked_pow10 _ _) eqn:Ec; apply arity_unary_in; intros x Hx;
        rewrite <- (round_integer_spec t point x.1) by (lia || by apply Ha); by rewrite Ec.
    + rewrite (proj2 (Z.leb_le 0 scale)) by lia. unfold make_decimal_array. do 2 f_equal. apply arity_unary_in.
      intros x Hx. by apply decimal_round_spec, Ha.
  - intros v Hv. unfold spark_round. cbn. destruct dt; try done; cbn in Hdt, Hv.
    + rewrite (proj2 (Z.ltb_lt point 0)) by lia. unfold round_integer_scalar. destruct v as [v|]; cbn.
      * rewrite <- (round_integer_spec t point v) by (lia || done). by destruct (checked_pow10 _ _).
      * unfold neg_u32. rewrite wrap_small by (unfold in_u; lia). rewrite checked_pow10_int by lia. rewrite Z.leb_antisym. by destruct (_ <? _).
    + rewrite (proj2 (Z.leb_le 0 scale)) by lia. cbn. unfold make_decimal_scalar. destruct v as [v|]; [|done]. cbn. do 3 f_equal. by apply decimal_round_spec.
Qed.

(** A null scalar is 0 if the power of ten does not fit its type, while a null slot stays null. *)
Lemma round_null_scalar t point : int_digits t < - point < 2 ^ 32 ->
  forall out, spark_round [Scalar (IntegerType t) None; Scalar (IntegerType Int64) (Some point)] out = Ok (Scalar (IntegerType t) (Some 0)).
Proof.
  intros Hp out. unfold spark_round. cbn. assert (0 < int_digits t) by by destruct t. rewrite (proj2 (Z.ltb_lt point 0)) by lia.
  unfold round_integer_scalar, neg_u32. rewrite wrap_small by (unfold in_u; lia). rewrite checked_pow10_int by lia.
  by rewrite (proj2 (Z.leb_gt _ _)) by lia.
Qed.
End Round.

(** 127 at -1 wraps around; -15 at -1 and 0.15 at 1 round away from zero; 5 * 10^18 at -19 is 0. *)
Lemma spark_round_correct_witness :
  spark_round [Array (IntegerType Int8) [(127, true); (-15, true)]; Scalar (IntegerType Int64) (Some (-1))] (Decimal128 10 1)
  = Ok (Array (IntegerType Int8) [(-126, true); (-20, true)]) /\
  spark_round [Scalar (Decimal128 10 2) (Some 15); Scalar (IntegerType Int64) (Some 1)] (Decimal128 10 1)
  = Ok (Scalar (Decimal128 10 1) (Some 2)) /\
  spark_round [Scalar (IntegerType Int64) (Some (5 * 10 ^ 18)); Scalar (IntegerType Int64) (Some (-19))] (Decimal128 10 1)
  = Ok (Scalar (IntegerType Int64) (Some 0)).
Proof.
  split; [|split; [|reflexivity]].
  - apply (proj1 (spark_round_correct (IntegerType Int8) (-1) 10 1 ltac:(lia) ltac:(cbn; lia)) [(127, true); (-15, true)]).
    repeat constructor; cbn; unfold in_s; cbn; lia || done.
  - apply (proj2 (spark_round_correct (Decimal128 10 2) 1 10 1 ltac:(lia) ltac:(cbn; lia)) (Some 15)). cbn. lia.
Defined.

(** * Ceil and floor *)

Lemma decimal_floor_spec scale x : 0 <= scale <= 38 ->
  decimal_floor_f scale x * 10 ^ scale <= x < (decimal_floor_f scale x + 1) * 10 ^ scale.
Proof.
  intros. unfold decimal_floor_f. rewrite pow10_small by done. pose proof (pow10_pos scale ltac:(lia)).
  pose proof (Z.div_mod x (10 ^ scale) ltac:(lia)). pose proof (Z.mod_pos_bound x (10 ^ scale) ltac:(lia)). lia.
Qed.

Lemma decimal_ceil_floor scale x : decimal_ceil_f scale x = - decimal_floor_f scale (- x).
Proof. done. Qed.

(** * Checked arithmetic *)

Definition arithmetic_ops : list string := ["checked_add"; "checked_sub"; "checked_mul"; "checked_div"]%string.

(** The exact result; none for a division by 0 *)
Definition exact_op (op : string) (l r : Z) : option Z :=
  if String.eqb op "checked_add" then Some (l + r)
  else if String.eqb op "checked_sub" then Some (l - r)
  else if String.eqb op "checked_mul" then Some (l * r)
  else if r =? 0 then None else Some (Z.quot l r).

(** A pair of valid slots without a result in the type *)
Definition failing (t : IntType) (op : string) (xy : Z * bool * (Z * bool)) : bool :=
  xy.1.2 && xy.2.2 && match exact_op op xy.1.1 xy.2.1 with Some v => negb (bool_decide (in_s (int_width t) v)) | None => true end.

Definition result_slot (t : IntType) (op : string) (x y : Z * bool) : Z * bool :=
  append_option (if x.2 && y.2 && negb (failing t op (x, y)) then exact_op op x.1 y.1 else None).

Definition failure (op : string) (y : Z * bool) : DataFusionError :=
  External (if String.eqb op "checked_div" && (y.1 =? 0) then DivideByZero else ArithmeticOverflow (codes "integer")).

Lemma int_op_exact op w l r : int_op op w l r = exact_op op l r ≫= checked w.
Proof. unfold int_op, exact_op. repeat case_match; done. Qed.

Lemma arithmetic_slot_spec t op ansi x y :
  arithmetic_slot op (int_op op (int_width t)) (fun v => v =? 0) ansi x y
  = if ansi && failing t op (x, y) then Err (failure op y) else Ok (result_slot t op x y).
Proof.
  unfold arithmetic_slot, result_slot, failing, failure. rewrite int_op_exact. destruct x as [l []], y as [r []]; cbn; [|by destruct ansi..].
  destruct (exact_op op l r) as [v|]; cbn; [|by destruct ansi; [destruct (_ && _)|]].
  unfold checked. case_bool_decide; cbn; [by rewrite andb_false_r|]. rewrite andb_true_r. by destruct ansi; [destruct (_ && _)|].
Qed.

Lemma arithmetic_loop_spec t op ansi l r : length l = length r ->
  arithmetic_loop (arithmetic_slot op (int_op op (int_width t)) (fun v => v =? 0) ansi) l r
  = match (if ansi then List.find (failing t op) (zip l r) else None) with
    | Some xy => Err (failure op xy.2)
    | None => Ok (zip_with (result_slot t op) l r)
    end.
Proof.
  revert r. induction l as [|x l IH]; intros [|y r] Hlen; [by destruct ansi|done..|]. injection Hlen as Hlen.
  cbn [arithmetic_loop]. rewrite arithmetic_slot_spec. destruct ansi; cbn [andb zip zip_with List.find].
  - destruct (failing t op (x, y)); [done|]. cbn. rewrite IH by done. by destruct (List.find _ _).
  - cbn. by rewrite IH.
Qed.

Section Checked.
Context `{ArityLaws} `{FloatKernels}.

(** C32: Checked addition, subtraction, multiplication and division of columns or scalars of integers.
    In try mode every slot is the exact result, null if an operand is null, the result is out of range
    or the divisor is 0.  In ANSI mode the result is the same if no pair of valid operands fails, and
    else the error of the first that does: division by zero, or overflow. *)
Theorem checked_arithmetic_correct op ansi left right t l r :
  op ∈ arithmetic_ops -> align_operands left right = (IntegerType t, l, (IntegerType t, r)) -> length l = length r ->
  checked_arithmetic_internal [left; right] (IntegerType t) op (if ansi : bool then Ansi else Try)
  = match (if ansi then List.find (failing t op) (zip l r) else None) with
    | Some xy => Err (failure op xy.2)
    | None => Ok (Array (IntegerType t) (zip_with (result_slot t op) l r))
    end.
Proof.
  intros Hop Ea Hlen. unfold checked_arithmetic_internal. cbn. assert (forall b : bool, match (if b then Ansi else Try) with
    | Legacy => Err Internal | Ansi => Ok true | Try => Ok false end =@{DFResult bool} Ok b) as -> by by intros [].
  cbn. rewrite Ea. unfold as_primitive. rewrite bool_decide_true by done. cbn. unfold try_arithmetic_kernel.
  assert (existsb (String.eqb op) arithmetic_ops = true) as Eop.
  { apply existsb_exists. exists op. split; [by apply list_elem_of_In|by apply String.eqb_refl]. }
  unfold arithmetic_ops in Eop. rewrite Eop, arithmetic_loop_spec by done. by destruct (if ansi then _ else _).
Qed.
End Checked.

Lemma checked_arithmetic_correct_witness :
  let col := Array (IntegerType Int8) [(100, true); (0, false); (-128, true)] in
  let by28 := Scalar (IntegerType Int8) (Some 28) in
  let by_1 := Scalar (IntegerType Int8) (Some (-1)) in
  checked_arithmetic_internal [col; by28] (IntegerType Int8) "checked_add" Try
  = Ok (Array (IntegerType Int8) [(0, false); (0, false); (-100, true)]) /\
  checked_arithmetic_internal [col; by_1] (IntegerType Int8) "checked_div" Ansi
  = Err (External (ArithmeticOverflow (codes "integer"))).
Proof.
  intros col by28 by_1. split.
  - exact (checked_arithmetic_correct "checked_add" false col by28 Int8 [(100, true); (0, false); (-128, true)] (replicate 3 (28, true))
      ltac:(vm_compute; repeat constructor) eq_refl eq_refl).
  - exact (checked_arithmetic_correct "checked_div" true col by_1 Int8 [(100, true); (0, false); (-128, true)] (replicate 3 (-1, true))
      ltac:(repeat constructor) eq_refl eq_refl).
Defined.

(** * Negation *)

Section Negation.
Context `{NegLaws}.

(** In ANSI mode a column of integers is negated exactly, or rejected because of a smallest value. *)
Lemma negative_ansi_spec t a : Forall (fun x => in_s (int_width t) x.1) a ->
  negative_evaluate true (Array (IntegerType t) a)
  = if existsb (fun x => x.1 =? int_min t) a then Err (overflow_error (negative_message t))
    else Ok (Array (IntegerType t) ((fun x => (- x.1, x.2)) <$> a)).
Proof.
  intros Ha. unfold negative_evaluate, check_overflow. destruct (existsb _ a) eqn:E; [done|]. cbn. rewrite neg_wrapping_int. cbn.
  do 2 f_equal. apply list_fmap_ext. intros i x Hx. rewrite Forall_lookup in Ha. specialize (Ha i x Hx). f_equal.
  assert (x.1 <> int_min t).
  { intros Emin. apply not_true_iff_false in E. apply E, existsb_exists. exists x.
    split; [apply list_elem_of_In; by eapply list_elem_of_lookup_2|by apply Z.eqb_eq]. }
  apply swrap_small; [by destruct t|]. unfold int_min, in_s in *. lia.
Qed.

(** The raw value under a null slot is checked too. *)
Lemma negative_null_rejected :
  negative_evaluate true (Array (IntegerType Int32) [(- 2 ^ 31, false)]) = Err (overflow_error (codes "integer")).
Proof. done. Qed.

(** A day-time interval with the smallest number of days is rejected as a scalar and accepted in a column. *)
Lemma negative_interval_scalar v : (to_parts v).1 = - 2 ^ 31 -> v <> day_time (- 2 ^ 31) (- 2 ^ 31) ->
  negative_evaluate true (Scalar IntervalDayTime (Some v)) = Err (overflow_error (codes "interval")) /\
  negative_evaluate true (Array IntervalDayTime [(v, true)])
  = (result ← neg_wrapping IntervalDayTime [(v, true)]; Ok (Array IntervalDayTime result)).
Proof.
  intros Ed Hv. unfold negative_evaluate, check_overflow. change (default 0 (Some v)) with v. cbn [existsb fst]. destruct (to_parts v) as [days ms]; cbn [fst] in Ed.
  rewrite Ed. rewrite (proj2 (Z.eqb_neq _ _) Hv). done.
Qed.
End Negation.

(** * Overflow checks *)

Section Overflow.
Context `{DecimalLaws}.

(** Without errors, [CheckOverflow] keeps the values of the precision and makes the others null. *)
Lemma check_overflow_spec p1 s1 precision scale a : 1 <= precision <= 38 ->
  exists a', check_overflow_evaluate (Decimal128 precision scale) false (Array (Decimal128 p1 s1) a) = Ok (Array (Decimal128 precision scale) a') /\
    slot_value <$> a' = (fun x => v ← slot_value x; if bool_decide (Z.abs v < 10 ^ precision) then Some v else None) <$> a.
Proof.
  intros Hp. eexists. split; [done|]. rewrite <- list_fmap_compose. apply list_fmap_ext. intros i [v []] _; unfold valid_slot; cbn; [|done].
  rewrite validate_decimal_precision_spec by done. destruct (Z.leb_spec (- (10 ^ precision - 1)) v), (Z.leb_spec v (10 ^ precision - 1)); cbn;
    case_bool_decide; done || lia.
Qed.
End Overflow.

(** * Division followed by the overflow check *)

Lemma saturated_valid p q : 0 <= p <= 38 ->
  let v := default i128_max (checked 128 q) in (if bool_decide (Z.abs v < 10 ^ p) then Some v else None)
  = if bool_decide (Z.abs q < 10 ^ p) then Some q else None.
Proof.
  intros Hp. cbv zeta. pose proof (pow10_le p 38 ltac:(lia)). destruct (decide (in_s 128 q)) as [Hq|Hq]; [by rewrite checked_Some|].
  unfold checked. rewrite (bool_decide_false (in_s 128 q)) by done. rewrite !bool_decide_false; [done| |]; unfold in_s, i128_max in *; cbn in *; lia.
Qed.

Lemma fmap_zip_with_compose {A B C D} (f : C -> D) (g : A -> B -> C) l k : f <$> zip_with g l k = zip_with (fun x y => f (g x y)) l k.
Proof. revert k. induction l as [|x l IH]; intros [|y k]; [done..|]. cbn. by rewrite <- IH. Qed.

Section CheckedDiv.
Context `{ArityLaws} `{DecimalLaws}.

(** C8: Decimal division, exact or integral, of two columns or scalars of decimals within their precisions, and the
    overflow check Spark puts around it.  The division succeeds: the native and the big-integer closure agree,
    no intermediate product overflows and nothing panics.  A slot of the result is the exact quotient at the result's
    scale, rounded once half up (truncated, for the integral division; 0 for a divisor of 0), and null exactly if
    an operand is null or the quotient does not fit the precision. *)
Theorem decimal_div_correct left right p1 s1 l p2 s2 r p3 s3 is_integral_div :
  align_operands left right = (Decimal128 p1 s1, l, (Decimal128 p2 s2, r)) ->
  0 <= s1 <= 38 -> 0 <= s2 <= 38 -> 0 <= s3 <= 38 -> 0 <= p1 <= 38 -> 0 <= p2 <= 38 -> 1 <= p3 <= 38 -> length l = length r ->
  Forall (fun x => Z.abs x.1 < 10 ^ p1) l -> Forall (fun x => Z.abs x.1 < 10 ^ p2) r ->
  exists a a', spark_decimal_div_internal [left; right] (Decimal128 p3 s3) is_integral_div = Ok (Array (Decimal128 p3 s3) a) /\
    check_overflow_evaluate (Decimal128 p3 s3) false (Array (Decimal128 p3 s3) a) = Ok (Array (Decimal128 p3 s3) a') /\
    slot_value <$> a'
    = zip_with (fun x y => let q := decimal_quotient is_integral_div s1 s2 s3 x.1 y.1 in
                           if x.2 && y.2 && bool_decide (Z.abs q < 10 ^ p3) then Some q else None) l r.
Proof.
  intros Ea Hs1 Hs2 Hs3 Hp1 Hp2 Hp3 Hlen Hl Hr. eexists. destruct (check_overflow_spec p3 s3 p3 s3
    (zip_with (fun x y => (default i128_max (checked 128 (decimal_quotient is_integral_div s1 s2 s3 x.1 y.1)), x.2 && y.2)) l r) Hp3)
    as (a' & Ec & Ev).
  exists a'. split; [by eapply decimal_div_spec|]. split; [done|]. rewrite Ev, fmap_zip_with_compose.
  clear - Hp3. revert r. induction l as [|x l IH]; intros [|y r]; [done..|]. cbn [zip_with]. f_equal; [|apply IH].
  unfold slot_value. cbn. destruct (x.2 && y.2); [|done]. cbn. apply saturated_valid. lia.
Qed.
End CheckedDiv.

Module PlainDecimal.
#[export] Instance plain_decimal : DecimalKernels := fun v p => (- (10 ^ p - 1) <=? v) && (v <=? 10 ^ p - 1).
#[export] Instance plain_decimal_laws : DecimalLaws.
Proof. done. Qed.
End PlainDecimal.
Import PlainDecimal.

(** 1.00, 2.00, null and 999.99 divided by -3.00 at six digits, with [i128] arithmetic, and at 37, with big integers *)
Lemma decimal_div_correct_witness :
  let l := [(100, true); (200, true); (0, false); (99999, true)] in
  let left := Array (Decimal128 5 2) l in
  let right := Scalar (Decimal128 5 2) (Some (-300)) in
  (exists a a', spark_decimal_div_internal [left; right] (Decimal128 8 6) false = Ok (Array (Decimal128 8 6) a) /\
    check_overflow_evaluate (Decimal128 8 6) false (Array (Decimal128 8 6) a) = Ok (Array (Decimal128 8 6) a') /\
    slot_value <$> a' = [Some (-333333); Some (-666667); None; None]) /\
  (exists a a', spark_decimal_div_internal [left; right] (Decimal128 38 37) false = Ok (Array (Decimal128 38 37) a) /\
    check_overflow_evaluate (Decimal128 38 37) false (Array (Decimal128 38 37) a) = Ok (Array (Decimal128 38 37) a') /\
    slot_value <$> a' = [Some (- (10 ^ 37 / 3)); Some (- (2 * 10 ^ 37 / 3 + 1)); None; None]).
Proof.
  intros l left right. split.
  - apply (decimal_div_correct left right 5 2 l 5 2 (replicate 4 (-300, true)) 8 6 false);
      [done|lia..|done|repeat constructor; cbn; lia|repeat constructor; cbn; lia].
  - apply (decimal_div_correct left right 5 2 l 5 2 (replicate 4 (-300, true)) 38 37 false);
      [done|lia..|done|repeat constructor; cbn; lia|repeat constructor; cbn; lia].
Defined.
