(* ===== verification/HexFns.v ===== *)
(** [hex] and [unhex] (src/native/spark-expr/src/math_funcs/hex.rs and unhex.rs).  Strings are lists
    of bytes. *)

From S2P Require Import Prelude Casts Exprs.
From stdpp Require Import list.
Open Scope Z_scope.

(** The arrays [spark_hex] and [spark_unhex] distinguish; a dictionary has [i32] keys. *)
Inductive HexArray :=
  | HexInt64 (a : list (option Z))
  | HexUtf8 (a : list (option (list Z)))
  | HexLargeUtf8 (a : list (option (list Z)))
  | HexBinary (a : list (option (list Z)))
  | HexFixedSizeBinary (a : list (option (list Z)))
  | HexDictionary (keys : list (option Z)) (values : HexArray)
  | HexOther.

Inductive HexValue := HexColumn (a : HexArray) | HexScalarUtf8 (s : option (list Z)) | HexScalarLargeUtf8 (s : option (list Z))
  | HexScalarBoolean (b : option bool) | HexScalarBinary (s : option (list Z)) | HexScalarOther.

(** * hex.rs *)

Definition hex_digit (lower_case : bool) (d : Z) : Z := if d <? 10 then 48 + d else (if lower_case then 97 else 65) + (d - 10).

(** The digits of a number, at most [fuel], without leading zeros *)
Fixpoint hex_digits (fuel : nat) (n : Z) : list Z :=
  match fuel with
  | O => []
  | S fuel => (if n <? 16 then [] else hex_digits fuel (n / 16)) ++ [hex_digit false (n mod 16)]
  end.

(** The upper-case format of an [i64] prints its two's complement. *)
Definition hex_int64 (num : Z) : list Z := hex_digits 16 (wrap 64 num).

Definition hex_byte (lower_case : bool) (b : Z) : list Z := [hex_digit lower_case (b / 16); hex_digit lower_case (b mod 16)].

Definition hex_encode (data : list Z) (lower_case : bool) : list Z := data ≫= hex_byte lower_case.

Definition hex_bytes (bytes : list Z) : list Z := hex_encode bytes false.

(** The values of a dictionary *)
Definition hex_dict_values (values : HexArray) : DFResult (list (option (list Z))) :=
  match values with
  | HexInt64 a => Ok (option_map hex_int64 <$> a)
  | HexUtf8 a | HexBinary a => Ok (option_map hex_bytes <$> a)
  | _ => Err Execution
  end.

(** [values[k as usize]] of the keys that are not null *)
Definition hex_dict_key (values : list (option (list Z))) (key : option Z) : option (option (list Z)) :=
  match key with Some k => values !! Z.to_nat (wrap 64 k) | None => Some None end.

Definition spark_hex (args : list HexValue) : DFResult (list (option (list Z))) :=
  match args with
  | [HexColumn array] =>
      match array with
      | HexInt64 a => Ok (option_map hex_int64 <$> a)
      | HexUtf8 a | HexLargeUtf8 a | HexBinary a | HexFixedSizeBinary a => Ok (option_map hex_bytes <$> a)
      | HexDictionary keys values =>
          values ← hex_dict_values values;
          unwrap (mapM (hex_dict_key values) keys)
      | HexOther => Err Execution
      end
  | [_] => Err Execution
  | _ => Err Internal
  end.

(** * unhex.rs *)

Definition unhex_digit (c : Z) : DFResult Z :=
  if (48 <=? c) && (c <=? 57) then Ok (c - 48)
  else if (65 <=? c) && (c <=? 70) then Ok (10 + c - 65)
  else if (97 <=? c) && (c <=? 102) then Ok (10 + c - 97)
  else Err Execution.

(** The [while] loop from index [i]: [bytes] is what follows it.  The buffer is kept on errors. *)
Fixpoint unhex_loop (bytes : list Z) (result : list Z) : list Z * DFResult unit :=
  match bytes with
  | [] => (result, Ok tt)
  | c :: rest =>
      match unhex_digit c with
      | Ok first =>
          match rest with
          | [] => (result, Panic)
          | d :: rest =>
              match unhex_digit d with
              | Ok second => unhex_loop rest (result ++ [Z.lor (wrap 8 (first ≪ 4)) second])
              | Err e => (result, Err e)
              | Panic => (result, Panic)
              end
          end
      | Err e => (result, Err e)
      | Panic => (result, Panic)
      end
  end.

Definition unhex (hex_str result : list Z) : list Z * DFResult unit :=
  if negb (Z.land (Z.of_nat (length hex_str)) 1 =? 0) then
    match hex_str with
    | [] => (result, Panic)
    | c :: rest =>
        match unhex_digit c with
        | Ok v => unhex_loop rest (result ++ [v])
        | Err e => (result, Err e)
        | Panic => (result, Panic)
        end
    end
  else unhex_loop hex_str result.

(** The loop over a column with its buffer [encoded]; [builder] is what was appended. *)
Fixpoint unhex_items (fail_on_error : bool) (items : list (option (list Z))) (encoded : list Z) (builder : list (option (list Z)))
    : DFResult (list (option (list Z))) :=
  match items with
  | [] => Ok builder
  | Some s :: items =>
      match unhex s encoded with
      | (encoded, Ok _) => unhex_items fail_on_error items [] (builder ++ [Some encoded])
      | (_, Err _) => if fail_on_error then Err Execution else unhex_items fail_on_error items [] (builder ++ [None])
      | (_, Panic) => Panic
      end
  | None :: items => unhex_items fail_on_error items encoded (builder ++ [None])
  end.

(** The instance for [i32] offsets reads [Utf8], the one for [i64] [LargeUtf8]. *)
Definition spark_unhex_inner (large : bool) (array : HexValue) (fail_on_error : bool) : DFResult HexValue :=
  match array with
  | HexColumn (HexUtf8 a) => if large then Err Internal else builder ← unhex_items fail_on_error a [] []; Ok (HexColumn (HexBinary builder))
  | HexColumn (HexLargeUtf8 a) => if large then builder ← unhex_items fail_on_error a [] []; Ok (HexColumn (HexBinary builder)) else Err Internal
  | HexColumn _ => Err Internal
  | HexScalarUtf8 (Some string) =>
      match unhex string [] with
      | (encoded, Ok _) => Ok (HexScalarBinary (Some encoded))
      | (_, Err _) => if fail_on_error then Err Execution else Ok (HexScalarBinary None)
      | (_, Panic) => Panic
      end
  | HexScalarUtf8 None => Ok (HexScalarBinary None)
  | _ => Err Execution
  end.

Definition spark_unhex (args : list HexValue) : DFResult HexValue :=
  if (2 <? length args)%nat then Err Execution
  else
    val_to_unhex ← unwrap (args !! 0%nat);
    fail_on_error ← (match args with
                     | [_; HexScalarBoolean (Some fail_on_error)] => Ok fail_on_error
                     | [_; _] => Err Execution
                     | _ => Ok false
                     end : DFResult bool);
    match val_to_unhex with
    | HexColumn (HexUtf8 _) | HexScalarUtf8 _ => spark_unhex_inner false val_to_unhex fail_on_error
    | HexColumn (HexLargeUtf8 _) | HexScalarLargeUtf8 _ => spark_unhex_inner true val_to_unhex fail_on_error
    | _ => Err Execution
    end.
