(* ===== verification/HexProps.v ===== *)
(** [unhex] inverts [hex], and accepts exactly the strings of hexadecimal digits. *)

From S2P Require Import Prelude Lists Casts Exprs HexFns.
From stdpp Require Import list.
Open Scope Z_scope.

(** The value of a digit, in either case *)
Definition digit_value (c : Z) : option Z :=
  if (48 <=? c) && (c <=? 57) then Some (c - 48)
  else if (65 <=? c) && (c <=? 70) then Some (c - 55)
  else if (97 <=? c) && (c <=? 102) then Some (c - 87)
  else None.

Lemma unhex_digit_spec c : unhex_digit c = match digit_value c with Some d => Ok d | None => Err Execution end.
Proof. unfold unhex_digit, digit_value. repeat case_match; simplify_eq; try done; f_equal; lia. Qed.

Lemma digit_value_range c d : digit_value c = Some d -> 0 <= d < 16.
Proof.
  unfold digit_value. intros E. repeat case_match; simplify_eq;
    repeat match goal with H : (_ && _) = true |- _ => apply andb_true_iff in H as [?%Z.leb_le ?%Z.leb_le] end; lia.
Qed.

Lemma hex_digit_value lower d : 0 <= d < 16 -> digit_value (hex_digit lower d) = Some d.
Proof.
  intros Hd. assert (d ∈ seqZ 0 16) as Hin by (apply elem_of_seqZ; lia).
  assert (forallb (fun d => bool_decide (digit_value (hex_digit lower d) = Some d)) (seqZ 0 16) = true) as Hall by by destruct lower.
  rewrite forallb_forall in Hall. specialize (Hall d). rewrite bool_decide_eq_true in Hall. apply Hall. by apply list_elem_of_In.
Qed.

(** Two digits make a byte. *)
Lemma digits_byte first second : 0 <= first < 16 -> 0 <= second < 16 -> Z.lor (wrap 8 (first ≪ 4)) second = 16 * first + second.
Proof.
  intros. rewrite Z.shiftl_mul_pow2 by lia. rewrite wrap_small by (unfold in_u; lia).
  rewrite <- Z.add_nocarry_lor; [lia|]. apply Z.bits_inj'. intros i Hi. rewrite Z.land_spec, Z.bits_0.
  destruct (Z.lt_ge_cases i 4); [by rewrite Z.mul_pow2_bits_low|]. rewrite (in_u_testbit 4 second i); [apply andb_false_r|unfold in_u; lia|lia].
Qed.

(** Pairs of digits as bytes; [None] if one is no digit *)
Fixpoint pairs_value (s : list Z) : option (list Z) :=
  match s with
  | c :: d :: rest => a ← digit_value c; b ← digit_value d; bytes ← pairs_value rest; Some (16 * a + b :: bytes)
  | [_] => None
  | [] => Some []
  end.

(** What a string of digits stands for: an odd first digit is a byte of its own. *)
Definition hex_value (s : list Z) : option (list Z) :=
  if Nat.odd (length s) then
    match s with c :: rest => a ← digit_value c; bytes ← pairs_value rest; Some (a :: bytes) | [] => None end
  else pairs_value s.

(** Induction on strings of even length *)
Lemma pairs_ind (P : list Z -> Prop) :
  P [] -> (forall c d rest, P rest -> P (c :: d :: rest)) -> forall s, Nat.odd (length s) = false -> P s.
Proof.
  intros H0 H2. fix IH 1. intros [|c [|d rest]] Hs; [done|done|]. apply H2, IH, Hs.
Qed.

Lemma unhex_loop_spec s : Nat.odd (length s) = false -> forall result,
  match pairs_value s with
  | Some bytes => unhex_loop s result = (result ++ bytes, Ok tt)
  | None => exists result', unhex_loop s result = (result', Err Execution)
  end.
Proof.
  revert s. refine (pairs_ind _ _ _); [intros result; cbn; by rewrite app_nil_r|]. intros c d rest IH result.
  cbn [unhex_loop pairs_value]. rewrite !unhex_digit_spec. destruct (digit_value c) as [a|] eqn:Ea; [|by eexists].
  destruct (digit_value d) as [b|] eqn:Eb; [|by eexists]. cbn. apply digit_value_range in Ea, Eb.
  rewrite digits_byte by done. specialize (IH (result ++ [16 * a + b])). destruct (pairs_value rest); [|done]. cbn. by rewrite IH, <- app_assoc.
Qed.

Lemma land_1_odd n : (Z.land (Z.of_nat n) 1 =? 0) = negb (Nat.odd n).
Proof.
  change 1 with (Z.ones 1). rewrite Z.land_ones by lia. destruct (Nat.odd n) eqn:E; cbn [negb].
  - apply Nat.odd_spec in E as [m ->]. apply Z.eqb_neq. lia.
  - rewrite <- Nat.negb_even in E. apply negb_false_iff, Nat.even_spec in E as [m ->]. apply Z.eqb_eq. lia.
Qed.

Lemma odd_tail n : Nat.odd (S n) = true -> Nat.odd n = false.
Proof. rewrite Nat.odd_succ, <- Nat.negb_odd. apply negb_true_iff. Qed.

(** [unhex] is [hex_value], appended to the buffer; otherwise an error, never a panic. *)
Lemma unhex_spec s result :
  match hex_value s with
  | Some bytes => unhex s result = (result ++ bytes, Ok tt)
  | None => exists result', unhex s result = (result', Err Execution)
  end.
Proof.
  unfold unhex, hex_value. rewrite land_1_odd, negb_involutive. destruct (Nat.odd (length s)) eqn:Eo; [|by apply unhex_loop_spec].
  destruct s as [|c rest]; [done|]. rewrite unhex_digit_spec. destruct (digit_value c) as [a|]; [|by eexists]. cbn.
  pose proof (unhex_loop_spec rest (odd_tail _ Eo) (result ++ [a])) as Hloop. destruct (pairs_value rest); [|done]. cbn. by rewrite Hloop, <- app_assoc.
Qed.

(** * Columns *)

Definition invalid (item : option (list Z)) : bool :=
  match item with Some s => negb (bool_decide (is_Some (hex_value s))) | None => false end.

(** Column by column: the buffer is empty at every item. *)
Lemma unhex_items_spec fail_on_error items builder :
  unhex_items fail_on_error items [] builder
  = if fail_on_error && existsb invalid items then Err Execution else Ok (builder ++ ((fun o => o ≫= hex_value) <$> items)).
Proof.
  revert builder. induction items as [|[s|] items IH]; intros builder.
  - cbn. by rewrite andb_false_r, app_nil_r.
  - cbn [unhex_items existsb invalid fmap list_fmap mbind option_bind]. pose proof (unhex_spec s []) as Hs. destruct (hex_value s) as [bytes|].
    + rewrite Hs, IH. rewrite bool_decide_true by done. cbn. by rewrite <- app_assoc.
    + destruct Hs as [r ->]. rewrite bool_decide_false by (by intros [? ?]). cbn [negb orb]. rewrite andb_true_r.
      destruct fail_on_error; [done|]. rewrite IH. cbn. by rewrite <- app_assoc.
  - cbn [unhex_items existsb invalid orb fmap list_fmap]. rewrite IH. cbn. by rewrite <- app_assoc.
Qed.

Lemma spark_unhex_column items fail_on_error :
  spark_unhex [HexColumn (HexUtf8 items); HexScalarBoolean (Some fail_on_error)]
  = if fail_on_error && existsb invalid items then Err Execution else Ok (HexColumn (HexBinary ((fun o => o ≫= hex_value) <$> items))).
Proof. unfold spark_unhex. cbn. rewrite unhex_items_spec. by destruct (_ && _). Qed.

Lemma spark_unhex_valid items fail_on_error : (forall s, Some s ∈ items -> is_Some (hex_value s)) ->
  spark_unhex [HexColumn (HexUtf8 items); HexScalarBoolean (Some fail_on_error)]
  = Ok (HexColumn (HexBinary ((fun o => o ≫= hex_value) <$> items))).
Proof.
  intros Hv. rewrite spark_unhex_column. destruct (existsb invalid items) eqn:E; [|by rewrite andb_false_r].
  apply existsb_exists in E as ([s|] & Hin & Hs); [|done]. cbn in Hs. rewrite bool_decide_true in Hs; [done|].
  apply Hv. by apply list_elem_of_In.
Qed.

(** The scalar of a large string passes the test of its type and is then rejected. *)
Lemma large_scalar_rejected s : spark_unhex [HexScalarLargeUtf8 s] = Err Execution.
Proof. done. Qed.

(** * Round trips *)

Lemma hex_encode_value lower bytes : bytes_ok bytes -> hex_value (hex_encode bytes lower) = Some bytes.
Proof.
  intros Hb. assert (Nat.odd (length (hex_encode bytes lower)) = false /\ pairs_value (hex_encode bytes lower) = Some bytes) as [Eo Ep].
  { induction Hb as [|b bytes Hb _ [IHo IHp]]; [done|]. split; [done|]. unfold in_u in Hb. cbn.
    pose proof (Z.div_mod b 16 ltac:(lia)). pose proof (Z.mod_pos_bound b 16 ltac:(lia)).
    rewrite !hex_digit_value by lia. cbn. unfold hex_encode in IHp. cbn in IHp. rewrite IHp. cbn. do 2 f_equal. lia. }
  unfold hex_value. by rewrite Eo.
Qed.

Definition be_value (bytes : list Z) : Z := foldl (fun acc b => 256 * acc + b) 0 bytes.

(** A string of digits read as a number *)
Fixpoint digits_value (s : list Z) (acc : Z) : option Z :=
  match s with [] => Some acc | c :: s => d ← digit_value c; digits_value s (16 * acc + d) end.

Lemma pairs_value_digits s : Nat.odd (length s) = false -> forall acc,
  digits_value s acc = option_map (foldl (fun acc b => 256 * acc + b) acc) (pairs_value s).
Proof.
  revert s. refine (pairs_ind _ _ _); [done|]. intros c d rest IH acc. cbn. destruct (digit_value c) as [a|]; [|done]. cbn.
  destruct (digit_value d) as [b|]; [|done]. cbn. rewrite IH. destruct (pairs_value rest); [|done]. cbn. do 2 f_equal. lia.
Qed.

Lemma hex_value_digits s : digits_value s 0 = option_map be_value (hex_value s).
Proof.
  unfold hex_value. destruct (Nat.odd (length s)) eqn:Eo; [|by apply pairs_value_digits]. destruct s as [|c rest]; [done|]. cbn.
  destruct (digit_value c) as [a|]; [|done]. cbn. rewrite pairs_value_digits; [|by apply odd_tail].
  by destruct (pairs_value rest).
Qed.

Lemma digits_value_snoc s c acc : digits_value (s ++ [c]) acc = (v ← digits_value s acc; d ← digit_value c; Some (16 * v + d)).
Proof. revert acc. induction s as [|x s IH]; intros acc; cbn; [done|]. destruct (digit_value x); [|done]. cbn. apply IH. Qed.

Lemma hex_digits_value fuel n : (0 < fuel)%nat -> 0 <= n < 16 ^ Z.of_nat fuel -> digits_value (hex_digits fuel n) 0 = Some n.
Proof.
  revert n. induction fuel as [|fuel IH]; intros n Hf Hn; [lia|]. cbn [hex_digits]. rewrite digits_value_snoc.
  pose proof (Z.div_mod n 16 ltac:(lia)). pose proof (Z.mod_pos_bound n 16 ltac:(lia)). rewrite hex_digit_value by lia.
  destruct (Z.ltb_spec n 16); cbn.
  - f_equal. rewrite Z.mod_small; lia.
  - assert (0 < fuel)%nat by (destruct fuel; [cbn in Hn|]; lia). rewrite IH; [cbn; f_equal; lia|done|].
    rewrite Nat2Z.inj_succ, Z.pow_succ_r in Hn by lia. split; [apply Z.div_pos; lia|]. apply Z.div_lt_upper_bound; lia.
Qed.

Lemma hex_int64_value n : option_map be_value (hex_value (hex_int64 n)) = Some (wrap 64 n).
Proof.
  rewrite <- hex_value_digits. apply hex_digits_value; [lia|]. pose proof (wrap_range 64 n ltac:(lia)) as Hw. unfold in_u in Hw.
  change (16 ^ Z.of_nat 16) with (2 ^ 64). lia.
Qed.

(** C35: [unhex] undoes [hex], with or without errors enabled.  A column of binaries comes back with its nulls; a column of
    [i64] comes back as the big-endian bytes of the two's complement of each value, without leading zero bytes. *)
Theorem hex_unhex_roundtrip fail_on_error :
  (forall a, Forall (fun o => bytes_ok (default [] o)) a -> exists h, spark_hex [HexColumn (HexBinary a)] = Ok h /\
    spark_unhex [HexColumn (HexUtf8 h); HexScalarBoolean (Some fail_on_error)] = Ok (HexColumn (HexBinary a))) /\
  (forall a, exists h b, spark_hex [HexColumn (HexInt64 a)] = Ok h /\
    spark_unhex [HexColumn (HexUtf8 h); HexScalarBoolean (Some fail_on_error)] = Ok (HexColumn (HexBinary b)) /\
    option_map be_value <$> b = option_map (wrap 64) <$> a).
Proof.
  split.
  - intros a Ha. eexists. split; [done|]. assert (forall o, o ∈ a -> option_map hex_bytes o ≫= hex_value = o) as Hback.
    { intros [bytes|] Ho; [|done]. rewrite Forall_forall in Ha. apply hex_encode_value, (Ha _ Ho). }
    rewrite spark_unhex_valid, <- list_fmap_compose.
    + do 3 f_equal. rewrite <- (list_fmap_id a) at 2. apply list_fmap_ext. intros i o Ho. by eapply Hback, list_elem_of_lookup_2.
    + intros s Hs. apply list_elem_of_fmap in Hs as ([bytes|] & [= ->] & Ho). pose proof (Hback _ Ho) as Hb. cbn in Hb. by rewrite Hb.
  - intros a. eexists _, _. split; [done|]. split.
    + apply spark_unhex_valid. intros s Hs. apply list_elem_of_fmap in Hs as ([n|] & [= ->] & _).
      pose proof (hex_int64_value n). by destruct (hex_value (hex_int64 n)).
    + rewrite <- !list_fmap_compose. apply list_fmap_ext. intros i [n|] _; [|done]. apply hex_int64_value.
Qed.

Lemma hex_unhex_roundtrip_witness :
  let a := [Some [0; 171; 255]; None; Some []] in
  exists h, spark_hex [HexColumn (HexBinary a)] = Ok h /\
    spark_unhex [HexColumn (HexUtf8 h); HexScalarBoolean (Some true)] = Ok (HexColumn (HexBinary a)).
Proof. intros a. apply (proj1 (hex_unhex_roundtrip true) a). repeat constructor; unfold in_u; lia. Defined.
