(* ===== verification/Nondet.v ===== *)
(** Nondeterministic functions (src/native/spark-expr/src/nondetermenistic_funcs): [rand], [randn] and
    [monotonically_increasing_id], with the state they keep between batches.

    A seed is the 64 bits of its [i64].  Double arithmetic is a parameter, the class [F64]. *)

From S2P Require Import Prelude Murmur3.
From stdpp Require Import list.
Open Scope Z_scope.

(** The doubles and the operations used on them: [k as f64 * DOUBLE_UNIT], [2 * x - 1], the sum of squares, the test of
    the polar method, its multiplier and multiplication *)
Class F64 := {
  f64 : Type;
  of_unit : Z -> f64;
  centered : f64 -> f64;
  sum_of_squares : f64 -> f64 -> f64;
  inside_circle : f64 -> bool;
  multiplier : f64 -> f64;
  f64_mul : f64 -> f64 -> f64;
}.

(** * internal/rand_utils.rs *)

(** The generator mutates itself; [next_value] is [None] if it does not return. *)
Class StatefulSeedValueGenerator (G State Value : Type) := {
  from_init_seed : Z -> G;
  from_stored_state : State -> G;
  next_value : G -> option (Value * G);
  get_current_state : G -> State;
}.

Section Batches.
Context {G State Value : Type} `{!StatefulSeedValueGenerator G State Value}.

Definition from_state_ref (state : option State) (init_value : Z) : G :=
  match state with None => from_init_seed init_value | Some state => from_stored_state state end.

(** [repeat_with(next_value).take(n)] *)
Fixpoint take_values (n : nat) (rnd : G) : option (list Value * G) :=
  match n with
  | O => Some ([], rnd)
  | S n => '(v, rnd) ← next_value rnd; '(vs, rnd) ← take_values n rnd; Some (v :: vs, rnd)
  end.

(** The array, and the new content of the state holder *)
Definition evaluate_batch_for_rand (state_holder : option State) (seed : Z) (num_rows : nat) : option (list Value * option State) :=
  let rnd := from_state_ref state_holder seed in
  '(array, rnd) ← take_values num_rows rnd;
  Some (array, Some (get_current_state rnd)).
End Batches.

(** * rand.rs *)

Definition SPARK_MURMUR_ARRAY_SEED : Z := 0x3c074a61.

(** [XorShiftRandom::next]: the [bits] low bits of the new seed, and the new seed *)
Definition next (seed bits : Z) : Z * Z :=
  let next_seed := Z.lxor seed (wrap 64 (seed ≪ 21)) in
  let next_seed := Z.lxor next_seed (next_seed ≫ 35) in
  let next_seed := Z.lxor next_seed (wrap 64 (next_seed ≪ 4)) in
  (Z.land next_seed (Z.ones bits), next_seed).

(** The integer that [next_f64] multiplies by [DOUBLE_UNIT] *)
Definition next_unit (seed : Z) : Z * Z :=
  let '(a, seed) := next seed 26 in
  let '(b, seed) := next seed 27 in
  ((a ≪ 27) + b, seed).

Definition xor_from_init_seed (init_seed : Z) : Z :=
  let bytes_repr := reverse (to_le_bytes 8 init_seed) in
  let low_bits := spark_compatible_murmur3_hash bytes_repr SPARK_MURMUR_ARRAY_SEED in
  let high_bits := spark_compatible_murmur3_hash bytes_repr low_bits in
  Z.lor (wrap 64 (high_bits ≪ 32)) low_bits.

Section Generators.
Context `{F64}.

Definition next_f64 (seed : Z) : f64 * Z := let '(k, seed) := next_unit seed in (of_unit k, seed).

#[global] Instance XorShiftRandom : StatefulSeedValueGenerator Z Z f64 := {|
  from_init_seed := xor_from_init_seed;
  from_stored_state stored_state := stored_state;
  next_value seed := Some (next_f64 seed);
  get_current_state seed := seed |}.

(** [RandExpr]: the seed and the state holder *)
Record RandExpr (State : Type) := MkRand { rand_seed : Z; state_holder : option State }.
Arguments MkRand {State}.
Arguments rand_seed {State}.
Arguments state_holder {State}.

Definition rand_new {State} (seed : Z) : RandExpr State := MkRand seed None.

Definition rand_evaluate {G State Value} `{!StatefulSeedValueGenerator G State Value} (self : RandExpr State) (num_rows : nat)
    : option (list Value * RandExpr State) :=
  '(array, state) ← evaluate_batch_for_rand (state_holder self) (rand_seed self) num_rows;
  Some (array, MkRand (rand_seed self) state).

(** * randn.rs *)

Record Gaussian := MkGaussian { base_generator : Z; gaussian_cache : option f64 }.

(** The loop of the polar method: at most [fuel] rounds *)
Fixpoint polar_loop (fuel : nat) (seed : Z) : option (f64 * f64 * f64 * Z) :=
  match fuel with
  | O => None
  | S fuel =>
      let '(x1, seed) := next_f64 seed in
      let '(x2, seed) := next_f64 seed in
      let v1 := centered x1 in
      let v2 := centered x2 in
      let s := sum_of_squares v1 v2 in
      if inside_circle s then Some (v1, v2, s, seed) else polar_loop fuel seed
  end.

Definition next_gaussian (fuel : nat) (self : Gaussian) : option (f64 * Gaussian) :=
  match gaussian_cache self with
  | Some stored_value => Some (stored_value, MkGaussian (base_generator self) None)
  | None =>
      '(v1, v2, s, seed) ← polar_loop fuel (base_generator self);
      let m := multiplier s in
      Some (f64_mul v1 m, MkGaussian seed (Some (f64_mul v2 m)))
  end.

Definition XorShiftRandomForGaussian (fuel : nat) : StatefulSeedValueGenerator Gaussian (Z * option f64) f64 := {|
  from_init_seed init_value := MkGaussian (xor_from_init_seed init_value) None;
  from_stored_state stored_state := MkGaussian stored_state.1 stored_state.2;
  next_value := next_gaussian fuel;
  get_current_state self := (base_generator self, gaussian_cache self) |}.
End Generators.

(** * monotonically_increasing_id.rs *)

Record MonotonicallyIncreasingId := MkIds { initial_offset : Z; current_offset : Z }.

Definition from_offset (offset : Z) : MonotonicallyIncreasingId := MkIds offset offset.
Definition from_partition_id (partition : Z) : MonotonicallyIncreasingId := from_offset (swrap 64 (partition ≪ 33)).

(** [fetch_add], then the ids of the range [start..end] *)
Definition ids_evaluate (self : MonotonicallyIncreasingId) (num_rows : nat) : list Z * MonotonicallyIncreasingId :=
  let start := current_offset self in
  let self := MkIds (initial_offset self) (swrap 64 (start + Z.of_nat num_rows)) in
  let end_ := swrap 64 (start + Z.of_nat num_rows) in
  (seqZ start (end_ - start), self).
