(* ===== verification/NondetProps.v ===== *)
(** [rand] and [randn] do not depend on how the rows are split into batches, the uniform generator permutes the seeds, and
    the monotonically increasing ids are unique across batches and partitions. *)

From S2P Require Import Prelude Lists Murmur3 Nondet.
From stdpp Require Import list sorting.
Open Scope Z_scope.

(** * Batches *)

Class GeneratorLaws G State Value `{!StatefulSeedValueGenerator G State Value} :=
  stored_current : forall g : G, from_stored_state (get_current_state g) = g.

#[export] Instance xor_laws `{F64} : GeneratorLaws Z Z f64.
Proof. done. Qed.
Lemma gaussian_laws `{F64} fuel : @GeneratorLaws Gaussian (Z * option f64) f64 (XorShiftRandomForGaussian fuel).
Proof. by intros []. Qed.

Section Batches.
Context {G State Value : Type} `{GeneratorLaws G State Value}.

(** An expression evaluated on batches of these sizes *)
Fixpoint run_batches (self : RandExpr State) (ns : list nat) : option (list (list Value)) :=
  match ns with
  | [] => Some []
  | n :: ns => '(array, self) ← rand_evaluate (G := G) self n; arrays ← run_batches self ns; Some (array :: arrays)
  end.

Lemma take_values_app n m (g : G) :
  take_values (n + m) g = ('(vs, g) ← take_values n g; '(ws, g) ← take_values m g; Some (vs ++ ws, g)).
Proof.
  revert g. induction n as [|n IH]; intros g; cbn; [by destruct (take_values m g) as [[]|]|].
  destruct (next_value g) as [[v g']|]; [|done]. cbn. rewrite IH. destruct (take_values n g') as [[vs g'']|]; [|done]. cbn.
  by destruct (take_values m g'') as [[ws g3]|].
Qed.

Lemma run_batches_from (ns : list nat) seed holder :
  option_map (concat (A := Value)) (run_batches (MkRand State seed holder) ns)
  = option_map fst (take_values (sum_list ns) (from_state_ref holder seed : G)).
Proof.
  revert holder. induction ns as [|n ns IH]; intros holder; [done|]. change (sum_list (n :: ns)) with (n + sum_list ns)%nat.
  rewrite take_values_app. cbn [run_batches]. unfold rand_evaluate, evaluate_batch_for_rand. cbn [rand_seed state_holder].
  destruct (take_values n _) as [[vs g]|]; [|done]. cbn [mbind option_bind]. specialize (IH (Some (get_current_state g))).
  cbn [from_state_ref] in IH. rewrite stored_current in IH. destruct (run_batches _ ns), (take_values (sum_list ns) g) as [[]|]; try done.
  cbn in *. congruence.
Qed.
End Batches.

(** * The uniform generator *)

Definition inj64 (f : Z -> Z) : Prop := forall x y, in_u 64 x -> in_u 64 y -> f x = f y -> x = y.

Lemma in_u64_lxor a b : in_u 64 a -> in_u 64 b -> in_u 64 (Z.lxor a b).
Proof. intros Ha Hb. rewrite <- (wrap_small 64 a), <- (wrap_small 64 b), <- wrap_lxor by (done || lia). apply wrap_range. lia. Qed.

Lemma u64_ext x y : in_u 64 x -> in_u 64 y -> (forall i, 0 <= i < 64 -> Z.testbit x i = Z.testbit y i) -> x = y.
Proof.
  intros Hx Hy Hi. apply Z.bits_inj'. intros i Hi0. destruct (Z.lt_ge_cases i 64); [by apply Hi|].
  rewrite !(in_u_testbit 64); done || lia.
Qed.

(** From the low bits up *)
Lemma xorshl_inj k : 0 < k -> inj64 (fun x => Z.lxor x (wrap 64 (x ≪ k))).
Proof.
  intros Hk x y Hx Hy E. apply u64_ext; [done..|]. intros i [Hi0 Hi]. revert Hi. pattern i. apply Zlt_0_ind; [|done]. clear i Hi0.
  intros i IH Hi0 Hi. apply (f_equal (fun z => Z.testbit z i)) in E. rewrite !Z.lxor_spec, !wrap_total, !shiftl_total in E by lia.
  destruct (Z.lt_ge_cases i k).
  - rewrite !(Z.testbit_neg_r _ (i - k)), !andb_false_r, !xorb_false_r in E by lia. done.
  - rewrite (IH (i - k)) in E by lia. by destruct (Z.testbit x i), (Z.testbit y i), (_ && _).
Qed.

(** From the high bits down *)
Lemma xorshr_inj k : 0 < k -> inj64 (fun x => Z.lxor x (x ≫ k)).
Proof.
  intros Hk x y Hx Hy E. apply u64_ext; [done..|]. intros i Hi. replace i with (64 - (64 - i)) by lia. assert (0 <= 64 - i <= 64) as [H0 H1] by lia.
  revert H1. pattern (64 - i). apply Zlt_0_ind; [|done]. clear i Hi H0. intros j IH Hj0 Hj.
  apply (f_equal (fun z => Z.testbit z (64 - j))) in E. rewrite !Z.lxor_spec, !Z.shiftr_spec in E by lia.
  assert (Z.testbit x (64 - j + k) = Z.testbit y (64 - j + k)) as Ek.
  { destruct (Z.lt_ge_cases j k); [by rewrite !(in_u_testbit 64) by (done || lia)|].
    replace (64 - j + k) with (64 - (j - k)) by lia. apply IH; lia. }
  rewrite Ek in E. by destruct (Z.testbit x (64 - j)), (Z.testbit y (64 - j)), (Z.testbit y (64 - j + k)).
Qed.

Lemma xorshl_closed k x : in_u 64 x -> in_u 64 (Z.lxor x (wrap 64 (x ≪ k))).
Proof. intros. apply in_u64_lxor; [done|]. apply wrap_range. lia. Qed.
Lemma xorshr_closed k x : 0 <= k -> in_u 64 x -> in_u 64 (Z.lxor x (x ≫ k)).
Proof. intros. apply in_u64_lxor; [done|]. apply in_u_shiftr; done || lia. Qed.

Lemma next_seed_closed seed bits : in_u 64 seed -> in_u 64 (next seed bits).2.
Proof. intros. apply xorshl_closed, xorshr_closed, xorshl_closed; done || lia. Qed.

(** A step permutes the seeds. *)
Lemma next_seed_inj bits : inj64 (fun seed => (next seed bits).2).
Proof.
  intros x y Hx Hy E. apply xorshl_inj in E; [|lia|by apply xorshr_closed, xorshl_closed..].
  apply xorshr_inj in E; [|lia|by apply xorshl_closed..]. by apply xorshl_inj in E.
Qed.

(** So the generator never gets stuck at the seed 0. *)
Lemma next_seed_nonzero seed bits : in_u 64 seed -> seed <> 0 -> (next seed bits).2 <> 0.
Proof. intros Hs Hne E. apply Hne, (next_seed_inj bits); [done|unfold in_u; lia|]. by rewrite E. Qed.

Lemma next_value_range seed bits : 0 <= bits -> 0 <= (next seed bits).1 < 2 ^ bits.
Proof. intros. cbn. rewrite Z.land_ones by done. apply Z.mod_pos_bound. lia. Qed.

Lemma next_unit_range seed : 0 <= (next_unit seed).1 < 2 ^ 53.
Proof.
  unfold next_unit. destruct (next seed 26) as [a s1] eqn:E1, (next s1 27) as [b s2] eqn:E2.
  pose proof (next_value_range seed 26 ltac:(lia)) as Ha. pose proof (next_value_range s1 27 ltac:(lia)) as Hb.
  rewrite E1 in Ha. rewrite E2 in Hb. cbn [fst] in *. rewrite Z.shiftl_mul_pow2 by lia. lia.
Qed.

(** The numerators of the values after a seed *)
Fixpoint unit_stream (n : nat) (seed : Z) : list Z :=
  match n with O => [] | S n => (next_unit seed).1 :: unit_stream n (next_unit seed).2 end.

Lemma unit_stream_range n seed : Forall (fun k => 0 <= k < 2 ^ 53) (unit_stream n seed).
Proof. revert seed. induction n; intros seed; constructor; [apply next_unit_range|done]. Qed.

Lemma take_values_rand `{F64} n seed : exists seed', take_values n seed = Some (of_unit <$> unit_stream n seed, seed').
Proof.
  revert seed. induction n as [|n IH]; intros seed; [by eexists|]. cbn [take_values next_value XorShiftRandom mbind option_bind unit_stream].
  unfold next_f64. destruct (next_unit seed) as [k s]. destruct (IH s) as [s' Es]. rewrite Es. by eexists.
Qed.

(** The values of the unit tests of rand.rs for the seed 42, times 2^53, rounded down *)
Example rand_42 : (fun k => k / 10 ^ 3) <$> unit_stream 3 (xor_from_init_seed 42) = [5577162034036; 4590085711983; 7498727016296].
Proof. reflexivity. Qed.

(** [rand] over batches of any sizes is one stream of values, the same for every split of the rows: each value is an
    integer below 2^53 times 2^-53, from the seed the Murmur3 hashes of the given seed make. *)
Lemma rand_batches_spec `{F64} seed ns :
  let ks := unit_stream (sum_list ns) (xor_from_init_seed seed) in
  option_map (concat (A := f64)) (run_batches (G := Z) (rand_new seed) ns) = Some (of_unit <$> ks) /\
  length ks = sum_list ns /\ Forall (fun k => 0 <= k < 2 ^ 53) ks.
Proof.
  cbv zeta. split; [|split; [|apply unit_stream_range]].
  - unfold rand_new. rewrite run_batches_from. cbn [from_state_ref]. destruct (take_values_rand (sum_list ns) (xor_from_init_seed seed)) as [s Es].
    cbn. by rewrite Es.
  - generalize (xor_from_init_seed seed). induction (sum_list ns) as [|n IH]; intros s; [done|]. cbn. by rewrite IH.
Qed.

(** [randn] keeps the second value of a pair in its state, and is one stream as well. *)
Lemma randn_batches `{F64} fuel seed ns :
  option_map (concat (A := f64)) (@run_batches _ _ _ (XorShiftRandomForGaussian fuel) (rand_new seed) ns)
  = option_map fst (@take_values _ _ _ (XorShiftRandomForGaussian fuel) (sum_list ns) (MkGaussian (xor_from_init_seed seed) None)).
Proof. exact (run_batches_from (H := gaussian_laws fuel) ns seed None). Qed.

(** * Monotonically increasing ids *)

Fixpoint run_ids (self : MonotonicallyIncreasingId) (ns : list nat) : list Z :=
  match ns with [] => [] | n :: ns => let '(ids, self) := ids_evaluate self n in ids ++ run_ids self ns end.

Lemma run_ids_spec self ns : in_s 64 (current_offset self) -> current_offset self + Z.of_nat (sum_list ns) < 2 ^ 63 ->
  run_ids self ns = seqZ (current_offset self) (Z.of_nat (sum_list ns)).
Proof.
  revert self. induction ns as [|n ns IH]; intros self Hs Hn; [done|]. change (sum_list (n :: ns)) with (n + sum_list ns)%nat in *.
  assert (in_s 64 (current_offset self + Z.of_nat n)) as Hr by (unfold in_s in *; lia). cbn [run_ids ids_evaluate]. rewrite swrap_small by (done || lia).
  rewrite IH; cbn; [|done|lia]. replace (current_offset self + Z.of_nat n - current_offset self) with (Z.of_nat n) by lia.
  rewrite Nat2Z.inj_add, seqZ_app by lia. done.
Qed.

Lemma from_partition_id_offset p : 0 <= p < 2 ^ 30 -> current_offset (from_partition_id p) = p * 2 ^ 33.
Proof. intros. cbn. rewrite Z.shiftl_mul_pow2 by lia. apply swrap_small; [lia|]. unfold in_s. lia. Qed.

Lemma seqZ_sorted m n : StronglySorted Z.lt (seqZ m n).
Proof.
  unfold seqZ. generalize 0%nat. induction (Z.to_nat n) as [|k IH]; intros i; [constructor|]. cbn. constructor; [apply IH|].
  apply Forall_fmap, Forall_forall. intros j Hj%elem_of_seq. cbn. lia.
Qed.

(** The ids a partition gives out over its batches are consecutive from its first one, and as long as a partition
    has at most 2^33 rows the ids of different partitions are different: those of a later partition are all larger. *)
Lemma monotonic_ids_spec p q ns ms :
  0 <= p < q -> q < 2 ^ 30 - 1 -> Z.of_nat (sum_list ns) <= 2 ^ 33 -> Z.of_nat (sum_list ms) <= 2 ^ 33 ->
  run_ids (from_partition_id p) ns = seqZ (p * 2 ^ 33) (Z.of_nat (sum_list ns)) /\
  StronglySorted Z.lt (run_ids (from_partition_id p) ns ++ run_ids (from_partition_id q) ms).
Proof.
  intros Hpq Hq Hn Hm. assert (forall r ks, 0 <= r < 2 ^ 30 - 1 -> Z.of_nat (sum_list ks) <= 2 ^ 33 ->
    run_ids (from_partition_id r) ks = seqZ (r * 2 ^ 33) (Z.of_nat (sum_list ks))) as Hrun.
  { intros r ks Hr Hk. rewrite run_ids_spec, from_partition_id_offset; rewrite ?from_partition_id_offset by lia; unfold in_s; try done; lia. }
  rewrite !Hrun by lia. split; [done|]. apply StronglySorted_app_2; [|apply seqZ_sorted..].
  intros x y Hx%elem_of_seqZ Hy%elem_of_seqZ. nia.
Qed.

(** C33: The values of [rand] and the ids of [monotonically_increasing_id] do not depend on how the rows of a partition are cut into batches.
    [rand] is one stream, from the seed the Murmur3 hashes of the given seed make, of integers below 2^53 times 2^-53.  The ids are
    consecutive from the first one of the partition, and as long as a partition has at most 2^33 rows and its number is below 2^30 - 1, those
    of a later partition are all larger. *)
Theorem nondeterministic_correct `{F64} :
  (forall seed ns, let ks := unit_stream (sum_list ns) (xor_from_init_seed seed) in
    option_map (concat (A := f64)) (run_batches (G := Z) (rand_new seed) ns) = Some (of_unit <$> ks) /\
    length ks = sum_list ns /\ Forall (fun k => 0 <= k < 2 ^ 53) ks) /\
  (forall p q ns ms, 0 <= p < q -> q < 2 ^ 30 - 1 -> Z.of_nat (sum_list ns) <= 2 ^ 33 -> Z.of_nat (sum_list ms) <= 2 ^ 33 ->
    run_ids (from_partition_id p) ns = seqZ (p * 2 ^ 33) (Z.of_nat (sum_list ns)) /\
    StronglySorted Z.lt (run_ids (from_partition_id p) ns ++ run_ids (from_partition_id q) ms)).
Proof. split; [exact rand_batches_spec|exact monotonic_ids_spec]. Qed.

(** Units as integers, enough of floating point for the stream of [rand] *)
Definition unit_f64 : F64 := {|
  f64 := Z;
  of_unit k := k;
  centered x := 2 * x - 2 ^ 53;
  sum_of_squares x y := x * x + y * y;
  inside_circle s := (s <? 2 ^ 106) && negb (s =? 0);
  multiplier s := s;
  f64_mul x y := x * y;
|}.

Lemma nondeterministic_correct_witness :
  option_map (concat (A := Z)) (@run_batches _ _ _ (@XorShiftRandom unit_f64) (rand_new 42) [1; 2]%nat) = Some (unit_stream 3 (xor_from_init_seed 42)) /\
  run_ids (from_partition_id 0) [2; 3]%nat = [0; 1; 2; 3; 4] /\
  StronglySorted Z.lt (run_ids (from_partition_id 0) [2; 3]%nat ++ run_ids (from_partition_id 1) [1; 0; 2]%nat).
Proof.
  split.
  - etransitivity; [exact (proj1 (proj1 (@nondeterministic_correct unit_f64) 42 [1; 2]%nat))|by vm_compute].
  - apply (proj2 (@nondeterministic_correct unit_f64) 0 1 [2; 3]%nat [1; 0; 2]%nat); cbn; lia.
Defined.
