(* ===== verification/ArrayFns.v ===== *)
(** Array functions (src/native/spark-expr/src/array_funcs): [array_insert], [ListExtract], [array_repeat] and
    [GetArrayStructFields].

    A list array has offsets into its child values and a validity per row; a child value is [None] if it is null.
    [MutableArrayData] is the list of the values it holds. *)

From S2P Require Import Prelude Casts Exprs.
From stdpp Require Import list.
Open Scope Z_scope.

Record ListArray (A : Type) := MkList {
  la_offsets : list nat;
  la_values : list (option A);
  la_value_nulls : bool;  (* the child has a null buffer *)
  la_valid : list bool;
}.
Arguments MkList {A}.
Arguments la_offsets {A}.
Arguments la_values {A}.
Arguments la_value_nulls {A}.
Arguments la_valid {A}.

(** [offsets.windows(2)] *)
Definition windows (offsets : list nat) : list (nat * nat) := zip offsets (tail offsets).

(** [values[start..end]] *)
Definition slice {A} (values : list A) (start end_ : nat) : list A := take (end_ - start) (drop start values).

(** The rows of a list array *)
Definition rows {A} (a : ListArray A) : list (option (list (option A))) :=
  zip_with (fun (w : nat * nat) (valid : bool) => if valid then Some (slice (la_values a) w.1 w.2) else None)
    (windows (la_offsets a)) (la_valid a).

(** [ArrayNativeTypeOp::as_usize] of an [i32] *)
Definition as_usize (z : Z) : Z := wrap 64 z.

Definition MAX_ROUNDED_ARRAY_LENGTH : Z := 2147483632.

Section Insert.
Context {A : Type}.

(** The child values appended for a row, the growth of the offset and the validity *)
Definition Row : Type := list (option A) * nat * bool.

(** [Array::is_null] of the child *)
Definition value_is_null (a : ListArray A) (i : nat) : DFResult bool :=
  if la_value_nulls a then
    match la_values a !! i with Some None => Ok true | Some (Some _) => Ok false | None => Panic end
  else Ok false.

(** The values and the growth for a row that is not null *)
Definition insert_values (legacy_mode : bool) (a : ListArray A) (start end_ : nat) (pos : Z) (item : option A)
    : DFResult (list (option A) * nat) :=
  let values := la_values a in
  let len := Z.of_nat (end_ - start) in
  let neg := swrap 32 (- pos) in
  if (0 <? pos) || (as_usize neg <? len + 1) then
    let corrected_pos := if 0 <? pos then pos - 1 else len - as_usize neg + (if legacy_mode then 0 else 1) in
    let new_array_len := Z.max (len + 1) corrected_pos in
    if MAX_ROUNDED_ARRAY_LENGTH <? new_array_len then Err Internal
    else
      let mid := (start + Z.to_nat corrected_pos)%nat in
      if (mid <=? end_)%nat then
        Ok (slice values start mid ++ [item] ++ slice values mid end_, Z.to_nat new_array_len)
      else
        Ok (slice values start end_ ++ replicate (Z.to_nat (new_array_len - len)) None ++ [item], S (Z.to_nat new_array_len))
  else
    let base_offset := if legacy_mode then 1 else 0 in
    let new_array_len := as_usize (swrap 32 (neg + base_offset)) in
    if MAX_ROUNDED_ARRAY_LENGTH <? new_array_len then Err Internal
    else Ok ([item] ++ replicate (Z.to_nat (new_array_len - (len + 1))) None ++ slice values start end_, Z.to_nat new_array_len).

Definition insert_row (legacy_mode : bool) (a : ListArray A) (items : list (option A)) (pos_data : list Z) (row_index : nat)
    (offset_window : nat * nat) : DFResult Row :=
  let '(start, end_) := offset_window in
  pos ← unwrap (pos_data !! row_index);
  item ← unwrap (items !! row_index);
  valid ← unwrap (la_valid a !! row_index);
  if negb valid then Ok ([None], 1%nat, false)
  else if pos =? 0 then Err Internal
  else
    '(values, grown) ← insert_values legacy_mode a start end_ pos item;
    valid ← (match item with
             | None => if (start =? end_)%nat then Ok false else null ← value_is_null a row_index; Ok (negb null)
             | Some _ => Ok true
             end : DFResult bool);
    Ok (values, grown, valid).

(** The loop over the rows from [row_index] *)
Fixpoint insert_loop (legacy_mode : bool) (a : ListArray A) (items : list (option A)) (pos_data : list Z) (row_index : nat)
    (ws : list (nat * nat)) : DFResult (list Row) :=
  match ws with
  | [] => Ok []
  | w :: ws =>
      row ← insert_row legacy_mode a items pos_data row_index w;
      rest ← insert_loop legacy_mode a items pos_data (S row_index) ws;
      Ok (row :: rest)
  end.

(** [new_offsets] at the width [w] of the offsets, wrapping *)
Fixpoint new_offsets (w : Z) (offset : Z) (rs : list Row) : list Z :=
  offset :: match rs with [] => [] | r :: rs => new_offsets w (swrap w (offset + swrap w (Z.of_nat r.1.2))) rs end.

(** [OffsetBuffer::new] panics unless the offsets start at 0 or more and do not decrease. *)
Fixpoint monotone (prev : Z) (l : list Z) : bool := match l with [] => true | x :: l => (prev <=? x) && monotone x l end.

Definition array_insert (w : Z) (a : ListArray A) (items : list (option A)) (pos_data : list Z) (legacy_mode : bool)
    : DFResult (ListArray A) :=
  rs ← insert_loop legacy_mode a items pos_data 0 (windows (la_offsets a));
  let offsets := new_offsets w 0 rs in
  if monotone 0 offsets then Ok (MkList (Z.to_nat <$> offsets) (rs ≫= fun r => r.1.1) true ((fun r => r.2) <$> rs)) else Panic.
End Insert.

(** * list_extract.rs *)

Definition one_based_index (index : Z) (len : nat) : DFResult (option nat) :=
  if index =? 0 then Err Execution
  else
    let abs_index := as_usize (swrap 32 (Z.abs index)) in
    if abs_index <=? Z.of_nat len then
      if 0 <? index then Ok (Some (Z.to_nat (abs_index - 1))) else Ok (Some (Z.to_nat (Z.of_nat len - abs_index)))
    else Ok None.

Definition zero_based_index (index : Z) (len : nat) : DFResult (option nat) :=
  if index <? 0 then Ok None else if as_usize index <? Z.of_nat len then Ok (Some (Z.to_nat (as_usize index))) else Ok None.

Section Extract.
Context {A : Type} (adjust_index : Z -> nat -> DFResult (option nat)) (fail_on_error : bool) (default_value : option A).

Definition extract_row (a : ListArray A) (row : nat) (offset_window : nat * nat) (index : Z) : DFResult (option A) :=
  let '(start, end_) := offset_window in
  adjusted ← adjust_index index (end_ - start);
  match adjusted with
  | Some i => unwrap (la_values a !! (start + i)%nat)
  | None =>
      valid ← unwrap (la_valid a !! row);
      if negb valid then Ok None else if fail_on_error then Err Execution else Ok default_value
  end.

(** The loop over the offsets zipped with the raw index values *)
Fixpoint extract_loop (a : ListArray A) (row : nat) (ws : list (nat * nat * Z)) : DFResult (list (option A)) :=
  match ws with
  | [] => Ok []
  | (w, index) :: ws => x ← extract_row a row w index; xs ← extract_loop a (S row) ws; Ok (x :: xs)
  end.

Definition list_extract (a : ListArray A) (index_array : PArray) : DFResult (list (option A)) :=
  extract_loop a 0 (zip (windows (la_offsets a)) index_array.*1).
End Extract.

(** [ListExtract::evaluate] on the child, the ordinals and the default value *)
Definition list_extract_evaluate {A} (one_based fail_on_error : bool) (default_value : option A) (a : ListArray A) (index_array : PArray) :=
  list_extract (if one_based then one_based_index else zero_based_index) fail_on_error default_value a index_array.

(** * array_repeat.rs *)

(** Each value repeated; the counts are [u64], their raw values also where they are null.  A slot is null where its count is. *)
Definition general_repeat {A} (array : list (option A)) (count_array : PArray) : option (list (option (list (option A)))) :=
  if (length array <? length count_array)%nat then None
  else Some (zip_with (fun x c => if c.2 : bool then Some (replicate (Z.to_nat (c.1 : Z)) x) else None) array count_array).

(** Lists repeated: no row is null. *)
Definition general_list_repeat {A} (list_array : list (option (list (option A)))) (count_array : PArray)
    : list (option (list (option (list (option A))))) :=
  zip_with (fun x c => Some (replicate (Z.to_nat (c.1 : Z)) x)) list_array count_array.

(** * get_array_struct_fields.rs *)

(** A column of a struct array under the validity of its structs: merged unless the numbers of nulls are equal *)
Definition struct_column {A} (parent_valid : list bool) (column : list (option A)) : list (option A) :=
  if (length (filter (fun v => v = false) parent_valid) =? length (filter (fun x => x = None) column))%nat then column
  else zip_with (fun (v : bool) x => if v then x else None) parent_valid column.

Definition get_array_struct_fields {A} (offsets : list nat) (list_valid : list bool) (parent_valid : list bool) (columns : list (list (option A)))
    (ordinal : nat) : option (ListArray A) :=
  extracted_column ← columns !! ordinal;
  Some (MkList offsets (struct_column parent_valid extracted_column) true list_valid).
