(* ===== verification/ArrayProps.v ===== *)
(** Correctness of the array functions: inserting keeps the rows apart and puts the item where Spark does, extraction finds the
    element of the index; and the rows they get wrong. *)

From S2P Require Import Prelude Lists Casts Exprs ArrayFns.
From stdpp Require Import list.
Open Scope Z_scope.

Section Insert.
Context {A : Type}.
Implicit Types (l : list (option A)) (item : option A).

(** A row with an item inserted at a position from 1, or from the end: beyond the ends the gap is filled with nulls. *)
Definition inserted (legacy_mode : bool) l (pos : Z) item : list (option A) :=
  let len := Z.of_nat (length l) in
  let i := if 0 <? pos then pos - 1 else len + pos + (if legacy_mode then 0 else 1) in
  if (0 <? pos) || (- pos <=? len) then
    take (Z.to_nat i) l ++ replicate (Z.to_nat (i - len)) None ++ [item] ++ drop (Z.to_nat i) l
  else [item] ++ replicate (Z.to_nat (- pos + (if legacy_mode then 1 else 0) - (len + 1))) None ++ l.

(** The length of the result is within Spark's limit. *)
Definition fits (legacy_mode : bool) l (pos : Z) : Prop :=
  let len := Z.of_nat (length l) in
  (if (0 <? pos) then Z.max (len + 1) pos else Z.max (len + 1) (- pos + (if legacy_mode then 1 else 0))) <= MAX_ROUNDED_ARRAY_LENGTH.

Lemma slice_slice (values : list (option A)) start mid end_ : (start <= mid <= end_)%nat ->
  slice values start mid = take (mid - start) (slice values start end_) /\ slice values mid end_ = drop (mid - start) (slice values start end_).
Proof.
  intros. unfold slice. rewrite take_take, skipn_firstn_comm, drop_drop. split; f_equal; try lia. f_equal. lia.
Qed.

Lemma length_slice (values : list (option A)) start end_ : (start <= end_ <= length values)%nat -> length (slice values start end_) = (end_ - start)%nat.
Proof. intros. unfold slice. rewrite length_take, length_drop. lia. Qed.

(** At index [i] of the row, or with a gap behind its end *)
Definition insert_at l (i : Z) item : list (option A) :=
  take (Z.to_nat i) l ++ replicate (Z.to_nat (i - Z.of_nat (length l))) None ++ [item] ++ drop (Z.to_nat i) l.

Lemma insert_at_spec (values : list (option A)) start end_ i item : (start <= end_ <= length values)%nat -> 0 <= i ->
  let l := slice values start end_ in
  let len := Z.of_nat (end_ - start) in
  let n := Z.max (len + 1) i in
  (if (start + Z.to_nat i <=? end_)%nat
   then (slice values start (start + Z.to_nat i) ++ [item] ++ slice values (start + Z.to_nat i) end_, Z.to_nat n)
   else (l ++ replicate (Z.to_nat (n - len)) None ++ [item], S (Z.to_nat n)))
  = (insert_at l i item, length (insert_at l i item)).
Proof.
  intros Hr Hi l len n. pose proof (length_slice _ _ _ Hr) as Hl. fold l in Hl. unfold insert_at. rewrite Hl. fold len.
  rewrite !length_app, length_take, length_replicate, length_drop, Hl. destruct (Nat.leb_spec (start + Z.to_nat i) end_).
  - destruct (slice_slice values start (start + Z.to_nat i) end_) as [-> ->]; [lia|]. fold l.
    replace (start + Z.to_nat i - start)%nat with (Z.to_nat i) by lia. replace (Z.to_nat (i - len)) with 0%nat by lia. f_equal. cbn. lia.
  - rewrite take_ge, drop_ge by lia. rewrite app_nil_r. replace n with i by lia. f_equal. cbn. lia.
Qed.

Lemma insert_values_spec legacy_mode a start end_ pos item :
  (start <= end_ <= length (la_values a))%nat -> pos <> 0 -> in_s 32 pos -> fits legacy_mode (slice (la_values a) start end_) pos ->
  insert_values legacy_mode a start end_ pos item
  = Ok (inserted legacy_mode (slice (la_values a) start end_) pos item, length (inserted legacy_mode (slice (la_values a) start end_) pos item)).
Proof.
  intros Hr Hp Hs Hf. unfold fits, in_s in *. unfold insert_values, inserted, as_usize. pose proof (length_slice _ _ _ Hr) as Hl.
  rewrite Hl in *. set (len := Z.of_nat (end_ - start)) in *. unfold MAX_ROUNDED_ARRAY_LENGTH in *.
  destruct (Z.ltb_spec 0 pos); cbn [orb].
  - rewrite (proj2 (Z.ltb_ge 2147483632 _)) by lia. pose proof (insert_at_spec (la_values a) start end_ (pos - 1) item Hr ltac:(lia)) as Hi.
    cbv zeta in Hi. unfold insert_at in Hi. rewrite Hl in Hi. fold len in Hi. by destruct (_ <=? end_)%nat; f_equal.
  - rewrite (swrap_small 32 (- pos)) by (unfold in_s; destruct legacy_mode; lia). rewrite wrap_small by (unfold in_u; lia).
    replace (- pos <? len + 1) with (- pos <=? len) by (destruct (Z.ltb_spec (- pos) (len + 1)), (Z.leb_spec (- pos) len); lia).
    replace (len - - pos) with (len + pos) by lia. destruct (Z.leb_spec (- pos) len).
    + rewrite (proj2 (Z.ltb_ge 2147483632 _)) by (destruct legacy_mode; lia).
      pose proof (insert_at_spec (la_values a) start end_ (len + pos + (if legacy_mode then 0 else 1)) item Hr ltac:(destruct legacy_mode; lia)) as Hi.
      cbv zeta in Hi. unfold insert_at in Hi. rewrite Hl in Hi. fold len in Hi. by destruct (_ <=? end_)%nat; f_equal.
    + rewrite (swrap_small 32), wrap_small by (unfold in_s, in_u; destruct legacy_mode; lia).
      rewrite (proj2 (Z.ltb_ge 2147483632 _)) by (destruct legacy_mode; lia). do 2 f_equal.
      rewrite !length_app, length_replicate, Hl. cbn. destruct legacy_mode; lia.
Qed.

(** ** Rows *)

Definition list_ok (a : ListArray A) : Prop :=
  Forall (fun w => (w.1 <= w.2 <= length (la_values a))%nat) (windows (la_offsets a)) /\ length (la_valid a) = length (windows (la_offsets a)).

Lemma insert_loop_spec legacy_mode (a : ListArray A) items pos_data (f : nat -> nat * nat -> @Row A) ws i :
  (forall k w, ws !! k = Some w -> insert_row legacy_mode a items pos_data (i + k) w = Ok (f (i + k)%nat w)) ->
  insert_loop legacy_mode a items pos_data i ws = Ok (imap (fun k => f (i + k)%nat) ws).
Proof.
  revert i. induction ws as [|w ws IH]; intros i Hf; [done|]. cbn [insert_loop]. rewrite imap_cons.
  pose proof (Hf 0%nat w eq_refl) as H0. rewrite Nat.add_0_r in H0. rewrite H0. cbn. rewrite (IH (S i)).
  - rewrite Nat.add_0_r. cbn. do 2 f_equal. apply imap_ext. intros k x _. cbn. by rewrite Nat.add_succ_r.
  - intros k x Hk. replace (S i + k)%nat with (i + S k)%nat by lia. by apply Hf.
Qed.

Lemma windows_cons x y (l : list nat) : windows (x :: y :: l) = (x, y) :: windows (y :: l).
Proof. done. Qed.

Definition row_chunk (r : @Row A) : list (option A) := r.1.1.
Definition row_value (r : @Row A) : option (list (option A)) := if r.2 then Some (row_chunk r) else None.

Lemma slice_middle (pre l post : list (option A)) : slice (pre ++ l ++ post) (length pre) (length pre + length l) = l.
Proof. unfold slice. rewrite drop_app_length. replace (_ - _)%nat with (length l) by lia. by rewrite take_app_length. Qed.

(** The new offsets delimit the chunks of the rows. *)
Lemma new_offsets_spec w (rs : list (@Row A)) o :
  0 < w -> Forall (fun r => r.1.2 = length (row_chunk r)) rs -> Z.of_nat (o + length (rs ≫= row_chunk)) < 2 ^ (w - 1) ->
  exists offsets, new_offsets w (Z.of_nat o) rs = Z.of_nat o :: offsets /\ monotone (Z.of_nat o) offsets = true /\
    forall pre, length pre = o ->
      zip_with (fun (x : nat * nat) (valid : bool) => if valid then Some (slice (pre ++ (rs ≫= row_chunk)) x.1 x.2) else None)
        (windows (Z.to_nat <$> (Z.of_nat o :: offsets))) ((fun r => r.2) <$> rs) = row_value <$> rs.
Proof.
  intros Hw. revert o. induction rs as [|r rs IH]; intros o Hlen Ho; [by exists []|]. apply Forall_cons in Hlen as [Hr Hlen].
  cbn [mbind list_bind] in Ho. rewrite length_app in Ho. cbn [new_offsets]. rewrite Hr. assert (forall z, 0 <= z < 2 ^ (w - 1) -> swrap w z = z) as Hsw.
  { intros z Hz. apply swrap_small; [done|]. unfold in_s. lia. }
  rewrite !Hsw by (rewrite ?Hsw; lia). rewrite <- Nat2Z.inj_add.
  destruct (IH (o + length (row_chunk r))%nat Hlen) as (offsets & -> & Hm & Hz); [unfold mbind in *; lia|].
  eexists. split; [done|]. split.
  - cbn [monotone]. rewrite Hm, (proj2 (Z.leb_le _ _)) by lia. done.
  - intros pre Hpre. cbn [fmap list_fmap] in *. rewrite windows_cons. cbn [zip_with]. f_equal.
    + unfold row_value. destruct r.2; [|done]. rewrite !Nat2Z.id, <- Hpre. cbn. f_equal. apply slice_middle.
    + cbn [mbind list_bind]. specialize (Hz (pre ++ row_chunk r)). rewrite <- app_assoc in Hz. apply Hz. rewrite length_app. lia.
Qed.

(** What a row of the arguments gives *)
Definition expected_row (legacy_mode : bool) (row : option (list (option A))) (arg : option A * Z) : option (list (option A)) :=
  (fun l => inserted legacy_mode l arg.2 arg.1) <$> row.

(** The child values a row takes: a null row takes one. *)
Definition row_size (row : option (list (option A))) : nat := match row with Some l => length l | None => 1 end.

(** A row the code accepts: a null row, or a valid position, a result within the limit and an item that is not null *)
Definition insertable (legacy_mode : bool) (row : option (list (option A))) (arg : option A * Z) : Prop :=
  match row with Some l => arg.2 <> 0 /\ in_s 32 arg.2 /\ fits legacy_mode l arg.2 /\ is_Some arg.1 | None => True end.

Definition chunk_of (row : option (list (option A))) : @Row A :=
  match row with Some l => (l, length l, true) | None => ([None], 1%nat, false) end.

Lemma rows_lookup (a : ListArray A) k w : list_ok a -> windows (la_offsets a) !! k = Some w ->
  exists valid : bool, la_valid a !! k = Some valid /\ rows a !! k = Some (if valid then Some (slice (la_values a) w.1 w.2) else None) /\
    (w.1 <= w.2 <= length (la_values a))%nat.
Proof.
  intros [Hw Hv] Hk. destruct (lookup_lt_is_Some_2 (la_valid a) k) as [valid Ev]; [rewrite Hv; by eapply lookup_lt_Some|].
  exists valid. split; [done|]. split; [|by apply (Forall_lookup_1 _ _ _ _ Hw Hk)]. unfold rows. by rewrite lookup_zip_with, Hk, Ev.
Qed.

Lemma length_rows (a : ListArray A) : list_ok a -> length (rows a) = length (windows (la_offsets a)).
Proof. intros [_ Hv]. unfold rows. rewrite length_zip_with, Hv. lia. Qed.

Lemma insert_row_spec legacy_mode (a : ListArray A) items pos_data k w row arg :
  list_ok a -> windows (la_offsets a) !! k = Some w -> rows a !! k = Some row -> items !! k = Some arg.1 -> pos_data !! k = Some arg.2 ->
  insertable legacy_mode row arg -> insert_row legacy_mode a items pos_data k w = Ok (chunk_of (expected_row legacy_mode row arg)).
Proof.
  intros Hok Hw Hrow Hi Hp Hins. destruct (rows_lookup a k w Hok Hw) as (valid & Ev & Er & Hr). rewrite Hrow in Er. apply (inj Some) in Er. subst row.
  destruct w as [start end_]. cbn [fst snd] in *. unfold insert_row. rewrite Hp, Hi, Ev. cbn -[Z.eqb insert_values]. destruct valid; cbn [negb]; [|done].
  destruct Hins as (H0 & Hs & Hf & [x Hx]). rewrite (proj2 (Z.eqb_neq _ _) H0), insert_values_spec by done. cbn. by rewrite Hx.
Qed.

Lemma chunk_lengths (vs : list (option (list (option A)))) : length ((chunk_of <$> vs) ≫= row_chunk) = sum_list (row_size <$> vs).
Proof. induction vs as [|[l|] vs IH]; [done| |]; cbn in *; rewrite ?length_app; [by rewrite IH|by f_equal]. Qed.

(** C21: [array_insert] on columns of lists, positions and items that are not null: each row of the result is the row with its
    item at the position counted from the front or the back, beyond the ends with nulls in the gap, in both modes for negative
    positions; null rows stay null.  The offsets delimit the rows as long as their sum is within the offset type. *)
Theorem array_insert_correct w (a : ListArray A) items pos_data legacy_mode :
  0 < w -> list_ok a -> length items = length (rows a) -> length pos_data = length (rows a) ->
  Forall2 (insertable legacy_mode) (rows a) (zip items pos_data) ->
  let expected := zip_with (expected_row legacy_mode) (rows a) (zip items pos_data) in
  Z.of_nat (sum_list (row_size <$> expected)) < 2 ^ (w - 1) ->
  exists res, array_insert w a items pos_data legacy_mode = Ok res /\ rows res = expected.
Proof.
  intros Hw Hok Hi Hp Hins expected Hsum. pose proof (length_rows a Hok) as Hlen. unfold array_insert.
  assert (length expected = length (rows a)) as He by (unfold expected; rewrite length_zip_with, length_zip; lia).
  rewrite (insert_loop_spec _ _ _ _ (fun k _ => chunk_of (default None (expected !! k)))).
  2:{ intros k x Hk. destruct (lookup_lt_is_Some_2 (rows a) k) as [row Er]; [rewrite Hlen; by eapply lookup_lt_Some|].
    destruct (Forall2_lookup_l _ _ _ _ _ Hins Er) as ([item pos] & Earg & Hrow). cbn [Nat.add]. unfold expected. rewrite lookup_zip_with, Er, Earg. cbn.
    apply lookup_zip_Some in Earg as [Ei Ep]. by eapply insert_row_spec. }
  assert (imap (fun (k : nat) (_ : nat * nat) => chunk_of (default None (expected !! (0 + k)%nat))) (windows (la_offsets a)) = chunk_of <$> expected) as ->.
  { apply list_eq. intros k. rewrite list_lookup_imap, list_lookup_fmap. destruct (expected !! k) eqn:E; cbn; rewrite E.
    - destruct (lookup_lt_is_Some_2 (windows (la_offsets a)) k) as [x ->]; [rewrite <- Hlen, <- He; by eapply lookup_lt_Some|done].
    - rewrite (proj2 (lookup_ge_None _ k)); [done|]. apply lookup_ge_None in E. lia. }
  cbn [mbind result_bind]. destruct (new_offsets_spec w (chunk_of <$> expected) 0 Hw) as (offsets & Eo & Hm & Hz).
  - apply Forall_fmap, Forall_forall. by intros [l|] _.
  - by rewrite chunk_lengths.
  - change (Z.of_nat 0) with 0 in *. rewrite Eo. cbn [monotone]. change (0 <=? 0) with true. rewrite Hm. cbn [andb]. eexists. split; [done|].
    unfold rows. cbn [la_offsets la_values la_valid]. etrans; [apply (Hz [] eq_refl)|]. rewrite <- list_fmap_compose.
    rewrite <- (list_fmap_id expected) at 2. apply list_fmap_ext. by intros k [l|] _.
Qed.
End Insert.

(** Rows [1; 2], null and []: at 2, at 1 and, with a gap, at 3; -4 puts the item in front with a gap. *)
Definition example_list : ListArray Z := MkList [0; 2; 2; 2; 3]%nat [Some 1; Some 2; Some 7] false [true; false; true; true].

Lemma array_insert_correct_witness :
  exists res, array_insert 32 example_list [Some 5; Some 6; Some 8; Some 9] [2; 1; 3; -4] false = Ok res /\
    rows res = [Some [Some 1; Some 5; Some 2]; None; Some [None; None; Some 8]; Some [Some 9; None; None; Some 7]].
Proof.
  apply (array_insert_correct 32 example_list [Some 5; Some 6; Some 8; Some 9] [2; 1; 3; -4] false); [lia|split; [repeat constructor; cbn; lia|done]|done..| |done].
  repeat constructor; cbn; unfold in_s, fits, MAX_ROUNDED_ARRAY_LENGTH; cbn; try lia; by eexists.
Defined.

(** ** Rows the code gets wrong *)

(** A null item inserted into an empty list makes the row null. *)
Lemma insert_null_into_empty :
  exists res, array_insert 32 (MkList [0; 0]%nat ([] : list (option Z)) false [true]) [None] [1] false = Ok res /\ rows res = [None].
Proof. eexists. by split. Qed.

(** A null item makes row 1 null or not by the child value 1, which belongs to row 0. *)
Lemma insert_null_reads_other_row (x : option Z) :
  exists res, array_insert 32 (MkList [0; 2; 3]%nat [Some 1; x; Some 3] true [true; true]) [Some 9; None] [1; 1] false = Ok res /\
    rows res !! 1%nat = Some (match x with Some _ => Some [None; Some 3] | None => None end).
Proof. destruct x; eexists; by split. Qed.

(** * Extraction *)

Section Extract.
Context {A : Type}.

(** The element an index denotes, if there is one *)
Definition element (one_based : bool) (l : list (option A)) (index : Z) : option (option A) :=
  let i := if one_based then if 0 <? index then index - 1 else Z.of_nat (length l) + index else index in
  if i <? 0 then None else l !! Z.to_nat i.

Lemma adjust_index_spec one_based (l : list (option A)) index :
  in_s 32 index -> (one_based = true -> index <> 0) -> Z.of_nat (length l) < 2 ^ 31 ->
  exists o, (if one_based then one_based_index else zero_based_index) index (length l) = Ok o /\
    (forall i, o = Some i -> (i < length l)%nat) /\ element one_based l index = (o ≫= fun i => l !! i).
Proof.
  intros Hs H0 Hl. unfold in_s in Hs. unfold element, one_based_index, zero_based_index, as_usize. destruct one_based.
  - specialize (H0 eq_refl). rewrite (proj2 (Z.eqb_neq _ _) H0). destruct (Z.eq_dec index (- 2 ^ 31)) as [->|].
    + change (wrap 64 (swrap 32 (Z.abs (- 2 ^ 31)))) with (2 ^ 64 - 2 ^ 31). rewrite (proj2 (Z.leb_gt _ _)) by lia. eexists. split; [done|]. split; [done|].
      change (0 <? - 2 ^ 31) with false. by rewrite (proj2 (Z.ltb_lt _ 0)) by lia.
    + rewrite swrap_small, wrap_small by (unfold in_s, in_u; lia). destruct (Z.leb_spec (Z.abs index) (Z.of_nat (length l))), (Z.ltb_spec 0 index);
        eexists; (split; [done|]); (split; [intros ? [= <-] || done; lia|]).
      * rewrite (proj2 (Z.ltb_ge _ 0)), Z.abs_eq by lia. done.
      * rewrite (proj2 (Z.ltb_ge _ 0)) by lia. cbn. f_equal. lia.
      * rewrite (proj2 (Z.ltb_ge _ 0)) by lia. apply lookup_ge_None. lia.
      * by rewrite (proj2 (Z.ltb_lt _ 0)) by lia.
  - destruct (Z.ltb_spec index 0); [by eexists|]. rewrite wrap_small by (unfold in_u; lia).
    destruct (Z.ltb_spec index (Z.of_nat (length l))); eexists; (split; [done|]); (split; [intros ? [= <-] || done; lia|done || apply lookup_ge_None; lia]).
Qed.

Lemma lookup_slice (values : list (option A)) start end_ i : (i < end_ - start)%nat -> slice values start end_ !! i = values !! (start + i)%nat.
Proof. intros. unfold slice. rewrite lookup_take_lt by done. apply lookup_drop. Qed.

(** The value of a row: null for a null row, the default for an index out of bounds *)
Definition extracted (one_based : bool) (default_value : option A) (row : option (list (option A))) (index : Z) : option A :=
  match row with Some l => default default_value (element one_based l index) | None => None end.

(** Indexes the code accepts, on rows that take no child values if they are null *)
Definition extractable (one_based : bool) (a : ListArray A) (w : nat * nat * Z) : Prop :=
  Z.of_nat (w.1.2 - w.1.1) < 2 ^ 31 /\ in_s 32 w.2 /\ (one_based = true -> w.2 <> 0).
Definition null_rows_empty (a : ListArray A) : Prop :=
  forall k w, windows (la_offsets a) !! k = Some w -> la_valid a !! k = Some false -> w.1 = w.2.

Lemma extract_row_spec one_based default_value a k w index row :
  list_ok a -> null_rows_empty a -> windows (la_offsets a) !! k = Some w -> rows a !! k = Some row ->
  extractable one_based a (w, index) ->
  extract_row (if one_based then one_based_index else zero_based_index) false default_value a k w index
  = Ok (extracted one_based default_value row index).
Proof.
  intros Hok Hnull Hw Hrow (Hlen & Hs & H0). destruct (rows_lookup a k w Hok Hw) as (valid & Ev & Er & Hr). rewrite Hrow in Er.
  apply (inj Some) in Er. subst row. destruct w as [start end_]. cbn [fst snd] in *. pose proof (length_slice _ _ _ Hr) as Hl.
  destruct (adjust_index_spec one_based (slice (la_values a) start end_) index Hs H0) as (o & Eo & Hi & Ee); [lia|].
  unfold extract_row. rewrite Hl in *. rewrite Eo. cbn [mbind result_bind]. destruct o as [i|].
  - specialize (Hi i eq_refl). destruct valid; [|specialize (Hnull _ _ Hw Ev); cbn in Hnull; lia].
    cbn [extracted]. rewrite Ee. cbn. rewrite lookup_slice by done. destruct (la_values a !! (start + i)%nat) eqn:E; [done|]. apply lookup_ge_None in E. lia.
  - rewrite Ev. cbn. destruct valid; [|done]. cbn. by rewrite Ee.
Qed.

Lemma extract_loop_spec one_based default_value (a : ListArray A) ws rs idx i :
  list_ok a -> null_rows_empty a ->
  (forall k w, ws !! k = Some w -> windows (la_offsets a) !! (i + k)%nat = Some w) ->
  (forall k r, rs !! k = Some r -> rows a !! (i + k)%nat = Some r) -> length rs = length ws -> Forall (extractable one_based a) (zip ws idx) ->
  extract_loop (if one_based then one_based_index else zero_based_index) false default_value a i (zip ws idx)
  = Ok (zip_with (extracted one_based default_value) rs idx).
Proof.
  intros Hok Hnull. revert rs idx i. induction ws as [|w ws IH]; intros [|r rs] [|x idx] i Hw Hr Hlen He; try done.
  cbn [zip zip_with extract_loop]. apply Forall_cons in He as [He1 He2].
  pose proof (Hw 0%nat w eq_refl) as Hw0. pose proof (Hr 0%nat r eq_refl) as Hr0. rewrite Nat.add_0_r in *.
  rewrite (extract_row_spec one_based default_value a i w x r) by done. cbn. rewrite (IH rs idx (S i)); [done| | |by injection Hlen|done].
  - intros k y Hk. replace (S i + k)%nat with (i + S k)%nat by lia. by apply Hw.
  - intros k y Hk. replace (S i + k)%nat with (i + S k)%nat by lia. by apply Hr.
Qed.

(** Element extraction with one-based (from either end) or zero-based indexes that are not null: every row gives the element
    at the index, null if the row is null, and the default value if the index is out of bounds. *)
Theorem list_extract_correct one_based default_value (a : ListArray A) index_array :
  list_ok a -> null_rows_empty a -> Forall (extractable one_based a) (zip (windows (la_offsets a)) index_array.*1) ->
  list_extract_evaluate one_based false default_value a index_array
  = Ok (zip_with (extracted one_based default_value) (rows a) index_array.*1).
Proof. intros Hok Hnull Hx. apply extract_loop_spec; try done. by apply length_rows. Qed.
End Extract.

Lemma list_extract_correct_witness :
  list_extract_evaluate true false (Some 0) example_list [(-1, true); (1, true); (1, true); (1, true)] = Ok [Some 2; None; Some 0; Some 7].
Proof.
  apply (list_extract_correct true (Some 0) example_list [(-1, true); (1, true); (1, true); (1, true)]).
  - split; [repeat constructor; cbn; lia|done].
  - intros [|[|[|[|k]]]] w Hw Hv; cbn in Hw, Hv; simplify_eq; done.
  - repeat constructor; cbn; unfold in_s; cbn; lia.
Defined.

(** A null index with the raw value 0 denotes the first element, or, one-based, is an error. *)
Lemma extract_null_index :
  list_extract_evaluate false false None example_list [(0, false)] = Ok [Some 1] /\
  list_extract_evaluate true false None example_list [(0, false)] = Err Execution.
Proof. done. Qed.

(** * Repetition and struct fields *)

(** A null count makes the row null for values, and a list of the raw count for lists. *)
Lemma repeat_null_count (x : option Z) (y : option (list (option Z))) n :
  general_repeat [x] [(n, false)] = Some [None] /\ general_list_repeat [y] [(n, false)] = [Some (replicate (Z.to_nat n) y)].
Proof. done. Qed.

(** If as many structs as values of a column are null, the nulls of the structs are dropped. *)
Lemma struct_nulls_dropped (x : Z) : struct_column [false; true] [Some x; None] = [Some x; None].
Proof. done. Qed.

(** Otherwise a value is null if it or its struct is. *)
Lemma struct_column_spec {A} (parent_valid : list bool) (column : list (option A)) :
  length (filter (fun v => v = false) parent_valid) <> length (filter (fun x => x = None) column) ->
  struct_column parent_valid column = zip_with (fun (v : bool) x => if v then x else None) parent_valid column.
Proof. intros. unfold struct_column. by rewrite (proj2 (Nat.eqb_neq _ _)). Qed.
