(* ===== verification/StringFns.v ===== *)
(** String functions: padding (src/native/spark-expr/src/static_invoke/char_varchar_utils/read_side_padding.rs), [string_space]
    (string_funcs/string_space.rs) and [substring] (kernels/strings.rs, string_funcs/substring.rs).

    A string is the list of its characters, as in Casts.v. *)

From S2P Require Import Prelude Casts Exprs.
From stdpp Require Import list strings.
Open Scope Z_scope.

(** The columns the functions distinguish; a dictionary has [i32] keys. *)
Inductive Column :=
  | Utf8 (a : list (option text))
  | LargeUtf8 (a : list (option text))
  | Binary (a : list (option (list Z)))
  | LargeBinary (a : list (option (list Z)))
  | Int32Column (a : PArray)
  | DictionaryColumn (keys : list (option Z)) (values : Column)
  | OtherColumn.

Inductive StringArg := ArrayArg (a : Column) | Int32Arg (v : option Z) | Utf8Arg (s : option text) | OtherArg.

(** * read_side_padding.rs *)

Definition SPACE : text := codes " ".

(** [string[..idx]], which panics inside a character *)
Fixpoint byte_prefix (s : text) (idx : nat) : option text :=
  match idx with
  | O => Some []
  | _ => match s with
         | [] => None
         | c :: s => if (len_utf8 c <=? idx)%nat then rest ← byte_prefix s (idx - len_utf8 c); Some (c :: rest) else None
         end
  end.

(** [pad_string.chars().cycle().take(n)]; [rest] is what is left of the current round *)
Fixpoint cycle_take (pad_string rest : text) (n : nat) : text :=
  match n with
  | O => []
  | S n =>
      match rest with
      | c :: rest => c :: cycle_take pad_string rest n
      | [] => match pad_string with [] => [] | c :: rest => c :: cycle_take pad_string rest n end
      end
  end.

(** Collecting more characters than a [String] can hold panics. *)
Definition add_padding_string (string : text) (len : Z) (truncate : bool) (pad_string : text) (is_left_pad : bool) : DFResult text :=
  let char_len := Z.of_nat (length string) in
  if len <=? char_len then
    if truncate then
      let idx := match char_indices 0 string !! Z.to_nat len with Some (i, _) => i | None => str_len string end in
      unwrap (byte_prefix string idx)
    else Ok string
  else if (2 ^ 63 <=? len - char_len) && negb (bool_decide (pad_string = [])) then Panic
  else
    let pad := cycle_take pad_string pad_string (Z.to_nat (len - char_len)) in
    Ok (if is_left_pad then pad ++ string else string ++ pad).

(** The loop over a column with one length per row: a null length of a valid string panics, a negative one
    is a huge [usize]. *)
Fixpoint pad_rows (truncate : bool) (pad_string : text) (is_left_pad : bool) (strings : list (option text)) (lengths : list (option Z))
    : DFResult (list (option text)) :=
  match strings, lengths with
  | Some s :: strings, len :: lengths =>
      len ← unwrap len;
      x ← add_padding_string s (wrap 64 len) truncate pad_string is_left_pad;
      xs ← pad_rows truncate pad_string is_left_pad strings lengths; Ok (Some x :: xs)
  | None :: strings, _ :: lengths => xs ← pad_rows truncate pad_string is_left_pad strings lengths; Ok (None :: xs)
  | _, _ => Ok []
  end.

Definition pad_row (len : Z) (truncate : bool) (pad_string : text) (is_left_pad : bool) (s : option text) : DFResult (option text) :=
  match s with Some s => x ← add_padding_string s len truncate pad_string is_left_pad; Ok (Some x) | None => Ok None end.

(** [as_generic_string_array] with [i64] or [i32] offsets *)
Definition as_string_array (large : bool) (array : Column) : DFResult (list (option text)) :=
  match array with
  | Utf8 a => if large then Err Internal else Ok a
  | LargeUtf8 a => if large then Ok a else Err Internal
  | _ => Err Internal
  end.

Definition string_column (large : bool) (a : list (option text)) : Column := if large then LargeUtf8 a else Utf8 a.

Definition spark_read_side_padding_internal (large : bool) (array : Column) (truncate : bool) (pad_type : StringArg) (pad_string : text)
    (is_left_pad : bool) : DFResult Column :=
  string_array ← as_string_array large array;
  match pad_type with
  | ArrayArg (Int32Column lengths) =>
      xs ← pad_rows truncate pad_string is_left_pad string_array (slot_value <$> lengths);
      Ok (string_column large xs)
  | ArrayArg _ => Panic
  | Int32Arg (Some n) =>
      xs ← mapM (pad_row (Z.max 0 n) truncate pad_string is_left_pad) string_array;
      Ok (string_column large xs)
  | _ => Err Internal
  end.

(** The dictionary arms: they pad the values with spaces. *)
Definition pad_dictionary (keys : list (option Z)) (values : Column) (truncate : bool) (n : Z) (is_left_pad : bool) : DFResult Column :=
  values ← spark_read_side_padding_internal (match values with Utf8 _ => false | _ => true end) values truncate (Int32Arg (Some n)) SPACE is_left_pad;
  Ok (DictionaryColumn keys values).

Definition spark_read_side_padding2 (args : list StringArg) (truncate is_left_pad : bool) : DFResult Column :=
  match args with
  | [ArrayArg array; Int32Arg (Some n)] =>
      match array with
      | Utf8 _ => spark_read_side_padding_internal false array truncate (Int32Arg (Some n)) SPACE is_left_pad
      | LargeUtf8 _ => spark_read_side_padding_internal true array truncate (Int32Arg (Some n)) SPACE is_left_pad
      | DictionaryColumn keys values => pad_dictionary keys values truncate n is_left_pad
      | _ => Err Internal
      end
  | [ArrayArg array; Int32Arg (Some n); Utf8Arg (Some string)] =>
      match array with
      | Utf8 _ => spark_read_side_padding_internal false array truncate (Int32Arg (Some n)) string is_left_pad
      | LargeUtf8 _ => spark_read_side_padding_internal true array truncate (Int32Arg (Some n)) string is_left_pad
      | DictionaryColumn keys values => pad_dictionary keys values truncate n is_left_pad
      | _ => Err Internal
      end
  | [ArrayArg array; ArrayArg array_int] =>
      match array with
      | Utf8 _ => spark_read_side_padding_internal false array truncate (ArrayArg array_int) SPACE is_left_pad
      | LargeUtf8 _ => spark_read_side_padding_internal true array truncate (ArrayArg array_int) SPACE is_left_pad
      | _ => Err Internal
      end
  | [ArrayArg array; ArrayArg array_int; Utf8Arg (Some string)] =>
      match array with
      | Utf8 _ => spark_read_side_padding_internal false array truncate (ArrayArg array_int) string is_left_pad
      | LargeUtf8 _ => spark_read_side_padding_internal true array truncate (ArrayArg array_int) string is_left_pad
      | _ => Err Internal
      end
  | _ => Err Internal
  end.

Definition spark_read_side_padding (args : list StringArg) : DFResult Column := spark_read_side_padding2 args false false.
Definition spark_rpad (args : list StringArg) : DFResult Column := spark_read_side_padding2 args true false.
Definition spark_lpad (args : list StringArg) : DFResult Column := spark_read_side_padding2 args true true.

(** * string_space.rs *)

(** The offsets of the result; a length that is no [i32] panics. *)
Fixpoint space_offsets (length_so_far : Z) (lengths : list Z) : option (list Z) :=
  match lengths with
  | [] => Some [length_so_far]
  | l :: lengths =>
      let current_len := wrap 64 l in
      if current_len <? 2 ^ 31 then rest ← space_offsets (swrap 32 (length_so_far + current_len)) lengths; Some (length_so_far :: rest) else None
  end.

(** The offsets and the number of blanks of the value buffer, and the validity *)
Definition generic_string_space (lengths : PArray) : option (list Z * Z * list bool) :=
  let total := wrap 64 (foldr (fun l n => wrap 64 l + n) 0 lengths.*1) in
  offsets ← space_offsets 0 lengths.*1;
  Some (offsets, total, lengths.*2).

(** The strings of the result *)
Definition space_rows (r : list Z * Z * list bool) : list (option text) :=
  zip_with (fun (w : Z * Z) (valid : bool) => if valid then Some (replicate (Z.to_nat (w.2 - w.1)) 32) else None)
    (zip r.1.1 (tail r.1.1)) r.2.

Fixpoint string_space (array : Column) : DFResult Column :=
  match array with
  | Int32Column a => r ← unwrap (generic_string_space a); Ok (Utf8 (space_rows r))
  | DictionaryColumn keys values => values ← string_space values; Ok (DictionaryColumn keys values)
  | _ => Err Execution
  end.

Definition spark_string_space (arg : StringArg) : DFResult Column := match arg with ArrayArg a => string_space a | _ => Err Execution end.

(** * kernels/strings.rs *)

(** Arrow's [substring_by_char] and [substring] of bytes *)
Class SubstringKernels := {
  substring_by_char : list (option text) -> Z -> Z -> DFResult (list (option text));
  arrow_substring : list (option (list Z)) -> Z -> Z -> DFResult (list (option (list Z)));
}.

Fixpoint substring `{SubstringKernels} (array : Column) (start length : Z) : DFResult Column :=
  match array with
  | LargeUtf8 a => t ← substring_by_char a start length; Ok (LargeUtf8 t)
  | Utf8 a => t ← substring_by_char a start length; Ok (Utf8 t)
  | Binary a => t ← arrow_substring a start length; Ok (Binary t)
  | LargeBinary a => t ← arrow_substring a start length; Ok (LargeBinary t)
  | DictionaryColumn keys values => values ← substring values start length; Ok (DictionaryColumn keys values)
  | _ => Panic
  end.

Definition substring_evaluate `{SubstringKernels} (start len : Z) (arg : StringArg) : DFResult Column :=
  match arg with ArrayArg a => substring a start len | _ => Err Execution end.
