(* ===== verification/StringProps.v ===== *)
(** Padding counts characters and cuts or fills to the requested length; blanks are counted per row; and the arguments the
    string functions reject or ignore. *)

From S2P Require Import Prelude Lists Casts CastProps Exprs StringFns.
From stdpp Require Import list strings.
Open Scope Z_scope.

(** * Cutting at a character *)

Lemma byte_prefix_all s : byte_prefix s (str_len s) = Some s.
Proof.
  induction s as [|c s IH]; [done|]. pose proof (len_utf8_pos c). change (str_len (c :: s)) with (len_utf8 c + str_len s)%nat.
  destruct (len_utf8 c + str_len s)%nat eqn:E; [lia|]. cbn [byte_prefix]. rewrite <- E. rewrite (proj2 (Nat.leb_le _ _)) by lia.
  replace (_ + _ - _)%nat with (str_len s) by lia. by rewrite IH.
Qed.

(** The byte offset of character [n], shifted, is a boundary. *)
Lemma byte_prefix_index s n off i c : char_indices off s !! n = Some (i, c) -> (off <= i)%nat /\ byte_prefix s (i - off) = Some (take n s).
Proof.
  revert n off. induction s as [|x s IH]; intros [|n] off E; cbn in E; try done.
  - apply (inj Some) in E. injection E as -> ->. rewrite Nat.sub_diag. done.
  - apply IH in E as [Hle Hp]. pose proof (len_utf8_pos x). split; [lia|]. destruct (i - off)%nat eqn:Ei; [lia|]. cbn [byte_prefix]. rewrite <- Ei.
    rewrite (proj2 (Nat.leb_le _ _)) by lia. replace (i - off - len_utf8 x)%nat with (i - (off + len_utf8 x))%nat by lia. by rewrite Hp.
Qed.

Lemma length_char_indices off s : length (char_indices off s) = length s.
Proof. revert off. induction s as [|c s IH]; intros off; cbn; by f_equal. Qed.

Lemma truncated_spec s n :
  byte_prefix s (match char_indices 0 s !! n with Some (i, _) => i | None => str_len s end) = Some (take n s).
Proof.
  destruct (char_indices 0 s !! n) as [[i c]|] eqn:E.
  - apply byte_prefix_index in E as [_ Hp]. by rewrite Nat.sub_0_r in Hp.
  - apply lookup_ge_None in E. rewrite length_char_indices in E. rewrite take_ge by done. apply byte_prefix_all.
Qed.

(** * Filling *)

(** The first [n] characters of the pad string repeated *)
Definition fill (pad_string : text) (n : nat) : text := take n (mjoin (replicate n pad_string)).

Lemma repeat_succ (pad : text) m : mjoin (replicate (S m) pad) = pad ++ mjoin (replicate m pad).
Proof. done. Qed.

Lemma cycle_take_app pad rest n : cycle_take pad rest n = take n rest ++ cycle_take pad [] (n - length rest).
Proof.
  revert n. induction rest as [|c rest IH]; intros [|n]; cbn [cycle_take take length Nat.sub app]; try done. by rewrite IH.
Qed.

Lemma cycle_take_fill pad n : cycle_take pad pad n = fill pad n.
Proof.
  destruct (decide (pad = [])) as [->|Hpad].
  { unfold fill. replace (mjoin (replicate n [])) with (@nil Z) by (by induction n). by destruct n. }
  assert (forall m, (n <= m)%nat -> cycle_take pad [] n = take n (mjoin (replicate m pad))) as Hf.
  { induction n as [n IH] using lt_wf_ind. intros m Hm. destruct n as [|n]; [done|]. destruct m as [|m]; [lia|].
    assert (cycle_take pad [] (S n) = cycle_take pad pad (S n)) as -> by (by destruct pad). rewrite cycle_take_app.
    rewrite repeat_succ, take_app. f_equal. destruct pad; [done|]. apply IH; cbn [length]; lia. }
  unfold fill. destruct pad as [|c pad]; [done|]. rewrite <- (Hf n) by lia. by destruct n.
Qed.

Lemma length_fill pad n : pad <> [] -> length (fill pad n) = n.
Proof.
  intros Hpad. unfold fill. rewrite length_take. apply Nat.min_l.
  induction n as [|n IH]; [lia|]. rewrite repeat_succ, length_app.
  assert (0 < length pad)%nat by (destruct pad; [done|cbn; lia]). lia.
Qed.

(** * Padding *)

Definition padded (truncate is_left_pad : bool) (pad_string : text) (n : Z) (s : text) : text :=
  if n <=? Z.of_nat (length s) then if truncate then take (Z.to_nat n) s else s
  else let p := fill pad_string (Z.to_nat n - length s) in if is_left_pad then p ++ s else s ++ p.

Lemma add_padding_string_spec s n truncate pad_string is_left_pad : 0 <= n < 2 ^ 63 ->
  add_padding_string s n truncate pad_string is_left_pad = Ok (padded truncate is_left_pad pad_string n s).
Proof.
  intros Hn. unfold add_padding_string, padded. destruct (Z.leb_spec n (Z.of_nat (length s))).
  - destruct truncate; [|done]. by rewrite truncated_spec.
  - rewrite (proj2 (Z.leb_gt (2 ^ 63) _)) by lia. cbn [andb]. rewrite cycle_take_fill.
    by replace (Z.to_nat (n - Z.of_nat (length s))) with (Z.to_nat n - length s)%nat by lia.
Qed.

Lemma length_padded truncate is_left_pad pad_string n s : 0 <= n -> pad_string <> [] ->
  Z.of_nat (length (padded truncate is_left_pad pad_string n s)) = if truncate then n else Z.max n (Z.of_nat (length s)).
Proof.
  intros Hn Hp. unfold padded. destruct (Z.leb_spec n (Z.of_nat (length s))).
  - destruct truncate; [rewrite length_take|]; lia.
  - destruct is_left_pad; rewrite length_app, length_fill by done; destruct truncate; lia.
Qed.

Lemma as_string_column large a : as_string_array large (string_column large a) = Ok a.
Proof. by destruct large. Qed.

Lemma padding_internal_scalar large a truncate n pad_string is_left_pad : n < 2 ^ 31 ->
  spark_read_side_padding_internal large (string_column large a) truncate (Int32Arg (Some n)) pad_string is_left_pad
  = Ok (string_column large (option_map (padded truncate is_left_pad pad_string (Z.max 0 n)) <$> a)).
Proof.
  intros Hn. unfold spark_read_side_padding_internal. rewrite as_string_column. cbn [mbind result_bind]. rewrite (mapM_Ok _ (option_map (padded truncate is_left_pad pad_string (Z.max 0 n)))); [done|].
  intros [s|] _; [|done]. cbn. rewrite add_padding_string_spec by lia. done.
Qed.

(** A row and its length: the string is null, or the length is valid and not negative. *)
Definition paddable (row : option text) (len : option Z) : Prop := match row with Some _ => exists n, len = Some n /\ 0 <= n < 2 ^ 31 | None => True end.

Lemma pad_rows_spec truncate pad_string is_left_pad strings lengths : Forall2 paddable strings lengths ->
  pad_rows truncate pad_string is_left_pad strings lengths
  = Ok (zip_with (fun s n => option_map (padded truncate is_left_pad pad_string (default 0 n)) s) strings lengths).
Proof.
  induction 1 as [|[s|] len strings lengths Hp _ IH]; [done| |]; cbn [pad_rows zip_with].
  - destruct Hp as (n & -> & Hn). cbn. rewrite wrap_small by (unfold in_u; lia). rewrite add_padding_string_spec by lia. cbn. by rewrite IH.
  - by rewrite IH.
Qed.

(** The arguments after the length: a pad string, or none, which stands for a blank *)
Definition pad_args (pad_string : option text) : list StringArg := match pad_string with Some s => [Utf8Arg (Some s)] | None => [] end.

(** C36: [lpad], [rpad] and the padding of char columns, with a pad string or without (blanks).  For a plain column of strings every string is cut
    (where the function cuts) or filled on its side with the pad string repeated, up to the length in characters, where a negative
    length for all rows counts as 0 and the lengths per row must be neither null nor negative at rows that are not null; nulls stay null.
    A dictionary has its values padded with blanks, whatever the pad string, and keeps its keys.  If the pad string is not empty, a
    padded string has exactly the length, or its own if that is larger and nothing is cut. *)
Theorem padding_correct large a truncate is_left_pad pad_string :
  let pad := default SPACE pad_string in
  (forall n, n < 2 ^ 31 ->
    spark_read_side_padding2 (ArrayArg (string_column large a) :: Int32Arg (Some n) :: pad_args pad_string) truncate is_left_pad
    = Ok (string_column large (option_map (padded truncate is_left_pad pad (Z.max 0 n)) <$> a))) /\
  (forall keys n, n < 2 ^ 31 ->
    spark_read_side_padding2 (ArrayArg (DictionaryColumn keys (string_column large a)) :: Int32Arg (Some n) :: pad_args pad_string) truncate is_left_pad
    = Ok (DictionaryColumn keys (string_column large (option_map (padded truncate is_left_pad SPACE (Z.max 0 n)) <$> a)))) /\
  (forall lengths, Forall2 paddable a (slot_value <$> lengths) ->
    spark_read_side_padding2 (ArrayArg (string_column large a) :: ArrayArg (Int32Column lengths) :: pad_args pad_string) truncate is_left_pad
    = Ok (string_column large
        (zip_with (fun s n => option_map (padded truncate is_left_pad pad (default 0 n)) s) a (slot_value <$> lengths)))) /\
  (forall n s, 0 <= n -> pad <> [] ->
    Z.of_nat (length (padded truncate is_left_pad pad n s)) = if truncate then n else Z.max n (Z.of_nat (length s))).
Proof.
  intros pad. split_and!.
  - intros n Hn. rewrite <- padding_internal_scalar by done. by destruct large, pad_string.
  - intros keys n Hn. transitivity (pad_dictionary keys (string_column large a) truncate n is_left_pad); [by destruct pad_string|].
    unfold pad_dictionary. transitivity (values ← spark_read_side_padding_internal large (string_column large a) truncate (Int32Arg (Some n)) SPACE is_left_pad;
      Ok (DictionaryColumn keys values) : DFResult Column); [by destruct large|]. by rewrite padding_internal_scalar.
  - intros lengths Hl. transitivity (spark_read_side_padding_internal large (string_column large a) truncate (ArrayArg (Int32Column lengths)) pad is_left_pad);
      [by destruct large, pad_string|]. unfold spark_read_side_padding_internal. rewrite as_string_column. cbn [mbind result_bind]. by rewrite pad_rows_spec.
  - intros n s. apply length_padded.
Qed.

Lemma padding_correct_witness :
  spark_rpad [ArrayArg (Utf8 [Some (codes "abc"); None; Some [128512]]); Int32Arg (Some 2); Utf8Arg (Some (codes "xy"))]
  = Ok (Utf8 [Some (codes "ab"); None; Some [128512; 120]]) /\
  spark_read_side_padding [ArrayArg (Utf8 [Some (codes "abc"); None]); Int32Arg (Some 5)] = Ok (Utf8 [Some (codes "abc  "); None]) /\
  spark_lpad [ArrayArg (Utf8 [Some (codes "abc"); None]); ArrayArg (Int32Column [(6, true); (0, false)]); Utf8Arg (Some (codes "xy"))]
  = Ok (Utf8 [Some (codes "xyxabc"); None]).
Proof.
  split; [|split].
  - exact (proj1 (padding_correct false [Some (codes "abc"); None; Some [128512]] true false (Some (codes "xy"))) 2 eq_refl).
  - exact (proj1 (padding_correct false [Some (codes "abc"); None] false false None) 5 eq_refl).
  - apply (proj1 (proj2 (proj2 (padding_correct false [Some (codes "abc"); None] true true (Some (codes "xy"))))) [(6, true); (0, false)]).
    repeat constructor. exists 6. split; [done|lia].
Defined.

(** A negative length as a [usize] *)
Lemma wrap_negative n : - 2 ^ 64 <= n < 0 -> wrap 64 n = n + 2 ^ 64.
Proof. intros. unfold wrap. symmetry. apply (Z.mod_unique_pos _ _ (-1)); lia. Qed.

(** ** Arguments the padding functions treat differently *)

(** The pad string is ignored for a dictionary. *)
Lemma dictionary_pad_string_ignored keys values n pad_string truncate is_left_pad :
  spark_read_side_padding2 [ArrayArg (DictionaryColumn keys values); Int32Arg (Some n); Utf8Arg (Some pad_string)] truncate is_left_pad
  = spark_read_side_padding2 [ArrayArg (DictionaryColumn keys values); Int32Arg (Some n)] truncate is_left_pad.
Proof. done. Qed.

(** A negative length is 0 if it is a scalar, and panics in a column. *)
Lemma negative_length_panics s n : - 2 ^ 31 <= n < 0 -> Z.of_nat (length s) < 2 ^ 31 ->
  spark_rpad [ArrayArg (Utf8 [Some s]); Int32Arg (Some n)] = Ok (Utf8 [Some []]) /\
  spark_rpad [ArrayArg (Utf8 [Some s]); ArrayArg (Int32Column [(n, true)])] = Panic.
Proof.
  intros Hn Hs. split.
  - etrans; [apply (padding_internal_scalar false [Some s] true n SPACE false); lia|]. cbn. unfold padded. rewrite Z.max_l by lia. by rewrite (proj2 (Z.leb_le 0 _)) by lia.
  - unfold spark_rpad, spark_read_side_padding2, spark_read_side_padding_internal. cbn [as_string_array mbind result_bind fmap list_fmap slot_value fst snd pad_rows unwrap].
    unfold add_padding_string. rewrite wrap_negative by lia.
    rewrite (proj2 (Z.leb_gt _ _)) by lia. rewrite (proj2 (Z.leb_le (2 ^ 63) _)) by lia. done.
Qed.

(** * Blanks *)

Definition blanks (x : Z * bool) : option text := if x.2 then Some (replicate (Z.to_nat x.1) 32) else None.

Lemma space_offsets_spec (ls : PArray) o : 0 <= o -> Forall (fun x => 0 <= x.1) ls -> o + foldr (fun x n => x.1 + n) 0 ls < 2 ^ 31 ->
  exists offsets, space_offsets o ls.*1 = Some (o :: offsets) /\
    zip_with (fun (w : Z * Z) (valid : bool) => if valid then Some (replicate (Z.to_nat (w.2 - w.1)) 32) else None) (zip (o :: offsets) offsets) ls.*2
    = blanks <$> ls.
Proof.
  revert o. induction ls as [|[l v] ls IH]; intros o Ho Hls Hsum; [by exists []|]. apply Forall_cons in Hls as [Hl Hls]. cbn [foldr fst] in *.
  assert (0 <= foldr (fun x n => x.1 + n) 0 ls) by (clear - Hls; induction Hls; cbn; lia).
  destruct (IH (o + l)) as (offsets & Eo & Hz); [lia|done|lia|]. exists (o + l :: offsets). cbn [fmap list_fmap fst snd space_offsets].
  rewrite wrap_small by (unfold in_u; lia). rewrite (proj2 (Z.ltb_lt _ _)), swrap_small by (unfold in_s; lia). cbn. rewrite Eo. split; [done|].
  cbn in Hz. f_equal; [|done]. unfold blanks. destruct v; [|done]. cbn. do 3 f_equal. lia.
Qed.

(** [string_space] makes as many blanks as the row says, also for a dictionary. *)
Lemma string_space_spec (lengths : PArray) : Forall (fun x => 0 <= x.1) lengths -> foldr (fun x n => x.1 + n) 0 lengths < 2 ^ 31 ->
  string_space (Int32Column lengths) = Ok (Utf8 (blanks <$> lengths)).
Proof.
  intros Hl Hs. cbn. unfold generic_string_space. destruct (space_offsets_spec lengths 0) as (offsets & -> & Hz); [lia|done|lia|].
  cbn. do 2 f_equal. apply Hz.
Qed.

(** A negative length panics, also below a null. *)
Lemma negative_space_panics (pre post : PArray) n v : - 2 ^ 31 <= n < 0 -> Forall (fun x => 0 <= x.1 < 2 ^ 31) pre ->
  string_space (Int32Column (pre ++ (n, v) :: post)) = Panic.
Proof.
  intros Hn Hpre. assert (forall o, space_offsets o (pre ++ (n, v) :: post).*1 = None) as Hnone;
    [|unfold string_space, generic_string_space; by rewrite Hnone].
  induction Hpre as [|x pre Hx _ IH]; intros o; cbn [fmap list_fmap app space_offsets fst].
  - rewrite wrap_negative by lia. by rewrite (proj2 (Z.ltb_ge _ _)) by lia.
  - rewrite wrap_small by (unfold in_u; lia). rewrite (proj2 (Z.ltb_lt _ _)) by lia. cbn in IH |- *. by rewrite IH.
Qed.
