(* ===== verification/Operators.v ===== *)
(** The operators of a native plan and the loop that drives them: the scan of JVM batches (src/native/core/src/execution/operators/scan.rs),
    the copy and unpacking of columns (copy.rs), the expand operator (expand.rs) and the polling of the root operator
    (execution/jni_api.rs).

    A column is its type and its values.  The batches the JVM iterator returns are a list; DataFusion's own operators are
    not modelled, so a plan is a chain of copies and expands over a scan.  Metrics, tracing and the FFI hand-over are left out. *)

From S2P Require Import Prelude Casts Exprs.
From stdpp Require Import list.
Open Scope Z_scope.

(** The value types: of variable length ([Utf8], [LargeUtf8], [Binary], [LargeBinary]), or others *)
Inductive ValueType := VarType (id : Z) | FixedType (id : Z).
Inductive ColType := PlainType (t : ValueType) | DictType (key : Z) (t : ValueType).
#[export] Instance ValueType_eq_dec : EqDecision ValueType.
Proof. solve_decision. Defined.
#[export] Instance ColType_eq_dec : EqDecision ColType.
Proof. solve_decision. Defined.

Definition value_type (t : ColType) : ValueType := match t with PlainType t | DictType _ t => t end.

Record Col := MkCol { col_type : ColType; col_values : list (option Z) }.
Record RecordBatch := MkBatch { columns : list Col; num_rows : nat }.

(** Arrow's [cast], [take] and [RecordBatch::try_new_with_options] *)
Class ArrowOps := {
  cast_with_options : Col -> ColType -> DFResult Col;
  take_rows : Col -> list nat -> DFResult Col;
  try_new_with_options : list ColType -> list Col -> nat -> DFResult RecordBatch;
}.

Inductive Poll (A : Type) := Pending | Ready (o : option A).
Arguments Pending {A}.
Arguments Ready {A} o.

(** * scan.rs *)

(** What the JVM iterator returns: columns, a number of rows and, for every column, the selected rows if there are any *)
Record JvmBatch := MkJvm { jvm_columns : list Col; jvm_rows : nat; jvm_selection : option (list (list nat)) }.

Inductive InputBatch := EOF | InBatch (cols : list Col) (rows : nat).

Section Operators.
Context `{ArrowOps}.

(** The columns with the selection applied *)
Definition select_columns (b : JvmBatch) : DFResult (list Col) :=
  match jvm_selection b with
  | None => Ok (jvm_columns b)
  | Some selection => mapM (fun x => indices ← unwrap (selection !! x.1); take_rows x.2 indices) (imap pair (jvm_columns b))
  end.

Definition actual_num_rows (b : JvmBatch) : nat :=
  match jvm_selection b with Some (first :: _) => length first | _ => jvm_rows b end.

(** [ScanExec::get_next] on what the iterator still has; the copy of a column has its type and its values. *)
Definition get_next (source : list JvmBatch) : DFResult (InputBatch * list JvmBatch) :=
  match source with
  | [] => Ok (EOF, [])
  | b :: source => inputs ← select_columns b; Ok (InBatch inputs (actual_num_rows b), source)
  end.

Definition unpack_dictionary_type (dt : ColType) : ColType :=
  match dt with DictType _ (FixedType id) => PlainType (FixedType id) | _ => dt end.

Definition scan_schema (input_batch : InputBatch) (data_types : list ColType) : list ColType :=
  match input_batch with InBatch cols _ => (fun c => unpack_dictionary_type (col_type c)) <$> cols | EOF => data_types end.

(** A scan: its schema, the slot with the input batch, shared with the loop, and what the iterator still has *)
Record ScanExec := MkScan { scan_types : list ColType; scan_batch : option InputBatch; scan_source : list JvmBatch }.

Definition scan_new (data_types : list ColType) (source : list JvmBatch) : DFResult ScanExec :=
  '(first_batch, source) ← get_next source;
  Ok (MkScan (scan_schema first_batch data_types) (Some first_batch) source).

Definition get_next_batch (self : ScanExec) : DFResult ScanExec :=
  match scan_batch self with
  | Some _ => Ok self
  | None => '(next_batch, source) ← get_next (scan_source self); Ok (MkScan (scan_types self) (Some next_batch) source)
  end.

Definition build_record_batch (schema : list ColType) (cols : list Col) (rows : nat) : DFResult RecordBatch :=
  if (length cols =? length schema)%nat then
    new_columns ← mapM (fun x => if bool_decide (col_type x.1 = x.2) then Ok x.1 else cast_with_options x.1 x.2) (zip cols schema);
    try_new_with_options schema new_columns rows
  else Panic.

(** [ScanStream::poll_next]: the batch is taken out of the slot. *)
Definition scan_poll_next (self : ScanExec) : Poll (DFResult RecordBatch) * ScanExec :=
  match scan_batch self with
  | None => (Pending, self)
  | Some b =>
      (match b with EOF => Ready None | InBatch cols rows => Ready (Some (build_record_batch (scan_types self) cols rows)) end,
       MkScan (scan_types self) None (scan_source self))
  end.

(** * copy.rs *)

(** [CopyExec::new]: the schema without dictionaries *)
Definition copy_schema (input : list ColType) : list ColType := (fun t => PlainType (value_type t)) <$> input.

(** The type and the values of [copy_or_unpack_array], in either mode; the copy itself is in CopyArrays.v. *)
Definition unpack_column (array : Col) : DFResult Col :=
  match col_type array with DictType _ value_type => cast_with_options array (PlainType value_type) | PlainType _ => Ok array end.

Definition copy (schema : list ColType) (batch : RecordBatch) : DFResult RecordBatch :=
  vectors ← mapM unpack_column (columns batch);
  try_new_with_options schema vectors (num_rows batch).

(** * expand.rs *)

(** An expression: its value as an array *)
Definition Expr : Type := RecordBatch -> DFResult Col.

Definition expand (schema : list ColType) (batch : RecordBatch) (projection : list Expr) : DFResult RecordBatch :=
  cols ← mapM (fun expr : Expr => expr batch) projection;
  try_new_with_options schema cols (num_rows batch).

Record ExpandState := MkExpand { projections : list (list Expr); expand_schema : list ColType; current_index : Z; max_index : Z; current_batch : option RecordBatch }.

Definition expand_new (projections : list (list Expr)) (schema : list ColType) : ExpandState :=
  MkExpand projections schema (-1) (swrap 32 (Z.of_nat (length projections))) None.

(** What [poll_next] does with the current batch; [None] is a failed assertion or an index out of bounds. *)
Definition expand_step (self : ExpandState) : option (DFResult RecordBatch * ExpandState) :=
  batch ← current_batch self;
  projection ← projections self !! Z.to_nat (wrap 64 (current_index self));
  let result := expand (expand_schema self) batch projection in
  let index := swrap 32 (current_index self + 1) in
  Some (result,
    if index =? max_index self then MkExpand (projections self) (expand_schema self) (-1) (max_index self) None
    else MkExpand (projections self) (expand_schema self) index (max_index self) (current_batch self)).

(** * Streams *)

Inductive Stream :=
  | ScanStream (scan : ScanExec)
  | CopyStream (schema : list ColType) (child_stream : Stream)
  | ExpandStream (state : ExpandState) (child_stream : Stream).

Fixpoint poll_next (self : Stream) : option (Poll (DFResult RecordBatch) * Stream) :=
  match self with
  | ScanStream scan => let '(p, scan) := scan_poll_next scan in Some (p, ScanStream scan)
  | CopyStream schema child =>
      '(p, child) ← poll_next child;
      Some (match p with Ready (Some (Ok batch)) => Ready (Some (copy schema batch)) | other => other end, CopyStream schema child)
  | ExpandStream st child =>
      if current_index st =? -1 then
        '(p, child) ← poll_next child;
        match p with
        | Ready (Some (Ok batch)) =>
            '(r, st) ← expand_step (MkExpand (projections st) (expand_schema st) 0 (max_index st) (Some batch));
            Some (Ready (Some r), ExpandStream st child)
        | other => Some (other, ExpandStream st child)
        end
      else
        '(r, st) ← expand_step st;
        Some (Ready (Some r), ExpandStream st child)
  end.

(** * jni_api.rs *)

(** [pull_input_batches] fills the slot of every scan. *)
Fixpoint pull_input_batches (stream : Stream) : DFResult Stream :=
  match stream with
  | ScanStream scan => scan ← get_next_batch scan; Ok (ScanStream scan)
  | CopyStream schema child => child ← pull_input_batches child; Ok (CopyStream schema child)
  | ExpandStream st child => child ← pull_input_batches child; Ok (ExpandStream st child)
  end.

(** [prepare_output]: the number of rows; the columns are handed over unless the JVM wants none. *)
Definition prepare_output (num_cols : nat) (output_batch : RecordBatch) : DFResult nat :=
  if (0 <? num_cols)%nat && negb (length (columns output_batch) =? num_cols)%nat then Err Internal else Ok (num_rows output_batch).

(** The polling loop, at most [fuel] polls: the outer [None] is out of fuel; the output is [None] at the end of the stream. *)
Fixpoint poll_loop (fuel : nat) (num_cols : nat) (stream : Stream) : option (DFResult (option RecordBatch * Stream)) :=
  match fuel with
  | O => None
  | S fuel =>
      match poll_next stream with
      | None => Some Panic
      | Some (Ready (Some output), stream) => Some (output ← output; _ ← prepare_output num_cols output; Ok (Some output, stream))
      | Some (Ready None, stream) => Some (Ok (None, stream))
      | Some (Pending, stream) =>
          match pull_input_batches stream with
          | Ok stream => poll_loop fuel num_cols stream
          | Err e => Some (Err e)
          | Panic => Some Panic
          end
      end
  end.

(** [executePlan]: the first call creates the stream, later calls pull before they poll. *)
Definition executePlan (fuel num_cols : nat) (first : bool) (stream : Stream) : option (DFResult (option RecordBatch * Stream)) :=
  if first then poll_loop fuel num_cols stream
  else
    match pull_input_batches stream with
    | Ok stream => poll_loop fuel num_cols stream
    | Err e => Some (Err e)
    | Panic => Some Panic
    end.
End Operators.
