(* ===== verification/OperatorsProps.v ===== *)
(** A native plan run by repeated calls of [executePlan] returns exactly the batches of the plan, in order, and then the end of
    the stream, each call after at most two polls. *)

From S2P Require Import Prelude Lists Casts Exprs Operators.
From stdpp Require Import list.
Open Scope Z_scope.

Section Run.
Context `{ArrowOps}.

(** * What a plan outputs *)

(** A chain of operators: the scan with the types Spark declares, copies and expands with their schemas *)
Inductive Plan :=
  | PScan (data_types : list ColType)
  | PCopy (child : Plan)
  | PExpand (ps : list (list Expr)) (schema : list ColType) (child : Plan).

Fixpoint plan_ok (p : Plan) : Prop :=
  match p with
  | PScan _ => True
  | PCopy child => plan_ok child
  | PExpand ps _ child => ps <> [] /\ Z.of_nat (length ps) < 2 ^ 31 /\ plan_ok child
  end.

(** The schema of a scan is that of its first batch. *)
Fixpoint plan_schema (p : Plan) (first_batch : InputBatch) : list ColType :=
  match p with
  | PScan data_types => scan_schema first_batch data_types
  | PCopy child => copy_schema (plan_schema child first_batch)
  | PExpand _ schema _ => schema
  end.

Definition input (b : JvmBatch) : InputBatch := match select_columns b with Ok cols => InBatch cols (actual_num_rows b) | _ => EOF end.

Definition on_batch {A} (f : RecordBatch -> A) (other : DFResult RecordBatch -> A) (r : DFResult RecordBatch) : A :=
  match r with Ok b => f b | _ => other r end.

(** The outputs of a plan over batches: the copy of every batch, every projection of every batch; errors are passed on. *)
Fixpoint outputs (p : Plan) (first_batch : InputBatch) (source : list JvmBatch) : list (DFResult RecordBatch) :=
  match p with
  | PScan data_types =>
      (fun b => match input b with InBatch cols rows => build_record_batch (scan_schema first_batch data_types) cols rows | EOF => Panic end) <$> source
  | PCopy child => on_batch (copy (copy_schema (plan_schema child first_batch))) id <$> outputs child first_batch source
  | PExpand ps schema child => outputs child first_batch source ≫= on_batch (fun b => expand schema b <$> ps) (fun r => [r])
  end.

(** The streams of a plan, with the scan as it is created *)
Fixpoint plan_stream (p : Plan) (first_batch : InputBatch) (source : list JvmBatch) : Stream :=
  match p with
  | PScan data_types => ScanStream (MkScan (scan_schema first_batch data_types) (Some first_batch) source)
  | PCopy child => CopyStream (copy_schema (plan_schema child first_batch)) (plan_stream child first_batch source)
  | PExpand ps schema child => ExpandStream (expand_new ps schema) (plan_stream child first_batch source)
  end.

(** * What a stream still outputs *)

Definition selectable (b : JvmBatch) : Prop := exists cols, select_columns b = Ok cols.

Definition build_input (schema : list ColType) (b : InputBatch) : list (DFResult RecordBatch) :=
  match b with InBatch cols rows => [build_record_batch schema cols rows] | EOF => [] end.

Fixpoint remaining (s : Stream) : list (DFResult RecordBatch) :=
  match s with
  | ScanStream scan => build_input (scan_types scan) (default EOF (scan_batch scan)) ++ ((input <$> scan_source scan) ≫= build_input (scan_types scan))
  | CopyStream schema child => on_batch (copy schema) id <$> remaining child
  | ExpandStream st child =>
      match current_batch st with Some b => expand (expand_schema st) b <$> drop (Z.to_nat (current_index st)) (projections st) | None => [] end
      ++ (remaining child ≫= on_batch (fun b => expand (expand_schema st) b <$> projections st) (fun r => [r]))
  end.

Definition expand_ok (st : ExpandState) : Prop :=
  projections st <> [] /\ Z.of_nat (length (projections st)) < 2 ^ 31 /\ max_index st = Z.of_nat (length (projections st)) /\
  ((current_index st = -1 /\ current_batch st = None) \/
   (0 <= current_index st < Z.of_nat (length (projections st)) /\ is_Some (current_batch st))).

Fixpoint stream_ok (s : Stream) : Prop :=
  match s with
  | ScanStream scan => Forall selectable (scan_source scan) /\ (scan_batch scan = Some EOF -> scan_source scan = [])
  | CopyStream _ child => stream_ok child
  | ExpandStream st child => expand_ok st /\ stream_ok child
  end.

(** The slot of the scan holds a batch or the end. *)
Fixpoint slot_full (s : Stream) : Prop :=
  match s with ScanStream scan => is_Some (scan_batch scan) | CopyStream _ child | ExpandStream _ child => slot_full child end.

(** What a poll says about the outputs *)
Definition poll_result (s : Stream) (p : Poll (DFResult RecordBatch)) (s' : Stream) : Prop :=
  match p with
  | Pending => remaining s' = remaining s /\ ~ slot_full s
  | Ready (Some r) => remaining s = r :: remaining s'
  | Ready None => remaining s = [] /\ remaining s' = []
  end.

Lemma expand_step_spec st : expand_ok st -> forall b, current_batch st = Some b ->
  exists r st', expand_step st = Some (r, st') /\ expand_ok st' /\ projections st' = projections st /\ expand_schema st' = expand_schema st /\
    expand (expand_schema st) b <$> drop (Z.to_nat (current_index st)) (projections st)
    = r :: match current_batch st' with Some b => expand (expand_schema st') b <$> drop (Z.to_nat (current_index st')) (projections st') | None => [] end.
Proof.
  intros (Hne & Hlen & Hmax & [[_ Hn]|[Hi Hb]]) b Eb; [congruence|]. unfold expand_step. rewrite Eb. cbn [mbind option_bind].
  rewrite wrap_small by (unfold in_u; lia). destruct (lookup_lt_is_Some_2 (projections st) (Z.to_nat (current_index st))) as [pr Epr]; [lia|].
  rewrite Epr. cbn [mbind option_bind]. rewrite swrap_small by (unfold in_s; lia). rewrite (drop_S _ _ _ Epr).
  destruct (Z.eqb_spec (current_index st + 1) (max_index st)); do 2 eexists; (split; [done|]).
  - split; [split; [done|]; split; [done|]; split; [done|]; by left|]. do 2 (split; [done|]). cbn. rewrite drop_ge by lia. done.
  - split; [split; [done|]; split; [done|]; split; [done|]; right; cbn; split; [lia|done]|]. do 2 (split; [done|]). cbn.
    by replace (Z.to_nat (current_index st + 1)) with (S (Z.to_nat (current_index st))) by lia.
Qed.

Lemma input_selectable b : selectable b -> exists cols rows, input b = InBatch cols rows.
Proof. intros [cols E]. unfold input. rewrite E. eauto. Qed.

(** Polling a well-formed stream takes the next output, or finds the slot of the scan empty. *)
Lemma poll_next_spec s : stream_ok s -> exists p s', poll_next s = Some (p, s') /\ stream_ok s' /\ poll_result s p s'.
Proof.
  induction s as [scan|schema child IH|st child IH]; intros Hok.
  - destruct Hok as [Hsel Heof]. cbn. unfold scan_poll_next. destruct scan as [ts [[|cols rows]|] source]; cbn in *; do 2 eexists; (split; [done|]).
    + split; [done|]. rewrite Heof by done. done.
    + split; [done|]. done.
    + split; [done|]. split; [done|]. by intros [? [=]].
  - cbn in *. destruct (IH Hok) as (p & s' & -> & Hok' & Hp). cbn. do 2 eexists. split; [done|]. split; [done|]. unfold poll_result in *. cbn.
    destruct p as [|[[b|e|]|]]; cbn in *; try (rewrite Hp; done); destruct Hp as [Hp1 Hp2]; rewrite Hp1; try done. by rewrite Hp2.
  - destruct Hok as [Hst Hok]. cbn [poll_next]. destruct (Z.eqb_spec (current_index st) (-1)) as [Ei|Ei].
    + destruct (IH Hok) as (p & s' & -> & Hok' & Hp). cbn [mbind option_bind]. destruct Hst as (Hne & Hlen & Hmax & Hcur).
      assert (current_batch st = None) as Eb by (destruct Hcur as [[_ ?]|[? _]]; [done|lia]).
      assert (expand_ok st) as Hst by (split; [done|]; split; [done|]; split; done).
      assert (forall p', (match p' with Ready (Some (Ok _)) => False | _ => True end) -> poll_result child p' s' -> poll_result (ExpandStream st child) p' (ExpandStream st s')) as Hother.
      { intros [|[[b|e|]|]] Hno Hr; try done; unfold poll_result in *; cbn; rewrite Eb; cbn.
        - destruct Hr as [-> ?]. done.
        - by rewrite Hr.
        - by rewrite Hr.
        - destruct Hr as [-> ->]. done. }
      destruct p as [|[[b|e|]|]]; try (do 2 eexists; split; [done|]; split; [done|]; by apply Hother).
      assert (expand_ok (MkExpand (projections st) (expand_schema st) 0 (max_index st) (Some b))) as Hnew.
      { split; [done|]. split; [done|]. split; [done|]. right. cbn. split; [|done]. destruct (projections st); [done|cbn; lia]. }
      destruct (expand_step_spec _ Hnew b eq_refl) as (r & st' & -> & Hst' & Epr & Esc & Er). cbn. do 2 eexists. split; [done|]. split; [done|].
      cbn [current_index projections expand_schema] in Er. change (drop (Z.to_nat 0) (projections st)) with (projections st) in Er.
      unfold poll_result in *. cbn in *. rewrite Hp, Eb. cbn. rewrite Er, Epr, Esc. done.
    + assert (exists b, current_batch st = Some b) as [b Eb] by (destruct Hst as (_ & _ & _ & [[? _]|[_ [b ?]]]); [done|by exists b]).
      destruct (expand_step_spec st Hst b Eb) as (r & st' & -> & Hst' & Epr & Esc & Er). cbn [mbind option_bind]. do 2 eexists. split; [done|]. split; [done|].
      unfold poll_result. cbn. rewrite Eb, Er, Epr, Esc. done.
Qed.

Lemma pull_spec s : stream_ok s -> exists s', pull_input_batches s = Ok s' /\ stream_ok s' /\ remaining s' = remaining s /\ slot_full s'.
Proof.
  induction s as [scan|schema child IH|st child IH]; cbn.
  - intros [Hsel Heof]. destruct scan as [ts [b|] source]; cbn in *.
    { eexists. split; [done|]. split; [done|]. split; [done|]. by eexists. }
    destruct source as [|b source]; cbn in *; [eexists; split; [done|]; split; [done|]; split; [done|]; by eexists|].
    apply Forall_cons in Hsel as [[cols E] Hsel]. unfold get_next_batch. cbn. rewrite E. cbn. eexists. split; [done|].
    split; [by split|]. unfold input. rewrite E. split; [done|]. by eexists.
  - intros Hok. destruct (IH Hok) as (s' & -> & Hok' & Er & Hf). eexists. split; [done|]. split; [done|]. cbn. by rewrite Er.
  - intros [Hst Hok]. destruct (IH Hok) as (s' & -> & Hok' & Er & Hf). eexists. split; [done|]. split; [done|]. cbn. by rewrite Er.
Qed.

(** What a call returns, given the outputs that remain *)
Definition call_result (num_cols : nat) (rs : list (DFResult RecordBatch)) : DFResult (option RecordBatch) :=
  match rs with [] => Ok None | r :: _ => b ← r; _ ← prepare_output num_cols b; Ok (Some b) end.

Definition call_spec (num_cols : nat) (s : Stream) (r : option (DFResult (option RecordBatch * Stream))) : Prop :=
  match call_result num_cols (remaining s) with
  | Ok o => exists s', r = Some (Ok (o, s')) /\ stream_ok s' /\ remaining s' = tail (remaining s)
  | Err e => r = Some (Err e)
  | Panic => r = Some Panic
  end.

Lemma poll_loop_full fuel num_cols s : stream_ok s -> slot_full s -> call_spec num_cols s (poll_loop (S fuel) num_cols s).
Proof.
  intros Hok Hf. destruct (poll_next_spec s Hok) as (p & s' & E & Hok' & Hp). cbn [poll_loop]. rewrite E. unfold call_spec, poll_result in *.
  destruct p as [|[r|]]; [by destruct Hp| |].
  - rewrite Hp. cbn. destruct r as [b|e|]; cbn; [|done..]. destruct (prepare_output num_cols b); cbn; eauto.
  - destruct Hp as [-> Hp]. cbn. eauto.
Qed.

(** Two polls are enough: after the first the slot is filled. *)
Lemma poll_loop_spec num_cols s : stream_ok s -> call_spec num_cols s (poll_loop 2 num_cols s).
Proof.
  intros Hok. destruct (poll_next_spec s Hok) as (p & s' & E & Hok' & Hp). destruct p as [|o].
  - cbn [poll_loop]. rewrite E. destruct Hp as [Hr _]. destruct (pull_spec s' Hok') as (s2 & -> & Hok2 & Er & Hf).
    pose proof (poll_loop_full 0 num_cols s2 Hok2 Hf) as Hc. unfold call_spec in *. by rewrite Er, Hr in Hc.
  - cbn [poll_loop]. rewrite E. unfold call_spec, poll_result in *. destruct o as [r|].
    + rewrite Hp. cbn. destruct r as [b|e|]; cbn; [|done..]. destruct (prepare_output num_cols b); cbn; eauto.
    + destruct Hp as [-> Hp]. cbn. eauto.
Qed.

Lemma executePlan_spec num_cols first s : stream_ok s -> call_spec num_cols s (executePlan 2 num_cols first s).
Proof.
  intros Hok. unfold executePlan. destruct first; [by apply poll_loop_spec|]. destruct (pull_spec s Hok) as (s' & -> & Hok' & Er & Hf).
  pose proof (poll_loop_spec num_cols s' Hok') as Hc. unfold call_spec in *. by rewrite Er in Hc.
Qed.

(** * The calls of the JVM *)

(** The batches returned by at most [calls] calls, and how they end: [Ok true] at the end of the stream *)
Fixpoint run_calls (calls num_cols : nat) (first : bool) (s : Stream) : list RecordBatch * DFResult bool :=
  match calls with
  | O => ([], Ok false)
  | S calls =>
      match executePlan 2 num_cols first s with
      | Some (Ok (Some b, s)) => let '(bs, end_) := run_calls calls num_cols false s in (b :: bs, end_)
      | Some (Ok (None, _)) => ([], Ok true)
      | Some (Err e) => ([], Err e)
      | Some Panic => ([], Panic)
      | None => ([], Ok false)
      end
  end.

(** The batches before the first error, and the error *)
Fixpoint until_error (num_cols : nat) (rs : list (DFResult RecordBatch)) : list RecordBatch * DFResult bool :=
  match rs with
  | [] => ([], Ok true)
  | r :: rs =>
      match (b ← r; _ ← prepare_output num_cols b; Ok b : DFResult RecordBatch) with
      | Ok b => let '(bs, end_) := until_error num_cols rs in (b :: bs, end_)
      | Err e => ([], Err e)
      | Panic => ([], Panic)
      end
  end.

Lemma run_calls_spec num_cols first s : stream_ok s ->
  run_calls (S (length (remaining s))) num_cols first s = until_error num_cols (remaining s).
Proof.
  remember (remaining s) as rs eqn:Ers. revert first s Ers. induction rs as [|r rs IH]; intros first s Ers Hok;
    pose proof (executePlan_spec num_cols first s Hok) as Hc; unfold call_spec in Hc; rewrite <- Ers in Hc; cbn in Hc.
  - destruct Hc as (s' & E & _). cbn. by rewrite E.
  - specialize (IH false). cbn [length]. set (n := S (length rs)) in *. cbn [run_calls until_error].
    destruct r as [b|e|]; cbn [mbind result_bind] in *; [|by rewrite Hc..].
    destruct (prepare_output num_cols b) as [m|e|]; cbn [mbind result_bind] in *; [|by rewrite Hc..].
    destruct Hc as (s' & -> & Hok' & Er). by rewrite (IH s' (eq_sym Er) Hok').
Qed.

Lemma build_inputs schema source : Forall selectable source ->
  (input <$> source) ≫= build_input schema
  = (fun b => match input b with InBatch cols rows => build_record_batch schema cols rows | EOF => Panic end) <$> source.
Proof.
  induction 1 as [|b source Hb _ IH]; [done|]. cbn. destruct (input_selectable b Hb) as (cols & rows & ->). cbn in *. by rewrite IH.
Qed.

(** The streams of a plan output what the plan says. *)
Lemma plan_stream_spec p source first_batch rest : plan_ok p -> Forall selectable source -> get_next source = Ok (first_batch, rest) ->
  stream_ok (plan_stream p first_batch rest) /\ remaining (plan_stream p first_batch rest) = outputs p first_batch source.
Proof.
  intros Hp Hsel Hn. induction p as [ts|child IH|ps schema child IH]; cbn [plan_stream outputs remaining stream_ok].
  - rewrite <- build_inputs by done. destruct source as [|b source]; cbn in Hn; [by injection Hn as <- <-|].
    apply Forall_cons in Hsel as [[cols E] Hsel]. rewrite E in Hn. cbn in Hn. injection Hn as <- <-. cbn. unfold input. rewrite E. done.
  - destruct (IH Hp) as [Hok ->]. done.
  - destruct Hp as (Hne & Hlen & Hp). destruct (IH Hp) as [Hok ->]. cbn. split; [|done]. split; [|done].
    split; [done|]. split; [done|]. split; [|by left]. apply swrap_small; [lia|]. unfold in_s. cbn. lia.
Qed.

(** C6: A plan of copies and expands over a scan of JVM batches, run by calling [executePlan] until it reports the end: the calls
    return the batches of the plan's outputs in order (every batch cast to the schema of the first one, every projection of
    every batch, dictionaries unpacked), stop with the first error if there is one, and else report the end of the stream; every
    call returns after at most two polls, so no batch is lost, repeated or waited for in vain. *)
Theorem plan_run_correct p source num_cols :
  plan_ok p -> Forall selectable source ->
  exists first_batch rest, get_next source = Ok (first_batch, rest) /\
    let outs := outputs p first_batch source in
    run_calls (S (length outs)) num_cols true (plan_stream p first_batch rest) = until_error num_cols outs.
Proof.
  intros Hp Hsel. assert (exists first_batch rest, get_next source = Ok (first_batch, rest)) as (first_batch & rest & Hn).
  { destruct Hsel as [|b source [cols E] _]; [by do 2 eexists|]. cbn. rewrite E. by do 2 eexists. }
  exists first_batch, rest. split; [done|]. destruct (plan_stream_spec p source first_batch rest Hp Hsel Hn) as [Hok <-]. by apply run_calls_spec.
Qed.
End Run.

(** * Values *)

Class ArrowLaws `{ArrowOps} := {
  cast_same_values : forall c t, value_type (col_type c) = value_type t -> cast_with_options c t = Ok (MkCol t (col_values c));
  try_new_matching : forall schema cols rows, col_type <$> cols = schema -> Forall (fun c => length (col_values c) = rows) cols ->
    try_new_with_options schema cols rows = Ok (MkBatch cols rows);
}.

Section Values.
Context `{ArrowLaws}.

(** A column with its values under another type *)
Definition retype (c : Col) (t : ColType) : Col := MkCol t (col_values c).

Lemma mapM_retype (f : Col * ColType -> DFResult Col) cols schema :
  (forall c t, value_type (col_type c) = value_type t -> f (c, t) = Ok (retype c t)) ->
  Forall2 (fun c t => value_type (col_type c) = value_type t) cols schema -> mapM f (zip cols schema) = Ok (zip_with retype cols schema).
Proof.
  intros Hf. induction 1 as [|c t cols schema Ht _ IH]; [done|]. cbn in *. rewrite Hf by done. cbn. by rewrite IH.
Qed.

Lemma retype_types cols schema : length cols = length schema -> col_type <$> zip_with retype cols schema = schema.
Proof. revert schema. induction cols as [|c cols IH]; intros [|t schema] Hl; try done. cbn. f_equal. apply IH. by injection Hl. Qed.

Lemma retype_lengths rows cols schema : Forall (fun c => length (col_values c) = rows) cols ->
  Forall (fun c => length (col_values c) = rows) (zip_with retype cols schema).
Proof. intros Hc. revert schema. induction Hc; intros [|t schema]; constructor; [done|]. apply IHHc. Qed.

(** The scan gives every batch the types of its schema and keeps the values. *)
Lemma build_record_batch_values schema cols rows :
  Forall2 (fun c t => value_type (col_type c) = value_type t) cols schema -> Forall (fun c => length (col_values c) = rows) cols ->
  build_record_batch schema cols rows = Ok (MkBatch (zip_with retype cols schema) rows).
Proof.
  intros Ht Hl. pose proof (Forall2_length _ _ _ Ht) as Hlen. unfold build_record_batch. rewrite Hlen, Nat.eqb_refl.
  rewrite mapM_retype; [|intros c t Hct; cbn; case_bool_decide as E; [by rewrite <- E; destruct c|by apply cast_same_values]|done].
  cbn. apply try_new_matching; [by apply retype_types|by apply retype_lengths].
Qed.

(** The copy unpacks dictionaries and keeps the values. *)
Lemma copy_values schema b : schema = copy_schema (col_type <$> columns b) -> Forall (fun c => length (col_values c) = num_rows b) (columns b) ->
  copy schema b = Ok (MkBatch ((fun c => retype c (PlainType (value_type (col_type c)))) <$> columns b) (num_rows b)).
Proof.
  intros -> Hl. unfold copy. assert (mapM unpack_column (columns b) = Ok ((fun c => retype c (PlainType (value_type (col_type c)))) <$> columns b)) as ->.
  { apply mapM_Ok. intros [[t|k t] vs] _; cbn; [done|]. by apply cast_same_values. }
  cbn. apply try_new_matching.
  - unfold copy_schema. rewrite <- !list_fmap_compose. by apply list_fmap_ext.
  - apply Forall_fmap. done.
Qed.
End Values.

(** * An instance *)

Module PlainArrow.
#[export] Instance plain_arrow : ArrowOps := {|
  cast_with_options c t := if bool_decide (value_type (col_type c) = value_type t) then Ok (MkCol t (col_values c)) else Err ArrowError;
  take_rows c indices := match mapM (fun i => col_values c !! i) indices with Some vs => Ok (MkCol (col_type c) vs) | None => Panic end;
  try_new_with_options schema cols rows :=
    if bool_decide (col_type <$> cols = schema) && forallb (fun c => length (col_values c) =? rows)%nat cols then Ok (MkBatch cols rows) else Err ArrowError |}.
#[export] Instance plain_arrow_laws : ArrowLaws.
Proof.
  split; cbn.
  - intros c t Ht. by rewrite bool_decide_true.
  - intros schema cols rows Ht Hl. rewrite bool_decide_true by done. cbn. replace (forallb _ cols) with true; [done|].
    symmetry. apply forallb_forall. intros c Hc%list_elem_of_In. rewrite Forall_forall in Hl. by apply Nat.eqb_eq, Hl.
Qed.
End PlainArrow.
Import PlainArrow.

(** Two batches of a column, the first with a dictionary and the second with two of its rows selected, copied and expanded twice *)
Definition example_source : list JvmBatch :=
  [MkJvm [MkCol (DictType 0 (VarType 1)) [Some 5; None]] 2 None;
   MkJvm [MkCol (PlainType (VarType 1)) [Some 7; Some 8; Some 9]] 3 (Some [[0; 2]%nat])].
Definition column_0 : Expr := fun b => unwrap (columns b !! 0%nat).
Definition null_column : Expr := fun b => Ok (MkCol (PlainType (VarType 1)) (replicate (num_rows b) None)).
Definition example_plan : Plan := PExpand [[column_0]; [null_column]] [PlainType (VarType 1)] (PCopy (PScan [PlainType (VarType 1)])).

Lemma plan_run_correct_witness :
  exists first_batch rest, get_next example_source = Ok (first_batch, rest) /\
    let outs := outputs example_plan first_batch example_source in
    run_calls (S (length outs)) 1 true (plan_stream example_plan first_batch rest) = until_error 1 outs.
Proof.
  apply (plan_run_correct example_plan example_source 1); [repeat split; cbn; lia || done|]. repeat constructor; by eexists.
Defined.

Example plan_run_values :
  (fun b => col_values <$> columns b)
    <$> (run_calls 10 1 true (plan_stream example_plan (InBatch [MkCol (DictType 0 (VarType 1)) [Some 5; None]] 2) (tail example_source))).1
  = [[[Some 5; None]]; [[None; None]]; [[Some 7; Some 9]]; [[None; None]]].
Proof. reflexivity. Qed.
