(* ===== verification/CopyArrays.v ===== *)
(** Copies of arrays and the buffers they share (src/native/core/src/execution/operators/copy.rs).

    The JVM reuses the buffers of the vectors it hands over, so an array the native side keeps must not share one.  A heap of
    buffers makes sharing visible: an array refers to buffers by their index, a dictionary array to its values array. *)

From S2P Require Import Prelude Casts Exprs.
From stdpp Require Import list.
Open Scope Z_scope.

Abbreviation Heap := (list (list Z)).

Inductive Arr :=
  | PlainArr (data : nat) (nulls : option nat)
  | DictArr (keys : nat) (nulls : option nat) (values : Arr).

(** The validity of a slot, from a null buffer if there is one *)
Definition valid_at (nulls : option (list Z)) (i : nat) : bool :=
  match nulls with Some bits => bool_decide (bits !! i = Some 1) | None => true end.

(** The values in a data buffer and a null buffer *)
Definition slots (data : list Z) (nulls : option (list Z)) : list (option Z) := imap (fun i v => if valid_at nulls i then Some v else None) data.

Definition load (h : Heap) (b : option nat) : option (option (list Z)) := match b with Some i => Some <$> h !! i | None => Some None end.

(** The values of an array; [None] if a buffer or a key is missing *)
Fixpoint read (h : Heap) (a : Arr) : option (list (option Z)) :=
  match a with
  | PlainArr data nulls => d ← h !! data; n ← load h nulls; Some (slots d n)
  | DictArr keys nulls values =>
      vs ← read h values; k ← h !! keys; n ← load h nulls;
      mapM (fun key => match key with Some key => vs !! Z.to_nat key | None => Some None end) (slots k n)
  end.

(** [MutableArrayData] over one array with all its slots extended, and [cast] of a dictionary to its value type *)
Class CopyOps := {
  mutable_copy : Heap -> Arr -> Heap * Arr;
  unpack_cast : Heap -> Arr -> DFResult (Heap * Arr);
}.

Section Copy.
Context `{CopyOps}.

(** [copy_array]: for a dictionary, the values are copied too and put in place. *)
Definition copy_array (h : Heap) (array : Arr) : Heap * Arr :=
  let '(h, copied) := mutable_copy h array in
  match copied with
  | DictArr keys nulls values =>
      let '(h, copied_values) := mutable_copy h values in
      (h, DictArr keys nulls copied_values)
  | PlainArr _ _ => (h, copied)
  end.

Inductive CopyMode := UnpackOrDeepCopy | UnpackOrClone.

Definition copy_or_unpack_array (h : Heap) (array : Arr) (mode : CopyMode) : DFResult (Heap * Arr) :=
  match array with
  | DictArr _ _ _ => '(h, unpacked) ← unpack_cast h array; Ok (copy_array h unpacked)
  | PlainArr _ _ => match mode with UnpackOrDeepCopy => Ok (copy_array h array) | UnpackOrClone => Ok (h, array) end
  end.
End Copy.

(** * Isolation *)

(** The buffers of [h] are still there; others were added. *)
Definition extends (h h' : Heap) : Prop := h `prefix_of` h'.

(** A buffer that was not in [h] and holds the same bytes as [b] did *)
Definition fresh_copy (h h' : Heap) (b b' : nat) : Prop := (length h <= b')%nat /\ h' !! b' = h !! b.
Definition fresh_copy_opt (h h' : Heap) (b b' : option nat) : Prop :=
  match b, b' with Some b, Some b' => fresh_copy h h' b b' | None, None => True | _, _ => False end.

(** The null buffer of a copy: none if no slot is null, otherwise a copy *)
Definition copied_nulls (h h' : Heap) (data : nat) (nulls nulls' : option nat) : Prop :=
  exists d n, h !! data = Some d /\ load h nulls = Some n /\
    if bool_decide (slots d n = slots d None) then nulls' = None else fresh_copy_opt h h' nulls nulls'.

Class CopyLaws `{CopyOps} := {
  mutable_copy_plain : forall h data nulls vs, read h (PlainArr data nulls) = Some vs -> exists h' data' nulls', mutable_copy h (PlainArr data nulls) = (h', PlainArr data' nulls') /\
    extends h h' /\ fresh_copy h h' data data' /\ copied_nulls h h' data nulls nulls';
  (* the values of a dictionary are shared *)
  mutable_copy_dict : forall h keys nulls values vs, read h (DictArr keys nulls values) = Some vs -> exists h' keys' nulls', mutable_copy h (DictArr keys nulls values) = (h', DictArr keys' nulls' values) /\
    extends h h' /\ fresh_copy h h' keys keys' /\ copied_nulls h h' keys nulls nulls';
  (* the result of a cast may share buffers with its argument *)
  unpack_cast_values : forall h a vs, read h a = Some vs -> exists h' data nulls, unpack_cast h a = Ok (h', PlainArr data nulls) /\
    extends h h' /\ read h' (PlainArr data nulls) = Some vs;
}.

(** [h''] is [h'] with any of the buffers of [h] overwritten. *)
Definition overwritten (h h' h'' : Heap) : Prop := forall i, (length h <= i)%nat -> h'' !! i = h' !! i.

(** An array that reads the same whatever is written to the buffers of [h] *)
Definition isolated (h h' : Heap) (a : Arr) (vs : list (option Z)) : Prop := forall h'', overwritten h h' h'' -> read h'' a = Some vs.

Section Isolation.
Context `{CopyLaws}.

Lemma overwritten_lookup h h' h'' b b' : overwritten h h' h'' -> fresh_copy h h' b b' -> h'' !! b' = h !! b.
Proof. intros Ho [Hge E]. by rewrite Ho. Qed.

Lemma overwritten_load h h' h'' n n' : overwritten h h' h'' -> fresh_copy_opt h h' n n' -> load h'' n' = load h n.
Proof. intros Ho. destruct n, n'; cbn; try done. intros Hf. by rewrite (overwritten_lookup _ _ _ _ _ Ho Hf). Qed.

Lemma extends_length h h' : extends h h' -> (length h <= length h')%nat.
Proof. apply prefix_length. Qed.

Lemma extends_fresh h h1 h2 b b' : extends h h1 -> fresh_copy h h1 b b' -> extends h1 h2 -> is_Some (h !! b) -> fresh_copy h h2 b b'.
Proof.
  intros _ [Hge E] He [x Hx]. split; [done|]. rewrite Hx in *. by eapply prefix_lookup_Some.
Qed.

Lemma extends_fresh_opt h h1 h2 n n' x : extends h h1 -> fresh_copy_opt h h1 n n' -> extends h1 h2 -> load h n = Some x -> fresh_copy_opt h h2 n n'.
Proof.
  intros He Hf He2 Hl. destruct n as [n|], n' as [n'|]; cbn in *; try done. eapply extends_fresh; try done. destruct (h !! n); [by eexists|done].
Qed.

(** The slots of a copied buffer with its copied null buffer, later on *)
Lemma copied_slots h h1 h2 h'' b b' n n' d x :
  extends h h1 -> fresh_copy h h1 b b' -> copied_nulls h h1 b n n' -> extends h1 h2 -> overwritten h h2 h'' -> h !! b = Some d -> load h n = Some x ->
  h'' !! b' = Some d /\ exists x', load h'' n' = Some x' /\ slots d x' = slots d x.
Proof.
  intros He Hb (d' & y & Ed & En & Hn) He2 Ho Hd Hx. rewrite Hd in Ed. rewrite Hx in En. simplify_eq. split.
  - rewrite (overwritten_lookup h h2 h'' b b' Ho); [done|]. by eapply extends_fresh.
  - case_bool_decide as Hs; [subst n'; by exists None|]. exists y. split; [|done].
    rewrite (overwritten_load h h2 h'' n n' Ho); [done|]. by eapply extends_fresh_opt.
Qed.

Lemma extends_read_plain h h' data nulls vs : extends h h' -> read h (PlainArr data nulls) = Some vs -> read h' (PlainArr data nulls) = Some vs.
Proof.
  intros He. cbn. destruct (h !! data) as [d|] eqn:Ed; [|done]. rewrite (prefix_lookup_Some _ _ _ _ Ed He). cbn.
  destruct nulls as [n|]; cbn; [|done]. destruct (h !! n) as [x|] eqn:En; [|done]. by rewrite (prefix_lookup_Some _ _ _ _ En He).
Qed.

(** A plain array, or a dictionary of one *)
Definition flat (a : Arr) : Prop := match a with PlainArr _ _ | DictArr _ _ (PlainArr _ _) => True | _ => False end.

Lemma copy_plain_isolated h data nulls vs : read h (PlainArr data nulls) = Some vs ->
  exists h' data' nulls', mutable_copy h (PlainArr data nulls) = (h', PlainArr data' nulls') /\ extends h h' /\ isolated h h' (PlainArr data' nulls') vs.
Proof.
  intros Hr. destruct (mutable_copy_plain h data nulls vs Hr) as (h' & data' & nulls' & E & He & Hd & Hn).
  do 3 eexists. split; [done|]. split; [done|]. intros h'' Ho. cbn in Hr. destruct (h !! data) as [d|] eqn:Ed; [|done].
  destruct (load h nulls) as [n|] eqn:En; [|done]. destruct (copied_slots h h' h' h'' data data' nulls nulls' d n) as (E1 & x & E2 & E3); try done.
  cbn. rewrite E1. cbn. rewrite E2. cbn. by rewrite E3.
Qed.

Lemma read_dict h keys nulls values :
  read h (DictArr keys nulls values)
  = (vs ← read h values; k ← h !! keys; n ← load h nulls;
     mapM (fun key => match key with Some key => vs !! Z.to_nat key | None => Some None end) (slots k n)).
Proof. done. Qed.

Lemma copy_array_isolated h a vs : flat a -> read h a = Some vs ->
  exists h' a', copy_array h a = (h', a') /\ extends h h' /\ isolated h h' a' vs.
Proof.
  intros Hf Hr. destruct a as [data nulls|keys nulls [data vnulls|]]; [| |done].
  - destruct (copy_plain_isolated h data nulls vs Hr) as (h' & d & n & E & He & Hi). do 2 eexists. unfold copy_array. rewrite E. done.
  - destruct (mutable_copy_dict h keys nulls _ vs Hr) as (h1 & keys' & nulls' & E & He & Hk & Hn).
    rewrite read_dict in Hr. destruct (read h (PlainArr data vnulls)) as [values|] eqn:Ev; [|done]. cbn [mbind option_bind] in Hr.
    destruct (h !! keys) as [k|] eqn:Ek; [|done]. destruct (load h nulls) as [n|] eqn:En; [|done]. cbn [mbind option_bind] in Hr.
    destruct (copy_plain_isolated h1 data vnulls values (extends_read_plain _ _ _ _ _ He Ev)) as (h2 & d & vn & E2 & He2 & Hi).
    exists h2, (DictArr keys' nulls' (PlainArr d vn)). unfold copy_array. rewrite E, E2. split; [done|]. split; [by etrans|].
    intros h'' Ho. assert (overwritten h1 h2 h'') as Ho1 by (intros i Hge; apply Ho; apply extends_length in He; lia).
    destruct (copied_slots h h1 h2 h'' keys keys' nulls nulls' k n) as (E1 & x & E3 & E4); try done.
    rewrite read_dict, (Hi h'' Ho1), E1, E3. cbn [mbind option_bind]. by rewrite E4.
Qed.

(** C20: For a plain array (one without children) and for a dictionary of plain values: what [copy_or_unpack_array] returns, and what the scan
    keeps when it does not own the arrays, has the values of the argument and shares no buffer with it, also after a cast that shares
    buffers: it reads the same whatever the JVM writes to the buffers later.  Only a plain array in the mode [UnpackOrClone] is handed on
    as it is.  A dictionary inside another array is not covered: its values stay shared. *)
Theorem copied_arrays_isolated h a vs mode : flat a -> read h a = Some vs -> (mode = UnpackOrClone -> exists k n v, a = DictArr k n v) ->
  (exists h' a', copy_array h a = (h', a') /\ extends h h' /\ isolated h h' a' vs) /\
  (exists h' a', copy_or_unpack_array h a mode = Ok (h', a') /\ extends h h' /\ isolated h h' a' vs).
Proof.
  intros Hf Hr Hm. split; [by apply copy_array_isolated|]. destruct a as [data nulls|keys nulls values]; cbn [copy_or_unpack_array].
  - destruct mode; [|by destruct (Hm eq_refl) as (? & ? & ? & ?)]. destruct (copy_array_isolated h (PlainArr data nulls) vs I Hr) as (h' & a' & -> & Hc).
    by do 2 eexists.
  - destruct (unpack_cast_values h _ vs Hr) as (h1 & d & n & -> & He & Hv). cbn.
    destruct (copy_array_isolated h1 (PlainArr d n) vs I Hv) as (h' & a' & -> & He' & Hi). do 2 eexists. split; [done|].
    split; [by etrans|]. intros h'' Ho. apply Hi. intros i Hge. apply Ho. apply extends_length in He. lia.
Qed.
End Isolation.

(** * An instance that allocates at the end of the heap *)

Module PlainCopy.
Definition alloc (h : Heap) (b : nat) : Heap * nat := (h ++ [default [] (h !! b)], length h).
Definition alloc_opt (h : Heap) (b : option nat) : Heap * option nat :=
  match b with Some b => (h ++ [default [] (h !! b)], Some (length h)) | None => (h, None) end.

(** Without a null slot there is no null buffer to copy. *)
Definition needed_nulls (h : Heap) (data : nat) (nulls : option nat) : option nat :=
  match h !! data, load h nulls with Some d, Some n => if bool_decide (slots d n = slots d None) then None else nulls | _, _ => nulls end.

#[export] Instance plain_copy : CopyOps := {|
  mutable_copy h a :=
    match a with
    | PlainArr data nulls =>
        let nulls := needed_nulls h data nulls in let '(h, data) := alloc h data in let '(h, nulls) := alloc_opt h nulls in (h, PlainArr data nulls)
    | DictArr keys nulls values =>
        let nulls := needed_nulls h keys nulls in let '(h, keys) := alloc h keys in let '(h, nulls) := alloc_opt h nulls in (h, DictArr keys nulls values)
    end;
  unpack_cast h a :=
    match read h a with
    | Some vs => Ok (h ++ [default 0 <$> vs; (fun v => if v is Some _ then 1 else 0) <$> vs], PlainArr (length h) (Some (S (length h))))
    | None => Err ArrowError
    end |}.

Lemma alloc_both_spec h b n x y : h !! b = Some x -> load h n = Some y ->
  let '(h1, b') := alloc h b in let '(h2, n') := alloc_opt h1 n in extends h h2 /\ fresh_copy h h2 b b' /\ fresh_copy_opt h h2 n n'.
Proof.
  intros Hb Hn. unfold alloc. rewrite Hb. cbn. destruct n as [n|]; cbn in *.
  - destruct (h !! n) as [z|] eqn:En; [|done]. rewrite (lookup_app_l_Some _ _ _ _ En). cbn. rewrite length_app.
    split; [unfold extends; rewrite <- app_assoc; by eexists|]. rewrite <- app_assoc. split; split; try (cbn; lia).
    + rewrite lookup_app_r, Nat.sub_diag by lia. done.
    + rewrite lookup_app_r by lia. by replace (length h + length [x] - length h)%nat with 1%nat by (cbn; lia).
  - split; [by eexists|]. split; [|done]. split; [done|]. rewrite lookup_app_r, Nat.sub_diag by lia. done.
Qed.

Lemma alloc_needed_spec h b n x y : h !! b = Some x -> load h n = Some y ->
  let '(h1, b') := alloc h b in let '(h2, n') := alloc_opt h1 (needed_nulls h b n) in extends h h2 /\ fresh_copy h h2 b b' /\ copied_nulls h h2 b n n'.
Proof.
  intros Hb Hn. unfold needed_nulls. rewrite Hb, Hn. case_bool_decide as Hs.
  - pose proof (alloc_both_spec h b None x None Hb eq_refl) as Ha. destruct (alloc h b) as [h1 b']. cbn in *. destruct Ha as (? & ? & _). split_and!; try done.
    exists x, y. rewrite bool_decide_true by done. done.
  - pose proof (alloc_both_spec h b n x y Hb Hn) as Ha. destruct (alloc h b) as [h1 b']. destruct (alloc_opt h1 n) as [h2 n']. destruct Ha as (? & ? & ?).
    split_and!; try done. exists x, y. rewrite bool_decide_false by done. done.
Qed.

Lemma slots_unpacked (vs : list (option Z)) : slots (default 0 <$> vs) (Some ((fun v => if v is Some _ then 1 else 0) <$> vs)) = vs.
Proof.
  unfold slots. apply list_eq. intros i. rewrite list_lookup_imap, list_lookup_fmap. unfold valid_at. rewrite list_lookup_fmap.
  by destruct (vs !! i) as [[v|]|].
Qed.

#[export] Instance plain_copy_laws : CopyLaws.
Proof.
  split.
  - intros h data nulls vs Hr. cbn in Hr. destruct (h !! data) as [d|] eqn:Ed; [|done]. destruct (load h nulls) as [n|] eqn:En; [|done].
    pose proof (alloc_needed_spec h data nulls d n Ed En) as Ha. unfold mutable_copy, plain_copy. destruct (alloc h data) as [h1 b'].
    destruct (alloc_opt h1 _) as [h2 n']. do 3 eexists. by split.
  - intros h keys nulls values vs Hr. rewrite read_dict in Hr. destruct (read h values); [|done]. cbn in Hr. destruct (h !! keys) as [d|] eqn:Ed; [|done].
    destruct (load h nulls) as [n|] eqn:En; [|done]. pose proof (alloc_needed_spec h keys nulls d n Ed En) as Ha. unfold mutable_copy, plain_copy.
    destruct (alloc h keys) as [h1 b']. destruct (alloc_opt h1 _) as [h2 n']. do 3 eexists. by split.
  - intros h a vs Hr. cbn. rewrite Hr. do 3 eexists. split; [done|]. split; [by eexists|]. cbn.
    rewrite !lookup_app_r by lia. rewrite Nat.sub_diag. replace (S (length h) - length h)%nat with 1%nat by lia. cbn. f_equal. apply slots_unpacked.
Qed.
End PlainCopy.
Import PlainCopy.

(** A dictionary over the buffers 0 to 2: its unpacked copy reads the same after the JVM has overwritten them. *)
Lemma copied_arrays_isolated_witness :
  let h : Heap := [[1; 0; 1]; [1; 1; 0]; [10; 20]] in
  let a := DictArr 0 (Some 1%nat) (PlainArr 2 None) in
  (exists h' a', copy_array h a = (h', a') /\ extends h h' /\ isolated h h' a' [Some 20; Some 10; None]) /\
  (exists h' a', copy_or_unpack_array h a UnpackOrClone = Ok (h', a') /\ extends h h' /\ isolated h h' a' [Some 20; Some 10; None]).
Proof. intros h a. apply (copied_arrays_isolated h a); [exact I|reflexivity|by do 3 eexists]. Defined.

(** The values of a dictionary inside a dictionary are still shared after the copy: it changes when the JVM overwrites them. *)
Lemma nested_dictionary_shared :
  let h : Heap := [[0]; [0]; [7]] in
  let '(h', a') := copy_array h (DictArr 0 None (DictArr 1 None (PlainArr 2 None))) in
  read h' a' = Some [Some 7] /\ read (<[2%nat := [9]]> h') a' = Some [Some 9].
Proof. by vm_compute. Qed.
